(* ===== verification/_CoqProject ===== *)
-Q . S2P
Prelude.v
Utf8.v
External.v
Packet.v
Codec.v
CodecSim.v
CodecLemmas.v
CodecBodies.v
CodecFacts.v
Topic.v
Storage.v
MemoryStorage.v
Sql.v
SqlEngine.v
SqliteStorage.v
SqliteTables.v
SqliteRules.v
SqliteFacts.v
SqliteContract.v
SqliteProps.v
Config.v
ConfigFile.v
Text.v
TomlReader.v
Auth.v
Router.v
RouterFacts.v
RouterProps.v
Broker.v
Session.v
Lifecycle.v
SessionInv.v
SessionSafe.v
SessionFacts.v
Samples.v
SessionProps.v
Receiver.v
PersistProps.v
ConnectProps.v
LifeProps.v
SessionFrame.v
System.v
SystemProps.v
SystemLife.v
Interleave.v
Restart.v
Timers.v
Backends.v
Transport.v
Server.v
Serve.v
ServerProps.v
Testing.v
CodecTests.v
RouterTests.v
StorageTests.v
ServerTests.v
Scenario.v
SocketTests.v
UnitTests.v
Examples.v
