(* ===== verification/Prelude.v ===== *)
(** A verification of IoTD, an MQTT 3.1.1 broker written in Rust (all its code is
    under [src/src/]).

    * The program

    A client connects over TCP or TLS ([transport.rs]); the accept loops of the
    server ([server.rs]) put its stream in a channel, and the main loop makes a
    session of it through the broker ([broker.rs]).  A session ([session.rs]) is
    a state machine: it waits for CONNECT, asks the authenticator and the
    authorizer ([auth/]), then handles packets ([protocol/packet.rs]), messages
    of its mailbox, commands (take over, cancel) and timers.  A published message
    goes through the router ([router.rs]), which keeps the subscriptions and the
    retained messages, into the mailboxes of the subscribers.  Sessions of
    persistent clients and retained messages are kept by a storage
    ([storage/]), in memory or in SQLite.

    * The development

    Rust code is translated to functions: a method that works on an object [St],
    returns [Result<A, E>], may panic and may wait is of type [M St E A] below,
    with the object after an error kept.  Names are those of the source where
    Rocq allows it, with the type's name before a method that would clash
    ([memory_new], [sqlite_new], [server_new]).  A [u8], [u16], [u32] or [u64] is
    a [Z], an [as] cast is [as_u8] and so on, a [String] is the string of its
    UTF-8 bytes, a [HashMap] a [gmap] whose order of iteration is a parameter.
    Arithmetic that can overflow panics, as in a build that checks for it
    ([u32_checked] in the decoder, [checked_u32] in the retransmission).  The
    lengths the encoder adds up wrap at 2^32 in the model, which no packet is long
    enough to show: what is sent was decoded, in less than 2^28 bytes.

    Prelude and interfaces
    - [Prelude]: the monad, simulation of one object by another, calls that
      return, invariants of calls, casts, strings and lists.
    - [Utf8]: what a Rust [String] can hold.
    - [External]: the classes for third-party code (see below) with the
      reference objects that satisfy their laws.
    - [Text]: the functions of the standard library on strings.

    The codec, [protocol/packet.rs] and [protocol/v3.rs]
    - [Packet]: the data; [Codec]: every encoder and decoder.
    - [CodecSim], [CodecLemmas], [CodecBodies]: the decoders reduced to lists of
      bytes.  [CodecFacts]: [decode] inverts [encode]; it reads the packets only
      clients send in the layout of MQTT 3.1.1; what it returns is well formed;
      it ends on every stream that has ended, and one that waits has swallowed
      what had arrived; a short CONNECT makes it panic; the length field.

    Topics and routing, [router.rs]
    - [Topic]: the functions of [Router] on topics and filters, which decide the
      inductive relation [selects].
    - [Router]: the router; [RouterFacts], [RouterProps]: its two hash maps are
      one table of subscriptions, a message is delivered once per matching
      subscription at the lower of the two levels, new subscribers are handed
      the retained messages, whose number keeps to the limit.

    Storage, [storage/]
    - [Storage]: the trait as the class [Storage], and its contract on an
      abstract store: [StorageLaws] (a call does what it says or fails and does
      nothing) and [StorageReliable] (what can be relied on to succeed, and on
      which requests: [request_ok]).
    - [MemoryStorage]: [memory.rs], which satisfies both.
    - [Sql]: the statements of [sqlite.rs] and the class [Rusqlite];
      [SqlEngine]: an engine that satisfies its laws.  [SqliteStorage]:
      [sqlite.rs]; [SqliteTables], [SqliteRules], [SqliteFacts],
      [SqliteContract]: the five tables as lists of records, rules for calls in
      and out of a transaction, and the two classes again.  [SqliteProps]: a
      restart keeps what was saved, saving is all or nothing whatever call
      fails, the storage refines the abstract store.
    - [Backends]: [storage/mod.rs], either of the two behind [Arc<dyn Storage>].

    Authentication and configuration
    - [Config]: the data of [config.rs] and its defaults.  [ConfigFile]: the
      code serde derives for it, between a configuration and the data model of a
      file; what is written is read back, from every text the parser reads as
      that; a path that is not UTF-8 cannot be written.  [TomlReader]: a reader
      of a part of TOML that can be the parser, and reads [examples/config.toml].
    - [Auth]: [auth/]; the password file and the access-control file authorize
      what their lines say.

    Sessions, [session.rs] and [broker.rs]
    - [Broker]: the shared state.  [Session]: the handlers of a session.
      [Lifecycle]: connecting, taking over, saving and restoring, the Will, and
      the state machine, whose inputs are the branches of [select!] ([Turn]).
    - [Receiver]: what a session makes of the packets of a client that sends is
      what a small reference machine does.
    - [SessionInv], [SessionSafe]: the invariant, kept by every method whatever
      it comes to, and that no handler panics but for the counter of a
      retransmission, when the limit is the greatest [u32].  [SessionFacts], [SessionProps]:
      QoS 2 messages are routed once, the handshakes, identifiers,
      retransmission, what answers SUBSCRIBE and PUBLISH.  [PersistProps]: what
      is saved is what is restored.  [ConnectProps]: the four ways a CONNECT is
      answered.  [LifeProps]: the transitions, the Will, being taken over, and
      what a full mailbox, a failed write and a cancellation do.  [Samples]:
      concrete instances.  [Timers]: the loop over a clock and the two intervals
      of a session; a silent client is cut off after one and a half keep-alive
      intervals, and not before.

    The broker and its sessions together
    - [SessionFrame]: what a step of one session can change of the broker.
    - [System]: the session futures over one broker; connections accepted, steps
      of sessions, completed futures, bytes from the network and the shutdown in
      any order; an invariant of all that can happen.
    - [SystemProps]: the invariant in words; what one client publishes, at all
      levels, is written to another, from bytes to bytes and in order.
      [SystemLife]: a client that connects again goes on with its session; what
      was published while it was away arrives; a message of level 2 arrives once
      also when the client that sends it connects again in between; and then its
      name is free, so that it can have two sessions.  [Interleave]: messages get
      from one session to another, in order, whatever other sessions do between
      their steps.  [Restart]: a persistent
      session whose connection is lost is back after a restart of the server over
      what was stored.

    The server, [transport.rs], [server.rs] and [main.rs]
    - [Transport]: listeners and streams.  [Server]: construction, binding, the
      handle, the command line and [main].  [Serve]: [serve] and [accept_loop]
      as a transition system of one task, in which a session is seen where it
      waits for what others hold.  [ServerProps]: what the process
      comes to, from its command line and its file to its exit; the listeners
      are bound all or none; the two backends agree on the requests that both can
      serve (distinct identifiers, small counters).  [Serve]: no
      accepted stream is lost before the shutdown, and the server can stand
      still for ever.

    The tests of the source
    - [Testing], [CodecTests], [RouterTests], [StorageTests], [ServerTests]: the
      [#[cfg(test)]] modules as booleans over the model.
    - [Scenario]: clients that connect, write, read, wait and close, while the
      sessions do what they can; what they do is a run of [System].
      [SocketTests]: the tests under [tests/], which talk to a running server,
      as scenarios.  [UnitTests]: these tests hold, but for the DISCONNECT of
      [test_session_takeover], which is left out.
    - [Examples]: the clients under [examples/] and [benches/] as scenarios; the
      load generator writes the packets the broker would.

    * Third-party code

    The [bytes] crate ([BytesCrate]), tokio's streams ([AsyncRead], [AsyncWrite],
    [Connection]), channels ([Mpsc]), intervals ([Intervals]) and sockets, rustls and files of keys
    ([Sockets]), the [toml] crate ([Toml]), the order of iteration of hash maps ([HashOrder]), reading a
    file ([FileSystem]), [rusqlite] ([Rusqlite]) and chrono's dates as text
    ([Rfc3339]) are classes of operations; the [*Laws] classes state what the
    code relies on, and each has an instance on which the witnesses are run.

    * Fuel

    The loops of the decoders over the entries of a packet take the number of
    bytes of the packet as fuel; each turn reads at least two, and the [returns]
    lemmas of [CodecBodies] show that the fuel does not run out.  The loops of
    the remaining length have fuel for four more turns after the first; the
    decoder stops by itself at the fifth, and a [u32] has five groups of seven
    bits at most.
    [parse_args] takes the number of arguments ([command_line] shows that it is
    enough).  A session, which need not end, is run on a list of inputs of
    arbitrary length.  A scenario that does not settle within [FUEL] moves after
    an action is not played; all those of the tests are.

    * Not modelled

    - Logging and the text of messages that are only printed.
    - Why a configuration file is refused: the text of the error is the
      parser's.
    - Time: [now] and [utc] are arguments.  [Timers] says when the branch of a
      timer is ready and when it is not; that a branch that is ready is taken in
      the end is the scheduler's, and no part of the model.
    - Locks, except in [Serve]: a call is atomic up to where it waits, and in
      [System] a session takes a step when it does not have to wait.
    - What the examples and the benchmarks measure: time, memory and threads.
      [examples/thread_test.rs] does not use the broker. *)

From Stdlib Require Export ZArith Lia.
From Stdlib Require String.
From coqutil Require Export Byte.
From stdpp Require Export base list gmap strings numbers.
From stdpp Require Export list_basics list_relations list_monad list_misc list.
From Stdlib Require Import Ascii.

(** Bytes of the wire and of a payload: [bytes::Bytes] and [Vec<u8>]. *)
Abbreviation Bytes := (list byte).

#[export] Instance byte_eq_dec : EqDecision byte := Byte.byte_eq_dec.

#[export] Set Warnings "-clear-no-such-hyp".

Declare Scope iotd_scope.
Delimit Scope iotd_scope with iotd.

(** * Fallible, stateful code

    A Rust function that works on a mutable object of type [St] and returns
    [Result<A, E>] is a function from the object before the call to the object
    after it and what the call came to.  The object after an error is kept,
    because the code keeps it.  Beside [Ok] and [Err] a call can panic, and an
    [.await] can be waiting for something that has not happened. *)
Inductive outcome (E A : Type) : Type :=
| Ok (a : A)
| Err (e : E)
| Panic
| Pending.
Arguments Ok {E A} a.
Arguments Err {E A} e.
Arguments Panic {E A}.
Arguments Pending {E A}.

Definition is_Ok {E A} (o : outcome E A) : Prop :=
  match o with Ok _ => True | _ => False end.

Definition M (St E A : Type) : Type := St → St * outcome E A.

#[export] Instance M_ret {St E} : MRet (M St E) := λ A a s, (s, Ok a).
#[export] Instance M_bind {St E} : MBind (M St E) := λ A B k m s,
  match m s with
  | (s', Ok a) => k a s'
  | (s', Err e) => (s', Err e)
  | (s', Panic) => (s', Panic)
  | (s', Pending) => (s', Pending)
  end.

Section Actions.
Context {St E : Type}.

(** [return Err(e)] *)
Definition throw {A} (e : E) : M St E A := λ s, (s, Err e).
Definition panic {A} : M St E A := λ s, (s, Panic).
(** A call that does not return. *)
Definition hang {A} : M St E A := λ s, (s, Pending).
Definition gets {A} (f : St → A) : M St E A := λ s, (s, Ok (f s)).
Definition modify (f : St → St) : M St E () := λ s, (f s, Ok tt).

(** What a call came to, as a value: the code that matches on a [Result]
    instead of propagating it with [?]. *)
Definition attempt {E' A} (m : M St E' A) : M St E (A + E') := λ s,
  match m s with
  | (s', Ok a) => (s', Ok (inl a))
  | (s', Err e) => (s', Ok (inr e))
  | (s', Panic) => (s', Panic)
  | (s', Pending) => (s', Pending)
  end.

(** The [From] conversion that [?] applies to an error. *)
Definition map_err {E' A} (f : E' → E) (m : M St E' A) : M St E A := λ s,
  match m s with
  | (s', Ok a) => (s', Ok a)
  | (s', Err e) => (s', Err (f e))
  | (s', Panic) => (s', Panic)
  | (s', Pending) => (s', Pending)
  end.

(** A call on a component of the state. *)
Definition zoom {T A} (get : St → T) (set : T → St → St) (m : M T E A) : M St E A := λ s,
  let '(t, o) := m (get s) in (set t s, o).

(** [for x in l { f(x) }] *)
Fixpoint for_each {A} (l : list A) (f : A → M St E ()) : M St E () :=
  match l with
  | [] => mret tt
  | x :: l' => f x;; for_each l' f
  end.

(** The same with variables the loop updates. *)
Fixpoint fold_each {A B} (f : B → A → M St E B) (acc : B) (l : list A) : M St E B :=
  match l with
  | [] => mret acc
  | x :: l' => acc' ← f acc x; fold_each f acc' l'
  end.
End Actions.

(** [while cond(s) { body }], whose body turns what it has built so far into
    more; a loop that has used up its fuel is taken not to return. *)
Fixpoint while_loop {St E A} (fuel : nat) (cond : St → bool) (body : A → M St E A)
    (acc : A) : M St E A :=
  go ← gets cond;
  if (go : bool) then
    match fuel with
    | O => hang
    | S n => acc' ← body acc; while_loop n cond body acc'
    end
  else mret acc.

(** A value that is there or whose absence is a panic; a value or an error. *)
Definition or_panic {St E A} (o : option A) : M St E A :=
  match o with Some a => mret a | None => panic end.
Definition or_throw {St E A} (r : A + E) : M St E A :=
  match r with inl a => mret a | inr e => throw e end.

Notation "x |> f" := (f x) (at level 70, no associativity, only parsing) : iotd_scope.

Section ActionLemmas.
Context {St E : Type}.

Lemma bind_Ok {A B} (m : M St E A) (k : A → M St E B) s s' a :
  m s = (s', Ok a) → (m ≫= k) s = k a s'.
Proof. unfold mbind, M_bind. by intros ->. Qed.

Lemma bind_Err {A B} (m : M St E A) (k : A → M St E B) s s' e :
  m s = (s', Err e) → (m ≫= k) s = (s', Err e).
Proof. unfold mbind, M_bind. by intros ->. Qed.

Lemma bind_Panic {A B} (m : M St E A) (k : A → M St E B) s s' :
  m s = (s', Panic) → (m ≫= k) s = (s', Panic).
Proof. unfold mbind, M_bind. by intros ->. Qed.

Lemma bind_Pending {A B} (m : M St E A) (k : A → M St E B) s s' :
  m s = (s', Pending) → (m ≫= k) s = (s', Pending).
Proof. unfold mbind, M_bind. by intros ->. Qed.

Lemma bind_inv_Ok {A B} (m : M St E A) (k : A → M St E B) s s' b :
  (m ≫= k) s = (s', Ok b) →
  ∃ s1 a, m s = (s1, Ok a) ∧ k a s1 = (s', Ok b).
Proof.
  unfold mbind, M_bind. destruct (m s) as [s1 [a|e| |]]; intros; simplify_eq; eauto.
Qed.

Lemma bind_ret {A B} (a : A) (k : A → M St E B) s : (mret a ≫= k) s = k a s.
Proof. done. Qed.

Lemma bind_gets {A B} (f : St → A) (k : A → M St E B) s :
  (gets f ≫= k) s = k (f s) s.
Proof. done. Qed.

Lemma bind_modify {B} (f : St → St) (k : () → M St E B) s :
  (modify f ≫= k) s = k tt (f s).
Proof. done. Qed.

Lemma bind_assoc {A B C} (m : M St E A) (k : A → M St E B) (h : B → M St E C) s :
  ((m ≫= k) ≫= h) s = (m ≫= (λ a, k a ≫= h)) s.
Proof. unfold mbind, M_bind. by destruct (m s) as [? []]. Qed.

Lemma for_each_app {A} (l1 l2 : list A) (f : A → M St E ()) s :
  for_each (l1 ++ l2) f s = (for_each l1 f;; for_each l2 f) s.
Proof.
  revert s. induction l1 as [|x l1 IH]; intros s; [done|].
  simpl. rewrite bind_assoc. unfold mbind, M_bind in *.
  destruct (f x s) as [s1 [[]|e| |]]; [apply IH|done..].
Qed.

Lemma for_each_bind {A B} (f : A → list B) (g : B → M St E ()) l s :
  for_each l (λ x, for_each (f x) g) s = for_each (mjoin (f <$> l)) g s.
Proof.
  revert s. induction l as [|x l IH]; intros s; [done|].
  cbn [fmap list_fmap mjoin list_join]. rewrite for_each_app. cbn [for_each].
  unfold mbind, M_bind in *. destruct (for_each (f x) g s) as [s1 [[]| | |]]; [apply IH|done..].
Qed.

Lemma for_each_ext {A} (f g : A → M St E ()) l s :
  (∀ x s, f x s = g x s) → for_each l f s = for_each l g s.
Proof.
  intros Hfg. revert s. induction l as [|x l IH]; intros s; [done|]. cbn [for_each].
  unfold mbind, M_bind. rewrite Hfg. by destruct (g x s) as [s1 [[]| | |]].
Qed.

(** A loop of calls that all succeed runs to its end, and any relation on
    states that each call respects relates its two ends. *)
Lemma for_each_Ok {A} (I : list A → St → Prop) (f : A → M St E ()) l s :
  I l s →
  (∀ x l' s, I (x :: l') s → ∃ s', f x s = (s', Ok tt) ∧ I l' s') →
  ∃ s', for_each l f s = (s', Ok tt) ∧ I [] s'.
Proof.
  intros Hs Hf. revert s Hs. induction l as [|x l IH]; intros s Hs; [by exists s|].
  destruct (Hf x l s Hs) as (s1 & E1 & H1). simpl.
  rewrite (bind_Ok _ _ _ _ _ E1). by apply IH.
Qed.
End ActionLemmas.

(** * Simulation of one object by another

    [simulates v m m']: run on an object whose view is [v s], [m] does to the
    view, and comes to, what [m'] does and comes to.  A function written
    against an interface is simulated by the same function on the reference
    object of that interface, which is how properties proved by computation on
    the reference object hold of every implementation. *)
Definition simulates {St T E A} (v : St → T) (m : M St E A) (m' : M T E A) : Prop :=
  ∀ s, prod_map v id (m s) = m' (v s).

Create HintDb sim.

Section Simulation.
Context {St T : Type} (v : St → T).

Lemma sim_ret {E A} (a : A) : simulates (E := E) v (mret a) (mret a).
Proof. done. Qed.

Lemma sim_throw {E A} (e : E) : simulates (A := A) v (throw e) (throw e).
Proof. done. Qed.

Lemma sim_panic {E A} : simulates (E := E) (A := A) v panic panic.
Proof. done. Qed.

Lemma sim_hang {E A} : simulates (E := E) (A := A) v hang hang.
Proof. done. Qed.

Lemma sim_bind {E A B} (m : M St E A) m' (k : A → M St E B) k' :
  simulates v m m' → (∀ a, simulates v (k a) (k' a)) →
  simulates v (m ≫= k) (m' ≫= k').
Proof.
  intros Hm Hk s. unfold mbind, M_bind. rewrite <- Hm.
  destruct (m s) as [s' [a|e| |]]; [apply Hk|done..].
Qed.

Lemma sim_gets {E A} (f : St → A) (f' : T → A) :
  (∀ s, f s = f' (v s)) → simulates (E := E) v (gets f) (gets f').
Proof. intros Hf s. unfold gets; simpl. by rewrite Hf. Qed.

Lemma sim_map_err {E E' A} (f : E' → E) (m : M St E' A) m' :
  simulates v m m' → simulates v (map_err f m) (map_err f m').
Proof.
  intros Hm s. unfold map_err. rewrite <- Hm. by destruct (m s) as [? []].
Qed.

Lemma sim_or_throw {E A} (r : A + E) : simulates v (or_throw r) (or_throw r).
Proof. by destruct r. Qed.

Lemma sim_while {E A} n cond cond' (body : A → M St E A) body' acc :
  (∀ s, cond s = cond' (v s)) → (∀ a, simulates v (body a) (body' a)) →
  simulates v (while_loop n cond body acc) (while_loop n cond' body' acc).
Proof.
  intros Hc Hb. revert acc. induction n as [|n IH]; intros acc; simpl.
  - apply sim_bind; [by apply sim_gets|]. intros []; [apply sim_hang|apply sim_ret].
  - apply sim_bind; [by apply sim_gets|]. intros []; [|apply sim_ret].
    apply sim_bind; [apply Hb|]. intros a'. apply IH.
Qed.

(** The run of the reference object, read back. *)
Lemma sim_inv {E A} (m : M St E A) m' s t o :
  simulates v m m' → m' (v s) = (t, o) → ∃ s', m s = (s', o) ∧ v s' = t.
Proof.
  intros Hm E1. rewrite <- Hm in E1. destruct (m s) as [s' o']. simplify_eq/=. eauto.
Qed.

Lemma sim_run {E A} (m : M St E A) m' s s' o :
  simulates v m m' → m s = (s', o) → m' (v s) = (v s', o).
Proof. intros Hm E1. rewrite <- Hm, E1. done. Qed.
End Simulation.

#[export] Hint Resolve sim_ret sim_throw sim_panic sim_hang sim_or_throw : sim.

(** Simulation follows the text of the two functions. *)
Ltac sim_step :=
  first
    [ solve [eauto with sim]
    | apply sim_bind; [|intros ?]
    | apply sim_map_err
    | match goal with
      | |- simulates _ (match ?x with _ => _ end) _ => destruct x
      end ].
Ltac solve_sim := intros; repeat sim_step.

(** * Calls that return

    [returns m]: [m] never waits and its loops do not run out of fuel. *)
Definition returns {St E A} (m : M St E A) : Prop := ∀ s, (m s).2 ≠ Pending.

Create HintDb returns.

Section Returns.
Context {St E : Type}.

Lemma returns_ret {A} (a : A) : returns (St := St) (E := E) (mret a).
Proof. done. Qed.
Lemma returns_throw {A} (e : E) : returns (St := St) (A := A) (throw e).
Proof. done. Qed.
Lemma returns_panic {A} : returns (St := St) (E := E) (A := A) panic.
Proof. done. Qed.
Lemma returns_gets {A} (f : St → A) : returns (E := E) (gets f).
Proof. done. Qed.
Lemma returns_modify (f : St → St) : returns (E := E) (modify f).
Proof. done. Qed.
Lemma returns_bind {A B} (m : M St E A) (k : A → M St E B) :
  returns m → (∀ a, returns (k a)) → returns (m ≫= k).
Proof.
  intros Hm Hk s. specialize (Hm s). unfold mbind, M_bind.
  destruct (m s) as [s' [a|e| |]]; try done. apply Hk.
Qed.

(** A loop whose turns use up a measure returns when the fuel covers it. *)
Lemma returns_while {A} (size : St → nat) cond (body : A → M St E A) :
  (∀ a, returns (body a)) →
  (∀ s, cond s = true → 0 < size s) →
  (∀ a s s' a', cond s = true → body a s = (s', Ok a') → size s' < size s) →
  ∀ n acc s, size s ≤ n → (while_loop n cond body acc s).2 ≠ Pending.
Proof.
  intros Hr H0 Hdec n. induction n as [|n IH]; intros acc s Hn; simpl;
    rewrite bind_gets; destruct (cond s) eqn:Hc; try done.
  - specialize (H0 s Hc). lia.
  - specialize (Hr acc s). unfold mbind, M_bind.
    destruct (body acc s) as [s' [a'| | |]] eqn:Eb; try done.
    apply IH. specialize (Hdec _ _ _ _ Hc Eb). lia.
Qed.
End Returns.

#[export] Hint Resolve returns_ret returns_throw returns_panic returns_gets
  returns_modify : returns.

Ltac solve_returns :=
  intros;
  repeat first
    [ solve [eauto with returns]
    | apply returns_bind; [|intros ?]
    | match goal with |- returns (match ?x with _ => _ end) => destruct x end ].

(** * Invariants of calls

    [safe I Q m]: on a state that satisfies [I], [m] does not panic, leaves a
    state that satisfies [I] whatever it comes to, and gives a result that
    satisfies [Q] when it succeeds. *)
Definition safe {St E A} (I : St → Prop) (Q : A → Prop) (m : M St E A) : Prop :=
  ∀ s, I s → I (m s).1 ∧
    match (m s).2 with Ok a => Q a | Err _ => True | Panic => False | Pending => True end.

Create HintDb safe.

Section Safe.
Context {St E : Type} (I : St → Prop).

Lemma safe_ret {A} (Q : A → Prop) (a : A) : Q a → safe (E := E) I Q (mret a).
Proof. intros HQ s Hs. by split. Qed.
Lemma safe_throw {A} (Q : A → Prop) (e : E) : safe I Q (throw e).
Proof. intros s Hs. by split. Qed.
Lemma safe_hang {A} (Q : A → Prop) : safe (E := E) I Q hang.
Proof. intros s Hs. by split. Qed.
Lemma safe_gets {A} (f : St → A) : safe (E := E) I (λ _, True) (gets f).
Proof. intros s Hs. by split. Qed.
Lemma safe_modify (f : St → St) :
  (∀ s, I s → I (f s)) → safe (E := E) I (λ _, True) (modify f).
Proof. intros Hf s Hs. split; [by apply Hf|done]. Qed.

Lemma safe_bind {A B} (Q : A → Prop) (Q' : B → Prop) (m : M St E A) (k : A → M St E B) :
  safe I Q m → (∀ a, Q a → safe I Q' (k a)) → safe I Q' (m ≫= k).
Proof.
  intros Hm Hk s Hs. destruct (Hm s Hs) as [H1 H2]. unfold mbind, M_bind.
  destruct (m s) as [s' [a|e| |]]; try done. by apply (Hk a).
Qed.

(** Reading the state tells what is read. *)
Lemma safe_bind_gets {A B} (f : St → A) (Q' : B → Prop) (k : A → M St E B) :
  (∀ s, I s → I (k (f s) s).1 ∧
     match (k (f s) s).2 with Ok a => Q' a | Err _ => True | Panic => False | Pending => True end) →
  safe I Q' (gets f ≫= k).
Proof. intros Hk s Hs. rewrite bind_gets. by apply Hk. Qed.

Lemma safe_weaken {A} (Q Q' : A → Prop) (m : M St E A) :
  (∀ a, Q a → Q' a) → safe I Q m → safe I Q' m.
Proof.
  intros HQ Hm s Hs. destruct (Hm s Hs) as [H1 H2]. split; [done|].
  destruct (m s) as [s' [a|e| |]]; [by apply HQ|done..].
Qed.

Lemma safe_True {A} (Q : A → Prop) (m : M St E A) : safe I Q m → safe I (λ _, True) m.
Proof. by apply safe_weaken. Qed.

Lemma safe_attempt {E' A} (Q : A → Prop) (m : M St E A) :
  safe I Q m → safe (E := E') I (λ r, match r with inl a => Q a | inr _ => True end) (attempt m).
Proof.
  intros Hm s Hs. destruct (Hm s Hs) as [H1 H2]. unfold attempt.
  by destruct (m s) as [s' [a|e| |]].
Qed.

Lemma safe_map_err {E' A} (f : E → E') (Q : A → Prop) (m : M St E A) :
  safe I Q m → safe I Q (map_err f m).
Proof.
  intros Hm s Hs. destruct (Hm s Hs) as [H1 H2]. unfold map_err.
  by destruct (m s) as [s' [a|e| |]].
Qed.

Lemma safe_for_each {A} (l : list A) (f : A → M St E ()) :
  (∀ x, x ∈ l → safe I (λ _, True) (f x)) → safe I (λ _, True) (for_each l f).
Proof.
  induction l as [|x l IH]; intros Hf; [by apply safe_ret|]. cbn [for_each].
  eapply safe_bind; [apply Hf; by left|]. intros _ _. apply IH. intros y Hy. apply Hf. by right.
Qed.
End Safe.

(** A call on a component. *)
Lemma safe_zoom {St T E A} (I : St → Prop) (J : T → Prop) (Q : A → Prop) get set (m : M T E A) :
  (∀ s, I s → J (get s)) → (∀ s t, I s → J t → I (set t s)) →
  safe J Q m → safe I Q (zoom get set m).
Proof.
  intros Hg Hset Hm s Hs. destruct (Hm (get s) (Hg s Hs)) as [H1 H2]. unfold zoom.
  destruct (m (get s)) as [t o]. split; [by apply Hset|done].
Qed.

(** The same of a call that may panic. *)
Definition keeps {St E A} (I : St → Prop) (Q : A → Prop) (m : M St E A) : Prop :=
  ∀ s, I s → I (m s).1 ∧ match (m s).2 with Ok a => Q a | _ => True end.

Lemma keeps_safe {St E A} (I : St → Prop) (Q : A → Prop) (m : M St E A) :
  safe I Q m → keeps I Q m.
Proof.
  intros Hm s Hs. destruct (Hm s Hs) as [H1 H2]. split; [done|].
  by destruct (m s) as [s' []].
Qed.

Lemma keeps_bind {St E A B} (I : St → Prop) (Q : A → Prop) (Q' : B → Prop)
    (m : M St E A) (k : A → M St E B) :
  keeps I Q m → (∀ a, Q a → keeps I Q' (k a)) → keeps I Q' (m ≫= k).
Proof.
  intros Hm Hk s Hs. destruct (Hm s Hs) as [H1 H2]. unfold mbind, M_bind.
  destruct (m s) as [s' [a|e| |]]; try done. by apply (Hk a).
Qed.

#[export] Hint Resolve safe_ret safe_throw safe_hang safe_gets safe_modify : safe.

Create HintDb keeps.

Section Keeps.
Context {St E : Type} (I : St → Prop).

Lemma keeps_ret {A} (a : A) : keeps (E := E) I (λ _, True) (mret a).
Proof. intros s Hs. by split. Qed.
Lemma keeps_throw {A} (e : E) : keeps (A := A) I (λ _, True) (throw e).
Proof. intros s Hs. by split. Qed.
Lemma keeps_hang {A} : keeps (E := E) (A := A) I (λ _, True) hang.
Proof. intros s Hs. by split. Qed.
Lemma keeps_panic {A} : keeps (E := E) (A := A) I (λ _, True) panic.
Proof. intros s Hs. by split. Qed.
Lemma keeps_or_panic {A} (o : option A) : keeps (E := E) I (λ _, True) (or_panic o).
Proof. by destruct o; intros s Hs. Qed.
(** What is read is read from a state that satisfies the invariant. *)
Lemma keeps_gets {A} (f : St → A) : keeps (E := E) I (λ a, ∃ s, I s ∧ a = f s) (gets f).
Proof. intros s Hs. split; [done|]. by exists s. Qed.
Lemma keeps_modify (f : St → St) : (∀ s, I s → I (f s)) → keeps (E := E) I (λ _, True) (modify f).
Proof. intros Hf s Hs. split; [by apply Hf|done]. Qed.

Lemma keeps_attempt {E' A} (m : M St E A) :
  keeps I (λ _, True) m → keeps (E := E') I (λ _, True) (attempt m).
Proof.
  intros Hm s Hs. destruct (Hm s Hs) as [H1 _]. unfold attempt. by destruct (m s) as [s' [a|e| |]].
Qed.
Lemma keeps_map_err {E' A} (f : E → E') (m : M St E A) :
  keeps I (λ _, True) m → keeps I (λ _, True) (map_err f m).
Proof.
  intros Hm s Hs. destruct (Hm s Hs) as [H1 _]. unfold map_err. by destruct (m s) as [s' [a|e| |]].
Qed.
Lemma keeps_for_each {A} (l : list A) (f : A → M St E ()) :
  (∀ x, keeps I (λ _, True) (f x)) → keeps I (λ _, True) (for_each l f).
Proof.
  intros Hf. induction l as [|x l IH]; [apply keeps_ret|]. cbn [for_each].
  eapply keeps_bind; [apply Hf|]. by intros _ _.
Qed.
Lemma keeps_zoom {T A} (J : T → Prop) (Q : A → Prop) get set (m : M T E A) :
  (∀ s, I s → J (get s)) → (∀ s t, I s → J t → I (set t s)) →
  keeps J Q m → keeps I Q (zoom get set m).
Proof.
  intros Hg Hset Hm s Hs. destruct (Hm (get s) (Hg s Hs)) as [H1 H2]. unfold zoom.
  destruct (m (get s)) as [t o]. split; [by apply Hset|done].
Qed.
Lemma keeps_weaken {A} (Q : A → Prop) (m : M St E A) : keeps I Q m → keeps I (λ _, True) m.
Proof. intros Hm s Hs. destruct (Hm s Hs) as [H _]. split; [done|]. by destruct (m s).2. Qed.
End Keeps.

#[export] Hint Resolve keeps_ret keeps_throw keeps_hang keeps_panic keeps_or_panic : keeps.

(** Goes through a sequence of actions, whose results it forgets. *)
Ltac solve_keeps :=
  repeat first
    [ progress intros
    | progress cbv zeta
    | solve [eauto with keeps nocore]
    | eapply keeps_attempt
    | eapply keeps_map_err
    | eapply keeps_for_each
    | eapply keeps_bind with (Q := λ _, True)
    | match goal with
      | |- keeps _ _ (match ?x with _ => _ end) => destruct x
      end ].

(** [minv H] takes a run [H : m s = (s', Ok b)] of a sequence of actions apart,
    one action at a time. *)
Ltac minv1 H :=
  lazymatch type of H with
  | mbind _ (gets _) _ = _ => rewrite bind_gets in H
  | mbind _ (modify _) _ = _ => rewrite bind_modify in H
  | mbind _ (mret _) _ = _ => rewrite bind_ret in H
  | mbind _ _ _ = (_, Ok _) =>
      let s := fresh "s" in let a := fresh "a" in let E := fresh "E" in
      apply bind_inv_Ok in H; destruct H as (s & a & E & H)
  | mret _ _ = _ => unfold mret, M_ret in H; simplify_eq
  | throw _ _ = _ => unfold throw in H; simplify_eq
  | gets _ _ = _ => unfold gets in H; simplify_eq
  | modify _ _ = _ => unfold modify in H; simplify_eq
  end.
Ltac minv H := repeat minv1 H.

(** * Machine integers: [as] casts *)
Definition as_u8 (z : Z) : Z := z mod 2 ^ 8.
Definition as_u16 (z : Z) : Z := z mod 2 ^ 16.
Definition as_u32 (z : Z) : Z := z mod 2 ^ 32.
Definition as_u64 (z : Z) : Z := z mod 2 ^ 64.

(** [z] as the sum or product two [u32]s come to, which must not overflow. *)
Definition checked_u32 (z : Z) : option Z :=
  if ((0 <=? z) && (z <? 2 ^ 32))%Z then Some z else None.

Definition is_u16 (z : Z) : Prop := (0 ≤ z < 2 ^ 16)%Z.
Definition is_u32 (z : Z) : Prop := (0 ≤ z < 2 ^ 32)%Z.

Lemma as_u16_small z : is_u16 z → as_u16 z = z.
Proof. apply Z.mod_small. Qed.
Lemma as_u32_small z : is_u32 z → as_u32 z = z.
Proof. apply Z.mod_small. Qed.

Lemma checked_u32_Some z n : checked_u32 z = Some n ↔ n = z ∧ is_u32 z.
Proof.
  unfold checked_u32, is_u32. destruct (Z.leb_spec 0 z), (Z.ltb_spec z (2 ^ 32)); cbn [andb];
    (split; [try done; by intros [= <-]|intros [-> ?]; try done; lia]).
Qed.

Lemma unsigned_of_u8 z : (0 ≤ z < 256)%Z → byte.unsigned (byte.of_Z z) = z.
Proof. intros. rewrite byte.unsigned_of_Z. by apply Z.mod_small. Qed.

Definition zlen {A} (l : list A) : Z := Z.of_nat (length l).

Lemma zlen_app {A} (l k : list A) : zlen (l ++ k) = (zlen l + zlen k)%Z.
Proof. unfold zlen. rewrite length_app. lia. Qed.
Lemma zlen_nonneg {A} (l : list A) : (0 ≤ zlen l)%Z.
Proof. unfold zlen. lia. Qed.
Lemma zlen_to_nat {A} (l : list A) : Z.to_nat (zlen l) = length l.
Proof. unfold zlen. lia. Qed.

(** Two bytes, most significant first. *)
Definition be16 (x : Z) : Bytes := [byte.of_Z (Z.shiftr x 8); byte.of_Z x].
Definition of_be16 (hi lo : byte) : Z := (byte.unsigned hi * 256 + byte.unsigned lo)%Z.

Lemma of_be16_range hi lo : is_u16 (of_be16 hi lo).
Proof.
  unfold is_u16, of_be16. pose proof (byte.unsigned_range hi).
  pose proof (byte.unsigned_range lo). lia.
Qed.

Lemma of_be16_be16 x :
  of_be16 (byte.of_Z (Z.shiftr x 8)) (byte.of_Z x) = as_u16 x.
Proof.
  unfold of_be16, as_u16. rewrite !byte.unsigned_of_Z. unfold byte.wrap.
  rewrite Z.shiftr_div_pow2 by lia. change (2 ^ 8)%Z with 256%Z. change (2 ^ 16)%Z with (256 * 256)%Z.
  rewrite Z.rem_mul_r by lia. lia.
Qed.

(** * Strings

    A Rust [String] is the sequence of its UTF-8 bytes. *)
Definition as_bytes (s : string) : Bytes := String.list_byte_of_string s.
Definition str_len (s : string) : Z := zlen (as_bytes s).

Lemma as_bytes_inj s1 s2 : as_bytes s1 = as_bytes s2 → s1 = s2.
Proof.
  intros H. rewrite <- (String.string_of_list_byte_of_string s1), <- (String.string_of_list_byte_of_string s2).
  unfold as_bytes in H. by rewrite H.
Qed.

(** [s.is_empty()] *)
Definition str_is_empty (s : string) : bool :=
  match s with EmptyString => true | String _ _ => false end.

(** [s.contains(c)] for an ASCII character *)
Fixpoint str_contains (c : ascii) (s : string) : bool :=
  match s with
  | EmptyString => false
  | String a s' => Ascii.eqb a c || str_contains c s'
  end.

(** [s.split(c)] for an ASCII character: always at least one piece *)
Fixpoint str_split (c : ascii) (s : string) : list string :=
  match s with
  | EmptyString => [EmptyString]
  | String a s' =>
      if Ascii.eqb a c then EmptyString :: str_split c s'
      else match str_split c s' with
           | p :: ps => String a p :: ps
           | [] => [String a EmptyString]
           end
  end.

Fixpoint str_join (c : ascii) (l : list string) : string :=
  match l with
  | [] => EmptyString
  | [p] => p
  | p :: l' => p +:+ String c (str_join c l')
  end.

Lemma str_split_ne_nil c s : str_split c s ≠ [].
Proof.
  destruct s as [|a s]; simpl; [done|]. destruct (Ascii.eqb a c); [done|].
  by destruct (str_split c s).
Qed.

Lemma str_join_split c s : str_join c (str_split c s) = s.
Proof.
  induction s as [|a s IH]; [done|]. simpl.
  pose proof (str_split_ne_nil c s) as Hne.
  destruct (Ascii.eqb_spec a c) as [->|Hac].
  - simpl. destruct (str_split c s) as [|p ps]; [done|]. by rewrite IH.
  - destruct (str_split c s) as [|p ps]; [done|].
    destruct ps; simpl in *; by rewrite <- IH.
Qed.

Lemma str_split_inj c s1 s2 : str_split c s1 = str_split c s2 → s1 = s2.
Proof. intros H. by rewrite <- (str_join_split c s1), <- (str_join_split c s2), H. Qed.

Lemma str_split_piece c s p : p ∈ str_split c s → str_contains c p = false.
Proof.
  revert p. induction s as [|a s IH]; intros p; simpl.
  - by intros ->%list_elem_of_singleton.
  - destruct (Ascii.eqb_spec a c) as [->|Hac].
    + intros [->|H]%elem_of_cons; [done|by apply IH].
    + destruct (str_split c s) as [|q qs].
      * intros ->%list_elem_of_singleton. simpl. rewrite orb_false_r. by apply Ascii.eqb_neq.
      * intros [->|H]%elem_of_cons; simpl.
        { rewrite (proj2 (Ascii.eqb_neq a c) Hac). apply IH. by left. }
        apply IH. by right.
Qed.

(** * Lists *)

Lemma existsb_fmap_ext {A B} (f : A → B) p q l :
  (∀ x, p (f x) = q x) → existsb p (f <$> l) = existsb q l.
Proof. intros H. induction l as [|x l IH]; [done|]. cbn. by rewrite H, <- IH. Qed.

Lemma filter_fmap_ext {A B} (f : A → B) (P : B → Prop) (R : A → Prop)
    `{∀ x, Decision (P x)} `{∀ x, Decision (R x)} (l : list A) :
  (∀ x, P (f x) ↔ R x) → filter P (f <$> l) = f <$> filter R l.
Proof.
  intros HR. induction l as [|x l IH]; [done|]. cbn [fmap list_fmap]. rewrite !filter_cons.
  destruct (decide (P (f x))) as [Hp|Hp], (decide (R x)) as [Hr|Hr]; cbn;
    rewrite ?IH; try done; exfalso; apply HR in Hp || apply Hp, HR; done.
Qed.

Lemma filter_all {A} (P : A → Prop) `{∀ x, Decision (P x)} (l : list A) :
  (∀ x, x ∈ l → P x) → filter P l = l.
Proof.
  induction l as [|x l IH]; intros H'; [done|]. rewrite filter_cons_True by (apply H'; by left).
  f_equal. apply IH. intros y Hy. apply H'. by right.
Qed.

Lemma filter_none {A} (P : A → Prop) `{∀ x, Decision (P x)} (l : list A) :
  (∀ x, x ∈ l → ¬ P x) → filter P l = [].
Proof.
  induction l as [|x l IH]; intros H'; [done|]. rewrite filter_cons_False by (apply H'; by left).
  apply IH. intros y Hy. apply H'. by right.
Qed.

Lemma filter_iff_in {A} (P Q : A → Prop) `{∀ x, Decision (P x)} `{∀ x, Decision (Q x)} (l : list A) :
  (∀ x, x ∈ l → P x ↔ Q x) → filter P l = filter Q l.
Proof.
  induction l as [|x l IH]; intros H'; [done|]. rewrite !filter_cons.
  pose proof (H' x ltac:(by left)). rewrite IH by (intros y Hy; apply H'; by right).
  destruct (decide (P x)), (decide (Q x)); tauto.
Qed.

Lemma length_filter_split {A} (P : A → Prop) `{∀ x, Decision (P x)} (l : list A) :
  (length (filter P l) + length (filter (λ x, ¬ P x) l) = length l)%nat.
Proof.
  induction l as [|x l IH]; [done|]. rewrite !filter_cons.
  destruct (decide (P x)), (decide (¬ P x)); try tauto; cbn; lia.
Qed.

Lemma Permutation_fmap_inv {A B} (f : A → B) l k :
  l ≡ₚ f <$> k → ∃ k', l = f <$> k' ∧ k' ≡ₚ k.
Proof.
  intros (k' & -> & H)%Permutation_map_inv. by exists k'.
Qed.
