(* ===== verification/Utf8.v ===== *)
(** UTF-8 validity as the Rust standard library checks it: a [String] holds
    exactly the byte sequences [run_utf8_validation] accepts, so [utf8] is the
    type invariant of every string the broker keeps. *)

From Stdlib Require String.
From S2P Require Import Prelude.

Local Open Scope Z_scope.

Definition byte_in (lo hi : Z) (b : byte) : bool :=
  (lo <=? byte.unsigned b) && (byte.unsigned b <=? hi).

(** A continuation byte, [0b10xxxxxx]. *)
Definition is_cont (b : byte) : bool := byte_in 0x80 0xBF b.

Definition valid2 (b0 b1 : byte) : bool :=
  byte_in 0xC2 0xDF b0 && is_cont b1.

Definition valid3 (b0 b1 b2 : byte) : bool :=
  ((byte_in 0xE0 0xE0 b0 && byte_in 0xA0 0xBF b1)
   || (byte_in 0xE1 0xEC b0 && is_cont b1)
   || (byte_in 0xED 0xED b0 && byte_in 0x80 0x9F b1)
   || (byte_in 0xEE 0xEF b0 && is_cont b1)) && is_cont b2.

Definition valid4 (b0 b1 b2 b3 : byte) : bool :=
  ((byte_in 0xF0 0xF0 b0 && byte_in 0x90 0xBF b1)
   || (byte_in 0xF1 0xF3 b0 && is_cont b1)
   || (byte_in 0xF4 0xF4 b0 && byte_in 0x80 0x8F b1)) && is_cont b2 && is_cont b3.

(** Whether a byte sequence is well-formed UTF-8. *)
Fixpoint run_utf8_validation (bs : Bytes) : bool :=
  match bs with
  | [] => true
  | b0 :: bs1 =>
      if byte_in 0 0x7F b0 then run_utf8_validation bs1
      else match bs1 with
           | [] => false
           | b1 :: bs2 =>
               if valid2 b0 b1 then run_utf8_validation bs2
               else match bs2 with
                    | [] => false
                    | b2 :: bs3 =>
                        if valid3 b0 b1 b2 then run_utf8_validation bs3
                        else match bs3 with
                             | [] => false
                             | b3 :: bs4 =>
                                 if valid4 b0 b1 b2 b3 then run_utf8_validation bs4
                                 else false
                             end
                    end
           end
  end.

(** [String::from_utf8] *)
Definition from_utf8 (bs : Bytes) : option string :=
  if run_utf8_validation bs then Some (String.string_of_list_byte bs) else None.

(** The invariant of a Rust [String]. *)
Definition utf8 (s : string) : Prop := run_utf8_validation (as_bytes s) = true.

#[export] Instance utf8_dec s : Decision (utf8 s).
Proof. unfold utf8. apply _. Defined.

Lemma from_utf8_as_bytes s : utf8 s → from_utf8 (as_bytes s) = Some s.
Proof.
  unfold utf8, from_utf8. intros ->. f_equal.
  apply String.string_of_list_byte_of_string.
Qed.

Lemma from_utf8_Some bs s : from_utf8 bs = Some s → as_bytes s = bs ∧ utf8 s.
Proof.
  unfold from_utf8, utf8. destruct (run_utf8_validation bs) eqn:E; intros; simplify_eq.
  unfold as_bytes. by rewrite String.list_byte_of_string_of_list_byte.
Qed.

Lemma from_utf8_None bs : from_utf8 bs = None → run_utf8_validation bs = false.
Proof. unfold from_utf8. by destruct (run_utf8_validation bs). Qed.

(** Every ASCII string is well formed. *)
Lemma utf8_ascii s :
  forallb (byte_in 0 0x7F) (as_bytes s) = true → utf8 s.
Proof.
  unfold utf8. induction (as_bytes s) as [|b bs IH]; [done|]. simpl.
  intros [Hb Hbs]%andb_true_iff. rewrite Hb. auto.
Qed.
