(* ===== verification/External.v ===== *)
(** The third-party code the broker is written against, as interfaces.

    None of it is under [src/], so none of it is defined here: each interface
    is a class of operations, and each [*Laws] class states the documented
    behaviour the broker relies on, as a simulation of a small reference
    object (a list of unread bytes, a bounded queue).  The reference objects
    are themselves instances, so every definition of the development can be
    run, and every law class is inhabited.

    - [BytesCrate]: [bytes::BytesMut]/[BufMut] and [bytes::Buf] on a [Cursor];
    - [AsyncRead], [AsyncWrite]: the tokio traits the codec is generic over;
    - [Mpsc]: the bounded channels [tokio::sync::mpsc];
    - [HashOrder]: the iteration order of [HashMap] and [HashSet], which the
      standard library leaves unspecified. *)

From S2P Require Import Prelude.

Local Open Scope Z_scope.

(** * The [bytes] crate *)

(** Reading from the front of what is left; [None] is the panic of a [get_*]
    past the end. *)
Definition front_u8 (l : Bytes) : Bytes * option Z :=
  match l with
  | b :: l' => (l', Some (byte.unsigned b))
  | [] => ([], None)
  end.

Definition front_u16 (l : Bytes) : Bytes * option Z :=
  match l with
  | hi :: lo :: l' => (l', Some (of_be16 hi lo))
  | _ => (l, None)
  end.

Definition front_slice (n : Z) (l : Bytes) : Bytes * option Bytes :=
  if n <=? zlen l then (drop (Z.to_nat n) l, Some (take (Z.to_nat n) l))
  else (l, None).

Class BytesCrate := {
  BytesMut : Type;
  bytes_new : BytesMut;
  put_u8 : Z → BytesMut → BytesMut;
  put_u16 : Z → BytesMut → BytesMut;
  put_slice : Bytes → BytesMut → BytesMut;
  as_slice : BytesMut → Bytes;
  Cursor : Type;
  cursor_new : Bytes → Cursor;
  unread : Cursor → Bytes;
  remaining : Cursor → Z;
  get_u8 : Cursor → Cursor * option Z;
  get_u16 : Cursor → Cursor * option Z;
  copy_to_slice : Z → Cursor → Cursor * option Bytes;
}.

Class BytesLaws {BC : BytesCrate} : Prop := {
  as_slice_new : as_slice bytes_new = [];
  as_slice_put_u8 x b : as_slice (put_u8 x b) = as_slice b ++ [byte.of_Z x];
  as_slice_put_u16 x b : as_slice (put_u16 x b) = as_slice b ++ be16 x;
  as_slice_put_slice l b : as_slice (put_slice l b) = as_slice b ++ l;
  unread_new l : unread (cursor_new l) = l;
  remaining_unread c : remaining c = zlen (unread c);
  get_u8_front c : prod_map unread id (get_u8 c) = front_u8 (unread c);
  get_u16_front c : prod_map unread id (get_u16 c) = front_u16 (unread c);
  copy_to_slice_front n c :
    prod_map unread id (copy_to_slice n c) = front_slice n (unread c);
}.

(** A buffer that is the list of its bytes. *)
#[export] Instance list_bytes : BytesCrate := {
  BytesMut := Bytes;
  bytes_new := [];
  put_u8 x b := b ++ [byte.of_Z x];
  put_u16 x b := b ++ be16 x;
  put_slice l b := b ++ l;
  as_slice b := b;
  Cursor := Bytes;
  cursor_new l := l;
  unread l := l;
  remaining l := zlen l;
  get_u8 := front_u8;
  get_u16 := front_u16;
  copy_to_slice := front_slice;
}.

#[export] Instance list_bytes_laws : BytesLaws (BC := list_bytes).
Proof. split; try done; simpl; intros; by apply injective_projections. Qed.

(** * Streams *)

(** [std::io::Error], by its kind: [UnexpectedEof] is what [read_u8] and
    [read_exact] report at the end of the stream. *)
Inductive io_error := UnexpectedEof | OtherIo (kind : Z).

(** What has arrived and has not been read, and how the stream ended, when it
    has: reading past what has arrived waits on an open stream and fails on an
    ended one. *)
Record Incoming := mkIncoming {
  arrived : Bytes;
  ended : option io_error;
}.

Definition dry {A} (s : Incoming) : Incoming * outcome io_error A :=
  (mkIncoming [] (ended s),
   match ended s with Some e => Err e | None => Pending end).

Definition incoming_u8 (s : Incoming) : Incoming * outcome io_error Z :=
  match arrived s with
  | b :: l => (mkIncoming l (ended s), Ok (byte.unsigned b))
  | [] => dry s
  end.

(** A [read_exact] that is waiting has already taken the bytes that are
    there; they are gone when the waiting future is dropped. *)
Definition incoming_exact (n : Z) (s : Incoming) : Incoming * outcome io_error Bytes :=
  if n <=? zlen (arrived s) then
    (mkIncoming (drop (Z.to_nat n) (arrived s)) (ended s), Ok (take (Z.to_nat n) (arrived s)))
  else dry s.

Class AsyncRead (R : Type) := {
  incoming : R → Incoming;
  read_u8 : R → R * outcome io_error Z;
  read_exact : Z → R → R * outcome io_error Bytes;
}.

Class AsyncReadLaws (R : Type) {AR : AsyncRead R} : Prop := {
  read_u8_incoming r : prod_map incoming id (read_u8 r) = incoming_u8 (incoming r);
  read_exact_incoming n r :
    prod_map incoming id (read_exact n r) = incoming_exact n (incoming r);
}.

#[export] Instance incoming_read : AsyncRead Incoming := {
  incoming s := s;
  read_u8 := incoming_u8;
  read_exact := incoming_exact;
}.

#[export] Instance incoming_read_laws : AsyncReadLaws Incoming.
Proof. split; intros; simpl; by apply injective_projections. Qed.

(** Writing: a [write_all] that succeeds has written exactly its bytes; one
    that fails or waits has written some prefix of them. *)
Class AsyncWrite (W : Type) := {
  written : W → Bytes;
  write_all : Bytes → W → W * outcome io_error ();
}.

Class AsyncWriteLaws (W : Type) {AW : AsyncWrite W} : Prop := {
  write_all_Ok l w w' : write_all l w = (w', Ok tt) → written w' = written w ++ l;
  write_all_prefix l w w' o :
    write_all l w = (w', o) → ∃ n, written w' = written w ++ take n l;
  write_all_no_panic l w : (write_all l w).2 ≠ Panic;
}.

(** A peer that takes the first [room] bytes and then resets the connection
    ([None]: it takes everything). *)
Record Outgoing := mkOutgoing { sent : Bytes; room : option nat }.

#[export] Instance outgoing_write : AsyncWrite Outgoing := {
  written := sent;
  write_all l w :=
    match room w with
    | None => (mkOutgoing (sent w ++ l) None, Ok tt)
    | Some n =>
        if decide (length l ≤ n)%nat then
          (mkOutgoing (sent w ++ l) (Some (n - length l)%nat), Ok tt)
        else (mkOutgoing (sent w ++ take n l) (Some 0%nat), Err (OtherIo 104))
    end
}.

#[export] Instance outgoing_write_laws : AsyncWriteLaws Outgoing.
Proof.
  split.
  - intros l [s [n|]] w'; simpl; [case_decide|]; intros; by simplify_eq/=.
  - intros l [s [n|]] w' o; simpl; [case_decide|]; intros; simplify_eq/=;
      [exists (length l)|exists n|exists (length l)]; by rewrite ?firstn_all.
  - intros l [s [n|]]; simpl; [by case_decide|done].
Qed.

(** Writers whose peer takes whatever is written. *)
Class Connection (W : Type) {AW : AsyncWrite W} := {
  connected : W → Prop;
  connected_write l w : connected w → ∃ w', write_all l w = (w', Ok tt) ∧ connected w';
}.

#[export] Program Instance outgoing_connection : Connection Outgoing := {
  connected w := room w = None;
}.
Next Obligation. intros l [s [n|]]; simpl; [done|]. intros _. by eexists. Qed.

(** * Channels *)

Class Mpsc := {
  channel : Type → Type;
  mpsc_channel : ∀ {A}, nat → channel A;
  capacity : ∀ {A}, channel A → nat;
  queued : ∀ {A}, channel A → list A;
  push : ∀ {A}, A → channel A → channel A;
  pop : ∀ {A}, channel A → channel A;
}.

(** A bounded queue: [push] is what a [send] does when there is room, [pop]
    what a [recv] does when there is a message. *)
Class MpscLaws {MP : Mpsc} : Prop := {
  capacity_new {A} n : capacity (mpsc_channel (A := A) n) = n;
  queued_new {A} n : queued (mpsc_channel (A := A) n) = [];
  capacity_push {A} (x : A) c : capacity (push x c) = capacity c;
  queued_push {A} (x : A) c : queued (push x c) = queued c ++ [x];
  capacity_pop {A} (c : channel A) : capacity (pop c) = capacity c;
  queued_pop {A} (c : channel A) : queued (pop c) = tail (queued c);
}.

Record Queue (A : Type) := mkQueue { q_cap : nat; q_items : list A }.
Arguments mkQueue {A} _ _.
Arguments q_cap {A} _.
Arguments q_items {A} _.

#[export] Instance queue_mpsc : Mpsc := {
  channel := Queue;
  mpsc_channel A n := mkQueue n [];
  capacity A c := q_cap c;
  queued A c := q_items c;
  push A x c := mkQueue (q_cap c) (q_items c ++ [x]);
  pop A c := mkQueue (q_cap c) (tail (q_items c));
}.

#[export] Instance queue_mpsc_laws : MpscLaws (MP := queue_mpsc).
Proof. by split. Qed.

(** * Iteration order of hash tables *)

Class HashOrder := {
  map_iter : ∀ {K} `{Countable K} {A}, gmap K A → list (K * A);
  set_iter : ∀ {K} `{Countable K}, gset K → list K;
}.

Class HashOrderLaws {HO : HashOrder} : Prop := {
  map_iter_perm {K} `{Countable K} {A} (m : gmap K A) : map_iter m ≡ₚ map_to_list m;
  set_iter_perm {K} `{Countable K} (X : gset K) : set_iter X ≡ₚ elements X;
}.

#[export] Instance gmap_order : HashOrder := {
  map_iter K _ _ A m := map_to_list m;
  set_iter K _ _ X := elements X;
}.

#[export] Instance gmap_order_laws : HashOrderLaws (HO := gmap_order).
Proof. by split. Qed.

Section HashOrderFacts.
Context {HO : HashOrder} {HOL : HashOrderLaws}.

Lemma elem_of_map_iter {K} `{Countable K} {A} (m : gmap K A) k x :
  (k, x) ∈ map_iter m ↔ m !! k = Some x.
Proof. rewrite map_iter_perm. apply elem_of_map_to_list. Qed.

Lemma NoDup_fst_map_iter {K} `{Countable K} {A} (m : gmap K A) :
  NoDup (map_iter m).*1.
Proof. rewrite map_iter_perm. apply NoDup_fst_map_to_list. Qed.

Lemma elem_of_set_iter {K} `{Countable K} (X : gset K) k :
  k ∈ set_iter X ↔ k ∈ X.
Proof. rewrite set_iter_perm. apply elem_of_elements. Qed.

Lemma NoDup_set_iter {K} `{Countable K} (X : gset K) : NoDup (set_iter X).
Proof. rewrite set_iter_perm. apply NoDup_elements. Qed.

Lemma length_map_iter {K} `{Countable K} {A} (m : gmap K A) :
  length (map_iter m) = size m.
Proof. by rewrite map_iter_perm, length_map_to_list. Qed.
End HashOrderFacts.
