(* ===== verification/Packet.v ===== *)
(** The data of [src/protocol/packet.rs] and the constants of
    [src/protocol/v3.rs]: control packet types, quality-of-service levels, one
    record per packet, and the errors of the codec.  A [u8] or [u16] field is a
    [Z]; [wf_*] say which values its width allows and that a [String] is UTF-8. *)

From S2P Require Import Prelude Utf8 External.

Local Open Scope Z_scope.

(** * Errors and packet types *)

Inductive PacketError :=
| InvalidPacketType (ty : Z)
| InvalidRemainingLength
| IncompletePacket
| InvalidUtf8
| InvalidPacketFlags
| Io (e : io_error).

Inductive PacketType :=
| TConnect | TConnAck | TPublish | TPubAck | TPubRec | TPubRel | TPubComp
| TSubscribe | TSubAck | TUnsubscribe | TUnsubAck | TPingReq | TPingResp | TDisconnect.

#[export] Instance PacketType_eq_dec : EqDecision PacketType.
Proof. solve_decision. Defined.

(** [packet_type as u8] *)
Definition packet_type_as_u8 (t : PacketType) : Z :=
  match t with
  | TConnect => 1 | TConnAck => 2 | TPublish => 3 | TPubAck => 4 | TPubRec => 5
  | TPubRel => 6 | TPubComp => 7 | TSubscribe => 8 | TSubAck => 9
  | TUnsubscribe => 10 | TUnsubAck => 11 | TPingReq => 12 | TPingResp => 13
  | TDisconnect => 14
  end.

(** [PacketType::try_from] *)
Definition packet_type_try_from (value : Z) : PacketType + PacketError :=
  match value with
  | 1 => inl TConnect
  | 2 => inl TConnAck
  | 3 => inl TPublish
  | 4 => inl TPubAck
  | 5 => inl TPubRec
  | 6 => inl TPubRel
  | 7 => inl TPubComp
  | 8 => inl TSubscribe
  | 9 => inl TSubAck
  | 10 => inl TUnsubscribe
  | 11 => inl TUnsubAck
  | 12 => inl TPingReq
  | 13 => inl TPingResp
  | 14 => inl TDisconnect
  | _ => inr (InvalidPacketType value)
  end.

Lemma packet_type_try_from_as_u8 t : packet_type_try_from (packet_type_as_u8 t) = inl t.
Proof. by destruct t. Qed.

(** * Quality of service *)

Inductive QoS := AtMostOnce | AtLeastOnce | ExactlyOnce.

#[export] Instance QoS_eq_dec : EqDecision QoS.
Proof. solve_decision. Defined.

(** [qos as u8] *)
Definition qos_as_u8 (q : QoS) : Z :=
  match q with AtMostOnce => 0 | AtLeastOnce => 1 | ExactlyOnce => 2 end.

Lemma qos_as_u8_inj q1 q2 : qos_as_u8 q1 = qos_as_u8 q2 → q1 = q2.
Proof. by destruct q1, q2. Qed.

Lemma qos_as_u8_range q : 0 ≤ qos_as_u8 q ≤ 2.
Proof. destruct q; simpl; lia. Qed.

(** * Packets *)

Record ConnectPacket := mkConnect {
  protocol_name : string;
  protocol_level : Z;
  clean_session : bool;
  keep_alive : Z;
  client_id : string;
  will_flag : bool;
  will_qos : QoS;
  will_retain : bool;
  will_topic : option string;
  will_payload : option Bytes;
  username : option string;
  password : option Bytes;
}.

Record ConnAckPacket := mkConnAck { session_present : bool; return_code : Z }.

Record PublishPacket := mkPublish {
  topic : string;
  packet_id : option Z;
  payload : Bytes;
  qos : QoS;
  retain : bool;
  dup : bool;
}.

(** [PubAckPacket], [PubRecPacket], [PubRelPacket], [PubCompPacket] and
    [UnsubAckPacket] hold one [u16] each. *)
Record PubAckPacket := mkPubAck { puback_id : Z }.
Record PubRecPacket := mkPubRec { pubrec_id : Z }.
Record PubRelPacket := mkPubRel { pubrel_id : Z }.
Record PubCompPacket := mkPubComp { pubcomp_id : Z }.

Record SubscribePacket := mkSubscribe {
  subscribe_id : Z;
  topic_filters : list (string * QoS);
}.

Record SubAckPacket := mkSubAck { suback_id : Z; return_codes : list Z }.

Record UnsubscribePacket := mkUnsubscribe {
  unsubscribe_id : Z;
  unsub_filters : list string;
}.

Record UnsubAckPacket := mkUnsubAck { unsuback_id : Z }.

Inductive Packet :=
| Connect (p : ConnectPacket)
| ConnAck (p : ConnAckPacket)
| Publish (p : PublishPacket)
| PubAck (p : PubAckPacket)
| PubRec (p : PubRecPacket)
| PubRel (p : PubRelPacket)
| PubComp (p : PubCompPacket)
| Subscribe (p : SubscribePacket)
| SubAck (p : SubAckPacket)
| Unsubscribe (p : UnsubscribePacket)
| UnsubAck (p : UnsubAckPacket)
| PingReq
| PingResp
| Disconnect.

#[export] Instance PublishPacket_eq_dec : EqDecision PublishPacket.
Proof. solve_decision. Defined.

(** Field updates the session makes on a publish packet. *)
Definition with_packet_id (id : option Z) (p : PublishPacket) : PublishPacket :=
  mkPublish (topic p) id (payload p) (qos p) (retain p) (dup p).
Definition with_dup (d : bool) (p : PublishPacket) : PublishPacket :=
  mkPublish (topic p) (packet_id p) (payload p) (qos p) (retain p) d.

(** * Constants of MQTT 3.1.1 *)

Definition PROTOCOL_NAME : string := "MQTT".
Definition PROTOCOL_LEVEL : Z := 4.

Module connect_return_codes.
Definition ACCEPTED : Z := 0x00.
Definition UNACCEPTABLE_PROTOCOL_VERSION : Z := 0x01.
Definition IDENTIFIER_REJECTED : Z := 0x02.
Definition SERVER_UNAVAILABLE : Z := 0x03.
Definition BAD_USERNAME_OR_PASSWORD : Z := 0x04.
Definition NOT_AUTHORIZED : Z := 0x05.
End connect_return_codes.

Module subscribe_return_codes.
Definition MAXIMUM_QOS_0 : Z := 0x00.
Definition MAXIMUM_QOS_1 : Z := 0x01.
Definition MAXIMUM_QOS_2 : Z := 0x02.
Definition FAILURE : Z := 0x80.
End subscribe_return_codes.

(** * What the widths allow *)

(** A string that a two-byte length prefix can carry. *)
Definition wire_string (s : string) : Prop := utf8 s ∧ str_len s < 2 ^ 16.

(** A PUBLISH that has a wire form: the packet identifier is there exactly
    when the level asks for an acknowledgement, and the body fits in four
    bytes of remaining length. *)
Record wf_publish (p : PublishPacket) : Prop := {
  wf_topic : wire_string (topic p);
  wf_packet_id : match packet_id p with
                 | Some id => is_u16 id ∧ qos p ≠ AtMostOnce
                 | None => qos p = AtMostOnce
                 end;
  wf_size : 4 + str_len (topic p) + zlen (payload p) < 2 ^ 28;
}.
