(* ===== verification/Codec.v ===== *)
(** The encoder and the decoder of [src/protocol/packet.rs].

    An encoder appends to a [BytesMut]; a body decoder reads a [Cursor] over
    the packet's data; [decode] reads a stream.  The [get_*] calls of a body
    decoder panic past the end of the data, and the model keeps that apart from
    the errors the decoder returns. *)

From S2P Require Import Prelude Utf8 External Packet.

Local Open Scope Z_scope.

(** * Reading a cursor *)

Section Cursor.
Context {BC : BytesCrate}.

Definition cur {A} (get : Cursor → Cursor * option A) : M Cursor PacketError A :=
  λ c, let '(c', o) := get c in
       (c', match o with Some a => Ok a | None => Panic end).

Definition cur_u8 : M Cursor PacketError Z := cur get_u8.
Definition cur_u16 : M Cursor PacketError Z := cur get_u16.
Definition cur_slice (n : Z) : M Cursor PacketError Bytes := cur (copy_to_slice n).

Definition decode_string : M Cursor PacketError string :=
  left ← gets remaining;
  if left <? 2 then throw IncompletePacket else
  len ← cur_u16;
  left ← gets remaining;
  if left <? len then throw IncompletePacket else
  bytes ← cur_slice len;
  match from_utf8 bytes with
  | Some s => mret s
  | None => throw InvalidUtf8
  end.

(** The three two-bit encodings of a level that are not reserved. *)
Definition qos_of_bits (bits : Z) : option QoS :=
  match bits with
  | 0 => Some AtMostOnce
  | 1 => Some AtLeastOnce
  | 2 => Some ExactlyOnce
  | _ => None
  end.

(** The parts of a CONNECT that its flags announce: the will's level, the
    will's topic and payload, the user name, the password. *)
Definition decode_will_qos (will_flag : bool) (connect_flags : Z) : M Cursor PacketError QoS :=
  if will_flag then
    match qos_of_bits (Z.land (Z.shiftr connect_flags 3) 0x03) with
    | Some q => mret q
    | None => throw InvalidPacketFlags
    end
  else mret AtMostOnce.

Definition decode_will (will_flag : bool) :
    M Cursor PacketError (option string * option Bytes) :=
  if will_flag then
    topic ← decode_string;
    payload_len ← cur_u16;
    payload ← cur_slice payload_len;
    mret (Some topic, Some payload)
  else mret (None, None).

Definition decode_username (username_flag : bool) : M Cursor PacketError (option string) :=
  if username_flag then s ← decode_string; mret (Some s) else mret None.

Definition decode_password (password_flag : bool) : M Cursor PacketError (option Bytes) :=
  if password_flag then
    left ← gets remaining;
    if left <? 2 then throw IncompletePacket else
    len ← cur_u16;
    left ← gets remaining;
    if left <? len then throw IncompletePacket else
    bytes ← cur_slice len;
    mret (Some bytes)
  else mret None.

Definition decode_connect : M Cursor PacketError ConnectPacket :=
  protocol_name ← decode_string;
  protocol_level ← cur_u8;
  connect_flags ← cur_u8;
  keep_alive ← cur_u16;
  client_id ← decode_string;
  let will_flag := negb (Z.land connect_flags 0x04 =? 0) in
  will_qos ← decode_will_qos will_flag connect_flags;
  let will_retain := negb (Z.land connect_flags 0x20 =? 0) in
  let username_flag := negb (Z.land connect_flags 0x80 =? 0) in
  let password_flag := negb (Z.land connect_flags 0x40 =? 0) in
  if password_flag && negb username_flag then throw InvalidPacketFlags else
  will ← decode_will will_flag;
  username ← decode_username username_flag;
  password ← decode_password password_flag;
  mret (mkConnect protocol_name protocol_level (negb (Z.land connect_flags 0x02 =? 0))
          keep_alive client_id will_flag will_qos will_retain will.1 will.2
          username password).

Definition decode_publish (flags : Z) : M Cursor PacketError PublishPacket :=
  topic ← decode_string;
  qos ← (match qos_of_bits (Z.land (Z.shiftr flags 1) 0x03) with
         | Some q => mret q
         | None => throw (InvalidPacketType flags)
         end);
  packet_id ← (match qos with
               | AtLeastOnce | ExactlyOnce => id ← cur_u16; mret (Some id)
               | AtMostOnce => mret None
               end);
  payload_len ← gets remaining;
  payload ← cur_slice payload_len;
  mret (mkPublish topic packet_id payload qos
          (negb (Z.land flags 0x01 =? 0)) (negb (Z.land flags 0x08 =? 0))).

(** One turn of the loop of [decode_subscribe]. *)
Definition decode_subscribe_entry (acc : list (string * QoS)) :
    M Cursor PacketError (list (string * QoS)) :=
  topic ← decode_string;
  qos_byte ← cur_u8;
  match qos_of_bits qos_byte with
  | Some qos => mret (acc ++ [(topic, qos)])
  | None => throw (InvalidPacketType qos_byte)
  end.

(** The loops take as fuel the bytes there are: each turn reads at least two. *)
Definition decode_subscribe : M Cursor PacketError SubscribePacket :=
  packet_id ← cur_u16;
  left ← gets remaining;
  topic_filters ← while_loop (Z.to_nat left) (λ c, 0 <? remaining c)
                    decode_subscribe_entry [];
  mret (mkSubscribe packet_id topic_filters).

Definition decode_unsubscribe_entry (acc : list string) :
    M Cursor PacketError (list string) :=
  topic ← decode_string;
  mret (acc ++ [topic]).

Definition decode_unsubscribe : M Cursor PacketError UnsubscribePacket :=
  packet_id ← cur_u16;
  left ← gets remaining;
  topic_filters ← while_loop (Z.to_nat left) (λ c, 0 <? remaining c)
                    decode_unsubscribe_entry [];
  mret (mkUnsubscribe packet_id topic_filters).

(** The four acknowledgements: two bytes, or the type is refused. *)
Definition decode_ack {A} (t : PacketType) (remaining_length : Z) (mk : Z → A) :
    M Cursor PacketError A :=
  if negb (remaining_length =? 2) then throw (InvalidPacketType (packet_type_as_u8 t)) else
  packet_id ← cur_u16;
  mret (mk packet_id).

(** The [match packet_type] of [Packet::decode]. *)
Definition decode_body (packet_type : PacketType) (flags remaining_length : Z) :
    M Cursor PacketError Packet :=
  match packet_type with
  | TConnect => p ← decode_connect; mret (Connect p)
  | TPublish => p ← decode_publish flags; mret (Publish p)
  | TPubAck => decode_ack TPubAck remaining_length (λ id, PubAck (mkPubAck id))
  | TPubRec => decode_ack TPubRec remaining_length (λ id, PubRec (mkPubRec id))
  | TPubRel =>
      if negb (flags =? 0x02) then throw InvalidPacketFlags else
      decode_ack TPubRel remaining_length (λ id, PubRel (mkPubRel id))
  | TPubComp => decode_ack TPubComp remaining_length (λ id, PubComp (mkPubComp id))
  | TSubscribe => p ← decode_subscribe; mret (Subscribe p)
  | TUnsubscribe => p ← decode_unsubscribe; mret (Unsubscribe p)
  | TPingReq => mret PingReq
  | TDisconnect => mret Disconnect
  | TConnAck | TSubAck | TUnsubAck | TPingResp =>
      throw (InvalidPacketType (packet_type_as_u8 packet_type))
  end.
End Cursor.

(** * Reading a stream *)

Section Decode.
Context {BC : BytesCrate} {R : Type} {AR : AsyncRead R}.

(** [u32] arithmetic: past [u32::MAX] it panics in a debug build (and wraps
    in a release build). *)
Definition u32_checked (z : Z) : M R PacketError Z :=
  if (0 <=? z) && (z <? 2 ^ 32) then mret z else panic.

Fixpoint decode_remaining_length_loop (fuel : nat) (multiplier value byte_count : Z) :
    M R PacketError Z :=
  if 4 <=? byte_count then throw InvalidRemainingLength else
  byte ← map_err Io read_u8;
  term ← u32_checked (Z.land byte 0x7F * multiplier);
  value ← u32_checked (value + term);
  if Z.land byte 0x80 =? 0 then mret value else
  multiplier ← u32_checked (multiplier * 128);
  match fuel with
  | O => hang
  | S n => decode_remaining_length_loop n multiplier value (byte_count + 1)
  end.

Definition decode_remaining_length_async : M R PacketError Z :=
  decode_remaining_length_loop 4 1 0 0.

(** Running a body decoder on the packet's own data. *)
Definition on_cursor {A} (data : Bytes) (m : M Cursor PacketError A) : M R PacketError A :=
  λ r, (r, (m (cursor_new data)).2).

(** [Packet::decode] *)
Definition decode : M R PacketError Packet :=
  first_byte ← map_err Io read_u8;
  packet_type ← or_throw (packet_type_try_from (Z.land (Z.shiftr first_byte 4) 0x0F));
  let flags := Z.land first_byte 0x0F in
  remaining_length ← decode_remaining_length_async;
  packet_data ← map_err Io (read_exact remaining_length);
  on_cursor packet_data (decode_body packet_type flags remaining_length).
End Decode.

(** * Writing a buffer *)

Section Encode.
Context {BC : BytesCrate}.
Local Open Scope iotd_scope.

Fixpoint encode_remaining_length_loop (fuel : nat) (remaining : Z) (buf : BytesMut) :
    BytesMut :=
  let byte := as_u8 (remaining mod 128) in
  let remaining := remaining / 128 in
  let byte := if 0 <? remaining then Z.lor byte 0x80 else byte in
  let buf := put_u8 byte buf in
  if remaining =? 0 then buf else
  match fuel with
  | O => buf
  | S n => encode_remaining_length_loop n remaining buf
  end.

(** A [u32] has at most five groups of seven bits. *)
Definition encode_remaining_length (length : Z) (buf : BytesMut) : BytesMut :=
  encode_remaining_length_loop 4 length buf.

Definition encode_string (s : string) (buf : BytesMut) : BytesMut :=
  let buf := put_u16 (as_u16 (str_len s)) buf in
  put_slice (as_bytes s) buf.

Definition encode_connack (packet : ConnAckPacket) (buf : BytesMut) : BytesMut :=
  let buf := put_u8 0x20 buf in
  let buf := put_u8 2 buf in
  let buf := put_u8 (if session_present packet then 0x01 else 0x00) buf in
  put_u8 (return_code packet) buf.

Definition publish_flags (packet : PublishPacket) : Z :=
  let flags := 0x30 in
  let flags := if dup packet then Z.lor flags 0x08 else flags in
  let flags := Z.lor flags (as_u8 (Z.shiftl (qos_as_u8 (qos packet)) 1)) in
  if retain packet then Z.lor flags 0x01 else flags.

Definition encode_publish (packet : PublishPacket) (buf : BytesMut) : BytesMut :=
  let buf := put_u8 (publish_flags packet) buf in
  let remaining_length := 2 + str_len (topic packet) in
  let remaining_length := if bool_decide (is_Some (packet_id packet))
                          then remaining_length + 2 else remaining_length in
  let remaining_length := remaining_length + zlen (payload packet) in
  let buf := encode_remaining_length (as_u32 remaining_length) buf in
  let buf := encode_string (topic packet) buf in
  let buf := match packet_id packet with
             | Some packet_id => put_u16 packet_id buf
             | None => buf
             end in
  put_slice (payload packet) buf.

(** [encode_puback], [encode_pubrec], [encode_pubrel], [encode_pubcomp] and
    [encode_unsuback] have this one body, with a first byte each. *)
Definition encode_id (first packet_id : Z) (buf : BytesMut) : BytesMut :=
  let buf := put_u8 first buf in
  let buf := put_u8 2 buf in
  put_u16 packet_id buf.

Definition encode_puback (p : PubAckPacket) := encode_id 0x40 (puback_id p).
Definition encode_pubrec (p : PubRecPacket) := encode_id 0x50 (pubrec_id p).
Definition encode_pubrel (p : PubRelPacket) := encode_id 0x62 (pubrel_id p).
Definition encode_pubcomp (p : PubCompPacket) := encode_id 0x70 (pubcomp_id p).
Definition encode_unsuback (p : UnsubAckPacket) := encode_id 0xB0 (unsuback_id p).

(** (The sum would overflow from 2^32 - 2 codes on; a SUBSCRIBE has less than 2^28.) *)
Definition encode_suback (packet : SubAckPacket) (buf : BytesMut) : BytesMut :=
  let buf := put_u8 0x90 buf in
  let buf := encode_remaining_length
               (as_u32 (2 + as_u32 (zlen (return_codes packet)))) buf in
  let buf := put_u16 (suback_id packet) buf in
  foldl (λ buf code, put_u8 code buf) buf (return_codes packet).

Definition encode_disconnect (buf : BytesMut) : BytesMut :=
  let buf := put_u8 0xE0 buf in put_u8 0 buf.

Definition encode_pingresp (buf : BytesMut) : BytesMut :=
  let buf := put_u8 0xD0 buf in put_u8 0 buf.

(** [Packet::encode]; the packets only a client sends write nothing. *)
Definition encode (packet : Packet) (buf : BytesMut) : BytesMut :=
  match packet with
  | ConnAck packet => encode_connack packet buf
  | Publish packet => encode_publish packet buf
  | PubAck packet => encode_puback packet buf
  | PubRec packet => encode_pubrec packet buf
  | PubRel packet => encode_pubrel packet buf
  | PubComp packet => encode_pubcomp packet buf
  | SubAck packet => encode_suback packet buf
  | UnsubAck packet => encode_unsuback packet buf
  | PingResp => encode_pingresp buf
  | Disconnect => encode_disconnect buf
  | _ => buf
  end.
End Encode.

(** The bytes of a packet on the wire. *)
Definition wire (p : Packet) : Bytes := encode (BC := list_bytes) p [].
