(* ===== verification/CodecSim.v ===== *)
(** Facts that reduce the codec to lists of bytes: a decoder written against
    the [bytes] crate and a tokio stream does what it does on a list of bytes,
    and an encoder appends the bytes [wire] computes. *)

From S2P Require Import Prelude Utf8 External Packet Codec.

Local Open Scope Z_scope.

Section CursorSim.
Context {BC : BytesCrate} {BL : BytesLaws}.
Abbreviation csim := (simulates unread).

Lemma sim_cur {A} (get : Cursor → Cursor * option A) get' :
  (∀ c, prod_map unread id (get c) = get' (unread c)) →
  csim (cur get) (cur (BC := list_bytes) get').
Proof.
  intros Hg c. unfold cur. rewrite <- Hg. by destruct (get c) as [? []].
Qed.

Lemma sim_cur_u8 : csim cur_u8 (cur_u8 (BC := list_bytes)).
Proof. apply sim_cur, get_u8_front. Qed.
Lemma sim_cur_u16 : csim cur_u16 (cur_u16 (BC := list_bytes)).
Proof. apply sim_cur, get_u16_front. Qed.
Lemma sim_cur_slice n : csim (cur_slice n) (cur_slice (BC := list_bytes) n).
Proof. apply sim_cur. intros c. apply copy_to_slice_front. Qed.
Lemma sim_remaining :
  csim (gets (E := PacketError) remaining) (gets (remaining (BytesCrate := list_bytes))).
Proof. apply sim_gets. intros c. apply remaining_unread. Qed.
Hint Resolve sim_cur_u8 sim_cur_u16 sim_cur_slice sim_remaining : sim.

Lemma sim_decode_string : csim decode_string (decode_string (BC := list_bytes)).
Proof. unfold decode_string. solve_sim. Qed.
Hint Resolve sim_decode_string : sim.

Lemma sim_decode_connect : csim decode_connect (decode_connect (BC := list_bytes)).
Proof.
  unfold decode_connect, decode_will_qos, decode_will, decode_username, decode_password.
  solve_sim.
Qed.

Lemma sim_decode_publish flags :
  csim (decode_publish flags) (decode_publish (BC := list_bytes) flags).
Proof. unfold decode_publish. solve_sim. Qed.

Lemma sim_loop {A} n (body : A → M Cursor PacketError A) body' acc :
  (∀ a, csim (body a) (body' a)) →
  csim (while_loop n (λ c, 0 <? remaining c) body acc)
       (while_loop n (λ c, 0 <? remaining (BytesCrate := list_bytes) c) body' acc).
Proof. apply sim_while. intros c. by rewrite remaining_unread. Qed.

Hint Resolve sim_loop : sim.

Lemma sim_decode_subscribe_entry acc :
  csim (decode_subscribe_entry acc) (decode_subscribe_entry (BC := list_bytes) acc).
Proof. unfold decode_subscribe_entry. solve_sim. Qed.
Lemma sim_decode_unsubscribe_entry acc :
  csim (decode_unsubscribe_entry acc) (decode_unsubscribe_entry (BC := list_bytes) acc).
Proof. unfold decode_unsubscribe_entry. solve_sim. Qed.
Hint Resolve sim_decode_subscribe_entry sim_decode_unsubscribe_entry : sim.

Lemma sim_decode_subscribe : csim decode_subscribe (decode_subscribe (BC := list_bytes)).
Proof. unfold decode_subscribe. solve_sim. Qed.
Lemma sim_decode_unsubscribe :
  csim decode_unsubscribe (decode_unsubscribe (BC := list_bytes)).
Proof. unfold decode_unsubscribe. solve_sim. Qed.
Hint Resolve sim_decode_connect sim_decode_publish sim_decode_subscribe
  sim_decode_unsubscribe : sim.

Lemma sim_decode_body ty flags n :
  csim (decode_body ty flags n) (decode_body (BC := list_bytes) ty flags n).
Proof. unfold decode_body, decode_ack. solve_sim. Qed.
End CursorSim.

Section DecodeSim.
Context {BC : BytesCrate} {BL : BytesLaws} {R : Type} {AR : AsyncRead R}
  {ARL : AsyncReadLaws R}.
Abbreviation rsim := (simulates incoming).

Lemma sim_read_u8 : rsim read_u8 (read_u8 (R := Incoming)).
Proof. intros r. apply read_u8_incoming. Qed.
Lemma sim_read_exact n : rsim (read_exact n) (read_exact (R := Incoming) n).
Proof. intros r. apply read_exact_incoming. Qed.
Lemma sim_u32_checked z : rsim (u32_checked z) (u32_checked z).
Proof. unfold u32_checked. solve_sim. Qed.
Hint Resolve sim_read_u8 sim_read_exact sim_u32_checked : sim.

Lemma sim_decode_remaining_length_loop n m x k :
  rsim (decode_remaining_length_loop n m x k)
       (decode_remaining_length_loop (R := Incoming) n m x k).
Proof. revert m x k. induction n; intros; simpl; solve_sim. Qed.
Hint Resolve sim_decode_remaining_length_loop : sim.

Lemma sim_decode_remaining_length :
  rsim decode_remaining_length_async (decode_remaining_length_async (R := Incoming)).
Proof. apply sim_decode_remaining_length_loop. Qed.

Lemma sim_on_cursor {A} data (m : M Cursor PacketError A) m' :
  simulates unread m m' →
  rsim (on_cursor data m) (on_cursor (BC := list_bytes) (R := Incoming) data m').
Proof.
  intros Hm r. unfold on_cursor; simpl. specialize (Hm (cursor_new data)).
  rewrite unread_new in Hm. rewrite <- Hm. by destruct (m _).
Qed.
Hint Resolve sim_decode_remaining_length sim_on_cursor sim_decode_body : sim.

Lemma sim_decode : rsim decode (decode (BC := list_bytes) (R := Incoming)).
Proof. unfold decode. solve_sim. Qed.
End DecodeSim.

(** * Encoders append *)

(** The bytes of [encode_remaining_length_loop]. *)
Fixpoint varint_loop (fuel : nat) (x : Z) : Bytes :=
  let b := if 0 <? x / 128 then Z.lor (x mod 128) 0x80 else x mod 128 in
  byte.of_Z b ::
  (if x / 128 =? 0 then [] else
   match fuel with O => [] | S n => varint_loop n (x / 128) end).

(** The variable-length remaining length, as bytes. *)
Definition varint (n : Z) : Bytes := varint_loop 4 n.

Definition string_bytes (s : string) : Bytes := be16 (as_u16 (str_len s)) ++ as_bytes s.

(** The body of a PUBLISH: topic, packet identifier, payload. *)
Definition publish_body (p : PublishPacket) : Bytes :=
  string_bytes (topic p) ++ from_option be16 [] (packet_id p) ++ payload p.

Definition id_bytes (first id : Z) : Bytes := byte.of_Z first :: byte.of_Z 2 :: be16 id.

(** The wire form of each packet the broker sends. *)
Definition packet_bytes (p : Packet) : Bytes :=
  match p with
  | ConnAck p =>
      byte.of_Z <$> [0x20; 2; if session_present p then 1 else 0; return_code p]
  | Publish p =>
      byte.of_Z (publish_flags p) :: varint (as_u32 (zlen (publish_body p))) ++ publish_body p
  | PubAck p => id_bytes 0x40 (puback_id p)
  | PubRec p => id_bytes 0x50 (pubrec_id p)
  | PubRel p => id_bytes 0x62 (pubrel_id p)
  | PubComp p => id_bytes 0x70 (pubcomp_id p)
  | SubAck p =>
      byte.of_Z 0x90 :: varint (as_u32 (2 + as_u32 (zlen (return_codes p))))
        ++ be16 (suback_id p) ++ (byte.of_Z <$> return_codes p)
  | UnsubAck p => id_bytes 0xB0 (unsuback_id p)
  | PingResp => byte.of_Z <$> [0xD0; 0]
  | Disconnect => byte.of_Z <$> [0xE0; 0]
  | _ => []
  end.

Lemma as_u8_mod128 x : as_u8 (x mod 128) = x mod 128.
Proof. apply Z.mod_small. pose proof (Z.mod_pos_bound x 128). lia. Qed.

Lemma zlen_publish_body p :
  zlen (publish_body p) =
  (if bool_decide (is_Some (packet_id p)) then 2 + str_len (topic p) + 2
   else 2 + str_len (topic p)) + zlen (payload p).
Proof.
  unfold publish_body, string_bytes. rewrite !zlen_app.
  change (zlen (as_bytes (topic p))) with (str_len (topic p)).
  destruct (packet_id p) as [id|]; simpl; unfold zlen; simpl; lia.
Qed.

Section EncodeWire.
Context {BC : BytesCrate} {BL : BytesLaws}.

Ltac slices :=
  rewrite ?as_slice_put_slice, ?as_slice_put_u16, ?as_slice_put_u8, <- ?app_assoc.

Lemma encode_remaining_length_loop_app n x b :
  as_slice (encode_remaining_length_loop n x b) = as_slice b ++ varint_loop n x.
Proof.
  revert x b. induction n as [|n IH]; intros x b; simpl; rewrite as_u8_mod128.
  - destruct (_ =? 0); by slices.
  - destruct (_ =? 0); rewrite ?IH; by slices.
Qed.

Lemma encode_remaining_length_app x b :
  as_slice (encode_remaining_length x b) = as_slice b ++ varint x.
Proof. apply encode_remaining_length_loop_app. Qed.

Lemma encode_string_app s b : as_slice (encode_string s b) = as_slice b ++ string_bytes s.
Proof. unfold encode_string. by slices. Qed.

Lemma encode_id_app f i b : as_slice (encode_id f i b) = as_slice b ++ id_bytes f i.
Proof. unfold encode_id. by slices. Qed.

Lemma encode_publish_app p b :
  as_slice (encode_publish p b) = as_slice b ++ packet_bytes (Publish p).
Proof.
  unfold encode_publish, packet_bytes. rewrite zlen_publish_body. unfold publish_body.
  destruct (packet_id p) as [id|]; simpl; slices;
    rewrite encode_string_app, encode_remaining_length_app; slices; done.
Qed.

Lemma put_codes_app codes b :
  as_slice (foldl (λ b x, put_u8 x b) b codes) = as_slice b ++ (byte.of_Z <$> codes).
Proof.
  revert b. induction codes as [|x codes IH]; intros b; simpl; [by rewrite app_nil_r|].
  rewrite IH. by slices.
Qed.

Lemma encode_suback_app p b :
  as_slice (encode_suback p b) = as_slice b ++ packet_bytes (SubAck p).
Proof.
  unfold encode_suback. simpl. rewrite put_codes_app. slices.
  rewrite encode_remaining_length_app. by slices.
Qed.

(** Encoding appends the wire form of the packet. *)
Lemma encode_app p b : as_slice (encode p b) = as_slice b ++ packet_bytes p.
Proof.
  destruct p; simpl; rewrite ?app_nil_r; try done;
    try apply encode_id_app; try apply encode_publish_app; try apply encode_suback_app;
    unfold encode_connack, encode_disconnect, encode_pingresp; by slices.
Qed.
End EncodeWire.

Lemma wire_packet_bytes p : wire p = packet_bytes p.
Proof. apply (encode_app (BC := list_bytes) p []). Qed.
