(* ===== verification/CodecLemmas.v ===== *)
(** Lemmas on the codec over plain byte lists: lengths, strings, packet
    frames.  The properties of [CodecFacts] are put together from these and
    the simulation of [CodecSim]. *)

From S2P Require Import Prelude Utf8 External Packet Codec CodecSim.

Local Open Scope Z_scope.

Abbreviation istream := mkIncoming.

(** * Seven-bit groups *)

(** One byte of a length: seven bits of value and, on all but the last, the
    continuation bit. *)
Lemma group_value m c :
  0 ≤ m < 128 → Z.land (byte.unsigned (byte.of_Z (if (c : bool) then Z.lor m 0x80 else m))) 0x7F = m.
Proof.
  intros Hm. rewrite byte.unsigned_of_Z. unfold byte.wrap.
  change 0x7F with (Z.ones 7). rewrite Z.land_ones by lia.
  rewrite Z.mod_mod_divide by (by exists 2).
  destruct c; [|apply Z.mod_small; lia].
  rewrite <- Z.land_ones, Z.land_lor_distr_l by lia. change (Z.land 0x80 (Z.ones 7)) with 0.
  rewrite Z.lor_0_r, Z.land_ones by lia. apply Z.mod_small. lia.
Qed.

Lemma group_more m c :
  0 ≤ m < 128 →
  (Z.land (byte.unsigned (byte.of_Z (if (c : bool) then Z.lor m 0x80 else m))) 0x80 =? 0) = negb c.
Proof.
  intros Hm. rewrite byte.unsigned_of_Z. unfold byte.wrap.
  assert (Hl : Z.land m 0x80 = 0).
  { apply Z.bits_inj'. intros i Hi. rewrite Z.land_spec, Z.bits_0.
    change 0x80 with (2 ^ 7). rewrite Z.pow2_bits_eqb by lia.
    destruct (Z.eqb_spec 7 i) as [<-|]; [|by rewrite andb_false_r].
    rewrite Z.bits_above_log2; [done|lia|].
    destruct (decide (m = 0)) as [->|]; [done|]. apply Z.log2_lt_pow2; lia. }
  rewrite <- Z.land_ones, <- Z.land_assoc by lia. change (Z.land (Z.ones 8) 0x80) with 0x80.
  destruct c; simpl; [|by rewrite Hl].
  by rewrite Z.land_lor_distr_l, Hl.
Qed.

Lemma u32_checked_Ok {R} (r : R) z : is_u32 z → u32_checked z r = (r, Ok z).
Proof.
  unfold u32_checked, is_u32. intros Hz.
  rewrite (proj2 (Z.leb_le 0 z)), (proj2 (Z.ltb_lt z (2 ^ 32))) by lia. done.
Qed.

(** The reading of one byte, by what is there. *)
Lemma read_u8_cons b l e :
  map_err Io read_u8 (istream (b :: l) e) = (istream l e, Ok (byte.unsigned b)).
Proof. done. Qed.

Lemma pow128_S k : 128 ^ Z.of_nat (S k) = 128 ^ Z.of_nat k * 128.
Proof. rewrite Nat2Z.inj_succ, Z.pow_succ_r by lia. lia. Qed.

Lemma pow128_le3 k : (k ≤ 3)%nat → 1 ≤ 128 ^ Z.of_nat k ≤ 2097152.
Proof.
  intros Hk. split; [apply (Z.pow_le_mono_r 128 0); lia|].
  change 2097152 with (128 ^ 3). apply Z.pow_le_mono_r; lia.
Qed.

(** Turn [k] of the loop, whose multiplier is [128 ^ k], on the group [m]. *)
Lemma decode_turn fuel k v m (c : bool) l e :
  (k ≤ 3)%nat → 0 ≤ v < 128 ^ Z.of_nat k → 0 ≤ m < 128 →
  decode_remaining_length_loop (S fuel) (128 ^ Z.of_nat k) v (Z.of_nat k)
    (istream (byte.of_Z (if c then Z.lor m 0x80 else m) :: l) e) =
  if c then
    decode_remaining_length_loop fuel (128 ^ Z.of_nat (S k)) (v + m * 128 ^ Z.of_nat k)
      (Z.of_nat (S k)) (istream l e)
  else (istream l e, Ok (v + m * 128 ^ Z.of_nat k)).
Proof.
  intros Hk Hv Hm. pose proof (pow128_le3 k Hk) as Hp.
  assert (0 ≤ m * 128 ^ Z.of_nat k ≤ 127 * 2097152) as Hmp by nia.
  cbn [decode_remaining_length_loop]. rewrite (proj2 (Z.leb_gt 4 (Z.of_nat k))) by lia.
  rewrite (bind_Ok _ _ _ _ _ (read_u8_cons _ _ _)), group_value, group_more by done.
  erewrite bind_Ok by (apply u32_checked_Ok; unfold is_u32; lia).
  erewrite bind_Ok by (apply u32_checked_Ok; unfold is_u32; lia).
  destruct c; [|done]. cbn [negb].
  erewrite bind_Ok by (apply u32_checked_Ok; unfold is_u32; lia).
  rewrite pow128_S. do 2 f_equal. lia.
Qed.

Lemma turn_value k v m :
  0 ≤ v < 128 ^ Z.of_nat k → 0 ≤ m < 128 →
  0 ≤ v + m * 128 ^ Z.of_nat k < 128 ^ Z.of_nat (S k).
Proof. rewrite pow128_S. nia. Qed.

Lemma decode_varint_loop fuel k n v rest e :
  (k + fuel = 4)%nat → (k ≤ 3)%nat →
  0 ≤ n < 128 ^ Z.of_nat fuel → 0 ≤ v < 128 ^ Z.of_nat k →
  decode_remaining_length_loop fuel (128 ^ Z.of_nat k) v (Z.of_nat k)
    (istream (varint_loop fuel n ++ rest) e) =
  (istream rest e, Ok (v + n * 128 ^ Z.of_nat k)).
Proof.
  revert k n v. induction fuel as [|fuel IH]; intros k n v Hk Hk3 Hn Hv; [lia|].
  pose proof (Z.mod_pos_bound n 128 ltac:(lia)) as Hm.
  pose proof (Z.div_mod n 128 ltac:(lia)) as Hdm. rewrite pow128_S in Hn.
  assert (Hdiv : 0 ≤ n / 128 < 128 ^ Z.of_nat fuel).
  { split; [apply Z.div_pos; lia|apply Z.div_lt_upper_bound; lia]. }
  cbn [varint_loop app]. rewrite decode_turn by done.
  destruct (Z.ltb_spec 0 (n / 128)) as [Hd|Hd].
  - rewrite (proj2 (Z.eqb_neq (n / 128) 0)) by lia.
    destruct fuel as [|fuel]; [simpl in Hdiv; lia|].
    rewrite IH by (lia || by apply turn_value). do 2 f_equal. rewrite pow128_S. nia.
  - rewrite Z.mod_small by lia. by rewrite (proj2 (Z.eqb_eq (n / 128) 0)) by lia.
Qed.

(** A length of more than four groups is refused after the fourth. *)
Lemma decode_overlong_loop fuel k n v rest e :
  (k + fuel = 4)%nat → 128 ^ Z.of_nat fuel ≤ n → 0 ≤ v < 128 ^ Z.of_nat k →
  ∃ s, decode_remaining_length_loop fuel (128 ^ Z.of_nat k) v (Z.of_nat k)
         (istream (varint_loop fuel n ++ rest) e) = (s, Err InvalidRemainingLength).
Proof.
  revert k n v. induction fuel as [|fuel IH]; intros k n v Hk Hn Hv.
  { simpl. rewrite (proj2 (Z.leb_le 4 (Z.of_nat k))) by lia. by eexists. }
  pose proof (Z.mod_pos_bound n 128 ltac:(lia)) as Hm. rewrite pow128_S in Hn.
  assert (1 ≤ 128 ^ Z.of_nat fuel) by (apply (Z.pow_le_mono_r 128 0); lia).
  assert (Hdiv : 128 ^ Z.of_nat fuel ≤ n / 128) by (apply Z.div_le_lower_bound; lia).
  cbn [varint_loop app]. rewrite decode_turn by (done || lia).
  rewrite (proj2 (Z.ltb_lt 0 (n / 128))), (proj2 (Z.eqb_neq (n / 128) 0)) by lia.
  destruct fuel as [|fuel'].
  - cbn [decode_remaining_length_loop].
    rewrite (proj2 (Z.leb_le 4 (Z.of_nat (S k)))) by lia. by eexists.
  - apply IH; [lia|lia|by apply turn_value].
Qed.

Lemma decode_varint n rest e :
  0 ≤ n < 2 ^ 28 →
  decode_remaining_length_async (istream (varint n ++ rest) e) = (istream rest e, Ok n).
Proof.
  intros Hn. etransitivity; [apply (decode_varint_loop 4 0 n 0); simpl; lia|].
  do 2 f_equal. simpl. lia.
Qed.

Lemma decode_overlong n rest e :
  2 ^ 28 ≤ n →
  ∃ s, decode_remaining_length_async (istream (varint n ++ rest) e) =
       (s, Err InvalidRemainingLength).
Proof. intros Hn. apply (decode_overlong_loop 4 0 n 0); simpl; lia. Qed.

(** * Every stream

    What the loop does on any bytes: no arithmetic overflows, a length is below
    [2 ^ 28], and a loop that waits has read everything there was. *)
Definition length_outcome (s' : Incoming) (o : outcome PacketError Z) : Prop :=
  match o with
  | Ok n => 0 ≤ n < 2 ^ 28
  | Err _ => True
  | Panic => False
  | Pending => arrived s' = []
  end.

Lemma byte_group b :
  ∃ m c, 0 ≤ m < 128 ∧ b = byte.of_Z (if (c : bool) then Z.lor m 0x80 else m).
Proof.
  exists (byte.unsigned b mod 128), (128 <=? byte.unsigned b).
  split; [apply Z.mod_pos_bound; lia|]. destruct b; vm_compute; reflexivity.
Qed.

Lemma decode_length_loop_outcome fuel k v s s' o :
  (k + fuel = 4)%nat → 0 ≤ v < 128 ^ Z.of_nat k →
  decode_remaining_length_loop fuel (128 ^ Z.of_nat k) v (Z.of_nat k) s = (s', o) →
  length_outcome s' o.
Proof.
  revert k v s. induction fuel as [|fuel IH]; intros k v s Hk Hv E.
  { simpl in E. rewrite (proj2 (Z.leb_le 4 (Z.of_nat k))) in E by lia.
    unfold throw in E. by simplify_eq/=. }
  destruct s as [[|b l] e].
  { cbn [decode_remaining_length_loop] in E.
    rewrite (proj2 (Z.leb_gt 4 (Z.of_nat k))) in E by lia. unfold mbind, M_bind in E. destruct e; by simplify_eq/=. }
  pose proof (pow128_le3 k ltac:(lia)) as Hp.
  destruct (byte_group b) as (m & c & Hm & ->). rewrite decode_turn in E by (done || lia).
  pose proof (turn_value k v m Hv Hm) as Hv'. destruct c.
  - eapply IH; [|exact Hv'|exact E]. lia.
  - simplify_eq. simpl. split; [lia|]. eapply Z.lt_le_trans; [apply Hv'|].
    change (2 ^ 28) with (128 ^ 4). apply Z.pow_le_mono_r; lia.
Qed.

Lemma decode_length_outcome s s' o :
  decode_remaining_length_async s = (s', o) → length_outcome s' o.
Proof. apply (decode_length_loop_outcome 4 0); simpl; lia. Qed.

(** * Strings and bodies on a list *)

Lemma cur_u16_be16 x l :
  is_u16 x → cur_u16 (BC := list_bytes) (be16 x ++ l) = (l, Ok x).
Proof. intros Hx. unfold cur_u16, cur. simpl. by rewrite of_be16_be16, as_u16_small. Qed.

Lemma be16_of_be16 hi lo : be16 (of_be16 hi lo) = [hi; lo].
Proof.
  pose proof (byte.unsigned_range lo). unfold be16, of_be16. f_equal; [|f_equal].
  - rewrite Z.shiftr_div_pow2, Z.div_add_l, Z.div_small by lia.
    rewrite Z.add_0_r. apply byte.of_Z_unsigned.
  - apply byte.unsigned_inj. rewrite byte.unsigned_of_Z. unfold byte.wrap.
    rewrite Z.add_comm, Z.mod_add by lia. apply Z.mod_small. lia.
Qed.

Lemma cur_slice_app n k l :
  n = zlen k → cur_slice (BC := list_bytes) n (k ++ l) = (l, Ok k).
Proof.
  intros ->. unfold cur_slice, cur; simpl. unfold front_slice.
  rewrite zlen_app, (proj2 (Z.leb_le _ _)) by (pose proof (zlen_nonneg l); lia).
  by rewrite zlen_to_nat, drop_app_length, take_app_length.
Qed.

Lemma str_len_nonneg s : 0 ≤ str_len s.
Proof. apply zlen_nonneg. Qed.

Lemma cur_slice_rest n (l : Bytes) :
  n = zlen l → cur_slice (BC := list_bytes) n l = ([], Ok l).
Proof. intros Hn. pose proof (cur_slice_app n l [] Hn) as H. by rewrite app_nil_r in H. Qed.

Lemma decode_string_app s l :
  wire_string s → decode_string (BC := list_bytes) (string_bytes s ++ l) = (l, Ok s).
Proof.
  intros [Hu Hl]. pose proof (str_len_nonneg s). pose proof (zlen_nonneg l).
  unfold decode_string, string_bytes. rewrite as_u16_small, <- app_assoc by (unfold is_u16; lia).
  rewrite bind_gets. rewrite (proj2 (Z.ltb_ge _ _)).
  2:{ simpl. unfold zlen. simpl. lia. }
  erewrite bind_Ok by (apply cur_u16_be16; unfold is_u16; lia).
  rewrite bind_gets, (proj2 (Z.ltb_ge _ _)).
  2:{ simpl. rewrite zlen_app. unfold str_len. lia. }
  erewrite bind_Ok by by apply cur_slice_app.
  by rewrite from_utf8_as_bytes.
Qed.

(** What a decoded string is: its length prefix fits and it is UTF-8. *)
Lemma string_bytes_eq s (hi lo : byte) (k : Bytes) :
  str_len s = of_be16 hi lo → as_bytes s = k → string_bytes s = hi :: lo :: k.
Proof.
  intros Hl <-. unfold string_bytes.
  rewrite Hl, as_u16_small, be16_of_be16 by apply of_be16_range. done.
Qed.

Lemma decode_string_Ok l l' s :
  decode_string (BC := list_bytes) l = (l', Ok s) →
  wire_string s ∧ l = string_bytes s ++ l'.
Proof.
  unfold decode_string. intros E. minv E.
  destruct (remaining l <? 2); minv E.
  unfold cur_u16, cur in E0. destruct l as [|hi [|lo l]]; simpl in E0; simplify_eq.
  match type of E with context [if ?b then _ else _] => destruct b eqn:Hlen end; minv E.
  unfold cur_slice, cur in E0. simpl in E0. unfold front_slice in E0.
  apply Z.ltb_ge in Hlen. simpl in Hlen.
  rewrite (proj2 (Z.leb_le _ _)) in E0 by exact Hlen. simplify_eq.
  pose proof (of_be16_range hi lo) as Hr. unfold is_u16 in Hr.
  destruct (from_utf8 _) as [s1|] eqn:Hs; minv E. apply from_utf8_Some in Hs as [Hs Hu].
  assert (Hl : str_len s = of_be16 hi lo).
  { unfold str_len. rewrite Hs. unfold zlen in *. rewrite length_take. lia. }
  split; [split; [done|lia]|].
  rewrite (string_bytes_eq _ _ _ _ Hl Hs). simpl. by rewrite take_drop.
Qed.
