(* ===== verification/CodecBodies.v ===== *)
(** The body decoders on plain byte lists: each inverts the layout that MQTT
    3.1.1 gives its packet, and each returns. *)

From S2P Require Import Prelude Utf8 External Packet Codec CodecSim CodecLemmas.

Local Open Scope Z_scope.

(** * Loops over a list of entries *)

Section Entries.
Context {B : Type} (enc : B → Bytes) (P : B → Prop)
  (body : list B → M Bytes PacketError (list B)).
Hypothesis body_enc : ∀ x l acc, P x → body acc (enc x ++ l) = (l, Ok (acc ++ [x])).
Hypothesis enc_cons : ∀ x, P x → (0 < length (enc x))%nat.

Lemma while_entries n xs acc :
  Forall P xs → (length (concat (enc <$> xs)) ≤ n)%nat →
  while_loop n (λ c, 0 <? remaining (BytesCrate := list_bytes) c) body acc
    (concat (enc <$> xs)) = ([], Ok (acc ++ xs)).
Proof.
  intros HP. revert n acc. induction HP as [|x xs Hx HP IH]; intros n acc Hn.
  { destruct n; simpl; by rewrite bind_gets, app_nil_r. }
  cbn [fmap list_fmap concat] in Hn |- *. rewrite length_app in Hn.
  specialize (enc_cons x Hx). destruct n as [|n]; [lia|].
  cbn [while_loop]. rewrite bind_gets.
  rewrite (proj2 (Z.ltb_lt _ _)) by (simpl; unfold zlen; rewrite length_app; lia).
  erewrite bind_Ok by by apply body_enc.
  rewrite IH by lia. by rewrite <- app_assoc.
Qed.
End Entries.

(** * SUBSCRIBE and UNSUBSCRIBE *)

Definition filter_bytes (f : string * QoS) : Bytes :=
  string_bytes f.1 ++ [byte.of_Z (qos_as_u8 f.2)].

Definition subscribe_body (p : SubscribePacket) : Bytes :=
  be16 (subscribe_id p) ++ concat (filter_bytes <$> topic_filters p).

Definition wf_subscribe (p : SubscribePacket) : Prop :=
  is_u16 (subscribe_id p) ∧ Forall (λ f, wire_string f.1) (topic_filters p).

Definition unsubscribe_body (p : UnsubscribePacket) : Bytes :=
  be16 (unsubscribe_id p) ++ concat (string_bytes <$> unsub_filters p).

Definition wf_unsubscribe (p : UnsubscribePacket) : Prop :=
  is_u16 (unsubscribe_id p) ∧ Forall wire_string (unsub_filters p).

Lemma length_string_bytes s : length (string_bytes s) = (2 + length (as_bytes s))%nat.
Proof. done. Qed.

Lemma decode_subscribe_body p :
  wf_subscribe p →
  decode_subscribe (BC := list_bytes) (subscribe_body p) = ([], Ok p).
Proof.
  intros [Hid Hf]. unfold decode_subscribe, subscribe_body.
  erewrite bind_Ok by by apply cur_u16_be16.
  rewrite bind_gets. erewrite bind_Ok.
  2:{ apply (while_entries filter_bytes (λ f, wire_string f.1)); [| |done|].
      - intros [t q] l acc Ht. unfold decode_subscribe_entry, filter_bytes; simpl fst; simpl snd.
        rewrite <- app_assoc. erewrite bind_Ok by by apply decode_string_app.
        simpl. destruct q; done.
      - intros [t q] _. unfold filter_bytes. rewrite length_app, length_string_bytes. lia.
      - simpl. unfold zlen. lia. }
  by destruct p.
Qed.

Lemma decode_unsubscribe_body p :
  wf_unsubscribe p →
  decode_unsubscribe (BC := list_bytes) (unsubscribe_body p) = ([], Ok p).
Proof.
  intros [Hid Hf]. unfold decode_unsubscribe, unsubscribe_body.
  erewrite bind_Ok by by apply cur_u16_be16.
  rewrite bind_gets. erewrite bind_Ok.
  2:{ apply (while_entries string_bytes wire_string); [| |done|].
      - intros t l acc Ht. unfold decode_unsubscribe_entry.
        by erewrite bind_Ok by by apply decode_string_app.
      - intros t _. rewrite length_string_bytes. lia.
      - simpl. unfold zlen. lia. }
  by destruct p.
Qed.

(** * PUBLISH *)

Lemma publish_flags_bits p :
  Z.land (publish_flags p) 0x0F =
  Z.b2z (dup p) * 8 + qos_as_u8 (qos p) * 2 + Z.b2z (retain p).
Proof. unfold publish_flags. by destruct (dup p), (qos p), (retain p). Qed.

Lemma decode_publish_body p :
  wf_publish p →
  decode_publish (BC := list_bytes) (Z.land (publish_flags p) 0x0F) (publish_body p) =
  ([], Ok p).
Proof.
  intros [Ht Hid _]. unfold decode_publish, publish_body. rewrite publish_flags_bits.
  destruct p as [t id pl q r d]; simpl in *.
  erewrite bind_Ok by by apply decode_string_app.
  assert (qos_of_bits (Z.land (Z.shiftr (Z.b2z d * 8 + qos_as_u8 q * 2 + Z.b2z r) 1) 0x03)
          = Some q) as -> by (by destruct d, q, r).
  assert (negb (Z.land (Z.b2z d * 8 + qos_as_u8 q * 2 + Z.b2z r) 0x01 =? 0) = r) as ->
    by (by destruct d, q, r).
  assert (negb (Z.land (Z.b2z d * 8 + qos_as_u8 q * 2 + Z.b2z r) 0x08 =? 0) = d) as ->
    by (by destruct d, q, r).
  rewrite bind_ret. destruct id as [id|].
  - destruct Hid as [Hid Hq].
    transitivity ((id' ← (id' ← cur_u16 (BC := list_bytes); mret (Some id'));
                   payload_len ← gets (remaining (BytesCrate := list_bytes));
                   payload ← cur_slice (BC := list_bytes) payload_len;
                   mret (mkPublish t id' payload q r d)) (be16 id ++ pl)).
    { by destruct q. }
    rewrite bind_assoc. erewrite bind_Ok by by apply cur_u16_be16.
    rewrite bind_ret, bind_gets. by erewrite bind_Ok by by apply cur_slice_rest.
  - subst q. rewrite bind_ret, bind_gets. by erewrite bind_Ok by by apply cur_slice_rest.
Qed.

(** * CONNECT *)

Definition connect_flags (p : ConnectPacket) : Z :=
  Z.b2z (bool_decide (is_Some (username p))) * 128
  + Z.b2z (bool_decide (is_Some (password p))) * 64
  + Z.b2z (will_retain p) * 32 + qos_as_u8 (will_qos p) * 8
  + Z.b2z (will_flag p) * 4 + Z.b2z (clean_session p) * 2.

Definition blob_bytes (l : Bytes) : Bytes := be16 (zlen l) ++ l.

(** The variable header and payload of a CONNECT. *)
Definition connect_body (p : ConnectPacket) : Bytes :=
  string_bytes (protocol_name p)
    ++ byte.of_Z (protocol_level p) :: byte.of_Z (connect_flags p)
    :: be16 (keep_alive p) ++ string_bytes (client_id p)
    ++ from_option string_bytes [] (will_topic p)
    ++ from_option blob_bytes [] (will_payload p)
    ++ from_option string_bytes [] (username p)
    ++ from_option blob_bytes [] (password p).

Definition wire_blob (l : Bytes) : Prop := is_u16 (zlen l).

Record wf_connect (p : ConnectPacket) : Prop := {
  wf_protocol_name : wire_string (protocol_name p);
  wf_protocol_level : 0 ≤ protocol_level p < 256;
  wf_keep_alive : is_u16 (keep_alive p);
  wf_client_id : wire_string (client_id p);
  wf_will : if will_flag p then
              ∃ t l, will_topic p = Some t ∧ will_payload p = Some l ∧
                     wire_string t ∧ wire_blob l
            else will_topic p = None ∧ will_payload p = None ∧ will_qos p = AtMostOnce;
  wf_username : match username p with Some u => wire_string u | None => password p = None end;
  wf_password : from_option wire_blob True (password p);
}.

Lemma connect_flags_bits p :
  0 ≤ connect_flags p < 256 ∧
  negb (Z.land (connect_flags p) 0x04 =? 0) = will_flag p ∧
  qos_of_bits (Z.land (Z.shiftr (connect_flags p) 3) 0x03) = Some (will_qos p) ∧
  negb (Z.land (connect_flags p) 0x20 =? 0) = will_retain p ∧
  negb (Z.land (connect_flags p) 0x80 =? 0) = bool_decide (is_Some (username p)) ∧
  negb (Z.land (connect_flags p) 0x40 =? 0) = bool_decide (is_Some (password p)) ∧
  negb (Z.land (connect_flags p) 0x02 =? 0) = clean_session p.
Proof.
  unfold connect_flags.
  destruct (bool_decide (is_Some (username p))), (bool_decide (is_Some (password p))),
    (will_retain p), (will_qos p), (will_flag p), (clean_session p);
    vm_compute; repeat split; congruence.
Qed.

Lemma cur_u8_cons b l :
  cur_u8 (BC := list_bytes) (b :: l) = (l, Ok (byte.unsigned b)).
Proof. done. Qed.

(** Each optional part reads back what announced it wrote. *)

Lemma decode_will_bytes (f : bool) t l rest :
  (if f then ∃ t' l', t = Some t' ∧ l = Some l' ∧ wire_string t' ∧ wire_blob l'
   else t = None ∧ l = None) →
  decode_will (BC := list_bytes) f
    (from_option string_bytes [] t ++ from_option blob_bytes [] l ++ rest) = (rest, Ok (t, l)).
Proof.
  destruct f; [|by intros [-> ->]]. intros (t' & l' & -> & -> & Ht & Hl).
  unfold decode_will; simpl from_option. erewrite bind_Ok by by apply decode_string_app.
  unfold blob_bytes. rewrite <- app_assoc.
  erewrite bind_Ok by by apply cur_u16_be16. by erewrite bind_Ok by by apply cur_slice_app.
Qed.

Lemma decode_username_bytes u rest :
  from_option wire_string True u →
  decode_username (BC := list_bytes) (bool_decide (is_Some u))
    (from_option string_bytes [] u ++ rest) = (rest, Ok u).
Proof.
  destruct u as [u|]; [|done]. intros Hu. unfold decode_username. simpl from_option.
  rewrite bool_decide_true by done. by erewrite bind_Ok by by apply decode_string_app.
Qed.

Lemma decode_password_bytes pw rest :
  from_option wire_blob True pw →
  decode_password (BC := list_bytes) (bool_decide (is_Some pw))
    (from_option blob_bytes [] pw ++ rest) = (rest, Ok pw).
Proof.
  destruct pw as [l|]; [|done]. intros Hl. pose proof (zlen_nonneg l). pose proof (zlen_nonneg rest).
  unfold decode_password. simpl from_option. rewrite bool_decide_true by done.
  unfold blob_bytes.
  rewrite <- app_assoc, bind_gets, (proj2 (Z.ltb_ge _ _)).
  2:{ simpl. unfold zlen. simpl. lia. }
  erewrite bind_Ok by by apply cur_u16_be16.
  rewrite bind_gets, (proj2 (Z.ltb_ge _ _)) by (simpl; rewrite zlen_app; lia).
  by erewrite bind_Ok by by apply cur_slice_app.
Qed.

Lemma decode_connect_body p :
  wf_connect p → decode_connect (BC := list_bytes) (connect_body p) = ([], Ok p).
Proof.
  intros [Hn Hl Hk Hc Hw Hu Hp].
  destruct (connect_flags_bits p) as (Hf & F1 & F2 & F3 & F4 & F5 & F6).
  unfold decode_connect, connect_body.
  erewrite bind_Ok by by apply decode_string_app.
  rewrite (bind_Ok _ _ _ _ _ (cur_u8_cons _ _)), (bind_Ok _ _ _ _ _ (cur_u8_cons _ _)).
  rewrite !unsigned_of_u8 by done.
  erewrite bind_Ok by by apply cur_u16_be16.
  erewrite bind_Ok by by apply decode_string_app.
  rewrite F1, F3, F4, F5, F6.
  assert (decode_will_qos (BC := list_bytes) (will_flag p) (connect_flags p)
          = mret (will_qos p)) as ->.
  { unfold decode_will_qos. rewrite F2.
    destruct (will_flag p); [done|]. by destruct Hw as (_ & _ & ->). }
  rewrite bind_ret.
  assert (bool_decide (is_Some (password p)) && negb (bool_decide (is_Some (username p))) = false)
    as ->.
  { destruct (username p); simpl; [by rewrite andb_false_r|]. by rewrite Hu. }
  erewrite bind_Ok.
  2:{ apply decode_will_bytes. destruct (will_flag p); [done|]. destruct Hw as (-> & -> & _). done. }
  erewrite bind_Ok; [|apply decode_username_bytes; revert Hu; by destruct (username p)].
  rewrite <- (app_nil_r (from_option blob_bytes [] (password p))).
  erewrite bind_Ok by by apply decode_password_bytes.
  by destruct p.
Qed.

(** * Frames

    A packet on a stream: the first byte, the length of the body, the body. *)
Definition frame (first : Z) (body : Bytes) : Bytes :=
  byte.of_Z first :: varint (zlen body) ++ body.
Arguments frame : simpl never.

Lemma decode_frame first ty flags body rest e :
  0 ≤ first < 256 → packet_type_try_from (Z.land (Z.shiftr first 4) 0x0F) = inl ty →
  flags = Z.land first 0x0F → zlen body < 2 ^ 28 →
  decode (BC := list_bytes) (istream (frame first body ++ rest) e) =
  (istream rest e, (decode_body (BC := list_bytes) ty flags (zlen body) body).2).
Proof.
  intros Hf Hty -> Hb. unfold decode, frame. simpl app.
  rewrite (bind_Ok _ _ _ _ _ (read_u8_cons _ _ _)), unsigned_of_u8 by done.
  rewrite Hty. simpl or_throw. rewrite bind_ret, <- app_assoc.
  erewrite bind_Ok by (apply decode_varint; pose proof (zlen_nonneg body); lia).
  erewrite bind_Ok; [done|].
  unfold map_err. simpl. unfold incoming_exact. simpl.
  rewrite zlen_app, (proj2 (Z.leb_le _ _)) by (pose proof (zlen_nonneg rest); lia).
  by rewrite zlen_to_nat, drop_app_length, take_app_length.
Qed.

(** * The body decoders return *)

Section Returns.
Abbreviation M' := (M Bytes PacketError).

Lemma returns_cur {A} (get : Bytes → Bytes * option A) :
  returns (cur (BC := list_bytes) get).
Proof. intros l. unfold cur. by destruct (get l) as [? []]. Qed.
Hint Resolve returns_cur : returns.

Lemma returns_decode_string : returns (decode_string (BC := list_bytes)).
Proof. unfold decode_string, cur_u16, cur_slice. solve_returns. Qed.
Hint Resolve returns_decode_string : returns.

Lemma returns_decode_connect : returns (decode_connect (BC := list_bytes)).
Proof.
  unfold decode_connect, decode_will_qos, decode_will, decode_username, decode_password,
    cur_u8, cur_u16, cur_slice. solve_returns.
Qed.

Lemma returns_decode_publish flags : returns (decode_publish (BC := list_bytes) flags).
Proof. unfold decode_publish, cur_u16, cur_slice. solve_returns. Qed.

(** Every turn of the two loops reads a string, so at least two bytes. *)
Lemma decode_string_shorter l l' s :
  decode_string (BC := list_bytes) l = (l', Ok s) → (length l' < length l)%nat.
Proof.
  intros [_ ->]%decode_string_Ok. rewrite length_app, length_string_bytes. lia.
Qed.

Lemma returns_entries {A} (body : A → M' A) acc l :
  (∀ a, returns (body a)) →
  (∀ a l l' a', body a l = (l', Ok a') → (length l' < length l)%nat) →
  (while_loop (Z.to_nat (zlen l))
     (λ c, 0 <? remaining (BytesCrate := list_bytes) c) body acc l).2 ≠ Pending.
Proof.
  intros Hr Hd. apply (returns_while length); eauto.
  - intros s. simpl. unfold zlen. lia.
  - by rewrite zlen_to_nat.
Qed.

Lemma returns_loop {A} (body : A → M' A) acc {B} (k : A → M' B) :
  (∀ a, returns (body a)) →
  (∀ a l l' a', body a l = (l', Ok a') → (length l' < length l)%nat) →
  (∀ a, returns (k a)) →
  returns (left ← gets (remaining (BytesCrate := list_bytes));
           x ← while_loop (Z.to_nat left)
                 (λ c, 0 <? remaining (BytesCrate := list_bytes) c) body acc; k x).
Proof.
  intros Hr Hd Hk l. rewrite bind_gets. simpl.
  pose proof (returns_entries body acc l Hr Hd) as H. unfold mbind, M_bind.
  destruct (while_loop _ _ _ _ _) as [l' [a| | |]]; try done. apply Hk.
Qed.

Lemma returns_decode_subscribe : returns (decode_subscribe (BC := list_bytes)).
Proof.
  unfold decode_subscribe. apply returns_bind; [apply returns_cur|]. intros id.
  apply returns_loop; [| |solve_returns].
  - unfold decode_subscribe_entry, cur_u8. solve_returns.
  - unfold decode_subscribe_entry. intros acc l l' acc' E. minv E.
    apply decode_string_shorter in E0. unfold cur_u8, cur in E1.
    destruct s as [|b s]; simplify_eq/=. destruct (qos_of_bits _); minv E. simpl in *; lia.
Qed.

Lemma returns_decode_unsubscribe : returns (decode_unsubscribe (BC := list_bytes)).
Proof.
  unfold decode_unsubscribe. apply returns_bind; [apply returns_cur|]. intros id.
  apply returns_loop; [| |solve_returns].
  - unfold decode_unsubscribe_entry. solve_returns.
  - unfold decode_unsubscribe_entry. intros acc l l' acc' E. minv E.
    by apply decode_string_shorter in E0.
Qed.
Hint Resolve returns_decode_connect returns_decode_publish returns_decode_subscribe
  returns_decode_unsubscribe : returns.

Lemma returns_decode_body ty flags n : returns (decode_body (BC := list_bytes) ty flags n).
Proof. unfold decode_body, decode_ack, cur_u16. solve_returns. Qed.
End Returns.
