(* ===== verification/CodecFacts.v ===== *)
(** Properties of the packet codec: round trips, the limits of the length
    field, what a decoded packet satisfies, and the ways [decode] can go wrong
    (panics and lost bytes). *)

From S2P Require Import Prelude Utf8 External Packet Codec CodecSim CodecLemmas.
From S2P Require Import CodecBodies.

Local Open Scope Z_scope.

(** The packets that both ends send: the decoder accepts what [encode] writes. *)
Definition wf_two_way (p : Packet) : Prop :=
  match p with
  | Publish p => wf_publish p
  | PubAck p => is_u16 (puback_id p)
  | PubRec p => is_u16 (pubrec_id p)
  | PubRel p => is_u16 (pubrel_id p)
  | PubComp p => is_u16 (pubcomp_id p)
  | Disconnect => True
  | _ => False
  end.

(** The layout MQTT 3.1.1 gives the packets that only a client sends. *)
Definition client_frame (p : Packet) : option Bytes :=
  match p with
  | Connect p => Some (frame 0x10 (connect_body p))
  | Subscribe p => Some (frame 0x82 (subscribe_body p))
  | Unsubscribe p => Some (frame 0xA2 (unsubscribe_body p))
  | PingReq => Some (frame 0xC0 [])
  | _ => None
  end.

Definition wf_client (p : Packet) : Prop :=
  match p with
  | Connect p => wf_connect p ∧ zlen (connect_body p) < 2 ^ 28
  | Subscribe p => wf_subscribe p ∧ zlen (subscribe_body p) < 2 ^ 28
  | Unsubscribe p => wf_unsubscribe p ∧ zlen (unsubscribe_body p) < 2 ^ 28
  | _ => True
  end.

(** What the fields of a decoded packet satisfy; the packets that only a server
    sends are not decoded. *)
Definition wf_decoded (p : Packet) : Prop :=
  match p with
  | Publish p =>
      wire_string (topic p) ∧
      match packet_id p with
      | Some id => is_u16 id ∧ qos p ≠ AtMostOnce
      | None => qos p = AtMostOnce
      end
  | PubAck p => is_u16 (puback_id p)
  | PubRec p => is_u16 (pubrec_id p)
  | PubRel p => is_u16 (pubrel_id p)
  | PubComp p => is_u16 (pubcomp_id p)
  | Connect p => wf_connect p
  | Subscribe p => wf_subscribe p
  | Unsubscribe p => wf_unsubscribe p
  | PingReq | Disconnect => True
  | ConnAck _ | SubAck _ | UnsubAck _ | PingResp => False
  end.

Lemma id_bytes_frame first id : id_bytes first id = frame first (be16 id).
Proof. done. Qed.

Lemma publish_flags_range p :
  0 ≤ publish_flags p < 256 ∧
  packet_type_try_from (Z.land (Z.shiftr (publish_flags p) 4) 0x0F) = inl TPublish.
Proof.
  unfold publish_flags.
  destruct (dup p), (qos p), (retain p); vm_compute; repeat split; congruence.
Qed.

Lemma decode_ack_be16 {A} t (mk : Z → A) id :
  is_u16 id → (decode_ack (BC := list_bytes) t 2 mk (be16 id)).2 = Ok (mk id).
Proof.
  intros Hid. pose proof (cur_u16_be16 id [] Hid) as H. rewrite app_nil_r in H.
  unfold decode_ack. change (negb (2 =? 2)) with false. cbv iota.
  by rewrite (bind_Ok _ _ _ _ _ H).
Qed.

Lemma decode_id_frame first ty id rest e p :
  0 ≤ first < 256 → packet_type_try_from (Z.land (Z.shiftr first 4) 0x0F) = inl ty →
  (decode_body (BC := list_bytes) ty (Z.land first 0x0F) 2 (be16 id)).2 = Ok p →
  decode (BC := list_bytes) (istream (id_bytes first id ++ rest) e) = (istream rest e, Ok p).
Proof.
  intros Hf Hty Hp. rewrite id_bytes_frame. erewrite decode_frame by done.
  by change (zlen (be16 id)) with 2; rewrite Hp.
Qed.

Lemma decode_publish_frame p rest e :
  wf_publish p →
  decode (BC := list_bytes) (istream (packet_bytes (Publish p) ++ rest) e) =
  (istream rest e, Ok (Publish p)).
Proof.
  intros Hp. destruct (publish_flags_range p) as [Hf Hty]. cbn [packet_bytes].
  assert (Hl : 0 ≤ zlen (publish_body p) < 2 ^ 28).
  { split; [apply zlen_nonneg|]. rewrite zlen_publish_body.
    destruct Hp. destruct (bool_decide _); lia. }
  rewrite as_u32_small by (unfold is_u32; lia).
  change (byte.of_Z ?f :: varint (zlen ?b) ++ ?b) with (frame f b).
  erewrite decode_frame by (done || apply Hl).
  unfold decode_body. by rewrite (bind_Ok _ _ _ _ _ (decode_publish_body p Hp)).
Qed.

(** [decode] on the list model inverts [packet_bytes]. *)
Lemma decode_packet_bytes p rest e :
  wf_two_way p →
  decode (BC := list_bytes) (istream (packet_bytes p ++ rest) e) = (istream rest e, Ok p).
Proof.
  destruct p as [| |p|[id]|[id]|[id]|[id]| | | | | | |]; try done; intros Hp;
    [by apply decode_publish_frame|..|by apply (decode_frame 0xE0 TDisconnect 0 [])];
    eapply decode_id_frame; try done;
    (etransitivity; [apply (decode_ack_be16 _ _ id); exact Hp|done]).
Qed.

Lemma decode_client_frame p bs rest e :
  client_frame p = Some bs → wf_client p →
  decode (BC := list_bytes) (istream (bs ++ rest) e) = (istream rest e, Ok p).
Proof.
  destruct p as [p| | | | | | |p| |p| | | |]; cbn [client_frame wf_client];
    intros [= <-]; [intros [Hp Hl]..|intros _];
    erewrite decode_frame by done; unfold decode_body.
  - by rewrite (bind_Ok _ _ _ _ _ (decode_connect_body p ltac:(done))).
  - by rewrite (bind_Ok _ _ _ _ _ (decode_subscribe_body p ltac:(done))).
  - by rewrite (bind_Ok _ _ _ _ _ (decode_unsubscribe_body p ltac:(done))).
  - done.
Qed.

Lemma cur_u16_Ok l l' n : cur_u16 (BC := list_bytes) l = (l', Ok n) → is_u16 n.
Proof.
  unfold cur_u16, cur. intros E. destruct l as [|hi [|lo l]]; simplify_eq/=. apply of_be16_range.
Qed.

Lemma cur_u8_Ok l l' n : cur_u8 (BC := list_bytes) l = (l', Ok n) → 0 ≤ n < 256.
Proof.
  unfold cur_u8, cur. intros E. destruct l as [|b l]; simplify_eq/=. apply byte.unsigned_range.
Qed.

Lemma cur_slice_Ok n l l' bs : is_u16 n → cur_slice (BC := list_bytes) n l = (l', Ok bs) → wire_blob bs.
Proof.
  unfold cur_slice, cur, wire_blob. cbn. unfold front_slice. intros Hn E.
  destruct (Z.leb_spec n (zlen l)) as [Hl|]; simplify_eq/=. unfold zlen, is_u16 in *. rewrite length_take. lia.
Qed.

(** A length and as many bytes. *)
Lemma decode_will_Ok flag l l' t b :
  decode_will (BC := list_bytes) flag l = (l', Ok (t, b)) →
  if flag then ∃ s bs, t = Some s ∧ b = Some bs ∧ wire_string s ∧ wire_blob bs else t = None ∧ b = None.
Proof.
  unfold decode_will. destruct flag; intros E; minv E; [|done].
  apply decode_string_Ok in E0 as [Ht _]. apply cur_u16_Ok in E1. eexists _, _.
  split_and!; [done..|]. by eapply cur_slice_Ok.
Qed.

Lemma decode_username_Ok flag l l' u :
  decode_username (BC := list_bytes) flag l = (l', Ok u) →
  if flag then ∃ s, u = Some s ∧ wire_string s else u = None.
Proof.
  unfold decode_username. destruct flag; intros E; minv E; [|done].
  apply decode_string_Ok in E0 as [Ht _]. by eexists.
Qed.

Lemma decode_password_Ok flag l l' b :
  decode_password (BC := list_bytes) flag l = (l', Ok b) →
  (flag = false → b = None) ∧ from_option wire_blob True b.
Proof.
  unfold decode_password. destruct flag; intros E; minv E; [|done].
  destruct (_ <? 2); minv E. match type of E with context [if ?c then _ else _] => destruct c end; minv E.
  split; [done|]. apply cur_u16_Ok in E0. by eapply cur_slice_Ok.
Qed.

Lemma decode_connect_Ok l l' p :
  decode_connect (BC := list_bytes) l = (l', Ok p) → wf_connect p.
Proof.
  unfold decode_connect. intros E. minv E.
  match type of E with context [if ?c then _ else _] => destruct c eqn:Hup end; minv E.
  repeat match goal with
  | H : decode_string _ = _ |- _ => apply decode_string_Ok in H as [? _]
  | H : cur_u8 _ = _ |- _ => apply cur_u8_Ok in H
  | H : cur_u16 _ = _ |- _ => apply cur_u16_Ok in H
  | H : decode_username _ _ = _ |- _ => apply decode_username_Ok in H
  | H : decode_password _ _ = _ |- _ => apply decode_password_Ok in H as [Hnone Hblob]
  end.
  destruct a5 as [t b]. match goal with H : decode_will _ _ = _ |- _ => apply decode_will_Ok in H as Hwill end.
  split; cbn; try done.
  - destruct (negb _) eqn:Hflag; [exact Hwill|]. destruct Hwill as [-> ->]. split_and!; [done..|].
    match goal with H : decode_will_qos _ _ _ = _ |- _ => unfold decode_will_qos in H; by minv H end.
  - destruct (negb (Z.land _ 128 =? 0)); [by match goal with H : ∃ _, _ |- _ => destruct H as (? & -> & ?) end|].
    subst. rewrite andb_true_r in Hup. by apply Hnone.
Qed.

(** What a loop collects satisfies what each turn adds. *)
Lemma while_collects {A} (P : A → Prop) n cond body acc l l' r :
  (∀ acc l l' r, body acc l = (l', Ok r) → Forall P acc → Forall P r) → Forall P acc →
  while_loop (St := Bytes) (E := PacketError) n cond body acc l = (l', Ok r) → Forall P r.
Proof.
  intros Hb. revert acc l. induction n as [|n IH]; intros acc l Ha; cbn [while_loop]; rewrite bind_gets;
    destruct (cond l); intros E; try done; minv E; try done.
  eapply IH; [|exact E]. by eapply Hb.
Qed.

Lemma decode_subscribe_Ok l l' p : decode_subscribe (BC := list_bytes) l = (l', Ok p) → wf_subscribe p.
Proof.
  unfold decode_subscribe. intros E. minv E. apply cur_u16_Ok in E0. split; [done|]. cbn.
  eapply while_collects; [|apply Forall_nil_2|exact E1].
  clear. unfold decode_subscribe_entry. intros acc l l' r E Ha. minv E. apply decode_string_Ok in E0 as [Ht _].
  destruct (qos_of_bits _); minv E. apply Forall_app. split; [done|]. by apply Forall_singleton.
Qed.

Lemma decode_unsubscribe_Ok l l' p : decode_unsubscribe (BC := list_bytes) l = (l', Ok p) → wf_unsubscribe p.
Proof.
  unfold decode_unsubscribe. intros E. minv E. apply cur_u16_Ok in E0. split; [done|]. cbn.
  eapply while_collects; [|apply Forall_nil_2|exact E1].
  clear. unfold decode_unsubscribe_entry. intros acc l l' r E Ha. minv E. apply decode_string_Ok in E0 as [Ht _].
  apply Forall_app. split; [done|]. by apply Forall_singleton.
Qed.

Lemma decode_publish_Ok flags l l' p :
  decode_publish (BC := list_bytes) flags l = (l', Ok p) → wf_decoded (Publish p).
Proof.
  unfold decode_publish. intros E. minv E. apply decode_string_Ok in E0 as [Ht _].
  destruct (qos_of_bits _) as [q|]; [|done]. minv E1.
  split; [done|]. simpl.
  destruct a0; [by minv E2|..]; minv E2; unfold cur_u16, cur in E;
    destruct s0 as [|hi [|lo s0]]; simplify_eq/=; (split; [apply of_be16_range|done]).
Qed.

Lemma decode_ack_Ok {A} t n (mk : Z → A) l l' x :
  decode_ack (BC := list_bytes) t n mk l = (l', Ok x) → ∃ id, is_u16 id ∧ x = mk id.
Proof.
  unfold decode_ack. intros E. destruct (negb _); minv E.
  unfold cur_u16, cur in E0. destruct l as [|hi [|lo l]]; simplify_eq/=.
  eexists. split; [apply of_be16_range|done].
Qed.

Lemma decode_body_Ok ty flags n l l' p :
  decode_body (BC := list_bytes) ty flags n l = (l', Ok p) → wf_decoded p.
Proof.
  destruct ty; cbn [decode_body]; intros E; minv E; try done;
    try (by apply decode_publish_Ok in E0);
    try (by eapply decode_connect_Ok);
    try (by eapply decode_subscribe_Ok); try (by eapply decode_unsubscribe_Ok);
    try (destruct (negb _); minv E);
    try (apply decode_ack_Ok in E as (id & Hid & ->); exact Hid).
Qed.

(** A run of [decode] on the list model, taken apart: the type was read, then
    the length, then the body. *)
Lemma decode_inv s s' o :
  decode (BC := list_bytes) s = (s', o) →
  (o ≠ Panic ∧ (o = Pending → arrived s' = []) ∧ ∀ p, o ≠ Ok p) ∨
  ∃ ty flags n data,
    o = (decode_body (BC := list_bytes) ty flags n data).2.
Proof.
  unfold decode. intros E. destruct s as [[|b l] e].
  { left. unfold mbind, M_bind in E. destruct e; by simplify_eq/=. }
  rewrite (bind_Ok _ _ _ _ _ (read_u8_cons _ _ _)) in E.
  destruct (packet_type_try_from _) as [ty|err]; [|left; by unfold mbind, M_bind in E; simplify_eq/=].
  simpl or_throw in E. rewrite bind_ret in E.
  destruct (decode_remaining_length_async (istream l e)) as [s1 o1] eqn:El.
  pose proof (decode_length_outcome _ _ _ El) as Ho1.
  unfold mbind, M_bind in E. rewrite El in E.
  destruct o1 as [n|err| |]; [|left; simplify_eq; done|done|left; simplify_eq; done].
  destruct (map_err Io (read_exact n) s1) as [s2 o2] eqn:Er.
  unfold map_err in Er. simpl in Er. unfold incoming_exact in Er.
  destruct (n <=? zlen (arrived s1)).
  - simplify_eq/=. right. unfold on_cursor in E. injection E as _ <-. by do 4 eexists.
  - left. destruct s1 as [l1 [err|]]; simplify_eq/=; done.
Qed.

(** ** Waiting

    A decoder waits only on a stream that is still open, and reading does not
    end one. *)
Definition waits_open {A} (m : M Incoming PacketError A) : Prop :=
  ∀ s, ended (m s).1 = ended s ∧ ((m s).2 = Pending → ended s = None).

Lemma waits_open_bind {A B} (m : M Incoming PacketError A) (k : A → M Incoming PacketError B) :
  waits_open m → (∀ a, waits_open (k a)) → waits_open (m ≫= k).
Proof.
  intros Hm Hk s. destruct (Hm s) as [H1 H2]. unfold mbind, M_bind.
  destruct (m s) as [s1 [a|e| |]]; cbn in H1, H2 |- *; try done; [|by auto].
  destruct (Hk a s1) as [H3 H4]. rewrite <- H1. auto.
Qed.

Lemma waits_open_or_throw {A} (r : A + PacketError) : waits_open (or_throw r).
Proof. by destruct r. Qed.

Lemma waits_open_read_u8 : waits_open (map_err Io (read_u8 (R := Incoming))).
Proof.
  intros [[|b l] [e|]]; unfold map_err; cbn; by split.
Qed.

Lemma waits_open_read_exact n : waits_open (map_err Io (read_exact (R := Incoming) n)).
Proof.
  intros [l e]. unfold map_err. cbn. unfold incoming_exact, dry. cbn.
  destruct (n <=? zlen l); [by split|]. destruct e; by split.
Qed.

Lemma waits_open_u32_checked z : waits_open (u32_checked z).
Proof. intros s. unfold u32_checked. destruct (_ && _); by split. Qed.

Lemma waits_open_length fuel mult value count :
  4 ≤ count + Z.of_nat fuel →
  waits_open (decode_remaining_length_loop (R := Incoming) fuel mult value count).
Proof.
  revert mult value count. induction fuel as [|fuel IH]; intros mult value count Hf;
    cbn [decode_remaining_length_loop]; (destruct (Z.leb_spec 4 count); [by intros s|]).
  - lia.
  - apply waits_open_bind; [apply waits_open_read_u8|]. intros b.
    apply waits_open_bind; [apply waits_open_u32_checked|]. intros t.
    apply waits_open_bind; [apply waits_open_u32_checked|]. intros v.
    destruct (_ =? 0); [by intros s|].
    apply waits_open_bind; [apply waits_open_u32_checked|]. intros m. apply IH. lia.
Qed.

Lemma waits_open_decode : waits_open (decode (BC := list_bytes)).
Proof.
  unfold decode. apply waits_open_bind; [apply waits_open_read_u8|]. intros b.
  apply waits_open_bind; [apply waits_open_or_throw|]. intros ty. cbv zeta.
  apply waits_open_bind; [by apply waits_open_length|]. intros n.
  apply waits_open_bind; [apply waits_open_read_exact|]. intros data s. split; [done|].
  intros H. by destruct (returns_decode_body ty (Z.land b 15) n data).
Qed.

(** * Properties *)

Section Properties.
Context {BC : BytesCrate} {BL : BytesLaws} {R : Type} {AR : AsyncRead R}
  {ARL : AsyncReadLaws R}.

(** A stream that starts with the bytes of a packet. *)
Lemma decode_from (p : Packet) (r : R) rest :
  wf_two_way p → arrived (incoming r) = packet_bytes p ++ rest →
  ∃ r', decode r = (r', Ok p) ∧ incoming r' = mkIncoming rest (ended (incoming r)).
Proof.
  intros Hp Hr. apply (sim_inv _ _ _ _ _ _ sim_decode).
  destruct (incoming r) as [l e]; cbn [arrived ended] in *. subst l. by apply decode_packet_bytes.
Qed.

(** C20: a packet that both ends send is decoded, from any stream that starts
    with its encoding, to itself, and the stream is left at what follows it. *)
Theorem decode_encode (p : Packet) (r : R) rest :
  wf_two_way p →
  arrived (incoming r) = as_slice (encode p bytes_new) ++ rest →
  ∃ r', decode r = (r', Ok p) ∧ incoming r' = mkIncoming rest (ended (incoming r)).
Proof.
  intros Hp Hr. rewrite encode_app, as_slice_new in Hr. by apply decode_from.
Qed.

(** C21: CONNECT, SUBSCRIBE, UNSUBSCRIBE and PINGREQ laid out as MQTT 3.1.1
    prescribes are decoded to the packet they lay out, and the stream is left
    at what follows. *)
Theorem decode_client (p : Packet) bs (r : R) rest :
  client_frame p = Some bs → wf_client p →
  arrived (incoming r) = bs ++ rest →
  ∃ r', decode r = (r', Ok p) ∧ incoming r' = mkIncoming rest (ended (incoming r)).
Proof.
  intros Hbs Hp Hr. apply (sim_inv _ _ _ _ _ _ sim_decode).
  destruct (incoming r) as [l e]; cbn [arrived ended] in *. subst l. by apply decode_client_frame.
Qed.

(** A remaining length is read back exactly when it is below [2 ^ 28]; a
    longer one (which [encode_remaining_length] writes in five bytes) is
    refused. *)
Theorem remaining_length_roundtrip n (r : R) rest :
  is_u32 n →
  arrived (incoming r) = as_slice (encode_remaining_length n bytes_new) ++ rest →
  ∃ r', if n <? 2 ^ 28 then
          decode_remaining_length_async r = (r', Ok n) ∧
          incoming r' = mkIncoming rest (ended (incoming r))
        else decode_remaining_length_async r = (r', Err InvalidRemainingLength).
Proof.
  intros Hn Hr. rewrite encode_remaining_length_app, as_slice_new in Hr. simpl app in Hr.
  destruct (incoming r) as [l e] eqn:Hi; simpl in Hr; subst l.
  destruct (Z.ltb_spec n (2 ^ 28)) as [Hl|Hl].
  - apply (sim_inv _ _ _ _ _ _ sim_decode_remaining_length). rewrite Hi.
    apply decode_varint. unfold is_u32 in Hn. lia.
  - destruct (decode_overlong n rest e Hl) as [s Hs].
    edestruct (sim_inv incoming _ _ r s (Err InvalidRemainingLength)
                 sim_decode_remaining_length) as (r' & E & _); [by rewrite Hi|eauto].
Qed.

(** On every stream the length decoder overflows no [u32], gives lengths
    below [2 ^ 28] only, and waits only when it has read all there was. *)
Theorem remaining_length_bounds (r r' : R) o :
  decode_remaining_length_async r = (r', o) →
  o ≠ Panic ∧ (∀ n, o = Ok n → 0 ≤ n < 2 ^ 28) ∧
  (o = Pending → arrived (incoming r') = []).
Proof.
  intros E. apply (sim_run incoming _ _ _ _ _ sim_decode_remaining_length) in E.
  apply decode_length_outcome in E.
  split; [|split]; [by intros ->|by intros n ->|by intros ->].
Qed.

Lemma decode_Ok_wf (r r' : R) p : decode r = (r', Ok p) → wf_decoded p.
Proof.
  intros E. apply (sim_run incoming _ _ _ _ _ sim_decode) in E.
  apply decode_inv in E as [(_ & _ & Hp)|(ty & flags & n & data & Ho)]; [naive_solver|].
  destruct (decode_body ty flags n data) as [l o] eqn:Eb; simplify_eq/=.
  by eapply decode_body_Ok.
Qed.

(** C35: every packet [decode] returns is well formed: the topic of a PUBLISH, the
    filters of a SUBSCRIBE or UNSUBSCRIBE, the client identifier, the topic of a
    Will and the user name are UTF-8 of at most 65535 bytes; the message of a Will
    and the password have at most as many bytes; identifiers and the keep-alive
    are [u16]s; a PUBLISH has an identifier exactly above level 0, a CONNECT the
    parts of a Will exactly when it has the flag, and no password without a user
    name.  No packet that only a server sends is returned. *)
Theorem decode_wf (r r' : R) p : decode r = (r', Ok p) → wf_decoded p.
Proof. apply decode_Ok_wf. Qed.

(** C36: [decode] ends on every stream that has ended, whatever has arrived on
    it: its loops stop.  It waits only on an open stream, when bytes are missing,
    and then it has taken all the bytes that were there: a [decode] dropped while
    it waits (the session's [select!] drops it whenever another branch is ready)
    loses the part of the packet that had arrived. *)
Theorem decode_pending_drains (r r' : R) :
  decode r = (r', Pending) → arrived (incoming r') = [] ∧ ended (incoming r) = None.
Proof.
  intros E. apply (sim_run incoming _ _ _ _ _ sim_decode) in E. split.
  - apply decode_inv in E as [(_ & Hp & _)|(ty & flags & n & data & Ho)]; [by apply Hp|].
    by destruct (returns_decode_body ty flags n data).
  - apply (waits_open_decode (incoming r)). by rewrite E.
Qed.

(** C37: a stream that delivers a CONNECT whose data stops after the protocol
    name makes [decode] panic (in [get_u8]), whatever the name. *)
Theorem decode_truncated_connect_panics name (r : R) rest :
  wire_string name →
  arrived (incoming r) = frame 0x10 (string_bytes name) ++ rest →
  ∃ r', decode r = (r', Panic).
Proof.
  intros Hn Hr. edestruct (sim_inv incoming _ _ r (mkIncoming rest (ended (incoming r)))
                             Panic sim_decode) as (r' & E & _); [|eauto].
  destruct (incoming r) as [l e]; cbn [arrived ended] in *. subst l.
  assert (zlen (string_bytes name) = 2 + str_len name) as Hl.
  { unfold zlen. rewrite length_string_bytes. unfold str_len, zlen. lia. }
  destruct Hn as [Hu Hn]. erewrite decode_frame; [|done..|lia].
  f_equal. unfold decode_body, decode_connect. rewrite bind_assoc.
  pose proof (decode_string_app name [] (conj Hu Hn)) as Hs. rewrite app_nil_r in Hs.
  by rewrite (bind_Ok _ _ _ _ _ Hs).
Qed.
End Properties.

(** * Instances *)

Definition sample_publish : PublishPacket :=
  mkPublish "a/b" (Some 7) [Byte.x41] AtLeastOnce true false.

Lemma sample_publish_wf : wf_publish sample_publish.
Proof. split; [split; [vm_compute; reflexivity|reflexivity]|done|reflexivity]. Qed.

Definition sample_connect : ConnectPacket :=
  mkConnect "MQTT" 4 true 60 "dev1" true AtLeastOnce false (Some "last/will"%string)
    (Some [Byte.x62; Byte.x79]) (Some "u"%string) (Some [Byte.x70]).

Lemma decode_encode_witness :
  ∃ r', decode (mkIncoming (wire (Publish sample_publish) ++ [Byte.xc0]) None)
        = (r', Ok (Publish sample_publish)) ∧ incoming r' = mkIncoming [Byte.xc0] None.
Proof.
  refine (decode_encode (BC := list_bytes) (Publish sample_publish)
           (mkIncoming (wire (Publish sample_publish) ++ [Byte.xc0]) None) [Byte.xc0] _ _).
  - apply sample_publish_wf.
  - reflexivity.
Defined.

Lemma decode_client_witness :
  ∃ r', decode (mkIncoming (frame 0x10 (connect_body sample_connect) ++ [Byte.xc0]) None)
        = (r', Ok (Connect sample_connect)) ∧ incoming r' = mkIncoming [Byte.xc0] None.
Proof.
  refine (decode_client (BC := list_bytes) (Connect sample_connect)
           (frame 0x10 (connect_body sample_connect))
           (mkIncoming (frame 0x10 (connect_body sample_connect) ++ [Byte.xc0]) None)
           [Byte.xc0] _ _ _); [reflexivity| |reflexivity].
  split; [|reflexivity].
  split; try (split; reflexivity); try (vm_compute; split; congruence).
  exists "last/will"%string, [Byte.x62; Byte.x79].
  repeat split; vm_compute; congruence.
Defined.

Lemma remaining_length_roundtrip_witness :
  ∃ r', decode_remaining_length_async (mkIncoming (varint 321 ++ [Byte.x00]) None)
        = (r', Ok 321) ∧ incoming r' = mkIncoming [Byte.x00] None.
Proof.
  refine (remaining_length_roundtrip (BC := list_bytes) 321
            (mkIncoming (varint 321 ++ [Byte.x00]) None) [Byte.x00] _ _);
    [vm_compute; split; congruence|reflexivity].
Defined.

Lemma remaining_length_bounds_witness :
  (Ok 127 : outcome PacketError Z) ≠ Panic ∧
  (∀ n, (Ok 127 : outcome PacketError Z) = Ok n → 0 ≤ n < 2 ^ 28) ∧
  ((Ok 127 : outcome PacketError Z) = Pending → arrived (mkIncoming [] None) = []).
Proof.
  refine (remaining_length_bounds (mkIncoming [Byte.x7f] None) (mkIncoming [] None) (Ok 127) _).
  reflexivity.
Defined.

(** A CONNECT with everything, and a SUBSCRIBE. *)
Definition full_connect : ConnectPacket :=
  mkConnect "MQTT" 4 true 60 "c" true AtLeastOnce true (Some "w") (Some [Byte.x00]) (Some "u") (Some [Byte.xff]).

Lemma decode_wf_witness :
  let two := Subscribe (mkSubscribe 7 [("a/#", AtMostOnce); ("b", ExactlyOnce)]) in
  let stream p := mkIncoming (default [] (client_frame p)) None in
  wf_decoded (Publish sample_publish) ∧ wf_decoded (Connect full_connect) ∧ wf_decoded two.
Proof.
  intros two stream. split; [|split].
  - refine (decode_wf (BC := list_bytes) (mkIncoming (wire (Publish sample_publish)) None) (mkIncoming [] None) _ _).
    vm_compute. reflexivity.
  - refine (decode_wf (BC := list_bytes) (stream (Connect full_connect)) (mkIncoming [] None) _ _).
    vm_compute. reflexivity.
  - refine (decode_wf (BC := list_bytes) (stream two) (mkIncoming [] None) _ _). vm_compute. reflexivity.
Defined.

(** A PINGREQ of which one byte has arrived. *)
Lemma decode_pending_drains_witness :
  arrived (mkIncoming [] None) = [] ∧ ended (mkIncoming [Byte.xc0] None) = None.
Proof.
  refine (decode_pending_drains (BC := list_bytes)
            (mkIncoming [Byte.xc0] None) (mkIncoming [] None) _).
  reflexivity.
Defined.

(** The four bytes [10 02 00 00]. *)
Lemma decode_truncated_connect_panics_witness :
  ∃ r', decode (mkIncoming [Byte.x10; Byte.x02; Byte.x00; Byte.x00] None) = (r', Panic).
Proof.
  refine (decode_truncated_connect_panics (BC := list_bytes) EmptyString
            (mkIncoming [Byte.x10; Byte.x02; Byte.x00; Byte.x00] None) [] _ _);
    [split; reflexivity|reflexivity].
Defined.
