(* ===== verification/Topic.v ===== *)
(** Topic names and topic filters: the associated functions of [Router] in
    [src/router.rs] that look only at their arguments, the declarative meaning
    of a filter, and that the code decides it. *)

From S2P Require Import Prelude Packet.
From Equations Require Import Equations.
From Stdlib Require Import Ascii.

(** * The code *)

Definition MAX_SUPPORTED_QOS : Z := 2.

Definition min_qos (a b : QoS) : QoS :=
  let min_val := Z.min (qos_as_u8 a) (qos_as_u8 b) in
  let capped := Z.min min_val MAX_SUPPORTED_QOS in
  match capped with
  | 0%Z => AtMostOnce
  | 1%Z => AtLeastOnce
  | 2%Z => ExactlyOnce
  | _ => ExactlyOnce
  end.

Definition NUL : ascii := "000"%char.
Definition SLASH : ascii := "/"%char.
Definition PLUS : ascii := "+"%char.
Definition HASH : ascii := "#"%char.

Definition validate_publish_topic (topic : string) : bool :=
  if str_is_empty topic then false
  else if str_contains NUL topic then false
  else true.

Definition has_wildcards (filter : string) : bool :=
  str_contains PLUS filter || str_contains HASH filter.

(** One turn of the loop over the levels; a [false] is its [return false]. *)
Definition valid_level (n i : nat) (level : string) : bool :=
  if str_contains HASH level && (negb (String.eqb level "#") || negb (Nat.eqb i (n - 1)))
  then false
  else if str_contains PLUS level && negb (String.eqb level "+") then false
  else true.

Definition validate_subscribe_filter (filter : string) : bool :=
  if str_is_empty filter then false
  else if str_contains NUL filter then false
  else
    let levels := str_split SLASH filter in
    forallb (λ '(i, level), valid_level (length levels) i level) (imap pair levels).

Equations? match_parts (topic_parts filter_parts : list string)
    (topic_idx filter_idx : nat) : bool by wf (length filter_parts - filter_idx) lt :=
match_parts tp fp ti fi with le_lt_dec (length fp) fi := {
  | left _ => length tp <=? ti;
  | right _ with le_lt_dec (length tp) ti := {
    | left _ => (fi =? length fp - 1) && String.eqb (fp !!! fi) "#";
    | right _ with String.eqb (fp !!! fi) "#" := {
      | true => fi =? length fp - 1;
      | false with String.eqb (fp !!! fi) "+" := {
        | true =>
            if str_is_empty (tp !!! ti) then false
            else match_parts tp fp (ti + 1) (fi + 1);
        | false =>
            if String.eqb (tp !!! ti) (fp !!! fi) then match_parts tp fp (ti + 1) (fi + 1)
            else false } } } }.
Proof. all: lia. Qed.

Definition topic_matches (topic filter : string) : bool :=
  if String.eqb topic filter then true
  else match_parts (str_split SLASH topic) (str_split SLASH filter) 0 0.

(** * What a filter means *)

(** The topics, as their levels, that a filter, as its levels, selects: ['#']
    in the last place any number of further levels, none included, ['+'] one
    level that is not empty, anything else itself. *)
Inductive selects : list string → list string → Prop :=
| selects_end : selects [] []
| selects_rest ts : selects ["#"] ts
| selects_one t ts fs : t ≠ EmptyString → selects fs ts → selects ("+" :: fs) (t :: ts)
| selects_level t ts fs :
    t ≠ "#" → t ≠ "+" → selects fs ts → selects (t :: fs) (t :: ts).

(** The filters MQTT allows: not empty, no NUL, a wildcard is a whole level
    and ['#'] the last one. *)
Definition plain_level (l : string) : Prop :=
  str_contains HASH l = false ∧ str_contains PLUS l = false.

Inductive valid_levels : list string → Prop :=
| valid_last l : plain_level l ∨ l = "+" ∨ l = "#" → valid_levels [l]
| valid_more l ls : plain_level l ∨ l = "+" → valid_levels ls → valid_levels (l :: ls).

Definition valid_filter (f : string) : Prop :=
  f ≠ EmptyString ∧ str_contains NUL f = false ∧ valid_levels (str_split SLASH f).

(** * Levels of service *)

Lemma min_qos_u8 a b : qos_as_u8 (min_qos a b) = Z.min (qos_as_u8 a) (qos_as_u8 b).
Proof. by destruct a, b. Qed.

Lemma min_qos_comm a b : min_qos a b = min_qos b a.
Proof. by destruct a, b. Qed.

Lemma min_qos_assoc a b c : min_qos a (min_qos b c) = min_qos (min_qos a b) c.
Proof. by destruct a, b, c. Qed.

(** * Validation *)

Lemma str_is_empty_spec s : str_is_empty s = true ↔ s = EmptyString.
Proof. by destruct s. Qed.

Lemma validate_publish_topic_spec t :
  validate_publish_topic t = true ↔ t ≠ EmptyString ∧ str_contains NUL t = false.
Proof.
  unfold validate_publish_topic. destruct t; simpl; [naive_solver|].
  destruct (_ || _); naive_solver.
Qed.

Lemma plain_not_wild l : plain_level l → l ≠ "#" ∧ l ≠ "+".
Proof. intros [H1 H2]. split; by intros ->. Qed.

Lemma valid_level_spec n i l :
  valid_level n i l = true ↔ plain_level l ∨ l = "+" ∨ (l = "#" ∧ i = n - 1).
Proof.
  unfold valid_level, plain_level.
  destruct (str_contains HASH l) eqn:Hh; simpl.
  - destruct (String.eqb_spec l "#") as [->|Hl]; simpl.
    + destruct (Nat.eqb_spec i (n - 1)); simpl; naive_solver.
    + split; [done|]. intros [[]|[->|[? _]]]; done.
  - destruct (str_contains PLUS l) eqn:Hp; simpl.
    + destruct (String.eqb_spec l "+") as [->|Hl]; simpl; [naive_solver|].
      split; [done|]. intros [[]|[?|[-> _]]]; done.
    + naive_solver.
Qed.

Lemma forallb_imap_spec (f : nat → string → bool) ls :
  forallb (λ '(i, l), f i l) (imap pair ls) = true ↔ ∀ i l, ls !! i = Some l → f i l = true.
Proof.
  rewrite List.forallb_forall. setoid_rewrite <- list_elem_of_In. split.
  - intros H i l Hl. apply (H (i, l)). apply elem_of_lookup_imap. eauto.
  - intros H [i l] (j & x & [= -> ->] & Hx)%elem_of_lookup_imap. auto.
Qed.

Lemma valid_levels_spec ls :
  valid_levels ls ↔
  ls ≠ [] ∧ ∀ i l, ls !! i = Some l → plain_level l ∨ l = "+" ∨ (l = "#" ∧ i = length ls - 1).
Proof.
  split.
  - induction 1 as [l Hl|l ls Hl H [Hne IH]].
    + split; [done|]. intros [|i] l' Hi; [|done].
      simplify_eq/=. destruct Hl as [?|[?|?]]; auto.
    + split; [done|]. intros [|i] l' Hi; [simplify_eq/=; destruct Hl; auto|].
      destruct (IH i l' Hi) as [?|[?|[? ->]]]; [auto..|].
      right; right; split; [done|]. destruct ls; [done|simpl; lia].
  - intros [Hne H]. induction ls as [|l [|l' ls] IH]; [done|..].
    + constructor. destruct (H 0 l) as [?|[?|[? _]]]; auto.
    + constructor.
      * destruct (H 0 l) as [?|[?|[_ Hl]]]; simpl in *; auto; lia.
      * apply IH; [done|]. intros i x Hx. destruct (H (S i) x Hx) as [?|[?|[? Hi]]]; auto.
        right; right; split; [done|]. simpl in *; lia.
Qed.

Lemma validate_subscribe_filter_spec f :
  validate_subscribe_filter f = true ↔ valid_filter f.
Proof.
  unfold validate_subscribe_filter, valid_filter. rewrite valid_levels_spec.
  destruct f as [|a f]; [naive_solver|]. set (s := String a f). cbn [str_is_empty s].
  destruct (str_contains NUL s); [naive_solver|].
  cbv zeta. rewrite forallb_imap_spec. setoid_rewrite valid_level_spec.
  pose proof (str_split_ne_nil SLASH s). naive_solver.
Qed.

(** * Matching *)

Lemma drop_cons {A} `{!Inhabited A} (l : list A) i :
  i < length l → drop i l = (l !!! i) :: drop (i + 1) l.
Proof.
  intros Hi. destruct (lookup_lt_is_Some_2 l i Hi) as [x Hx].
  rewrite (list_lookup_total_correct _ _ _ Hx), Nat.add_1_r. by apply drop_S.
Qed.

Lemma selects_hash fs ts : selects ("#" :: fs) ts ↔ fs = [].
Proof. split; [by inversion 1|]. intros ->. constructor. Qed.

Lemma selects_nil fs : selects fs [] ↔ fs = [] ∨ fs = ["#"].
Proof. split; [inversion 1; auto|]. intros [->| ->]; constructor. Qed.

(** The recursion on indices decides [selects] on what is left. *)
Lemma match_parts_spec tp fp ti fi :
  match_parts tp fp ti fi = true ↔ selects (drop fi fp) (drop ti tp).
Proof.
  funelim (match_parts tp fp ti fi); clear Heqcall.
  - rewrite (drop_ge fp) by done. rewrite Nat.leb_le. split.
    + intros. rewrite drop_ge by done. constructor.
    + inversion 1. by apply drop_nil_inv.
  - rewrite (drop_ge tp), (drop_cons fp) by done.
    rewrite andb_true_iff, Nat.eqb_eq, String.eqb_eq. split.
    + intros [-> ->]. rewrite drop_ge by lia. constructor.
    + rewrite selects_nil. intros [?|[= -> Hd]]; [done|]. split; [|done].
      apply drop_nil_inv in Hd. lia.
  - apply String.eqb_eq in Heq. rewrite (drop_cons fp), Heq, selects_hash by done.
    rewrite Nat.eqb_eq, <- skipn_all_iff. lia.
  - apply String.eqb_neq in Heq0. apply String.eqb_eq in Heq.
    rewrite (drop_cons fp), (drop_cons tp), Heq by done.
    destruct (str_is_empty (tp !!! ti)) eqn:He.
    + apply str_is_empty_spec in He. rewrite He. split; [done|]. by inversion 1.
    + rewrite H. assert (tp !!! ti ≠ EmptyString) by (intros E; by rewrite E in He).
      split; [by constructor|]. by inversion 1.
  - apply String.eqb_neq in Heq, Heq0. rewrite (drop_cons fp), (drop_cons tp) by done.
    destruct (String.eqb_spec (tp !!! ti) (fp !!! fi)) as [Ht|Ht].
    + rewrite H, Ht. split; [by constructor|]. by inversion 1.
    + split; [done|]. by inversion 1.
Qed.

Lemma selects_refl fs : valid_levels fs → selects fs fs.
Proof.
  induction 1 as [l Hl|l ls Hl _ IH].
  - destruct Hl as [[? ?]%plain_not_wild|[-> | ->]]; repeat (done || constructor).
  - destruct Hl as [[? ?]%plain_not_wild| ->]; by constructor.
Qed.

Lemma topic_matches_parts t f :
  topic_matches t f = true ↔ t = f ∨ selects (str_split SLASH f) (str_split SLASH t).
Proof.
  unfold topic_matches. destruct (String.eqb_spec t f) as [->|Hne]; [by intuition|].
  rewrite match_parts_spec, !drop_0. by intuition.
Qed.

Lemma str_contains_split c d s p :
  p ∈ str_split d s → str_contains c s = false → str_contains c p = false.
Proof.
  revert p. induction s as [|a s IH]; intros p; simpl.
  { by intros ->%list_elem_of_singleton. }
  intros Hp [Ha Hs]%orb_false_iff. destruct (Ascii.eqb a d).
  - apply elem_of_cons in Hp as [->|Hp]; [done|auto].
  - pose proof (str_split_ne_nil d s). destruct (str_split d s) as [|q qs]; [done|].
    apply elem_of_cons in Hp as [->|Hp]; simpl.
    + rewrite Ha. apply IH; [by left|done].
    + apply IH; [by right|done].
Qed.

Lemma selects_plain fs ts : Forall plain_level fs → selects fs ts → ts = fs.
Proof.
  intros Hf Hs. induction Hs as [|ts|t ts fs Ht Hs IH|t ts fs _ _ Hs IH]; [done|..];
    apply Forall_cons_1 in Hf as [Hp Hf].
  - by apply plain_not_wild in Hp as [].
  - by apply plain_not_wild in Hp as [].
  - f_equal. by apply IH.
Qed.

(** A filter without wildcards selects the topic that is spelled like it. *)
Lemma topic_matches_exact t f :
  has_wildcards f = false → topic_matches t f = true ↔ t = f.
Proof.
  intros [Hp Hh]%orb_false_iff. rewrite topic_matches_parts. split; [|by left].
  intros [?|Hs]; [done|]. apply (str_split_inj SLASH). eapply selects_plain; [|done].
  apply List.Forall_forall. intros l Hl%list_elem_of_In.
  split; eapply str_contains_split; eauto.
Qed.

(** C33: on the filters MQTT allows, which are the ones
    [validate_subscribe_filter] accepts, [topic_matches] is the meaning of the
    filter: levels compared one by one, ['+'] for one non-empty level, ['#'] for
    any number of last levels (none included).  The shortcut for equal strings
    changes nothing there. *)
Theorem topic_matches_selects t f :
  validate_subscribe_filter f = true →
  topic_matches t f = true ↔ selects (str_split SLASH f) (str_split SLASH t).
Proof.
  intros (_ & _ & Hl)%validate_subscribe_filter_spec. rewrite topic_matches_parts.
  split; [|by right]. intros [->|Hs]; [by apply selects_refl|done].
Qed.

Lemma topic_matches_selects_witness :
  topic_matches "sport/tennis/player1/score" "sport/+/player1/#" = true ∧
  selects (str_split SLASH "sport/+/player1/#") (str_split SLASH "sport/tennis/player1/score") ∧
  topic_matches "/finance" "+/+" = false.
Proof.
  split; [vm_compute; reflexivity|]. split; [|vm_compute; reflexivity].
  refine (proj1 (topic_matches_selects "sport/tennis/player1/score" "sport/+/player1/#" _) _);
    vm_compute; reflexivity.
Defined.

(** [validate_subscribe_filter] accepts exactly the well-formed filters: a
    filter of one or more levels without NUL whose wildcards each fill a level,
    ['#'] the last one only.  Every other filter is refused. *)
Theorem validate_subscribe_filter_ok f :
  validate_subscribe_filter f = true ↔ valid_filter f.
Proof. apply validate_subscribe_filter_spec. Qed.
