(* ===== verification/Storage.v ===== *)
(** The storage interface: the data of [src/storage/types.rs], the trait
    [Storage] of [src/storage/traits.rs] as a class, and what every backend
    promises its callers, stated on an abstract store ([StorageLaws]). *)

From S2P Require Import Prelude Packet.

Local Open Scope Z_scope.

(** * Stored data *)

Inductive StoredQoS := SAtMostOnce | SAtLeastOnce | SExactlyOnce.

Definition stored_qos_from_u8 (value : Z) : option StoredQoS :=
  match value with
  | 0 => Some SAtMostOnce
  | 1 => Some SAtLeastOnce
  | 2 => Some SExactlyOnce
  | _ => None
  end.

Definition stored_qos_as_u8 (q : StoredQoS) : Z :=
  match q with SAtMostOnce => 0 | SAtLeastOnce => 1 | SExactlyOnce => 2 end.

Definition stored_qos_from_qos (q : QoS) : StoredQoS :=
  match q with
  | AtMostOnce => SAtMostOnce
  | AtLeastOnce => SAtLeastOnce
  | ExactlyOnce => SExactlyOnce
  end.

Definition qos_from_stored (q : StoredQoS) : QoS :=
  match q with
  | SAtMostOnce => AtMostOnce
  | SAtLeastOnce => AtLeastOnce
  | SExactlyOnce => ExactlyOnce
  end.

(** [chrono::DateTime<Utc>]: nanoseconds since the epoch, in the years 0 to 9999
    that RFC 3339 can write down; the clock is taken to be there. *)
Definition in_rfc3339_years (ns : Z) : bool :=
  (-62167219200000000000 <=? ns) && (ns <? 253402300800000000000).

Record DateTime := mkDateTime { nanos : Z; nanos_range : in_rfc3339_years nanos = true }.

Definition epoch : DateTime := mkDateTime 0 eq_refl.

Definition at_nanos (ns : Z) : DateTime :=
  match Bool.bool_dec (in_rfc3339_years ns) true with
  | left H => mkDateTime ns H
  | right _ => epoch
  end.
Coercion at_nanos : Z >-> DateTime.

Lemma datetime_eq (a b : DateTime) : nanos a = nanos b → a = b.
Proof. destruct a as [x Hx], b as [y Hy]. cbn. intros ->. f_equal. apply proof_irrel. Qed.

Lemma at_nanos_id (t : DateTime) : at_nanos (nanos t) = t.
Proof.
  unfold at_nanos. destruct (Bool.bool_dec _ _) as [H|H]; [by apply datetime_eq|].
  by destruct H; destruct t.
Qed.

Record PersistedWillMessage := mkPersistedWill {
  pw_topic : string;
  pw_payload : Bytes;
  pw_qos : StoredQoS;
  pw_retain : bool;
}.

Record PersistedSession := mkPersistedSession {
  ps_client_id : string;
  ps_next_packet_id : Z;
  ps_keep_alive : Z;
  ps_will_message : option PersistedWillMessage;
  ps_created_at : DateTime;
  ps_updated_at : DateTime;
}.

Record PersistedSubscription := mkPersistedSubscription {
  psub_client_id : string;
  psub_topic_filter : string;
  psub_qos : StoredQoS;
}.

Inductive PersistedQos2State := PAwaitingPubRec | PAwaitingPubComp.

Definition qos2_state_from_u8 (value : Z) : option PersistedQos2State :=
  match value with
  | 0 => Some PAwaitingPubRec
  | 1 => Some PAwaitingPubComp
  | _ => None
  end.

Definition qos2_state_as_u8 (s : PersistedQos2State) : Z :=
  match s with PAwaitingPubRec => 0 | PAwaitingPubComp => 1 end.

Record PersistedInflightMessage := mkPersistedInflight {
  pi_client_id : string;
  pi_packet_id : Z;
  pi_topic : string;
  pi_payload : Bytes;
  pi_qos : StoredQoS;
  pi_retain : bool;
  pi_retry_count : Z;
  pi_qos2_state : option PersistedQos2State;
  pi_created_at : DateTime;
}.

Record PersistedInboundQos2Message := mkPersistedInbound {
  pq_client_id : string;
  pq_packet_id : Z;
  pq_topic : string;
  pq_payload : Bytes;
  pq_retain : bool;
  pq_received_at : DateTime;
}.

Record PersistedRetainedMessage := mkPersistedRetained {
  pr_topic : string;
  pr_payload : Bytes;
  pr_qos : StoredQoS;
  pr_updated_at : DateTime;
}.

Inductive StorageError :=
| Internal (msg : string)
| InvalidDateTime (table field record_id value : string).

(** * The trait

    A backend is shared and guards its data with locks of its own, so each
    method is a call on its current contents. *)
Class Storage (S : Type) := {
  save_session : PersistedSession → list PersistedSubscription →
    list PersistedInflightMessage → list PersistedInboundQos2Message → M S StorageError ();
  load_session : string → M S StorageError (option PersistedSession);
  load_subscriptions : string → M S StorageError (list PersistedSubscription);
  load_inflight_messages : string → M S StorageError (list PersistedInflightMessage);
  load_inbound_qos2_messages : string → M S StorageError (list PersistedInboundQos2Message);
  delete_session : string → M S StorageError ();
  session_exists : string → M S StorageError bool;
  delete_expired_sessions : DateTime → M S StorageError nat;
  save_retained_message : PersistedRetainedMessage → M S StorageError ();
  load_retained_message : string → M S StorageError (option PersistedRetainedMessage);
  load_all_retained_messages : M S StorageError (list PersistedRetainedMessage);
  delete_retained_message : string → M S StorageError ();
  count_retained_messages : M S StorageError nat;
}.

(** * The contract *)

Record SavedSession := mkSaved {
  saved : PersistedSession;
  saved_subscriptions : list PersistedSubscription;
  saved_inflight : list PersistedInflightMessage;
  saved_inbound : list PersistedInboundQos2Message;
}.

(** What a store holds: a saved session per client and a retained message per
    topic. *)
Record StoredData := mkStored {
  kept : gmap string SavedSession;
  retained_by_topic : gmap string PersistedRetainedMessage;
}.

Definition set_kept (f : gmap string SavedSession → gmap string SavedSession)
    (d : StoredData) : StoredData := mkStored (f (kept d)) (retained_by_topic d).
Definition set_retained
    (f : gmap string PersistedRetainedMessage → gmap string PersistedRetainedMessage)
    (d : StoredData) : StoredData := mkStored (kept d) (f (retained_by_topic d)).

Definition unexpired (older_than : DateTime) (m : gmap string SavedSession) :
    gmap string SavedSession :=
  filter (λ kv, ¬ nanos (ps_updated_at (saved kv.2)) < nanos older_than) m.

(** When a session was first saved is written, never read by the broker, and the
    backends do not agree on it when a session is saved again: the contract
    leaves it out. *)
Definition undated (p : PersistedSession) : PersistedSession :=
  mkPersistedSession (ps_client_id p) (ps_next_packet_id p) (ps_keep_alive p) (ps_will_message p)
    epoch (ps_updated_at p).

(** What the types of the fields allow, with every entry under the client's own
    name. *)
Record saveable (p : PersistedSession) (subs : list PersistedSubscription)
    (infl : list PersistedInflightMessage) (inb : list PersistedInboundQos2Message) : Prop := {
  saveable_next : is_u16 (ps_next_packet_id p);
  saveable_keep : is_u16 (ps_keep_alive p);
  saveable_subscriptions : Forall (λ s, psub_client_id s = ps_client_id p) subs;
  saveable_inflight : Forall (λ m, pi_client_id m = ps_client_id p ∧ is_u16 (pi_packet_id m) ∧
    is_u32 (pi_retry_count m)) infl;
  saveable_inbound : Forall (λ m, pq_client_id m = ps_client_id p ∧ is_u16 (pq_packet_id m)) inb;
}.

(** No two entries of a client have the same key. *)
Record distinct_keys (subs : list PersistedSubscription) (infl : list PersistedInflightMessage)
    (inb : list PersistedInboundQos2Message) : Prop := {
  distinct_subscriptions : NoDup (psub_topic_filter <$> subs);
  distinct_inflight : NoDup (pi_packet_id <$> infl);
  distinct_inbound : NoDup (pq_packet_id <$> inb);
}.

(** A counter of retries that a 32-bit signed integer can hold. *)
Definition readable_inflight (l : list PersistedInflightMessage) : Prop :=
  Forall (λ m, pi_retry_count m < 2 ^ 31) l.

(** Every call returns.  One that succeeds turns what is stored into [d'] and
    gives [a], with [R d d' a]; one that fails leaves what is stored alone. *)
Definition storage_call {S A} (inv : S → Prop) (abs : S → StoredData)
    (m : M S StorageError A) (R : StoredData → StoredData → A → Prop) : Prop :=
  ∀ s, inv s →
  inv (m s).1 ∧
  match (m s).2 with
  | Ok a => R (abs s) (abs (m s).1) a
  | Err _ => abs (m s).1 = abs s
  | Panic | Pending => False
  end.

Class StorageLaws (S : Type) {ST : Storage S} := {
  storage_inv : S → Prop;
  storage_abs : S → StoredData;
  (** What the backend saves as it is. *)
  storage_admits : PersistedSession → list PersistedSubscription →
    list PersistedInflightMessage → list PersistedInboundQos2Message → Prop;
  saveable_admits p subs infl inb : saveable p subs infl inb → storage_admits p subs infl inb;
  storage_kept_id s cid x :
    storage_inv s → kept (storage_abs s) !! cid = Some x → ps_client_id (saved x) = cid;
  storage_retained_topic s t m :
    storage_inv s → retained_by_topic (storage_abs s) !! t = Some m → pr_topic m = t;
  save_session_spec p subs infl inb :
    storage_admits p subs infl inb →
    storage_call storage_inv storage_abs (save_session p subs infl inb)
      (λ d d' _, d' = set_kept <[ps_client_id p := mkSaved (undated p) subs infl inb]> d);
  load_session_spec cid :
    storage_call storage_inv storage_abs (load_session cid)
      (λ d d' r, d' = d ∧ undated <$> r = saved <$> kept d !! cid);
  load_subscriptions_spec cid :
    storage_call storage_inv storage_abs (load_subscriptions cid)
      (λ d d' r, d' = d ∧ r ≡ₚ default [] (saved_subscriptions <$> kept d !! cid));
  load_inflight_messages_spec cid :
    storage_call storage_inv storage_abs (load_inflight_messages cid)
      (λ d d' r, d' = d ∧ r ≡ₚ default [] (saved_inflight <$> kept d !! cid));
  load_inbound_qos2_messages_spec cid :
    storage_call storage_inv storage_abs (load_inbound_qos2_messages cid)
      (λ d d' r, d' = d ∧ r ≡ₚ default [] (saved_inbound <$> kept d !! cid));
  delete_session_spec cid :
    storage_call storage_inv storage_abs (delete_session cid)
      (λ d d' _, d' = set_kept (delete cid) d);
  session_exists_spec cid :
    storage_call storage_inv storage_abs (session_exists cid)
      (λ d d' r, d' = d ∧ r = bool_decide (is_Some (kept d !! cid)));
  delete_expired_sessions_spec t :
    storage_call storage_inv storage_abs (delete_expired_sessions t)
      (λ d d' r, d' = set_kept (unexpired t) d ∧
                 (r + size (kept d') = size (kept d))%nat);
  save_retained_message_spec m :
    storage_call storage_inv storage_abs (save_retained_message m)
      (λ d d' _, d' = set_retained <[pr_topic m := m]> d);
  load_retained_message_spec t :
    storage_call storage_inv storage_abs (load_retained_message t)
      (λ d d' r, d' = d ∧ r = retained_by_topic d !! t);
  load_all_retained_messages_spec :
    storage_call storage_inv storage_abs load_all_retained_messages
      (λ d d' r, d' = d ∧ r ≡ₚ (map_to_list (retained_by_topic d)).*2);
  delete_retained_message_spec t :
    storage_call storage_inv storage_abs (delete_retained_message t)
      (λ d d' _, d' = set_retained (delete t) d);
  count_retained_messages_spec :
    storage_call storage_inv storage_abs count_retained_messages
      (λ d d' r, d' = d ∧ r = size (retained_by_topic d));
}.

(** A backend whose calls do not fail on what it can hold. *)
Class StorageReliable (S : Type) {ST : Storage S} {SL : StorageLaws S} := {
  storage_stores : PersistedSession → list PersistedSubscription →
    list PersistedInflightMessage → list PersistedInboundQos2Message → Prop;
  storage_reads : list PersistedInflightMessage → Prop;
  storage_counts : nat → Prop;
  saveable_stores p subs infl inb :
    saveable p subs infl inb → distinct_keys subs infl inb → storage_stores p subs infl inb;
  readable_reads l : readable_inflight l → storage_reads l;
  countable_counts n : (Z.of_nat n < 2 ^ 63)%Z → storage_counts n;
  save_session_Ok p subs infl inb s :
    storage_inv s → storage_stores p subs infl inb → is_Ok (save_session p subs infl inb s).2;
  load_session_Ok cid s : storage_inv s → is_Ok (load_session cid s).2;
  load_subscriptions_Ok cid s : storage_inv s → is_Ok (load_subscriptions cid s).2;
  load_inflight_messages_Ok cid s :
    storage_inv s → storage_reads (default [] (saved_inflight <$> kept (storage_abs s) !! cid)) →
    is_Ok (load_inflight_messages cid s).2;
  load_inbound_qos2_messages_Ok cid s :
    storage_inv s → is_Ok (load_inbound_qos2_messages cid s).2;
  delete_session_Ok cid s : storage_inv s → is_Ok (delete_session cid s).2;
  session_exists_Ok cid s : storage_inv s → is_Ok (session_exists cid s).2;
  delete_expired_sessions_Ok t s : storage_inv s → is_Ok (delete_expired_sessions t s).2;
  save_retained_message_Ok m s : storage_inv s → is_Ok (save_retained_message m s).2;
  load_retained_message_Ok t s : storage_inv s → is_Ok (load_retained_message t s).2;
  load_all_retained_messages_Ok s : storage_inv s → is_Ok (load_all_retained_messages s).2;
  delete_retained_message_Ok t s : storage_inv s → is_Ok (delete_retained_message t s).2;
  count_retained_messages_Ok s :
    storage_inv s → storage_counts (size (retained_by_topic (storage_abs s))) →
    is_Ok (count_retained_messages s).2;
}.

(** * Conversions *)

Lemma stored_qos_roundtrip q : qos_from_stored (stored_qos_from_qos q) = q.
Proof. by destruct q. Qed.

Lemma stored_qos_u8_roundtrip q : stored_qos_from_u8 (stored_qos_as_u8 q) = Some q.
Proof. by destruct q. Qed.

Lemma qos2_state_u8_roundtrip s : qos2_state_from_u8 (qos2_state_as_u8 s) = Some s.
Proof. by destruct s. Qed.

(** A level and its stored form have the same code. *)
Lemma stored_qos_same_u8 q : stored_qos_as_u8 (stored_qos_from_qos q) = qos_as_u8 q.
Proof. by destruct q. Qed.

(** * Using the contract *)

Section UseLaws.
Context {S : Type} {inv : S → Prop} {abs : S → StoredData}.

Lemma storage_call_Ok {A} (m : M S StorageError A) R s :
  storage_call inv abs m R → inv s → is_Ok (m s).2 →
  ∃ s' a, m s = (s', Ok a) ∧ inv s' ∧ R (abs s) (abs s') a.
Proof.
  intros H Hs Ho. destruct (H s Hs) as [Hi HR].
  destruct (m s) as [s' [a| | |]]; try done. simpl in *. eauto.
Qed.

(** A call by cases: it succeeded, or it failed and changed nothing. *)
Lemma storage_call_cases {A} (m : M S StorageError A) R s :
  storage_call inv abs m R → inv s →
  (∃ s' a, m s = (s', Ok a) ∧ inv s' ∧ R (abs s) (abs s') a) ∨
  (∃ s' e, m s = (s', Err e) ∧ inv s' ∧ abs s' = abs s).
Proof.
  intros H Hs. destruct (H s Hs) as [Hi HR].
  destruct (m s) as [s' [a|e| |]]; try done; simpl in *; [left|right]; eauto.
Qed.
End UseLaws.

(** * Sequences of calls

    A caller sees a backend through the calls it makes and the replies it gets.
    [spec_serve] says what the replies are, on the abstract store; the order of
    the entries of a list is the backend's. *)
Inductive Request :=
| SaveSession (p : PersistedSession) (subs : list PersistedSubscription)
    (infl : list PersistedInflightMessage) (inb : list PersistedInboundQos2Message)
| LoadSession (cid : string)
| LoadSubscriptions (cid : string)
| LoadInflight (cid : string)
| LoadInbound (cid : string)
| DeleteSession (cid : string)
| SessionExists (cid : string)
| DeleteExpired (older_than : DateTime)
| SaveRetained (m : PersistedRetainedMessage)
| LoadRetained (t : string)
| LoadAllRetained
| DeleteRetained (t : string)
| CountRetained.

Inductive Reply :=
| Done
| ReplySession (o : option PersistedSession)
| ReplySubscriptions (l : list PersistedSubscription)
| ReplyInflight (l : list PersistedInflightMessage)
| ReplyInbound (l : list PersistedInboundQos2Message)
| ReplyBool (b : bool)
| ReplyRetained (o : option PersistedRetainedMessage)
| ReplyAllRetained (l : list PersistedRetainedMessage)
| ReplyCount (n : nat).

Definition serve {S} `{Storage S} (r : Request) : M S StorageError Reply :=
  match r with
  | SaveSession p subs infl inb => save_session p subs infl inb;; mret Done
  | LoadSession cid => o ← load_session cid; mret (ReplySession o)
  | LoadSubscriptions cid => l ← load_subscriptions cid; mret (ReplySubscriptions l)
  | LoadInflight cid => l ← load_inflight_messages cid; mret (ReplyInflight l)
  | LoadInbound cid => l ← load_inbound_qos2_messages cid; mret (ReplyInbound l)
  | DeleteSession cid => delete_session cid;; mret Done
  | SessionExists cid => b ← session_exists cid; mret (ReplyBool b)
  | DeleteExpired t => n ← delete_expired_sessions t; mret (ReplyCount n)
  | SaveRetained m => save_retained_message m;; mret Done
  | LoadRetained t => o ← load_retained_message t; mret (ReplyRetained o)
  | LoadAllRetained => l ← load_all_retained_messages; mret (ReplyAllRetained l)
  | DeleteRetained t => delete_retained_message t;; mret Done
  | CountRetained => n ← count_retained_messages; mret (ReplyCount n)
  end.

Fixpoint serve_all {S} `{Storage S} (rs : list Request) : M S StorageError (list Reply) :=
  match rs with
  | [] => mret []
  | r :: rs => a ← serve r; l ← serve_all rs; mret (a :: l)
  end.

Definition spec_serve (r : Request) (d : StoredData) : StoredData * Reply :=
  match r with
  | SaveSession p subs infl inb =>
      (set_kept <[ps_client_id p := mkSaved (undated p) subs infl inb]> d, Done)
  | LoadSession cid => (d, ReplySession (saved <$> kept d !! cid))
  | LoadSubscriptions cid =>
      (d, ReplySubscriptions (default [] (saved_subscriptions <$> kept d !! cid)))
  | LoadInflight cid => (d, ReplyInflight (default [] (saved_inflight <$> kept d !! cid)))
  | LoadInbound cid => (d, ReplyInbound (default [] (saved_inbound <$> kept d !! cid)))
  | DeleteSession cid => (set_kept (delete cid) d, Done)
  | SessionExists cid => (d, ReplyBool (bool_decide (is_Some (kept d !! cid))))
  | DeleteExpired t =>
      (set_kept (unexpired t) d, ReplyCount (size (kept d) - size (unexpired t (kept d))))
  | SaveRetained m => (set_retained <[pr_topic m := m]> d, Done)
  | LoadRetained t => (d, ReplyRetained (retained_by_topic d !! t))
  | LoadAllRetained => (d, ReplyAllRetained (map_to_list (retained_by_topic d)).*2)
  | DeleteRetained t => (set_retained (delete t) d, Done)
  | CountRetained => (d, ReplyCount (size (retained_by_topic d)))
  end.

Fixpoint spec_serve_all (rs : list Request) (d : StoredData) : StoredData * list Reply :=
  match rs with
  | [] => (d, [])
  | r :: rs =>
      let '(d1, a) := spec_serve r d in
      let '(d2, l) := spec_serve_all rs d1 in (d2, a :: l)
  end.

(** Equal but for the order of a list and the date a session was first saved. *)
Definition same_reply (a b : Reply) : Prop :=
  match a, b with
  | ReplySession o, ReplySession o' => undated <$> o = undated <$> o'
  | ReplySubscriptions l, ReplySubscriptions k => l ≡ₚ k
  | ReplyInflight l, ReplyInflight k => l ≡ₚ k
  | ReplyInbound l, ReplyInbound k => l ≡ₚ k
  | ReplyAllRetained l, ReplyAllRetained k => l ≡ₚ k
  | _, _ => a = b
  end.

#[export] Instance same_reply_equivalence : Equivalence same_reply.
Proof.
  split.
  - intros []; simpl; done.
  - intros [] []; simpl; congruence || (intros ?; by symmetry).
  - intros x y z Hxy Hyz. destruct x, y, z; simpl in *; congruence || by etrans.
Qed.

Lemma undated_idemp (o : option PersistedSession) : undated <$> (undated <$> o) = undated <$> o.
Proof. by destruct o. Qed.

Section Refinement.
Context {S : Type} {ST : Storage S} {SL : StorageLaws S} {SR : StorageReliable S}.

(** The requests the backend promises to serve: a session it can hold, messages
    in flight it can read back, and a number of messages it can count. *)
Definition request_ok (r : Request) (d : StoredData) : Prop :=
  match r with
  | SaveSession p subs infl inb =>
      storage_admits p subs infl inb ∧ storage_stores p subs infl inb
  | LoadInflight cid => storage_reads (default [] (saved_inflight <$> kept d !! cid))
  | CountRetained => storage_counts (size (retained_by_topic d))
  | _ => True
  end.

Fixpoint requests_ok (rs : list Request) (d : StoredData) : Prop :=
  match rs with
  | [] => True
  | r :: rs => request_ok r d ∧ requests_ok rs (spec_serve r d).1
  end.

Lemma serve_call {A} r (m : M S StorageError A) (f : A → Reply) R s :
  serve r = (x ← m; mret (f x)) →
  storage_call storage_inv storage_abs m R → storage_inv s → is_Ok (m s).2 →
  (∀ d d' a, R d d' a → d' = (spec_serve r d).1 ∧ same_reply (f a) (spec_serve r d).2) →
  ∃ s' a, serve r s = (s', Ok a) ∧ storage_inv s' ∧
    storage_abs s' = (spec_serve r (storage_abs s)).1 ∧
    same_reply a (spec_serve r (storage_abs s)).2.
Proof.
  intros Hr H Hs Ho HR. destruct (storage_call_Ok m R s H Hs Ho) as (s' & a & E & Hi & Ha).
  exists s', (f a). rewrite Hr, (bind_Ok _ _ _ _ _ E). eauto.
Qed.

(** One call: the backend does what the abstract store does. *)
Lemma serve_refines r s :
  storage_inv s → request_ok r (storage_abs s) →
  ∃ s' a, serve r s = (s', Ok a) ∧ storage_inv s' ∧
    storage_abs s' = (spec_serve r (storage_abs s)).1 ∧
    same_reply a (spec_serve r (storage_abs s)).2.
Proof.
  intros Hs Hr. destruct r; simpl in Hr; (eapply serve_call;
    [ reflexivity
    | first [ apply save_session_spec | apply load_session_spec | apply load_subscriptions_spec
            | apply load_inflight_messages_spec | apply load_inbound_qos2_messages_spec
            | apply delete_session_spec | apply session_exists_spec
            | apply delete_expired_sessions_spec
            | apply save_retained_message_spec | apply load_retained_message_spec
            | apply load_all_retained_messages_spec | apply delete_retained_message_spec
            | apply count_retained_messages_spec ]; tauto
    | exact Hs
    | apply SR; tauto
    | simpl; try naive_solver ]).
  - intros d d' a [-> <-]. by rewrite undated_idemp.
  - intros d d' n [-> Hn]. split; [done|]. f_equal. cbn in Hn. lia.
Qed.

(** Any sequence of such calls gets the replies of the abstract store. *)
Lemma serve_all_refines rs s :
  storage_inv s → requests_ok rs (storage_abs s) →
  ∃ s' l, serve_all rs s = (s', Ok l) ∧ storage_inv s' ∧
    storage_abs s' = (spec_serve_all rs (storage_abs s)).1 ∧
    Forall2 same_reply l (spec_serve_all rs (storage_abs s)).2.
Proof.
  revert s. induction rs as [|r rs IH]; intros s Hs; [by exists s, []|]. intros [Hr Hrs].
  destruct (serve_refines r s Hs Hr) as (s1 & a & E1 & H1 & A1 & R1).
  destruct (IH s1 H1) as (s2 & l & E2 & H2 & A2 & R2); [by rewrite A1|].
  exists s2, (a :: l). cbn [serve_all spec_serve_all].
  rewrite (bind_Ok _ _ _ _ _ E1), (bind_Ok _ _ _ _ _ E2).
  rewrite A1 in A2, R2. destruct (spec_serve r (storage_abs s)) as [d1 b].
  cbn [fst snd] in *. destruct (spec_serve_all rs d1) as [d2 k].
  split_and!; [done..|]. by constructor.
Qed.
End Refinement.
