(* ===== verification/MemoryStorage.v ===== *)
(** [InMemoryStorage] of [src/storage/memory.rs]: five hash maps, and the proof
    that they implement the storage contract of [Storage.v] and never fail.
    The locks are held for the length of a call and no call panics with one
    held, so [unwrap] on a lock never sees a poisoned one. *)

From S2P Require Import Prelude External Packet Storage.

Record InMemoryStorage := mkMemory {
  mem_sessions : gmap string PersistedSession;
  mem_subscriptions : gmap string (list PersistedSubscription);
  mem_inflight : gmap string (list PersistedInflightMessage);
  mem_inbound_qos2 : gmap string (list PersistedInboundQos2Message);
  mem_retained : gmap string PersistedRetainedMessage;
}.

Definition memory_new : InMemoryStorage := mkMemory ∅ ∅ ∅ ∅ ∅.

Definition memory_save_session (session : PersistedSession)
    (subscriptions : list PersistedSubscription) (inflight : list PersistedInflightMessage)
    (inbound_qos2 : list PersistedInboundQos2Message) : M InMemoryStorage StorageError () :=
  let client_id := ps_client_id session in
  modify (λ s,
    mkMemory (<[client_id := session]> (mem_sessions s))
      (<[client_id := subscriptions]> (mem_subscriptions s))
      (<[client_id := inflight]> (mem_inflight s))
      (<[client_id := inbound_qos2]> (mem_inbound_qos2 s))
      (mem_retained s)).

Definition memory_load_session (client_id : string) :
    M InMemoryStorage StorageError (option PersistedSession) :=
  gets (λ s, mem_sessions s !! client_id).

Definition memory_load_subscriptions (client_id : string) :
    M InMemoryStorage StorageError (list PersistedSubscription) :=
  gets (λ s, default [] (mem_subscriptions s !! client_id)).

Definition memory_load_inflight_messages (client_id : string) :
    M InMemoryStorage StorageError (list PersistedInflightMessage) :=
  gets (λ s, default [] (mem_inflight s !! client_id)).

Definition memory_load_inbound_qos2_messages (client_id : string) :
    M InMemoryStorage StorageError (list PersistedInboundQos2Message) :=
  gets (λ s, default [] (mem_inbound_qos2 s !! client_id)).

(** The four [remove]s of [delete_session], and of each turn of the loop of
    [delete_expired_sessions]. *)
Definition memory_remove (client_id : string) (s : InMemoryStorage) : InMemoryStorage :=
  mkMemory (delete client_id (mem_sessions s)) (delete client_id (mem_subscriptions s))
    (delete client_id (mem_inflight s)) (delete client_id (mem_inbound_qos2 s))
    (mem_retained s).

Definition memory_delete_session (client_id : string) : M InMemoryStorage StorageError () :=
  modify (memory_remove client_id).

Definition memory_session_exists (client_id : string) : M InMemoryStorage StorageError bool :=
  gets (λ s, bool_decide (is_Some (mem_sessions s !! client_id))).

Definition memory_save_retained_message (msg : PersistedRetainedMessage) :
    M InMemoryStorage StorageError () :=
  modify (λ s,
    mkMemory (mem_sessions s) (mem_subscriptions s) (mem_inflight s) (mem_inbound_qos2 s)
      (<[pr_topic msg := msg]> (mem_retained s))).

Definition memory_load_retained_message (topic : string) :
    M InMemoryStorage StorageError (option PersistedRetainedMessage) :=
  gets (λ s, mem_retained s !! topic).

Definition memory_delete_retained_message (topic : string) : M InMemoryStorage StorageError () :=
  modify (λ s,
    mkMemory (mem_sessions s) (mem_subscriptions s) (mem_inflight s) (mem_inbound_qos2 s)
      (delete topic (mem_retained s))).

Definition memory_count_retained_messages : M InMemoryStorage StorageError nat :=
  gets (λ s, size (mem_retained s)).

Section Iterating.
Context {HO : HashOrder}.

Definition memory_delete_expired_sessions (older_than : DateTime) :
    M InMemoryStorage StorageError nat :=
  sessions ← gets mem_sessions;
  let expired :=
    (filter (λ kv, (nanos (ps_updated_at kv.2) < nanos older_than)%Z) (map_iter sessions)).*1 in
  let count := length expired in
  for_each expired (λ client_id, modify (memory_remove client_id));;
  mret count.

Definition memory_load_all_retained_messages :
    M InMemoryStorage StorageError (list PersistedRetainedMessage) :=
  gets (λ s, (map_iter (mem_retained s)).*2).

#[export] Instance memory_storage : Storage InMemoryStorage := {
  save_session := memory_save_session;
  load_session := memory_load_session;
  load_subscriptions := memory_load_subscriptions;
  load_inflight_messages := memory_load_inflight_messages;
  load_inbound_qos2_messages := memory_load_inbound_qos2_messages;
  delete_session := memory_delete_session;
  session_exists := memory_session_exists;
  delete_expired_sessions := memory_delete_expired_sessions;
  save_retained_message := memory_save_retained_message;
  load_retained_message := memory_load_retained_message;
  load_all_retained_messages := memory_load_all_retained_messages;
  delete_retained_message := memory_delete_retained_message;
  count_retained_messages := memory_count_retained_messages;
}.
End Iterating.

(** * What the maps hold *)

(** The four maps of a client's data have the same clients in them, and an
    entry is stored under its own name. *)
Record memory_inv (s : InMemoryStorage) : Prop := {
  inv_subscriptions : dom (mem_subscriptions s) = dom (mem_sessions s);
  inv_inflight : dom (mem_inflight s) = dom (mem_sessions s);
  inv_inbound : dom (mem_inbound_qos2 s) = dom (mem_sessions s);
  inv_session_id cid p : mem_sessions s !! cid = Some p → ps_client_id p = cid;
  inv_retained_topic t m : mem_retained s !! t = Some m → pr_topic m = t;
}.

Definition memory_abs (s : InMemoryStorage) : StoredData :=
  mkStored
    (map_imap (λ cid p, Some (mkSaved (undated p) (default [] (mem_subscriptions s !! cid))
       (default [] (mem_inflight s !! cid)) (default [] (mem_inbound_qos2 s !! cid))))
       (mem_sessions s))
    (mem_retained s).

Lemma memory_abs_lookup s cid :
  kept (memory_abs s) !! cid =
  (λ p, mkSaved (undated p) (default [] (mem_subscriptions s !! cid))
     (default [] (mem_inflight s !! cid)) (default [] (mem_inbound_qos2 s !! cid)))
  <$> mem_sessions s !! cid.
Proof. simpl. rewrite map_lookup_imap. by destruct (mem_sessions s !! cid). Qed.

(** A client's list, read off the map or off the abstract store. *)
Lemma memory_list {A} s cid (m : gmap string (list A)) (f : SavedSession → list A) :
  dom m = dom (mem_sessions s) →
  (∀ p, f (mkSaved (undated p) (default [] (mem_subscriptions s !! cid))
     (default [] (mem_inflight s !! cid)) (default [] (mem_inbound_qos2 s !! cid))) =
     default [] (m !! cid)) →
  default [] (m !! cid) = default [] (f <$> kept (memory_abs s) !! cid).
Proof.
  intros Hd Hf. rewrite memory_abs_lookup. destruct (mem_sessions s !! cid) eqn:E; simpl.
  - by rewrite Hf.
  - apply not_elem_of_dom in E. rewrite <- Hd in E. apply not_elem_of_dom in E. by rewrite E.
Qed.

Lemma memory_inv_new : memory_inv memory_new.
Proof. split; try done; intros ? ?; by rewrite lookup_empty. Qed.

Lemma memory_inv_remove cid s : memory_inv s → memory_inv (memory_remove cid s).
Proof.
  intros []. split; simpl; rewrite ?dom_delete_L; try congruence; [|done].
  intros k p [_ H]%lookup_delete_Some. eauto.
Qed.

Lemma memory_abs_remove cid s :
  memory_abs (memory_remove cid s) = set_kept (delete cid) (memory_abs s).
Proof.
  unfold set_kept, memory_abs at 1. f_equal. apply map_eq. intros k.
  rewrite map_lookup_imap. simpl. destruct (decide (k = cid)) as [->|Hk].
  - by rewrite !lookup_delete_eq.
  - rewrite !lookup_delete_ne by done. rewrite map_lookup_imap. done.
Qed.

(** Removing a list of clients, one after the other. *)
Lemma memory_remove_all {E} l s :
  memory_inv s →
  ∃ s', for_each l (λ cid, modify (E := E) (memory_remove cid)) s = (s', Ok tt) ∧
    memory_inv s' ∧
    memory_abs s' = set_kept (λ m, foldr delete m l) (memory_abs s).
Proof.
  revert s. induction l as [|cid l IH]; intros s Hs; simpl.
  - exists s. split; [done|]. split; [done|]. by destruct (memory_abs s).
  - rewrite bind_modify.
    destruct (IH _ (memory_inv_remove cid s Hs)) as (s' & E1 & Hi & Ha).
    exists s'. split; [done|]. split; [done|]. rewrite Ha, memory_abs_remove.
    unfold set_kept; simpl. f_equal. by rewrite delete_foldr_delete.
Qed.

Lemma size_foldr_delete {A} (l : list string) (m : gmap string A) :
  NoDup l → (∀ k, k ∈ l → is_Some (m !! k)) →
  length l + size (foldr delete m l) = size m.
Proof.
  revert m. induction l as [|k l IH]; intros m; [done|].
  intros [Hk Hl]%list.NoDup_cons Hm. simpl. rewrite delete_foldr_delete.
  specialize (IH (delete k m) Hl). rewrite map_size_delete in IH.
  destruct (Hm k) as [x Hx]; [by left|]. rewrite Hx in IH.
  assert (size m ≠ 0) by (apply map_size_ne_0_lookup; eauto).
  enough (length l + size (foldr delete (delete k m) l) = Init.Nat.pred (size m)) by lia.
  apply IH. intros k' Hk'. rewrite lookup_delete_ne by congruence. apply Hm. by right.
Qed.

Section Contract.
Context {HO : HashOrder} {HOL : HashOrderLaws}.

(** The sessions [delete_expired_sessions] lists. *)
Definition expired_ids (t : DateTime) (m : gmap string PersistedSession) : list string :=
  (filter (λ kv, (nanos (ps_updated_at kv.2) < nanos t)%Z) (map_iter m)).*1.

Lemma elem_of_expired_ids t m cid :
  cid ∈ expired_ids t m ↔ ∃ p, m !! cid = Some p ∧ (nanos (ps_updated_at p) < nanos t)%Z.
Proof.
  unfold expired_ids. rewrite list_elem_of_fmap. split.
  - intros ([k p] & -> & [Hp Hk]%list_elem_of_filter). apply elem_of_map_iter in Hk. eauto.
  - intros (p & Hp & Ht). exists (cid, p). split; [done|].
    apply list_elem_of_filter. split; [done|]. by apply elem_of_map_iter.
Qed.

Lemma NoDup_expired_ids t m : NoDup (expired_ids t m).
Proof.
  unfold expired_ids. eapply sublist_NoDup; [apply (NoDup_fst_map_iter m)|].
  apply fmap_sublist, sublist_filter.
Qed.

Lemma memory_unexpired s t :
  foldr delete (kept (memory_abs s)) (expired_ids t (mem_sessions s)) =
  unexpired t (kept (memory_abs s)).
Proof.
  apply map_eq. intros k. unfold unexpired. apply option_eq. intros x.
  rewrite lookup_foldr_delete_Some, map_lookup_filter_Some, elem_of_expired_ids.
  rewrite memory_abs_lookup. destruct (mem_sessions s !! k) as [p|]; simpl; [|naive_solver].
  split.
  - intros [H [= <-]]. split; [done|]. simpl. naive_solver.
  - intros [[= <-] H]. split; [|done]. intros (p' & [= <-] & Hp). by apply H.
Qed.

Lemma memory_delete_expired_spec t :
  storage_call memory_inv memory_abs (memory_delete_expired_sessions t)
    (λ d d' r, d' = set_kept (unexpired t) d ∧
               (r + size (kept d') = size (kept d))%nat).
Proof.
  intros s Hs. unfold memory_delete_expired_sessions. rewrite bind_gets. cbv zeta.
  fold (expired_ids t (mem_sessions s)).
  destruct (memory_remove_all (E := StorageError) (expired_ids t (mem_sessions s)) s Hs)
    as (s' & E1 & Hi & Ha).
  rewrite (bind_Ok _ _ _ _ _ E1). unfold mret, M_ret. cbn [fst snd].
  split; [done|]. unfold set_kept in Ha |- *. rewrite memory_unexpired in Ha.
  split; [done|]. rewrite Ha. cbn [kept]. rewrite <- memory_unexpired.
  apply size_foldr_delete; [apply NoDup_expired_ids|].
  intros k (p & Hp & _)%elem_of_expired_ids. rewrite memory_abs_lookup, Hp. by eexists.
Qed.

Lemma memory_inv_save p subs infl inb s :
  memory_inv s → memory_inv (memory_save_session (p : PersistedSession) subs infl inb s).1.
Proof.
  intros []. split; simpl; rewrite ?dom_insert_L; try congruence; [|done].
  intros k q [[<- <-]|[_ H]]%lookup_insert_Some; eauto.
Qed.

Lemma memory_abs_save p subs infl inb s :
  memory_abs (memory_save_session p subs infl inb s).1 =
  set_kept <[ps_client_id p := mkSaved (undated p) subs infl inb]> (memory_abs s).
Proof.
  unfold set_kept, memory_abs at 1. f_equal. apply map_eq. intros k.
  rewrite map_lookup_imap. simpl. destruct (decide (k = ps_client_id p)) as [->|Hk].
  - by rewrite !lookup_insert_eq.
  - rewrite !lookup_insert_ne by done. by rewrite map_lookup_imap.
Qed.

#[local] Obligation Tactic := idtac.

#[export] Program Instance memory_laws : StorageLaws InMemoryStorage := {
  storage_inv := memory_inv;
  storage_abs := memory_abs;
  storage_admits _ _ _ _ := True;
}.
Next Obligation. done. Qed.
Next Obligation.
  intros s cid x Hs. rewrite memory_abs_lookup.
  intros (p & Hp & ->)%fmap_Some. exact (inv_session_id s Hs _ _ Hp).
Qed.
Next Obligation. intros s t m Hs. apply (inv_retained_topic s Hs). Qed.
Next Obligation.
  intros p subs infl inb _ s Hs. split; [by apply memory_inv_save|apply memory_abs_save].
Qed.
Next Obligation.
  intros cid s Hs. do 2 (split; [done|]). rewrite memory_abs_lookup.
  simpl. by destruct (mem_sessions s !! cid).
Qed.
Next Obligation.
  intros cid s Hs. do 2 (split; [done|]). simpl.
  by rewrite (memory_list s cid _ saved_subscriptions) by (apply Hs || done).
Qed.
Next Obligation.
  intros cid s Hs. do 2 (split; [done|]). simpl.
  by rewrite (memory_list s cid _ saved_inflight) by (apply Hs || done).
Qed.
Next Obligation.
  intros cid s Hs. do 2 (split; [done|]). simpl.
  by rewrite (memory_list s cid _ saved_inbound) by (apply Hs || done).
Qed.
Next Obligation.
  intros cid s Hs. split; [by apply memory_inv_remove|apply memory_abs_remove].
Qed.
Next Obligation.
  intros cid s Hs. do 2 (split; [done|]). rewrite memory_abs_lookup.
  apply bool_decide_ext. by rewrite fmap_is_Some.
Qed.
Next Obligation. apply memory_delete_expired_spec. Qed.
Next Obligation.
  intros m s []. split; [|done]. split; try done. simpl.
  intros t m' [[<- <-]|[_ H]]%lookup_insert_Some; eauto.
Qed.
Next Obligation. done. Qed.
Next Obligation. intros s Hs. do 2 (split; [done|]). simpl. by rewrite map_iter_perm. Qed.
Next Obligation.
  intros t s []. split; [|done]. split; try done. simpl.
  intros t' m' [_ H]%lookup_delete_Some; eauto.
Qed.
Next Obligation. done. Qed.

#[local] Obligation Tactic := try done.

#[export] Program Instance memory_reliable : StorageReliable InMemoryStorage := {
  storage_stores _ _ _ _ := True;
  storage_reads _ := True;
  storage_counts _ := True;
}.
Next Obligation.
  intros t s Hs. unfold delete_expired_sessions, memory_storage, memory_delete_expired_sessions.
  rewrite bind_gets. cbv zeta. fold (expired_ids t (mem_sessions s)).
  destruct (memory_remove_all (E := StorageError) (expired_ids t (mem_sessions s)) s Hs)
    as (s' & E1 & _).
  by rewrite (bind_Ok _ _ _ _ _ E1).
Qed.

(** It serves every sequence of requests. *)
Lemma memory_requests_ok rs d : requests_ok (S := InMemoryStorage) rs d.
Proof. revert d. induction rs as [|[] rs IH]; intros d; by split. Qed.
End Contract.

(** [InMemoryStorage] is the store it stands for: whatever sequence of
    calls a program makes on a new one, every call returns [Ok], with the reply
    of a store that keeps one saved session per client and one retained message
    per topic (a list may come in another order). *)
Theorem memory_refines_store {HO : HashOrder} {HOL : HashOrderLaws} rs :
  ∃ s l, serve_all rs memory_new = (s, Ok l) ∧
    Forall2 same_reply l (spec_serve_all rs (mkStored ∅ ∅)).2.
Proof.
  destruct (serve_all_refines (SL := memory_laws) rs memory_new memory_inv_new
    (memory_requests_ok rs _)) as (s & l & E & _ & _ & H).
  exists s, l. split; [done|]. by cbn [storage_abs memory_laws] in H.
Qed.

Lemma memory_refines_store_witness :
  let p := mkPersistedSession "c" 7 60 None 0%Z 0%Z in
  let sub := mkPersistedSubscription "c" "a/#" SExactlyOnce in
  let rs := [SaveSession p [sub] [] []; LoadSubscriptions "c"; LoadSubscriptions "d";
             DeleteSession "c"; SessionExists "c"] in
  ∃ s l, serve_all (S := InMemoryStorage) rs memory_new = (s, Ok l) ∧
    l = [Done; ReplySubscriptions [sub]; ReplySubscriptions []; Done; ReplyBool false] ∧
    Forall2 same_reply l (spec_serve_all rs (mkStored ∅ ∅)).2.
Proof.
  intros p sub rs. destruct (memory_refines_store rs) as (s & l & E & H).
  exists s, l. split; [exact E|]. split; [|exact H].
  vm_compute in E. by injection E as <- <-.
Defined.
