(* ===== verification/Sql.v ===== *)
(** The database library [src/storage/sqlite.rs] is written against, as an
    interface: the SQL the file contains as statements, what SQLite documents
    about them on tables that are lists of rows, and [rusqlite]'s connections
    and transactions.  Every call may fail; [RusqliteReliable] is a library none
    of whose calls fails without a reason in the data.

    A statement changes one table or none; one that fails changes nothing, or
    ends the transaction it is in and undoes it, as SQLite does on some errors.
    [engine] is a small instance on which the development can be run.  The class
    [Rfc3339] is what the file uses of [chrono]'s text form of a date. *)

From Stdlib Require Import Sorted.
From stdpp Require Import sorting.
From S2P Require Import Prelude Storage.

Local Open Scope Z_scope.

(** * Values and rows *)

(** [rusqlite::types::Value]; a text is a Rust string. *)
Inductive Value :=
| VNull
| VInt (z : Z)
| VText (s : string)
| VBlob (b : Bytes).

#[export] Instance Value_eq_dec : EqDecision Value.
Proof. solve_decision. Defined.

Definition value_class (v : Value) : Z :=
  match v with VNull => 0 | VInt _ => 1 | VText _ => 2 | VBlob _ => 3 end.

(** The order of [ORDER BY]: by class, then texts and blobs as [memcmp] has
    them. *)
Definition value_compare (a b : Value) : comparison :=
  match a, b with
  | VInt x, VInt y => x ?= y
  | VText x, VText y => String.compare x y
  | VBlob x, VBlob y =>
      String.compare (String.string_of_list_byte x) (String.string_of_list_byte y)
  | _, _ => value_class a ?= value_class b
  end.

Definition value_le (a b : Value) : Prop := value_compare a b ≠ Gt.

(** [=] and [<] do not hold of a NULL. *)
Definition value_eqb (a b : Value) : bool :=
  bool_decide (a ≠ VNull ∧ b ≠ VNull ∧ a = b).
Definition value_ltb (a b : Value) : bool :=
  bool_decide (a ≠ VNull ∧ b ≠ VNull ∧ value_compare a b = Lt).

(** A row, by the names of its columns. *)
Abbreviation Row := (gmap string Value).

Definition column (c : string) (r : Row) : Value := default VNull (r !! c).

Record Schema := mkSchema {
  columns : list string;
  primary_key : list string;
  not_null : list string;
}.

Record Table := mkTable { schema : Schema; rows : list Row }.

Abbreviation Database := (gmap string Table).

(** * Statements *)

Inductive Cond :=
| Everything
| ColEq (c : string) (v : Value)
| ColLt (c : string) (v : Value).

(** [ON CONFLICT(target) DO UPDATE SET c = excluded.c, ...] *)
Record OnConflict := mkOnConflict { conflict_target : list string; set_columns : list string }.

Inductive Stmt :=
| CreateTable (name : string) (s : Schema)  (** [CREATE TABLE IF NOT EXISTS] *)
| CreateIndex (name table : string) (cols : list string)  (** [CREATE INDEX IF NOT EXISTS] *)
| InsertInto (table : string) (cols : list string) (vals : list Value) (c : option OnConflict)
| DeleteFrom (table : string) (where_ : Cond).

Record Select := mkSelect {
  result_columns : list string;
  from_table : string;
  where_cond : Cond;
  order_by : option string;
}.

(** * What they do *)

Definition cond_holds (c : Cond) (r : Row) : bool :=
  match c with
  | Everything => true
  | ColEq col v => value_eqb (column col r) v
  | ColLt col v => value_ltb (column col r) v
  end.

Definition row_of (cols : list string) (vals : list Value) : Row := list_to_map (zip cols vals).

Definition project (cols : list string) (r : Row) : list Value := (λ c, column c r) <$> cols.

(** The primary key of a row. *)
Definition key_of (s : Schema) (r : Row) : list Value := project (primary_key s) r.

Definition same_key (s : Schema) (r1 r2 : Row) : bool := bool_decide (key_of s r1 = key_of s r2).

(** The values that [excluded] has in the columns that are set. *)
Definition set_from (cols : list string) (excluded r : Row) : Row :=
  foldl (λ r c, <[c := column c excluded]> r) r cols.

(** A table after an insertion; [None] when a constraint forbids it. *)
Definition insert_row (new : Row) (c : option OnConflict) (t : Table) : option Table :=
  if negb (forallb (λ c, bool_decide (column c new ≠ VNull)) (not_null (schema t))) then None
  else if existsb (same_key (schema t) new) (rows t) then
    match c with
    | Some oc =>
        if bool_decide (conflict_target oc = primary_key (schema t)) then
          Some (mkTable (schema t)
            ((λ r, if same_key (schema t) new r then set_from (set_columns oc) new r else r)
             <$> rows t))
        else None
    | None => None
    end
  else Some (mkTable (schema t) (rows t ++ [new])).

Definition run_stmt (st : Stmt) (db : Database) : option Database :=
  match st with
  | CreateTable name s =>
      match db !! name with Some _ => Some db | None => Some (<[name := mkTable s []]> db) end
  | CreateIndex _ table _ => match db !! table with Some _ => Some db | None => None end
  | InsertInto table cols vals c =>
      t ← db !! table;
      t' ← insert_row (row_of cols vals) c t;
      Some (<[table := t']> db)
  | DeleteFrom table w =>
      t ← db !! table;
      Some (<[table := mkTable (schema t) (filter (λ r, negb (cond_holds w r) = true) (rows t))]> db)
  end.

Definition chosen (q : Select) (t : Table) : list Row :=
  filter (λ r, cond_holds (where_cond q) r = true) (rows t).

Definition row_before (q : Select) (a b : Row) : Prop :=
  match order_by q with Some c => value_le (column c a) (column c b) | None => True end.

(** The rows a query gives: those it selects, in an order the statement leaves
    open but for its [ORDER BY]. *)
Definition answers (q : Select) (db : Database) (l : list (list Value)) : Prop :=
  ∃ t rs, db !! from_table q = Some t ∧ rs ≡ₚ chosen q t ∧
    StronglySorted (row_before q) rs ∧ l = project (result_columns q) <$> rs.

(** [SELECT COUNT( * )] *)
Definition count_of (table : string) (w : Cond) (db : Database) : option Z :=
  t ← db !! table;
  Some (zlen (filter (λ r, cond_holds w r = true) (rows t))).

(** * The library *)

(** [Rows]: what [next] gives, one row after the other, and the error the
    reading of them stops with, if it does. *)
Definition Rows (E : Type) : Type := list (list Value) * option E.

Class Rusqlite := {
  SqlConnection : Type;
  SqlError : Type;
  sql_message : SqlError → string;  (** [to_string] *)
  invalid_column : nat → SqlError;  (** [row.get(i)] of a row that is shorter *)
  (** [FromSql] of [String], [Vec<u8>] and the integer types *)
  from_text : Value → string + SqlError;
  from_blob : Value → Bytes + SqlError;
  from_u8 : Value → Z + SqlError;
  from_i32 : Value → Z + SqlError;
  from_i64 : Value → Z + SqlError;
  open : string → SqlConnection + SqlError;
  open_in_memory : SqlConnection + SqlError;
  prepare : string → M SqlConnection SqlError ();  (** a statement on the table *)
  execute : Stmt → M SqlConnection SqlError ();
  query : Select → M SqlConnection SqlError (Rows SqlError);
  query_count : string → Cond → M SqlConnection SqlError Value;
  transaction : M SqlConnection SqlError ();
  commit : M SqlConnection SqlError ();
  rollback : SqlConnection → SqlConnection;  (** dropping an open [Transaction] *)
  (** What the connection sees, and, in a transaction, what a rollback goes back
      to. *)
  database : SqlConnection → Database;
  before_transaction : SqlConnection → option Database;
}.

(** What is left if the transaction that is open, if one is, is rolled back. *)
Definition committed {SQ : Rusqlite} (c : SqlConnection) : Database :=
  default (database c) (before_transaction c).

(** A call that failed: nothing has changed, or the transaction is undone. *)
Definition failed {SQ : Rusqlite} (c c' : SqlConnection) : Prop :=
  committed c' = committed c ∧
  (before_transaction c' = before_transaction c ∨ before_transaction c' = None).

Definition unchanged {SQ : Rusqlite} (c c' : SqlConnection) : Prop :=
  database c' = database c ∧ before_transaction c' = before_transaction c.

(** A call gives [a] with [Q c' a], or fails. *)
Definition call_law {SQ : Rusqlite} {A} (m : M SqlConnection SqlError A)
    (Q : SqlConnection → SqlConnection → A → Prop) : Prop :=
  ∀ c, match m c with
       | (c', Ok a) => Q c c' a
       | (c', Err _) => failed c c'
       | _ => False
       end.

Class RusqliteLaws {SQ : Rusqlite} : Prop := {
  from_text_text s : from_text (VText s) = inl s;
  from_blob_blob b : from_blob (VBlob b) = inl b;
  from_u8_int z : 0 ≤ z < 2 ^ 8 → from_u8 (VInt z) = inl z;
  from_i32_int z : - 2 ^ 31 ≤ z < 2 ^ 31 → from_i32 (VInt z) = inl z;
  from_i32_same z n : from_i32 (VInt z) = inl n → n = z;
  from_i64_int z : - 2 ^ 63 ≤ z < 2 ^ 63 → from_i64 (VInt z) = inl z;
  from_i64_same z n : from_i64 (VInt z) = inl n → n = z;
  open_law path c : open path = inl c → before_transaction c = None;
  open_in_memory_law c :
    open_in_memory = inl c → database c = ∅ ∧ before_transaction c = None;
  prepare_law t : call_law (prepare t) (λ c c' _, unchanged c c');
  execute_law st :
    call_law (execute st) (λ c c' _,
      run_stmt st (database c) = Some (database c') ∧
      before_transaction c' = before_transaction c);
  query_law q :
    call_law (query q) (λ c c' r,
      match r with
      | (l, None) => answers q (database c) l ∧ unchanged c c'
      | (l, Some _) => (∃ l', answers q (database c) (l ++ l')) ∧ failed c c'
      end);
  query_count_law t w :
    call_law (query_count t w) (λ c c' v,
      ∃ n, v = VInt n ∧ count_of t w (database c) = Some n ∧ n < 2 ^ 63 ∧ unchanged c c');
  transaction_law c :
    before_transaction c = None →
    match transaction c with
    | (c', Ok _) => database c' = database c ∧ before_transaction c' = Some (database c)
    | (c', Err _) => unchanged c c'
    | _ => False
    end;
  commit_law :
    call_law commit (λ c c' _, database c' = database c ∧ before_transaction c' = None);
  rollback_law c :
    database (rollback c) = committed c ∧ before_transaction (rollback c) = None;
}.

(** A library that fails only where the data give it a reason to. *)
Class RusqliteReliable {SQ : Rusqlite} : Prop := {
  prepare_Ok t c : is_Some (database c !! t) → is_Ok (prepare t c).2;
  execute_Ok st c : is_Some (run_stmt st (database c)) → is_Ok (execute st c).2;
  query_Ok q c :
    is_Some (database c !! from_table q) → ∃ c' l, query q c = (c', Ok (l, None));
  query_count_Ok t w c n :
    count_of t w (database c) = Some n → n < 2 ^ 63 → is_Ok (query_count t w c).2;
  transaction_Ok c : before_transaction c = None → is_Ok (transaction c).2;
  commit_Ok c : is_Some (before_transaction c) → is_Ok (commit c).2;
}.

(** * Dates as text *)

Class Rfc3339 := {
  to_rfc3339 : DateTime → string;
  parse_from_rfc3339 : string → option DateTime;  (** with its offset applied *)
}.

(** A date is read back from what was written, and two dates written in UTC
    compare as texts the way they compare as dates. *)
Class Rfc3339Laws {RF : Rfc3339} : Prop := {
  parse_to_rfc3339 t : parse_from_rfc3339 (to_rfc3339 t) = Some t;
  compare_to_rfc3339 a b :
    String.compare (to_rfc3339 a) (to_rfc3339 b) = (nanos a ?= nanos b);
}.
