(* ===== verification/SqlEngine.v ===== *)
(** A small database engine and a fixed-width text form of dates: instances of
    the interfaces of [Sql.v] that satisfy their laws, on which the theorems
    about [src/storage/sqlite.rs] are run. *)

From Stdlib Require Import Sorted OrdersEx.
From stdpp Require Import sorting.
From S2P Require Import Prelude Storage Sql.

Local Open Scope Z_scope.

(** * Orders *)

Lemma string_compare_trans x y z :
  String.compare x y ≠ Gt → String.compare y z ≠ Gt → String.compare x z ≠ Gt.
Proof.
  intros H1 H2. destruct (String.compare x y) eqn:E1; [|clear H1|done].
  { by rewrite (String.compare_eq_iff x y E1). }
  destruct (String.compare y z) eqn:E2; [|clear H2|done].
  { rewrite <- (String.compare_eq_iff y z E2), E1. done. }
  pose proof (StrictOrder_Transitive x y z E1 E2 : String.compare x z = Lt). congruence.
Qed.

Lemma string_compare_total x y : String.compare x y ≠ Gt ∨ String.compare y x ≠ Gt.
Proof. rewrite (String.compare_antisym x y). destruct (String.compare y x); auto. Qed.

#[export] Instance value_le_dec a b : Decision (value_le a b).
Proof. unfold value_le. apply _. Defined.

#[export] Instance value_le_trans : Transitive value_le.
Proof.
  intros a b c. unfold value_le.
  destruct a, b, c; simpl; try (cbn; congruence); try (rewrite !Z.compare_gt_iff; lia);
    apply string_compare_trans.
Qed.

#[export] Instance value_le_total : Total value_le.
Proof.
  intros a b. unfold value_le.
  destruct a, b; simpl; try (left; done); try (right; done);
    try apply string_compare_total. rewrite !Z.compare_gt_iff. lia.
Qed.

#[export] Instance row_before_dec q a b : Decision (row_before q a b).
Proof. unfold row_before. destruct (order_by q); apply _. Defined.

#[export] Instance row_before_trans q : Transitive (row_before q).
Proof.
  intros a b c. unfold row_before. destruct (order_by q); [apply value_le_trans|done].
Qed.

#[export] Instance row_before_total q : Total (row_before q).
Proof.
  intros a b. unfold row_before. destruct (order_by q); [apply value_le_total|by left].
Qed.

(** * The engine

    A connection is a database and, in a transaction, the database it began
    with. *)
Definition EngineConnection : Type := Database * option Database.

(** A call that reads the database, or fails without touching it. *)
Definition reading {A} (e : string) (f : Database → option A) : M EngineConnection string A :=
  λ c, (c, match f c.1 with Some a => Ok a | None => Err e end).

Definition engine_execute (st : Stmt) : M EngineConnection string () := λ c,
  match run_stmt st c.1 with
  | Some db => ((db, c.2), Ok tt)
  | None => (c, Err "constraint failed")
  end.

Definition engine_answers (q : Select) (db : Database) : option (Rows string) :=
  t ← db !! from_table q;
  Some (project (result_columns q) <$> merge_sort (row_before q) (chosen q t), None).

Definition engine_count (t : string) (w : Cond) (db : Database) : option Value :=
  n ← count_of t w db;
  if n <? 2 ^ 63 then Some (VInt n) else None.

Definition in_range (lo hi : Z) (v : Value) : Z + string :=
  match v with
  | VInt z => if (lo <=? z) && (z <? hi) then inl z else inr "Integer out of range"
  | _ => inr "Invalid column type"
  end.

(** The engine, on a file that holds [disk]. *)
Definition engine_on (disk : Database) : Rusqlite := {|
  SqlConnection := EngineConnection;
  SqlError := string;
  sql_message := id;
  invalid_column _ := "Invalid column index";
  from_text v := match v with VText s => inl s | _ => inr "Invalid column type" end;
  from_blob v := match v with VBlob b => inl b | _ => inr "Invalid column type" end;
  from_u8 := in_range 0 (2 ^ 8);
  from_i32 := in_range (- 2 ^ 31) (2 ^ 31);
  from_i64 := in_range (- 2 ^ 63) (2 ^ 63);
  open _ := inl (disk, None);
  open_in_memory := inl (∅, None);
  prepare t := reading "no such table" (λ db, (λ _, tt) <$> db !! t);
  execute := engine_execute;
  query q := reading "no such table" (engine_answers q);
  query_count t w := reading "cannot count" (engine_count t w);
  transaction c :=
    match c.2 with Some _ => (c, Err "nested") | None => ((c.1, Some c.1), Ok tt) end;
  commit c :=
    match c.2 with Some _ => ((c.1, None), Ok tt) | None => (c, Err "no transaction") end;
  rollback c := (default c.1 c.2, None);
  database := fst;
  before_transaction := snd;
|}.

#[export] Instance engine : Rusqlite := engine_on ∅.

Section Laws.
Context (disk : Database).

Lemma in_range_int lo hi z : lo ≤ z < hi → in_range lo hi (VInt z) = inl z.
Proof.
  intros Hz. unfold in_range. assert ((lo <=? z) && (z <? hi) = true) as ->; [|done].
  apply andb_true_intro. lia.
Qed.

Lemma in_range_same lo hi z n : in_range lo hi (VInt z) = inl n → n = z.
Proof. unfold in_range. destruct (_ && _); naive_solver. Qed.

Lemma failed_here (c : SqlConnection (Rusqlite := engine_on disk)) : failed c c.
Proof. split; [done|by left]. Qed.

Lemma reading_law {A} e (f : Database → option A) (Q : EngineConnection → EngineConnection → A → Prop) :
  (∀ c a, f (c.1) = Some a → Q c c a) → call_law (SQ := engine_on disk) (reading e f) Q.
Proof.
  intros HQ c. unfold reading. destruct (f c.1) as [a|] eqn:E; [by apply HQ|apply failed_here].
Qed.

Lemma engine_answers_law q db l : engine_answers q db = Some l → l.2 = None ∧ answers q db l.1.
Proof.
  unfold engine_answers. destruct (db !! from_table q) as [t|] eqn:E; [|done].
  simpl. intros [= <-]. split; [done|].
  exists t, (merge_sort (row_before q) (chosen q t)). split_and!; [done| | |done].
  - apply merge_sort_Permutation.
  - apply StronglySorted_merge_sort; apply _.
Qed.

#[export] Instance engine_laws : RusqliteLaws (SQ := engine_on disk).
Proof.
  split; try done; try (intros *; apply in_range_int); try (intros *; apply in_range_same).
  - by intros path c [= <-].
  - by intros c [= <-].
  - intros t. by apply reading_law.
  - intros st c. cbn. unfold engine_execute.
    destruct (run_stmt st c.1) eqn:E; [by split|apply failed_here].
  - intros q. apply reading_law. intros c [l o] [Ho Hl]%engine_answers_law. cbn in Ho.
    rewrite Ho. by repeat split.
  - intros t w. apply reading_law. intros c v. unfold engine_count.
    destruct (count_of t w _) as [n|]; [|done]. cbn. destruct (Z.ltb_spec n (2 ^ 63)); [|done].
    intros [= <-]. by exists n.
  - intros [db b]. cbn. intros ->. done.
  - intros [db b]. destruct b; cbn; [done|]. split; [done|by left].
Qed.

#[export] Instance engine_reliable : RusqliteReliable (SQ := engine_on disk).
Proof.
  split; cbn; unfold reading.
  - by intros t c [x ->].
  - intros st c [db H]. unfold engine_execute. cbn in H. by rewrite H.
  - intros q c [t H]. cbn in H. unfold engine_answers. rewrite H. cbn. eauto.
  - intros t w c n H Hn. unfold engine_count. rewrite H. cbn. by rewrite (proj2 (Z.ltb_lt _ _) Hn).
  - by intros [db b]; cbn; intros ->.
  - by intros [db b] [x H]; cbn in *; rewrite H.
Qed.

End Laws.

(** * Dates of a fixed width

    The nanoseconds since the year 0, in binary. *)
Definition year_zero : Z := -62167219200000000000.
Definition date_bits : nat := 69.

Fixpoint write_bits (n : nat) (z : Z) : string :=
  match n with
  | O => EmptyString
  | S n' => String (Ascii.ascii_of_N (if Z.testbit z (Z.of_nat n') then 49 else 48)) (write_bits n' z)
  end.

Fixpoint read_bits (acc : Z) (s : string) : Z :=
  match s with
  | EmptyString => acc
  | String a s' => read_bits (2 * acc + (if Ascii.eqb a (Ascii.ascii_of_N 49) then 1 else 0)) s'
  end.

#[export] Instance binary_dates : Rfc3339 := {
  to_rfc3339 t := write_bits date_bits (nanos t - year_zero);
  parse_from_rfc3339 s :=
    let t := at_nanos (read_bits 0 s + year_zero) in
    if String.eqb (write_bits date_bits (nanos t - year_zero)) s then Some t else None;
}.

Lemma div_pow2_S z n : 0 ≤ z →
  z / 2 ^ Z.of_nat n = 2 * (z / 2 ^ Z.of_nat (S n)) + Z.b2z (Z.testbit z (Z.of_nat n)).
Proof.
  intros Hz. rewrite <- !Z.shiftr_div_pow2 by lia.
  rewrite (Z.div2_odd (Z.shiftr z (Z.of_nat n))) at 1.
  rewrite <- Z.bit0_odd, Z.shiftr_spec, Z.add_0_l by lia.
  rewrite Z.div2_spec, Z.shiftr_shiftr by lia.
  by replace (Z.of_nat n + 1) with (Z.of_nat (S n)) by lia.
Qed.

Lemma read_write_bits n z acc :
  0 ≤ z → acc = z / 2 ^ Z.of_nat n → read_bits acc (write_bits n z) = z.
Proof.
  intros Hz. revert acc. induction n as [|n IH]; intros acc ->.
  - by rewrite Z.div_1_r.
  - cbn [write_bits read_bits]. apply IH. rewrite (div_pow2_S z n Hz). f_equal.
    by destruct (Z.testbit z (Z.of_nat n)).
Qed.

Lemma compare_write_bits n x y :
  0 ≤ x → 0 ≤ y → x / 2 ^ Z.of_nat n = y / 2 ^ Z.of_nat n →
  String.compare (write_bits n x) (write_bits n y) = (x ?= y).
Proof.
  intros Hx Hy. induction n as [|n IH]; intros H.
  - rewrite !Z.div_1_r in H. subst. by rewrite Z.compare_refl.
  - pose proof (div_pow2_S x n Hx) as Ex. pose proof (div_pow2_S y n Hy) as Ey.
    assert (0 < 2 ^ Z.of_nat n) by lia.
    cbn [write_bits String.compare].
    destruct (Z.testbit x (Z.of_nat n)), (Z.testbit y (Z.of_nat n)); cbn in Ex, Ey |- *;
      try (apply IH; lia); symmetry.
    + apply Z.compare_gt_iff. apply Z.nle_gt. intros Hxy.
      apply (Z.div_le_mono _ _ (2 ^ Z.of_nat n)) in Hxy; lia.
    + apply Z.compare_lt_iff. apply Z.nle_gt. intros Hxy.
      apply (Z.div_le_mono _ _ (2 ^ Z.of_nat n)) in Hxy; lia.
Qed.

Lemma since_year_zero t : 0 ≤ nanos t - year_zero < 2 ^ Z.of_nat date_bits.
Proof.
  destruct t as [z Hz]. cbn [nanos]. unfold in_rfc3339_years in Hz. unfold year_zero.
  apply andb_true_iff in Hz. change (2 ^ Z.of_nat date_bits) with 590295810358705651712. lia.
Qed.

#[export] Instance binary_dates_laws : Rfc3339Laws.
Proof.
  split.
  - intros t. pose proof (since_year_zero t) as H. cbn [parse_from_rfc3339 to_rfc3339 binary_dates].
    rewrite read_write_bits by (rewrite ?Z.div_small by lia; lia).
    rewrite Z.sub_add, at_nanos_id. by rewrite String.eqb_refl.
  - intros a b. pose proof (since_year_zero a). pose proof (since_year_zero b).
    cbn [to_rfc3339 binary_dates]. rewrite compare_write_bits by (rewrite ?Z.div_small by lia; lia).
    destruct (Z.compare_spec (nanos a) (nanos b)); [apply Z.compare_eq_iff|apply Z.compare_lt_iff|
      apply Z.compare_gt_iff]; lia.
Qed.
