(* ===== verification/SqliteStorage.v ===== *)
(** [src/storage/sqlite.rs]: the storage backend that keeps sessions and retained
    messages in an SQLite database, five tables of it, against the interface of
    [Sql.v]. *)

From stdpp Require Import pretty.
From S2P Require Import Prelude Packet Storage Sql.

Local Open Scope Z_scope.

(** * The schema *)

Definition sessions_columns : list string :=
  ["client_id"; "next_packet_id"; "keep_alive"; "will_topic"; "will_payload"; "will_qos";
   "will_retain"; "created_at"; "updated_at"].
Definition subscriptions_columns : list string := ["client_id"; "topic_filter"; "qos"].
Definition inflight_columns : list string :=
  ["client_id"; "packet_id"; "topic"; "payload"; "qos"; "retain"; "retry_count"; "qos2_state";
   "created_at"].
Definition inbound_columns : list string :=
  ["client_id"; "packet_id"; "topic"; "payload"; "retain"; "received_at"].
Definition retained_columns : list string := ["topic"; "payload"; "qos"; "updated_at"].

Definition sessions_schema : Schema :=
  mkSchema sessions_columns ["client_id"]
    ["next_packet_id"; "keep_alive"; "created_at"; "updated_at"].
Definition subscriptions_schema : Schema :=
  mkSchema subscriptions_columns ["client_id"; "topic_filter"] subscriptions_columns.
Definition inflight_schema : Schema :=
  mkSchema inflight_columns ["client_id"; "packet_id"]
    ["client_id"; "packet_id"; "topic"; "payload"; "qos"; "retain"; "retry_count"; "created_at"].
Definition inbound_schema : Schema :=
  mkSchema inbound_columns ["client_id"; "packet_id"] inbound_columns.
Definition retained_schema : Schema :=
  mkSchema retained_columns ["topic"] ["payload"; "qos"; "updated_at"].

Definition schema_batch : list Stmt :=
  [CreateTable "sessions" sessions_schema;
   CreateTable "subscriptions" subscriptions_schema;
   CreateTable "inflight_messages" inflight_schema;
   CreateTable "inbound_qos2_messages" inbound_schema;
   CreateTable "retained_messages" retained_schema;
   CreateIndex "idx_subscriptions_client" "subscriptions" ["client_id"];
   CreateIndex "idx_inflight_client" "inflight_messages" ["client_id"];
   CreateIndex "idx_inbound_qos2_client" "inbound_qos2_messages" ["client_id"]].

(** * Parameters

    The [params!] of the insertions. *)
Section Params.
Context {RF : Rfc3339}.

(** An [Option] is NULL when it is [None]. *)
Definition optional {A} (f : A → Value) (o : option A) : Value := from_option f VNull o.

Definition as_i32 (b : bool) : Value := VInt (if b then 1 else 0).

Definition session_params (s : PersistedSession) : list Value :=
  [VText (ps_client_id s);
   VInt (ps_next_packet_id s);
   VInt (ps_keep_alive s);
   optional (λ w, VText (pw_topic w)) (ps_will_message s);
   optional (λ w, VBlob (pw_payload w)) (ps_will_message s);
   optional (λ w, VInt (stored_qos_as_u8 (pw_qos w))) (ps_will_message s);
   optional (λ w, as_i32 (pw_retain w)) (ps_will_message s);
   VText (to_rfc3339 (ps_created_at s));
   VText (to_rfc3339 (ps_updated_at s))].

Definition subscription_params (s : PersistedSubscription) : list Value :=
  [VText (psub_client_id s); VText (psub_topic_filter s); VInt (stored_qos_as_u8 (psub_qos s))].

Definition inflight_params (m : PersistedInflightMessage) : list Value :=
  [VText (pi_client_id m);
   VInt (pi_packet_id m);
   VText (pi_topic m);
   VBlob (pi_payload m);
   VInt (stored_qos_as_u8 (pi_qos m));
   as_i32 (pi_retain m);
   VInt (pi_retry_count m);
   optional (λ s, VInt (qos2_state_as_u8 s)) (pi_qos2_state m);
   VText (to_rfc3339 (pi_created_at m))].

Definition inbound_params (m : PersistedInboundQos2Message) : list Value :=
  [VText (pq_client_id m);
   VInt (pq_packet_id m);
   VText (pq_topic m);
   VBlob (pq_payload m);
   as_i32 (pq_retain m);
   VText (to_rfc3339 (pq_received_at m))].

Definition retained_params (m : PersistedRetainedMessage) : list Value :=
  [VText (pr_topic m);
   VBlob (pr_payload m);
   VInt (stored_qos_as_u8 (pr_qos m));
   VText (to_rfc3339 (pr_updated_at m))].
End Params.

Section Sqlite.
Context {SQ : Rusqlite} {RF : Rfc3339}.

(** The connection is behind a mutex, locked for the whole of each method. *)
Definition SqliteStorage : Type := SqlConnection.

(** [From<rusqlite::Error>], which [?] applies. *)
Definition sql {A} (m : M SqlConnection SqlError A) : M SqliteStorage StorageError A :=
  map_err (λ e, Internal (sql_message e)) m.

Definition parse_datetime (s table field record_id : string) : M SqliteStorage StorageError DateTime :=
  match parse_from_rfc3339 s with
  | Some dt => mret dt
  | None => throw (InvalidDateTime table field record_id s)
  end.

(** [row.get(i)?], at a type and at [Option] of it. *)
Definition get {A} (conv : Value → A + SqlError) (i : nat) (row : list Value) :
    M SqliteStorage StorageError A :=
  match row !! i with
  | Some v => sql (or_throw (conv v))
  | None => sql (throw (invalid_column i))
  end.

Definition get_option {A} (conv : Value → A + SqlError) (i : nat) (row : list Value) :
    M SqliteStorage StorageError (option A) :=
  match row !! i with
  | Some VNull => mret None
  | Some v => x ← sql (or_throw (conv v)); mret (Some x)
  | None => sql (throw (invalid_column i))
  end.

(** [if let Some(row) = rows.next()?] *)
Definition next_row (r : Rows SqlError) : M SqliteStorage StorageError (option (list Value)) :=
  match r with
  | (row :: _, _) => mret (Some row)
  | ([], Some e) => sql (throw e)
  | ([], None) => mret None
  end.

(** [while let Some(row) = rows.next()? { messages.push(..) }], and [collect] of
    a [query_map]: of a query's rows, or of none if it stops with an error. *)
Fixpoint each_row {A} (l : list (list Value)) (stop : option SqlError)
    (f : list Value → M SqliteStorage StorageError A) : M SqliteStorage StorageError (list A) :=
  match l with
  | [] => match stop with Some e => sql (throw e) | None => mret [] end
  | row :: l' => x ← f row; xs ← each_row l' stop f; mret (x :: xs)
  end.

Definition query_all {A} (q : Select) (f : list Value → M SqliteStorage StorageError A) :
    M SqliteStorage StorageError (list A) :=
  rows ← sql (query q);
  each_row rows.1 rows.2 f.

(** The first row of a query, if there is one. *)
Definition query_first {A} (q : Select) (f : list Value → M SqliteStorage StorageError A) :
    M SqliteStorage StorageError (option A) :=
  rows ← sql (query q);
  row ← next_row rows;
  match row with
  | Some row => x ← f row; mret (Some x)
  | None => mret None
  end.

(** A transaction, dropped when the code that has it returns early, which rolls
    it back. *)
Definition dropping_tx {A} (m : M SqliteStorage StorageError A) : M SqliteStorage StorageError A :=
  λ c, match m c with
       | (c', Ok a) => (c', Ok a)
       | (c', o) => (rollback c', o)
       end.

Definition with_tx {A} (body : M SqliteStorage StorageError A) : M SqliteStorage StorageError A :=
  sql transaction;;
  dropping_tx (a ← body; sql commit;; mret a).

(** * Opening *)

Definition initialize_schema : M SqliteStorage StorageError () :=
  for_each schema_batch (λ st, sql (execute st)).

(** The storage on a new connection, which is dropped with what has gone wrong. *)
Definition initialized (r : SqlConnection + SqlError) : outcome StorageError SqliteStorage :=
  match r with
  | inl conn =>
      match initialize_schema conn with
      | (storage, Ok _) => Ok storage
      | (_, Err e) => Err e
      | (_, Panic) => Panic
      | (_, Pending) => Pending
      end
  | inr e => Err (Internal (sql_message e))
  end.

Definition sqlite_new (path : string) : outcome StorageError SqliteStorage :=
  initialized (open path).
Definition sqlite_in_memory : outcome StorageError SqliteStorage := initialized open_in_memory.

(** * Sessions *)

Definition delete_where_client (table client_id : string) : M SqliteStorage StorageError () :=
  sql (execute (DeleteFrom table (ColEq "client_id" (VText client_id)))).

Definition delete_client_data (client_id : string) : M SqliteStorage StorageError () :=
  delete_where_client "inflight_messages" client_id;;
  delete_where_client "inbound_qos2_messages" client_id;;
  delete_where_client "subscriptions" client_id;;
  delete_where_client "sessions" client_id.

Definition session_conflict : OnConflict :=
  mkOnConflict ["client_id"]
    ["next_packet_id"; "keep_alive"; "will_topic"; "will_payload"; "will_qos"; "will_retain";
     "updated_at"].

(** Delete the rows of the client, then insert those that are given. *)
Definition replace_rows {A} (table : string) (cols : list string) (params : A → list Value)
    (client_id : string) (l : list A) : M SqliteStorage StorageError () :=
  delete_where_client table client_id;;
  sql (prepare table);;
  for_each l (λ x, sql (execute (InsertInto table cols (params x) None))).

Definition sqlite_save_session (session : PersistedSession)
    (subscriptions : list PersistedSubscription) (inflight : list PersistedInflightMessage)
    (inbound_qos2 : list PersistedInboundQos2Message) : M SqliteStorage StorageError () :=
  with_tx
    (let client_id := ps_client_id session in
     sql (execute (InsertInto "sessions" sessions_columns (session_params session)
                     (Some session_conflict)));;
     replace_rows "subscriptions" subscriptions_columns subscription_params client_id subscriptions;;
     replace_rows "inflight_messages" inflight_columns inflight_params client_id inflight;;
     replace_rows "inbound_qos2_messages" inbound_columns inbound_params client_id inbound_qos2).

(** [SELECT cols FROM table WHERE client_id = ?1 ORDER BY ..] *)
Definition select_client (cols : list string) (table client_id : string) (o : option string) : Select :=
  mkSelect cols table (ColEq "client_id" (VText client_id)) o.

Definition read_session (row : list Value) : M SqliteStorage StorageError PersistedSession :=
  client_id ← get from_text 0 row;
  will_topic ← get_option from_text 3 row;
  will_payload ← get_option from_blob 4 row;
  will_qos ← get_option from_u8 5 row;
  will_retain ← get_option from_i32 6 row;
  created_at_str ← get from_text 7 row;
  updated_at_str ← get from_text 8 row;
  let will_message :=
    match will_topic, will_payload, will_qos, will_retain with
    | Some topic, Some payload, Some qos, Some retain =>
        Some (mkPersistedWill topic payload (default SAtMostOnce (stored_qos_from_u8 qos))
                (negb (retain =? 0)))
    | _, _, _, _ => None
    end in
  next_packet_id ← get from_i32 1 row;
  keep_alive ← get from_i32 2 row;
  created_at ← parse_datetime created_at_str "sessions" "created_at" client_id;
  updated_at ← parse_datetime updated_at_str "sessions" "updated_at" client_id;
  mret (mkPersistedSession client_id (as_u16 next_packet_id) (as_u16 keep_alive) will_message
          created_at updated_at).

Definition sqlite_load_session (client_id : string) :
    M SqliteStorage StorageError (option PersistedSession) :=
  sql (prepare "sessions");;
  query_first (select_client sessions_columns "sessions" client_id None) read_session.

Definition sqlite_delete_session (client_id : string) : M SqliteStorage StorageError () :=
  with_tx (delete_client_data client_id).

Definition sqlite_session_exists (client_id : string) : M SqliteStorage StorageError bool :=
  v ← sql (query_count "sessions" (ColEq "client_id" (VText client_id)));
  count ← sql (or_throw (from_i32 v));
  mret (0 <? count).

Definition sqlite_delete_expired_sessions (older_than : DateTime) :
    M SqliteStorage StorageError nat :=
  let older_than_str := to_rfc3339 older_than in
  with_tx
    (sql (prepare "sessions");;
     expired_clients ← query_all
       (mkSelect ["client_id"] "sessions" (ColLt "updated_at" (VText older_than_str)) None)
       (get from_text 0);
     let count := length expired_clients in
     for_each expired_clients delete_client_data;;
     mret count).

Definition read_subscription (row : list Value) : M SqliteStorage StorageError PersistedSubscription :=
  qos_val ← get from_u8 2 row;
  client_id ← get from_text 0 row;
  topic_filter ← get from_text 1 row;
  mret (mkPersistedSubscription client_id topic_filter
          (default SAtMostOnce (stored_qos_from_u8 qos_val))).

Definition sqlite_load_subscriptions (client_id : string) :
    M SqliteStorage StorageError (list PersistedSubscription) :=
  sql (prepare "subscriptions");;
  query_all (select_client subscriptions_columns "subscriptions" client_id None) read_subscription.

(** [format!("{}:{}", client_id, packet_id)] *)
Definition record_id (client_id : string) (packet_id : Z) : string :=
  client_id +:+ ":" +:+ pretty packet_id.

Definition read_inflight (row : list Value) : M SqliteStorage StorageError PersistedInflightMessage :=
  client_id ← get from_text 0 row;
  packet_id ← get from_i32 1 row;
  payload ← get from_blob 3 row;
  qos_val ← get from_u8 4 row;
  retain_val ← get from_i32 5 row;
  qos2_state_val ← get_option from_u8 7 row;
  created_at_str ← get from_text 8 row;
  topic ← get from_text 2 row;
  retry_count ← get from_i32 6 row;
  created_at ← parse_datetime created_at_str "inflight_messages" "created_at"
                 (record_id client_id packet_id);
  mret (mkPersistedInflight client_id (as_u16 packet_id) topic payload
          (default SAtLeastOnce (stored_qos_from_u8 qos_val)) (negb (retain_val =? 0))
          (as_u32 retry_count) (qos2_state_val ≫= qos2_state_from_u8) created_at).

Definition sqlite_load_inflight_messages (client_id : string) :
    M SqliteStorage StorageError (list PersistedInflightMessage) :=
  sql (prepare "inflight_messages");;
  query_all (select_client inflight_columns "inflight_messages" client_id
                       (Some "created_at")) read_inflight.

Definition read_inbound (row : list Value) :
    M SqliteStorage StorageError PersistedInboundQos2Message :=
  client_id ← get from_text 0 row;
  packet_id ← get from_i32 1 row;
  payload ← get from_blob 3 row;
  retain_val ← get from_i32 4 row;
  received_at_str ← get from_text 5 row;
  topic ← get from_text 2 row;
  received_at ← parse_datetime received_at_str "inbound_qos2_messages" "received_at"
                  (record_id client_id packet_id);
  mret (mkPersistedInbound client_id (as_u16 packet_id) topic payload (negb (retain_val =? 0))
          received_at).

Definition sqlite_load_inbound_qos2_messages (client_id : string) :
    M SqliteStorage StorageError (list PersistedInboundQos2Message) :=
  sql (prepare "inbound_qos2_messages");;
  query_all (select_client inbound_columns "inbound_qos2_messages" client_id
                       (Some "received_at")) read_inbound.

(** * Retained messages *)

Definition retained_conflict : OnConflict :=
  mkOnConflict ["topic"] ["payload"; "qos"; "updated_at"].

Definition sqlite_save_retained_message (msg : PersistedRetainedMessage) :
    M SqliteStorage StorageError () :=
  sql (execute (InsertInto "retained_messages" retained_columns (retained_params msg)
                  (Some retained_conflict))).

Definition read_retained (row : list Value) : M SqliteStorage StorageError PersistedRetainedMessage :=
  topic ← get from_text 0 row;
  payload ← get from_blob 1 row;
  qos_val ← get from_u8 2 row;
  updated_at_str ← get from_text 3 row;
  updated_at ← parse_datetime updated_at_str "retained_messages" "updated_at" topic;
  mret (mkPersistedRetained topic payload (default SAtMostOnce (stored_qos_from_u8 qos_val))
          updated_at).

Definition sqlite_load_retained_message (topic : string) :
    M SqliteStorage StorageError (option PersistedRetainedMessage) :=
  sql (prepare "retained_messages");;
  query_first (mkSelect retained_columns "retained_messages" (ColEq "topic" (VText topic)) None)
    read_retained.

Definition sqlite_load_all_retained_messages :
    M SqliteStorage StorageError (list PersistedRetainedMessage) :=
  sql (prepare "retained_messages");;
  query_all (mkSelect retained_columns "retained_messages" Everything None) read_retained.

Definition sqlite_delete_retained_message (topic : string) : M SqliteStorage StorageError () :=
  sql (execute (DeleteFrom "retained_messages" (ColEq "topic" (VText topic)))).

Definition sqlite_count_retained_messages : M SqliteStorage StorageError nat :=
  v ← sql (query_count "retained_messages" Everything);
  count ← sql (or_throw (from_i64 v));
  mret (Z.to_nat (as_u64 count)).

#[export] Instance sqlite_storage : Storage SqliteStorage := {
  save_session := sqlite_save_session;
  load_session := sqlite_load_session;
  load_subscriptions := sqlite_load_subscriptions;
  load_inflight_messages := sqlite_load_inflight_messages;
  load_inbound_qos2_messages := sqlite_load_inbound_qos2_messages;
  delete_session := sqlite_delete_session;
  session_exists := sqlite_session_exists;
  delete_expired_sessions := sqlite_delete_expired_sessions;
  save_retained_message := sqlite_save_retained_message;
  load_retained_message := sqlite_load_retained_message;
  load_all_retained_messages := sqlite_load_all_retained_messages;
  delete_retained_message := sqlite_delete_retained_message;
  count_retained_messages := sqlite_count_retained_messages;
}.
End Sqlite.
