(* ===== verification/SqliteTables.v ===== *)
(** The five tables of [SqliteStorage.v] as lists of the records they stand for,
    and rules that say what the calls of a method do to those lists, whether it
    is in a transaction or not. *)

From Stdlib Require Import Sorted.
From S2P Require Import Prelude Packet Storage Sql SqliteStorage.

Local Open Scope Z_scope.

(** * Lists *)

(** [l] with [x] merged into the entries that have its key, or added. *)
Definition upserted {A} (same : A → A → bool) (merge : A → A → A) (x : A) (l : list A) : list A :=
  if existsb (same x) l then (λ y, if same x y then merge x y else y) <$> l else l ++ [x].

(** * Typed tables *)

Inductive TableId := Sessions | Subscriptions | InflightMessages | InboundMessages | RetainedMessages.

#[export] Instance TableId_eq_dec : EqDecision TableId.
Proof. solve_decision. Defined.

Definition entry (t : TableId) : Type :=
  match t with
  | Sessions => PersistedSession
  | Subscriptions => PersistedSubscription
  | InflightMessages => PersistedInflightMessage
  | InboundMessages => PersistedInboundQos2Message
  | RetainedMessages => PersistedRetainedMessage
  end.

Definition table_name (t : TableId) : string :=
  match t with
  | Sessions => "sessions"
  | Subscriptions => "subscriptions"
  | InflightMessages => "inflight_messages"
  | InboundMessages => "inbound_qos2_messages"
  | RetainedMessages => "retained_messages"
  end.

Definition table_schema (t : TableId) : Schema :=
  match t with
  | Sessions => sessions_schema
  | Subscriptions => subscriptions_schema
  | InflightMessages => inflight_schema
  | InboundMessages => inbound_schema
  | RetainedMessages => retained_schema
  end.

(** The client, or the topic, an entry is of: the first column of its table. *)
Definition owner (t : TableId) : entry t → string :=
  match t with
  | Sessions => ps_client_id
  | Subscriptions => psub_client_id
  | InflightMessages => pi_client_id
  | InboundMessages => pq_client_id
  | RetainedMessages => pr_topic
  end.

Definition owner_column (t : TableId) : string :=
  match t with RetainedMessages => "topic" | _ => "client_id" end.

(** What else is in the primary key. *)
Definition subkey (t : TableId) : entry t → list Value :=
  match t with
  | Subscriptions => λ s, [VText (psub_topic_filter s)]
  | InflightMessages => λ m, [VInt (pi_packet_id m)]
  | InboundMessages => λ m, [VInt (pq_packet_id m)]
  | Sessions | RetainedMessages => λ _, []
  end.

Definition Contents : Type := ∀ t, list (entry t).

Definition no_entries : Contents := λ _, [].

(** [k'] is [k] with [l] in the table [t]. *)
Definition updates (t : TableId) (l : list (entry t)) (k k' : Contents) : Prop :=
  k' t = l ∧ ∀ t', t' ≠ t → k' t' = k t'.

Definition upd (t : TableId) (l : list (entry t)) (k : Contents) : Contents := λ t',
  match decide (t = t') with
  | left e => eq_rect t (λ t, list (entry t)) l t' e
  | right _ => k t'
  end.

Lemma updates_upd t l k : updates t l k (upd t l k).
Proof.
  split.
  - unfold upd. destruct (decide (t = t)) as [e|]; [|done].
    by rewrite (proof_irrel e eq_refl).
  - intros t' Ht. unfold upd. by destruct (decide (t = t')) as [->|].
Qed.

Lemma table_name_inj : Inj (=) (=) table_name.
Proof. intros [] []; done. Qed.

Section Tables.
Context {RF : Rfc3339}.

Definition params_of (t : TableId) : entry t → list Value :=
  match t with
  | Sessions => session_params
  | Subscriptions => subscription_params
  | InflightMessages => inflight_params
  | InboundMessages => inbound_params
  | RetainedMessages => retained_params
  end.

Definition to_row (t : TableId) (x : entry t) : Row :=
  row_of (columns (table_schema t)) (params_of t x).

Definition table_of (t : TableId) (l : list (entry t)) : Table :=
  mkTable (table_schema t) (to_row t <$> l).

(** The database has the five tables, with these entries in them. *)
Definition holds (db : Database) (k : Contents) : Prop :=
  ∀ t, db !! table_name t = Some (table_of t (k t)).

Lemma holds_updates db k t l k' :
  holds db k → updates t l k k' → holds (<[table_name t := table_of t l]> db) k'.
Proof.
  intros Hk [<- Hk'] t'. destruct (decide (t' = t)) as [->|Ht]; [by rewrite lookup_insert_eq|].
  rewrite lookup_insert_ne by (by intros ?%table_name_inj). by rewrite (Hk' t' Ht).
Qed.

(** ** Rows of entries *)

Lemma project_to_row t x : project (columns (table_schema t)) (to_row t x) = params_of t x.
Proof. destruct t; vm_compute; reflexivity. Qed.

Lemma row_ext (cols : list string) (r1 r2 : Row) :
  dom r1 = list_to_set cols → dom r2 = list_to_set cols → project cols r1 = project cols r2 → r1 = r2.
Proof.
  intros H1 H2 H. apply map_eq. intros c. destruct (decide (c ∈ cols)) as [Hc|Hc].
  - apply (list_fmap_inj_1 _ _ _ c) in H; [|done].
    assert (is_Some (r1 !! c)) as [v1 E1] by (apply elem_of_dom; set_solver).
    assert (is_Some (r2 !! c)) as [v2 E2] by (apply elem_of_dom; set_solver).
    unfold column in H. rewrite E1, E2 in *. cbn in H. congruence.
  - assert (∀ r : Row, dom r = list_to_set cols → r !! c = None) as Hn
      by (intros r Hr; apply not_elem_of_dom; set_solver).
    by rewrite !Hn.
Qed.

Lemma dom_set_from cols (excluded r : Row) :
  list_to_set cols ⊆ dom r → dom (set_from cols excluded r) = dom r.
Proof.
  unfold set_from. revert r. induction cols as [|c cols IH]; intros r H; [done|]. cbn in H |- *.
  rewrite IH; rewrite dom_insert_L; set_solver.
Qed.

Lemma dom_to_row t x : dom (to_row t x) = list_to_set (columns (table_schema t)).
Proof.
  unfold to_row, row_of. rewrite dom_list_to_map_L. f_equal. apply fst_zip. by destruct t.
Qed.

Lemma set_from_to_row t cols x y z :
  cols ⊆ columns (table_schema t) →
  project (columns (table_schema t)) (set_from cols (to_row t x) (to_row t y)) = params_of t z →
  set_from cols (to_row t x) (to_row t y) = to_row t z.
Proof.
  intros Hc H. apply (row_ext (columns (table_schema t))).
  - rewrite dom_set_from; rewrite dom_to_row; [done|]. set_solver.
  - apply dom_to_row.
  - by rewrite project_to_row.
Qed.

Lemma column_owner t x : column (owner_column t) (to_row t x) = VText (owner t x).
Proof. destruct t; vm_compute; reflexivity. Qed.

Lemma to_row_not_null t x :
  forallb (λ c, bool_decide (column c (to_row t x) ≠ VNull)) (not_null (table_schema t)) = true.
Proof. destruct t; vm_compute; reflexivity. Qed.

Lemma key_of_to_row t x :
  key_of (table_schema t) (to_row t x) = VText (owner t x) :: subkey t x.
Proof. destruct t; vm_compute; reflexivity. Qed.

Definition same_entry (t : TableId) (x y : entry t) : bool :=
  bool_decide (owner t x = owner t y ∧ subkey t x = subkey t y).

Lemma same_key_to_row t x y :
  same_key (table_schema t) (to_row t x) (to_row t y) = same_entry t x y.
Proof.
  unfold same_key, same_entry. rewrite !key_of_to_row. apply bool_decide_ext.
  split; [by intros [= H1 H2]|]. by intros [-> ->].
Qed.

(** ** Statements on entries *)

Lemma run_delete db k t w (p : entry t → Prop) `{∀ x, Decision (p x)} k' :
  holds db k → (∀ x, cond_holds w (to_row t x) = true ↔ p x) →
  updates t (filter (λ x, ¬ p x) (k t)) k k' →
  ∃ db', run_stmt (DeleteFrom (table_name t) w) db = Some db' ∧ holds db' k'.
Proof.
  intros Hk Hp Hk'. eexists. split; [|exact (holds_updates _ _ _ _ _ Hk Hk')].
  cbn [run_stmt]. rewrite (Hk t). cbn. unfold table_of. do 3 f_equal.
  apply filter_fmap_ext. intros x. rewrite negb_true_iff, <- not_true_iff_false. by rewrite Hp.
Qed.

Lemma run_insert db k t x k' :
  holds db k → updates t (k t ++ [x]) k k' →
  run_stmt (InsertInto (table_name t) (columns (table_schema t)) (params_of t x) None) db =
    (if existsb (same_entry t x) (k t) then None
     else Some (<[table_name t := table_of t (k t ++ [x])]> db)).
Proof.
  intros Hk Hk'. cbn [run_stmt]. rewrite (Hk t). cbn [mbind option_bind].
  unfold insert_row. fold (to_row t x). cbn [schema table_of].
  rewrite to_row_not_null. cbn [negb rows table_of].
  rewrite (existsb_fmap_ext _ _ (same_entry t x)) by apply same_key_to_row.
  destruct (existsb _ _); [done|]. cbn. unfold table_of. by rewrite fmap_app.
Qed.

Lemma run_upsert db k t x oc merge k' :
  conflict_target oc = primary_key (table_schema t) →
  (∀ x y, set_from (set_columns oc) (to_row t x) (to_row t y) = to_row t (merge x y)) →
  holds db k → updates t (upserted (same_entry t) merge x (k t)) k k' →
  ∃ db', run_stmt (InsertInto (table_name t) (columns (table_schema t)) (params_of t x) (Some oc))
           db = Some db' ∧ holds db' k'.
Proof.
  intros Hoc Hm Hk Hk'. eexists. split; [|exact (holds_updates _ _ _ _ _ Hk Hk')].
  cbn [run_stmt]. rewrite (Hk t). cbn [mbind option_bind].
  unfold insert_row. fold (to_row t x). cbn [schema table_of].
  rewrite to_row_not_null. cbn [negb rows table_of].
  rewrite (existsb_fmap_ext _ _ (same_entry t x)) by apply same_key_to_row.
  unfold upserted. destruct (existsb _ _).
  - rewrite bool_decide_eq_true_2 by done. cbn. unfold table_of. do 3 f_equal.
    rewrite <- !list_fmap_compose. apply list_fmap_ext. intros i y _. cbn.
    rewrite same_key_to_row. destruct (same_entry t x y); [apply Hm|done].
  - cbn. unfold table_of. by rewrite fmap_app.
Qed.

(** What a query gives: columns of the entries it selects. *)
Lemma answers_entries db k t cols w o (pr : entry t → list Value) (p : entry t → Prop)
    `{∀ x, Decision (p x)} l :
  holds db k → (∀ x, project cols (to_row t x) = pr x) →
  (∀ x, cond_holds w (to_row t x) = true ↔ p x) →
  answers (mkSelect cols (table_name t) w o) db l →
  ∃ xs, l = pr <$> xs ∧ xs ≡ₚ filter p (k t) ∧
    StronglySorted (row_before (mkSelect cols (table_name t) w o)) (to_row t <$> xs).
Proof.
  intros Hk Hpr Hp (tb & rs & Htb & Hrs & Hs & ->). cbn [from_table] in Htb. rewrite (Hk t) in Htb.
  injection Htb as <-. unfold chosen in Hrs. cbn [where_cond rows table_of] in Hrs.
  rewrite (filter_fmap_ext (to_row t) _ p) in Hrs by done.
  apply Permutation_fmap_inv in Hrs as (xs & -> & Hxs). exists xs. split_and!; [|done..].
  cbn [result_columns]. rewrite <- list_fmap_compose. apply list_fmap_ext. intros i x _. apply Hpr.
Qed.

Lemma count_entries db k t w (p : entry t → Prop) `{∀ x, Decision (p x)} :
  holds db k → (∀ x, cond_holds w (to_row t x) = true ↔ p x) →
  count_of (table_name t) w db = Some (zlen (filter p (k t))).
Proof.
  intros Hk Hp. unfold count_of. rewrite (Hk t). cbn. do 2 f_equal.
  rewrite (filter_fmap_ext (to_row t) _ p) by done. unfold zlen. by rewrite length_fmap.
Qed.

(** The conditions the file uses. *)
Lemma cond_owner t s x :
  cond_holds (ColEq (owner_column t) (VText s)) (to_row t x) = true ↔ owner t x = s.
Proof.
  cbn [cond_holds]. rewrite column_owner. unfold value_eqb. rewrite bool_decide_eq_true.
  split; [by intros (_ & _ & [= ->])|]. by intros ->.
Qed.

Lemma cond_everything t x : cond_holds Everything (to_row t x) = true ↔ True.
Proof. done. Qed.

Lemma cond_updated_before {RL : Rfc3339Laws} (d : DateTime) (p : entry Sessions) :
  cond_holds (ColLt "updated_at" (VText (to_rfc3339 d))) (to_row Sessions p) = true ↔
  nanos (ps_updated_at p) < nanos d.
Proof.
  cbn [cond_holds].
  assert (column "updated_at" (to_row Sessions p) = VText (to_rfc3339 (ps_updated_at p))) as ->
    by (vm_compute; reflexivity).
  unfold value_ltb. rewrite bool_decide_eq_true. cbn [value_compare].
  rewrite compare_to_rfc3339, Z.compare_lt_iff. naive_solver.
Qed.
End Tables.
