(* ===== verification/SqliteRules.v ===== *)
(** Rules for the methods of [SqliteStorage.v]: what a call does to the entries
    of the five tables, in a transaction and outside of one, with a library
    whose calls may fail and with one whose calls do not. *)

From Stdlib Require Import Sorted.
From S2P Require Import Prelude Packet Storage Sql SqliteStorage SqliteTables.

Local Open Scope Z_scope.

Section Rules.
Context {SQ : Rusqlite} {SL : RusqliteLaws} {RF : Rfc3339} {RL : Rfc3339Laws}.

(** [may_fail] tells the two kinds of library apart. *)
Context (may_fail : bool) (HR : may_fail = false → RusqliteReliable).

(** [does b m P k]: on a connection that would be rolled back to [b], and whose
    database holds [k], [m] turns the entries into [k'] and gives [a] with
    [P a k']; or, if the library can fail, it fails with nothing done but to end
    the transaction. *)
Definition does {A} (b : option Database) (m : M SqliteStorage StorageError A)
    (P : A → Contents → Prop) (k : Contents) : Prop :=
  ∀ c, before_transaction c = b → holds (database c) k →
  match m c with
  | (c', Ok a) => before_transaction c' = b ∧ ∃ k', holds (database c') k' ∧ P a k'
  | (c', Err _) =>
      may_fail = true ∧ committed c' = committed c ∧
      (before_transaction c' = b ∨ before_transaction c' = None)
  | _ => False
  end.

(** In a transaction. *)
Definition tx {A} (m : M SqliteStorage StorageError A) (P : A → Contents → Prop) (k : Contents) : Prop :=
  ∀ d, does (Some d) m P k.

(** ** Single calls *)

Lemma does_ret {A} b (a : A) (P : A → Contents → Prop) k : P a k → does b (mret a) P k.
Proof. intros H c Hb Hk. split; [done|]. eauto. Qed.

Lemma does_conseq {A} b (m : M SqliteStorage StorageError A) (P P' : A → Contents → Prop) k :
  (∀ a k', P a k' → P' a k') → does b m P k → does b m P' k.
Proof.
  intros HP Hm c Hb Hk. specialize (Hm c Hb Hk). destruct (m c) as [c' [a|e| |]]; naive_solver.
Qed.

(** A call of the library, by its law and by what makes it succeed. *)
Lemma does_sql {A} b (m : M SqlConnection SqlError A) Q (P : A → Contents → Prop) k :
  call_law m Q →
  (may_fail = false → ∀ c, before_transaction c = b → holds (database c) k → is_Ok (m c).2) →
  (∀ c c' a, before_transaction c = b → holds (database c) k → Q c c' a →
     before_transaction c' = b ∧ ∃ k', holds (database c') k' ∧ P a k') →
  does b (sql m) P k.
Proof.
  intros Hm Ho HQ c Hb Hk. specialize (Hm c). unfold sql, map_err.
  destruct may_fail eqn:Hf.
  - destruct (m c) as [c' [a|e| |]]; [by eapply HQ| |done..].
    destruct Hm as [H1 H2]. by rewrite Hb in H2.
  - specialize (Ho eq_refl c Hb Hk). destruct (m c) as [c' [a|e| |]]; [by eapply HQ|done..].
Qed.

Lemma does_execute b st (P : () → Contents → Prop) k :
  (may_fail = false → ∀ db, holds db k → is_Some (run_stmt st db)) →
  (∀ db db', holds db k → run_stmt st db = Some db' → ∃ k', holds db' k' ∧ P tt k') →
  does b (sql (execute st)) P k.
Proof.
  intros Hs HP. eapply does_sql; [apply execute_law| |].
  - intros Hf c _ Hk. specialize (HR Hf). by apply execute_Ok, Hs.
  - intros c c' [] <- Hk [E1 E2]. split; [done|]. by eapply HP.
Qed.

Lemma does_delete b t w (p : entry t → Prop) `{∀ x, Decision (p x)} (P : () → Contents → Prop) k :
  (∀ x, cond_holds w (to_row t x) = true ↔ p x) →
  (∀ k', updates t (filter (λ x, ¬ p x) (k t)) k k' → P tt k') →
  does b (sql (execute (DeleteFrom (table_name t) w))) P k.
Proof.
  intros Hp HP. pose proof (updates_upd t (filter (λ x, ¬ p x) (k t)) k) as Hu. apply does_execute.
  - intros _ db Hk. destruct (run_delete db k t w p _ Hk Hp Hu) as (db' & -> & _). by eexists.
  - intros db db' Hk E. destruct (run_delete db k t w p _ Hk Hp Hu) as (db1 & E1 & H1).
    rewrite E in E1. injection E1 as <-. eauto.
Qed.

Lemma does_insert b t x (P : () → Contents → Prop) k :
  (may_fail = false → existsb (same_entry t x) (k t) = false) →
  (existsb (same_entry t x) (k t) = false → ∀ k', updates t (k t ++ [x]) k k' → P tt k') →
  does b (sql (execute (InsertInto (table_name t) (columns (table_schema t)) (params_of t x) None)))
    P k.
Proof.
  intros Hs HP. pose proof (updates_upd t (k t ++ [x]) k) as Hu. apply does_execute.
  - intros Hf db Hk. rewrite (run_insert db k t x _ Hk Hu), (Hs Hf). by eexists.
  - intros db db' Hk. rewrite (run_insert db k t x _ Hk Hu).
    destruct (existsb _ _) eqn:E; [done|]. intros [= <-].
    eexists. split; [by eapply holds_updates|]. by apply HP.
Qed.

Lemma does_upsert b t x oc merge (P : () → Contents → Prop) k :
  conflict_target oc = primary_key (table_schema t) →
  set_columns oc ⊆ columns (table_schema t) →
  (∀ x y, project (columns (table_schema t)) (set_from (set_columns oc) (to_row t x) (to_row t y)) =
     params_of t (merge x y)) →
  (∀ k', updates t (upserted (same_entry t) merge x (k t)) k k' → P tt k') →
  does b (sql (execute (InsertInto (table_name t) (columns (table_schema t)) (params_of t x)
                          (Some oc)))) P k.
Proof.
  intros Hoc Hc Hm HP. assert (∀ x y, set_from (set_columns oc) (to_row t x) (to_row t y) =
    to_row t (merge x y)) as Hm' by (intros; by apply set_from_to_row).
  pose proof (updates_upd t (upserted (same_entry t) merge x (k t)) k) as Hu.
  apply does_execute.
  - intros _ db Hk. destruct (run_upsert db k t x oc merge _ Hoc Hm' Hk Hu) as (db' & -> & _).
    by eexists.
  - intros db db' Hk E. destruct (run_upsert db k t x oc merge _ Hoc Hm' Hk Hu) as (db1 & E1 & H1).
    rewrite E in E1. injection E1 as <-. eauto.
Qed.

(** ** Sequences *)

(** A statement that is prepared changes nothing. *)
Lemma does_prepare {A} b t (m : M SqliteStorage StorageError A) (P : A → Contents → Prop) k :
  does b m P k → does b (sql (prepare (table_name t));; m) P k.
Proof.
  intros Hm c Hb Hk.
  assert (does b (sql (prepare (table_name t))) (λ _ k', k' = k) k) as Hp.
  { eapply does_sql; [apply prepare_law| |].
    - intros Hf c' _ H. specialize (HR Hf). apply prepare_Ok. rewrite (H t). by eexists.
    - intros c1 c2 [] <- H [E1 E2]. split; [done|]. exists k. by rewrite E1. }
  assert (∀ c', sql (prepare (table_name t)) c = (c', Ok tt) → committed c' = committed c) as Hc.
  { intros c'. unfold sql, map_err. pose proof (prepare_law (table_name t) c) as H.
    destruct (prepare _ c) as [c1 [[]| | |]]; intros [=]. subst. destruct H as [H1 H2].
    unfold committed. by rewrite H1, H2. }
  specialize (Hp c Hb Hk). unfold mbind, M_bind.
  destruct (sql _ c) as [c' [[]|e| |]]; [|done..].
  destruct Hp as (Hb' & k' & Hk' & ->). specialize (Hm c' Hb' Hk'). rewrite (Hc c' eq_refl) in Hm.
  apply Hm.
Qed.

Lemma tx_bind {A B} (m : M SqliteStorage StorageError A) (n : A → M SqliteStorage StorageError B)
    (P : B → Contents → Prop) k :
  tx m (λ a k', tx (n a) P k') k → tx (m ≫= n) P k.
Proof.
  intros Hm d c Hb Hk. specialize (Hm d c Hb Hk). unfold mbind, M_bind.
  destruct (m c) as [c' [a|e| |]]; [|done..]. destruct Hm as (Hb' & k' & Hk' & Hn).
  specialize (Hn d c' Hb' Hk'). replace (committed c) with (committed c'); [done|].
  unfold committed. by rewrite Hb, Hb'.
Qed.

Lemma tx_for_each {A} (I : list A → Contents → Prop) (f : A → M SqliteStorage StorageError ())
    (P : () → Contents → Prop) l k :
  I l k → (∀ x l' k, I (x :: l') k → tx (f x) (λ _ k', I l' k') k) →
  (∀ k', I [] k' → P tt k') → tx (for_each l f) P k.
Proof.
  intros Hk Hf HP. revert k Hk. induction l as [|x l IH]; intros k Hk; intros d.
  - apply does_ret. by apply HP.
  - apply tx_bind. intros d'. eapply does_conseq; [|by apply Hf]. intros [] k' Hk'. by apply IH.
Qed.

(** The whole of a transaction, from a connection in none. *)
Lemma does_with_tx {A} (body : M SqliteStorage StorageError A) P k :
  tx body P k → does None (with_tx body) P k.
Proof.
  intros Hbody c Hb Hk. unfold with_tx, dropping_tx, sql, map_err, mbind, M_bind, mret, M_ret.
  pose proof (transaction_law c Hb) as Ht.
  assert (may_fail = false → is_Ok (transaction c).2) as Ho.
  { intros Hf. specialize (HR Hf). by apply transaction_Ok. }
  destruct (transaction c) as [c1 [[]|e| |]]; [| |done..]; cycle 1.
  { destruct Ht as [H1 H2]. split; [by destruct may_fail; [|specialize (Ho eq_refl)]|].
    unfold committed. rewrite H1, H2, Hb. auto. }
  destruct Ht as [Hd1 Hb1]. clear Ho. rewrite <- Hd1 in Hk.
  assert (committed c = database c1) as Hc by (unfold committed; by rewrite Hb, Hd1).
  assert (committed c1 = database c1) as Hc1 by (unfold committed; by rewrite Hb1, Hd1).
  specialize (Hbody _ c1 Hb1 Hk). destruct (body c1) as [c2 [a|e| |]]; [| |done..]; cycle 1.
  { destruct Hbody as (Hf & H1 & _). destruct (rollback_law c2) as [H2 H3].
    split; [done|]. unfold committed at 1. rewrite H2, H3, H1, Hc1, Hc. auto. }
  destruct Hbody as (Hb2 & k' & Hk' & HP).
  pose proof (commit_law c2) as Hm.
  assert (may_fail = false → is_Ok (commit c2).2) as Ho.
  { intros Hf. specialize (HR Hf). apply commit_Ok. rewrite Hb2. by eexists. }
  destruct (commit c2) as [c3 [[]|e| |]]; [| |done..].
  - destruct Hm as [H1 H2]. split; [done|]. exists k'. by rewrite H1.
  - destruct Hm as [H1 _]. destruct (rollback_law c3) as [H2 H3].
    split; [by destruct may_fail; [|specialize (Ho eq_refl)]|].
    unfold committed at 1. rewrite H2, H3, H1. unfold committed at 1. rewrite Hb2. cbn.
    rewrite Hc, Hd1. auto.
Qed.

(** ** Reading *)

(** [f] reads [x] from its parameters, or fails if it can. *)
Definition reads {A B} (can_fail : bool) (params : A → list Value)
    (f : list Value → M SqliteStorage StorageError B) (g : A → B) (x : A) : Prop :=
  ∀ c, f (params x) c = (c, Ok (g x)) ∨
       (can_fail = true ∧ ∃ e, f (params x) c = (c, Err e)).

Lemma each_row_reads {A B} can_fail (params : A → list Value) f (g : A → B) xs stop c :
  Forall (reads can_fail params f g) xs →
  each_row (params <$> xs) stop f c =
    (c, match stop with Some e => Err (Internal (sql_message e)) | None => Ok (g <$> xs) end) ∨
  (can_fail = true ∧ ∃ e, each_row (params <$> xs) stop f c = (c, Err e)).
Proof.
  induction 1 as [|x xs Hx _ IH]; [left; by destruct stop|]. cbn [fmap list_fmap each_row].
  destruct (Hx c) as [E|[Hf [e E]]].
  - rewrite (bind_Ok _ _ _ _ _ E). destruct IH as [E1|[Hf [e E1]]].
    + left. unfold mbind, M_bind. rewrite E1. by destruct stop.
    + right. split; [done|]. exists e. by rewrite (bind_Err _ _ _ _ _ E1).
  - right. split; [done|]. exists e. by rewrite (bind_Err _ _ _ _ _ E).
Qed.

(** The outcomes of a query. *)
Lemma query_outcomes b q k c :
  before_transaction c = b → holds (database c) k →
  (∃ t, from_table q = table_name t) →
  (∃ c' l, query q c = (c', Ok (l, None)) ∧ answers q (database c) l ∧ unchanged c c') ∨
  (may_fail = true ∧ ∃ c', failed c c' ∧
     ((∃ l l' e, query q c = (c', Ok (l, Some e)) ∧ answers q (database c) (l ++ l')) ∨
      ∃ e, query q c = (c', Err e))).
Proof.
  intros Hb Hk [t Ht]. pose proof (query_law q c) as Hq. destruct may_fail eqn:Hf.
  - destruct (query q c) as [c' [[l [e|]]|e| |]]; [right|left|right|done|done].
    + destruct Hq as [[l' H1] H2]. split; [done|]. exists c'. split; [done|]. left. by exists l, l', e.
    + by exists c', l.
    + split; [done|]. exists c'. split; [done|]. right. by exists e.
  - left. specialize (HR eq_refl).
    destruct (query_Ok q c) as (c' & l & E); [rewrite Ht, (Hk t); by eexists|].
    rewrite E in Hq |- *. by exists c', l.
Qed.

(** A query and the reading of its rows, when every entry it selects can be
    read. *)
Lemma does_query_all {B} b t cols w o pr (p : entry t → Prop) `{∀ x, Decision (p x)}
    f (g : entry t → B) (P : list B → Contents → Prop) k :
  (∀ x, project cols (to_row t x) = pr x) →
  (∀ x, cond_holds w (to_row t x) = true ↔ p x) →
  (∀ x, x ∈ k t → p x → reads may_fail pr f g x) →
  (∀ xs, xs ≡ₚ filter p (k t) →
     StronglySorted (row_before (mkSelect cols (table_name t) w o)) (to_row t <$> xs) →
     P (g <$> xs) k) →
  does b (query_all (mkSelect cols (table_name t) w o) f) P k.
Proof.
  intros Hpr Hp Hf HP c Hb Hk. set (q := mkSelect cols (table_name t) w o).
  assert (∀ xs l, xs ++ l ≡ₚ filter p (k t) → Forall (reads may_fail pr f g) xs) as Hreads.
  { intros xs l Hxs. apply Forall_forall. intros x Hx.
    assert (x ∈ filter p (k t)) as [Hpx Hxk]%list_elem_of_filter; [|by apply Hf].
    rewrite <- Hxs. apply elem_of_app. by left. }
  unfold query_all, mbind, M_bind, sql at 1, map_err.
  destruct (query_outcomes b q k c Hb Hk) as
    [(c' & l & E & Ha & H1 & H2)|(Hm & c' & [H1 H2] & [(l & l' & e & E & Ha)|[e E]])];
    [by exists t|rewrite E..].
  - destruct (answers_entries _ k t cols w o pr p l Hk Hpr Hp Ha) as (xs & -> & Hxs & Hs).
    rewrite <- H1 in Hk. cbn [fst snd].
    destruct (each_row_reads may_fail pr f g xs None c') as [->|[Hm [e ->]]].
    { apply (Hreads xs []). by rewrite app_nil_r. }
    + rewrite H2. eauto.
    + split; [done|]. unfold committed. rewrite H1, H2. auto.
  - rewrite Hb in H2. cbn [fst snd].
    destruct (answers_entries _ k t cols w o pr p _ Hk Hpr Hp Ha) as (xs & Hl & Hxs & _).
    symmetry in Hl. apply fmap_app_inv in Hl as (xs1 & xs2 & -> & -> & ->).
    destruct (each_row_reads may_fail pr f g xs1 (Some e) c') as [->|[_ [e' ->]]];
      [by apply (Hreads xs1 xs2)|by split..].
  - rewrite Hb in H2. by split.
Qed.

(** The first row of a query that selects entries of one owner at most, outside
    of a transaction. *)
Lemma does_query_first {B} t cols w o pr (p : entry t → Prop) `{∀ x, Decision (p x)}
    f (g : entry t → B) (P : option B → Contents → Prop) k :
  (∀ x, project cols (to_row t x) = pr x) →
  (∀ x, cond_holds w (to_row t x) = true ↔ p x) →
  (∀ x, x ∈ k t → p x → reads may_fail pr f g x) →
  (∀ x, x ∈ k t → p x → P (Some (g x)) k) →
  ((∀ x, x ∈ k t → ¬ p x) → P None k) →
  does None (query_first (mkSelect cols (table_name t) w o) f) P k.
Proof.
  intros Hpr Hp Hf HS HN c Hb Hk. set (q := mkSelect cols (table_name t) w o).
  assert (∀ xs x, x :: xs ≡ₚ filter p (k t) → x ∈ k t ∧ p x) as Hin.
  { intros xs x Hxs. assert (x ∈ filter p (k t)) as [Hpx Hxk]%list_elem_of_filter; [|done].
    rewrite <- Hxs. by left. }
  unfold query_first, mbind at 1, M_bind at 1, sql at 1, map_err.
  assert (∀ c' x l stop, holds (database c') k → before_transaction c' = None →
    committed c' = committed c → x ∈ k t ∧ p x →
    match (row ← next_row (pr x :: l, stop);
           match row with Some row => x ← f row; mret (Some x) | None => mret None end) c' with
    | (c', Ok a) => before_transaction c' = None ∧ ∃ k', holds (database c') k' ∧ P a k'
    | (c', Err _) => may_fail = true ∧ committed c' = committed c ∧
        (before_transaction c' = None ∨ before_transaction c' = None)
    | _ => False
    end) as Hread.
  { intros c' x l stop Hk' Hb' Hc [Hx Hpx].
    cbn [next_row]. rewrite bind_ret. destruct (Hf x Hx Hpx c') as [E|[Hm [e E]]].
    - rewrite (bind_Ok _ _ _ _ _ E). cbn. eauto.
    - rewrite (bind_Err _ _ _ _ _ E). auto. }
  destruct (query_outcomes None q k c Hb Hk) as
    [(c' & l & E & Ha & H1 & H2)|(Hm & c' & [H1 H2] & [(l & l' & e & E & Ha)|[e E]])];
    [by exists t|rewrite E..].
  - destruct (answers_entries _ k t cols w o pr p l Hk Hpr Hp Ha) as (xs & -> & Hxs & Hs).
    rewrite <- H1 in Hk. destruct xs as [|x xs].
    + cbn. split; [congruence|]. exists k. split; [done|]. apply HN. intros x Hx Hpx.
      apply (not_elem_of_nil x). rewrite Hxs. by apply list_elem_of_filter.
    + cbn [fmap list_fmap]. apply Hread; [done|congruence| |by eapply Hin].
      unfold committed. by rewrite H1, H2.
  - assert (before_transaction c' = None) as Hb' by (destruct H2; congruence).
    destruct (answers_entries _ k t cols w o pr p _ Hk Hpr Hp Ha) as (xs & Hl & Hxs & _).
    symmetry in Hl. apply fmap_app_inv in Hl as (xs1 & xs2 & -> & -> & ->).
    destruct xs1 as [|x xs1]; [cbn; rewrite bind_Err with (s' := c') (e := Internal (sql_message e)) by done; auto|]. cbn [fmap list_fmap].
    apply Hread; [|done..|by eapply (Hin (xs1 ++ xs2))].
    unfold committed in H1. rewrite Hb, Hb' in H1. cbn in H1. by rewrite H1.
  - assert (before_transaction c' = None) as Hb' by (destruct H2; congruence). by auto.
Qed.

(** The number of the entries a condition selects, read at an integer type. *)
Lemma does_count {A} t w (p : entry t → Prop) `{∀ x, Decision (p x)} conv (f : Z → A)
    (P : A → Contents → Prop) k :
  (∀ x, cond_holds w (to_row t x) = true ↔ p x) →
  (∀ z n, conv (VInt z) = inl n → n = z) →
  let n := zlen (filter p (k t)) in
  (may_fail = false → n < 2 ^ 63 ∧ conv (VInt n) = inl n) →
  (n < 2 ^ 63 → P (f n) k) →
  does None (v ← sql (query_count (table_name t) w); n ← sql (or_throw (conv v)); mret (f n)) P k.
Proof.
  intros Hp Hconv n Hn HP c Hb Hk. pose proof (count_entries _ k t w p Hk Hp) as Hc. fold n in Hc.
  unfold mbind, M_bind, mret, M_ret, sql, map_err, or_throw.
  pose proof (query_count_law (table_name t) w c) as Hq.
  assert (may_fail = false → is_Ok (query_count (table_name t) w c).2) as Ho.
  { intros Hf. destruct (Hn Hf). specialize (HR Hf). by eapply query_count_Ok. }
  destruct (query_count _ _ c) as [c' [v|e| |]]; [| |done..]; cycle 1.
  { destruct Hq as [H1 H2]. rewrite Hb in H2.
    split; [by destruct may_fail; [|specialize (Ho eq_refl)]|by auto]. }
  destruct Hq as (z & -> & Hz & Hlt & H1 & H2). rewrite Hc in Hz. injection Hz as <-.
  destruct (conv (VInt n)) as [n'|e] eqn:E; cbn.
  - rewrite (Hconv _ _ E), H1, H2. split; [done|]. exists k. auto.
  - unfold committed. rewrite H1, H2. split; [|auto].
    destruct may_fail; [done|]. destruct (Hn eq_refl) as [_ [=]].
Qed.
End Rules.
