(* ===== verification/SqliteFacts.v ===== *)
(** [SqliteStorage] keeps the contract of the storage interface: what the five
    tables hold as the abstract store of [Storage.v], and what each method does
    to it. *)

From Stdlib Require Import Sorted.
From S2P Require Import Prelude Packet Storage Sql SqliteStorage SqliteTables SqliteRules.

Local Open Scope Z_scope.

(** * Reading an entry back *)

Create HintDb sql.

Section Reading.
Context {SQ : Rusqlite} {SL : RusqliteLaws} {RF : Rfc3339} {RL : Rfc3339Laws}.

Lemma get_Ok {A} (conv : Value → A + SqlError) i row v x c :
  row !! i = Some v → conv v = inl x → get conv i row c = (c, Ok x).
Proof. intros H1 H2. unfold get. by rewrite H1, H2. Qed.

Lemma get_option_Some {A} (conv : Value → A + SqlError) i row v x c :
  row !! i = Some v → v ≠ VNull → conv v = inl x → get_option conv i row c = (c, Ok (Some x)).
Proof. intros H1 H2 H3. unfold get_option. rewrite H1. destruct v; [done|by rewrite H3..]. Qed.

Lemma get_option_None {A} (conv : Value → A + SqlError) i row c :
  row !! i = Some VNull → get_option conv i row c = (c, Ok None).
Proof. intros H. unfold get_option. by rewrite H. Qed.

Lemma parse_datetime_Ok t table field id c :
  parse_datetime (to_rfc3339 t) table field id c = (c, Ok t).
Proof. unfold parse_datetime. by rewrite parse_to_rfc3339. Qed.

Lemma from_u8_qos q : from_u8 (VInt (stored_qos_as_u8 q)) = inl (stored_qos_as_u8 q).
Proof. apply from_u8_int. by destruct q. Qed.

Lemma from_u8_state s : from_u8 (VInt (qos2_state_as_u8 s)) = inl (qos2_state_as_u8 s).
Proof. apply from_u8_int. by destruct s. Qed.

Lemma from_i32_bool b : from_i32 (as_i32 b) = inl (if b then 1 else 0).
Proof. apply from_i32_int. by destruct b. Qed.

Lemma from_i32_u16 z : is_u16 z → from_i32 (VInt z) = inl z.
Proof. unfold is_u16. intros H. apply from_i32_int. lia. Qed.

#[local] Hint Resolve from_text_text from_blob_blob from_u8_qos from_u8_state from_i32_bool
  from_i32_u16 : sql.

Lemma bool_of_i32 b : negb ((if b : bool then 1 else 0) =? 0) = b.
Proof. by destruct b. Qed.

(** What the integer columns can hold. *)
Definition valid (t : TableId) : entry t → Prop :=
  match t with
  | Sessions => λ p, is_u16 (ps_next_packet_id p) ∧ is_u16 (ps_keep_alive p)
  | InflightMessages => λ m, is_u16 (pi_packet_id m) ∧ is_u32 (pi_retry_count m)
  | InboundMessages => λ m, is_u16 (pq_packet_id m)
  | Subscriptions | RetainedMessages => λ _, True
  end.

Ltac read1 :=
  first
    [ erewrite bind_Ok by (eapply get_Ok; [reflexivity|cbn; by eauto with sql])
    | erewrite bind_Ok by (eapply get_option_None; reflexivity)
    | erewrite bind_Ok by (eapply get_option_Some; [reflexivity|by cbn|cbn; by eauto with sql])
    | erewrite bind_Ok by (apply parse_datetime_Ok) ].

Lemma reads_session f p : valid Sessions p → reads f session_params read_session id p.
Proof.
  intros [H1 H2] c. left. unfold read_session. destruct p as [cid n ka [[wt wp wq wr]|] ca ua];
    cbn in H1, H2.
  - do 11 read1. by rewrite stored_qos_u8_roundtrip, bool_of_i32, !as_u16_small by done.
  - do 11 read1. by rewrite !as_u16_small by done.
Qed.

Lemma reads_subscription f s : reads f subscription_params read_subscription id s.
Proof.
  intros c. left. unfold read_subscription. destruct s. do 3 read1.
  by rewrite stored_qos_u8_roundtrip.
Qed.

Lemma reads_inbound f m : valid InboundMessages m → reads f inbound_params read_inbound id m.
Proof.
  intros H c. left. unfold read_inbound. destruct m; cbn in H. do 7 read1.
  by rewrite bool_of_i32, as_u16_small.
Qed.

Lemma reads_retained f m : reads f retained_params read_retained id m.
Proof.
  intros c. left. unfold read_retained. destruct m. do 5 read1. by rewrite stored_qos_u8_roundtrip.
Qed.

(** A count of retries is written as an unsigned integer and read as a signed
    one. *)
Lemma reads_inflight f m :
  valid InflightMessages m → (f = false → pi_retry_count m < 2 ^ 31) →
  reads f inflight_params read_inflight id m.
Proof.
  intros [H1 H2] Hf c. unfold read_inflight.
  destruct m as [cid i topic p q rt n s t]; cbn in H1, H2, Hf.
  destruct s as [s|]; do 8 read1;
    (destruct (from_i32 (VInt n)) as [n'|e] eqn:E;
     [left; pose proof (from_i32_same n n' E) as ->
     |right; split; [|eexists; erewrite bind_Err; [done|]; unfold get; cbn; by rewrite E];
      destruct f; [done|]; rewrite from_i32_int in E; [done|]; specialize (Hf eq_refl);
      unfold is_u32 in H2; lia]).
  all: do 2 read1; rewrite stored_qos_u8_roundtrip, bool_of_i32, as_u16_small, as_u32_small by done;
    cbn; by rewrite ?qos2_state_u8_roundtrip.
Qed.
End Reading.

(** * Contents

    What the entries of the five tables stand for, when they are as the methods
    leave them. *)

(** The entries of a client. *)
Definition of_client (t : TableId) (cid : string) (k : Contents) : list (entry t) :=
  filter (λ x, owner t x = cid) (k t).

Definition client_ids (k : Contents) : list string := ps_client_id <$> k Sessions.

Record wf_contents (k : Contents) : Prop := {
  contents_ids : NoDup (client_ids k);
  contents_topics : NoDup (pr_topic <$> k RetainedMessages);
  contents_owned t x : t ≠ RetainedMessages → x ∈ k t → owner t x ∈ client_ids k;
  contents_valid t x : x ∈ k t → valid t x;
}.

Definition saved_of (k : Contents) (p : PersistedSession) : SavedSession :=
  mkSaved (undated p) (of_client Subscriptions (ps_client_id p) k)
    (of_client InflightMessages (ps_client_id p) k) (of_client InboundMessages (ps_client_id p) k).

Definition data_of (k : Contents) : StoredData :=
  mkStored (list_to_map ((λ p, (ps_client_id p, saved_of k p)) <$> k Sessions))
    (list_to_map ((λ m, (pr_topic m, m)) <$> k RetainedMessages)).

Lemma data_of_ext k k' : (∀ t, k t = k' t) → data_of k = data_of k'.
Proof.
  intros H. unfold data_of, saved_of, of_client. rewrite (H Sessions), (H RetainedMessages).
  f_equal. f_equal. apply list_fmap_ext. intros i p _.
  by rewrite (H Subscriptions), (H InflightMessages), (H InboundMessages).
Qed.

(** A map made of a list of entries with different keys. *)
Lemma lookup_keyed {A B} (key : A → string) (f : A → B) (l : list A) k x :
  NoDup (key <$> l) →
  (list_to_map ((λ a, (key a, f a)) <$> l) : gmap string B) !! k = Some x ↔
  ∃ a, a ∈ l ∧ key a = k ∧ x = f a.
Proof.
  intros Hn. rewrite <- elem_of_list_to_map.
  - rewrite list_elem_of_fmap. naive_solver.
  - by rewrite <- list_fmap_compose.
Qed.

Lemma kept_lookup k cid x :
  wf_contents k →
  kept (data_of k) !! cid = Some x ↔ ∃ p, p ∈ k Sessions ∧ ps_client_id p = cid ∧ x = saved_of k p.
Proof. intros H. apply lookup_keyed, H. Qed.

Lemma retained_lookup k t m :
  wf_contents k →
  retained_by_topic (data_of k) !! t = Some m ↔ m ∈ k RetainedMessages ∧ pr_topic m = t.
Proof. intros H. cbn. rewrite (lookup_keyed pr_topic id) by apply H. naive_solver. Qed.

Lemma size_keyed {A B} (key : A → string) (f : A → B) (l : list A) :
  NoDup (key <$> l) → size (list_to_map ((λ a, (key a, f a)) <$> l) : gmap string B) = length l.
Proof.
  intros Hn. rewrite map_size_list_to_map, length_fmap; [done|]. by rewrite <- list_fmap_compose.
Qed.

(** Two entries of a table with one owner are one entry. *)
Lemma NoDup_fmap_eq {A} (key : A → string) (l : list A) x y :
  NoDup (key <$> l) → x ∈ l → y ∈ l → key x = key y → x = y.
Proof.
  induction l as [|z l IH]; [by intros _ ?%elem_of_nil|]. cbn.
  intros [Hz Hl]%list.NoDup_cons [->|Hx]%elem_of_cons [->|Hy]%elem_of_cons Hk; [done| | |by apply IH].
  - destruct Hz. rewrite Hk. by apply list_elem_of_fmap_2.
  - destruct Hz. rewrite <- Hk. by apply list_elem_of_fmap_2.
Qed.

(** The lists of a client that has no session are empty. *)
Lemma of_client_default {A} t cid k (f : SavedSession → list A) (g : list (entry t) → list A) :
  wf_contents k → t ≠ RetainedMessages → g [] = [] →
  (∀ p, ps_client_id p = cid → f (saved_of k p) = g (of_client t cid k)) →
  default [] (f <$> kept (data_of k) !! cid) = g (of_client t cid k).
Proof.
  intros Hk Ht Hg Hf. destruct (kept (data_of k) !! cid) as [x|] eqn:E.
  - apply kept_lookup in E as (p & _ & Hp & ->); [|done]. by apply Hf.
  - cbn. assert (of_client t cid k = []) as ->; [|done].
    unfold of_client. destruct (filter _ _) as [|x l] eqn:E1; [done|].
    assert (x ∈ filter (λ x, owner t x = cid) (k t)) as [Hx Hxk]%list_elem_of_filter
      by (rewrite E1; by left).
    pose proof (contents_owned k Hk t x Ht Hxk) as (p & Hp & Hpk)%list_elem_of_fmap.
    assert (kept (data_of k) !! cid = Some (saved_of k p)) as E2; [|congruence].
    apply kept_lookup; [done|]. exists p. by rewrite <- Hp.
Qed.

(** A client has one session or none. *)
Lemma count_client k cid :
  wf_contents k →
  zlen (of_client Sessions cid k) = if decide (is_Some (kept (data_of k) !! cid)) then 1 else 0.
Proof.
  intros Hk. assert (∀ p, p ∈ of_client Sessions cid k ↔ p ∈ k Sessions ∧ ps_client_id p = cid) as Hin.
  { intros p. unfold of_client. rewrite list_elem_of_filter. cbn. tauto. }
  assert (NoDup (ps_client_id <$> of_client Sessions cid k)) as Hn.
  { eapply sublist_NoDup; [apply (contents_ids k Hk)|]. apply fmap_sublist, sublist_filter. }
  destruct (of_client Sessions cid k) as [|p [|q l]].
  - rewrite decide_False; [done|]. intros [x (p & Hp & Hc & _)%kept_lookup]; [|done].
    apply (not_elem_of_nil p). by apply Hin.
  - rewrite decide_True; [done|]. assert (p ∈ [p]) as [Hp Hc]%Hin by by left.
    exists (saved_of k p). apply kept_lookup; eauto.
  - assert (p ∈ p :: q :: l) as [_ Hp]%Hin by by left.
    assert (q ∈ p :: q :: l) as [_ Hq]%Hin by (right; by left).
    cbn in Hn. apply list.NoDup_cons in Hn as [Hn _]. destruct Hn. rewrite Hp, Hq. by left.
Qed.

(** ** Replacing and deleting the entries of a client *)

Definition without (t : TableId) (cid : string) (k : Contents) : list (entry t) :=
  filter (λ x, ¬ owner t x = cid) (k t).

Lemma of_client_replaced t cid c l k k' :
  k' t = without t c k ++ l → Forall (λ x, owner t x = c) l →
  of_client t cid k' = if decide (cid = c) then l else of_client t cid k.
Proof.
  intros Hk' Hl. unfold of_client. rewrite Hk'. unfold without. rewrite filter_app, list_filter_filter.
  rewrite Forall_forall in Hl. destruct (decide (cid = c)) as [->|Hc].
  - rewrite filter_none by naive_solver. by apply filter_all.
  - rewrite (list_filter_iff _ (λ x, owner t x = cid)) by naive_solver.
    rewrite (filter_none _ l); [by rewrite app_nil_r|]. intros x Hx. rewrite (Hl x Hx). congruence.
Qed.

(** ** Inserting with an update on conflict *)
Section Upsert.
Context {A B : Type} (key : A → string) (same : A → A → bool) (merge : A → A → A) (norm : A → B).
Context (same_key : ∀ x y, same x y = true ↔ key x = key y).
Context (key_merge : ∀ x y, key (merge x y) = key y).
Context (norm_merge : ∀ x y, key x = key y → norm (merge x y) = norm x).

Lemma existsb_same x l : existsb (same x) l = true ↔ key x ∈ key <$> l.
Proof.
  rewrite existsb_exists, list_elem_of_fmap. setoid_rewrite <- list_elem_of_In.
  setoid_rewrite same_key. naive_solver.
Qed.

Lemma keys_upserted x l :
  key <$> upserted same merge x l =
  if decide (key x ∈ key <$> l) then key <$> l else (key <$> l) ++ [key x].
Proof.
  unfold upserted. destruct (decide _) as [H|H].
  - rewrite (proj2 (existsb_same x l) H), <- list_fmap_compose. apply list_fmap_ext. intros i y _.
    cbn. by destruct (same x y); rewrite ?key_merge.
  - rewrite <- existsb_same in H. rewrite (not_true_is_false _ H). by rewrite fmap_app.
Qed.

Lemma NoDup_upserted x l : NoDup (key <$> l) → NoDup (key <$> upserted same merge x l).
Proof.
  intros Hl. rewrite keys_upserted. destruct (decide _); [done|].
  apply NoDup_app. split_and!; [done| |apply NoDup_singleton].
  by intros y Hy ->%list_elem_of_singleton.
Qed.

Lemma elem_of_upserted x l z :
  z ∈ upserted same merge x l →
  (key z = key x ∧ norm z = norm x) ∨ (key z ≠ key x ∧ z ∈ l).
Proof.
  unfold upserted. destruct (existsb (same x) l) eqn:E.
  - intros (y & -> & Hy)%list_elem_of_fmap. destruct (same x y) eqn:Es.
    + apply same_key in Es. left. rewrite key_merge. auto.
    + right. split; [|done]. intros H. symmetry in H. apply same_key in H. congruence.
  - intros [Hz| ->%list_elem_of_singleton]%elem_of_app; [|by left]. right. split; [|done].
    intros H. assert (existsb (same x) l = true); [|congruence].
    apply existsb_same. rewrite <- H. by apply list_elem_of_fmap_2.
Qed.

Lemma upserted_new x l :
  ∃ z, z ∈ upserted same merge x l ∧ key z = key x ∧ norm z = norm x.
Proof.
  assert (key x ∈ key <$> upserted same merge x l) as (z & Hz & Hzl)%list_elem_of_fmap.
  { rewrite keys_upserted. destruct (decide _); [done|]. apply elem_of_app. right. by left. }
  exists z. destruct (elem_of_upserted x l z Hzl) as [[H1 H2]|[H1 _]]; [done|congruence].
Qed.

Lemma upserted_old x l z : z ∈ l → key z ≠ key x → z ∈ upserted same merge x l.
Proof.
  intros Hz Hk. unfold upserted. destruct (existsb _ _); [|apply elem_of_app; by left].
  apply list_elem_of_fmap. exists z. split; [|done].
  destruct (same x z) eqn:E; [|done]. apply same_key in E. congruence.
Qed.
End Upsert.

(** What the conflicts of the file leave of an entry: a session keeps the date it
    was created at. *)
Definition merge_session (x y : PersistedSession) : PersistedSession :=
  mkPersistedSession (ps_client_id y) (ps_next_packet_id x) (ps_keep_alive x) (ps_will_message x)
    (ps_created_at y) (ps_updated_at x).

Definition merge_retained (x y : PersistedRetainedMessage) : PersistedRetainedMessage :=
  mkPersistedRetained (pr_topic y) (pr_payload x) (pr_qos x) (pr_updated_at x).

Lemma same_session x y : same_entry Sessions x y = true ↔ ps_client_id x = ps_client_id y.
Proof. unfold same_entry. rewrite bool_decide_eq_true. cbn. naive_solver. Qed.

Lemma same_retained x y : same_entry RetainedMessages x y = true ↔ pr_topic x = pr_topic y.
Proof. unfold same_entry. rewrite bool_decide_eq_true. cbn. naive_solver. Qed.

Lemma undated_merge x y :
  ps_client_id x = ps_client_id y → undated (merge_session x y) = undated x.
Proof. destruct x, y. cbn. by intros <-. Qed.

Lemma retained_merge x y : pr_topic x = pr_topic y → merge_retained x y = x.
Proof. destruct x, y. cbn. by intros <-. Qed.

(** ** Saving a session *)
Section Save.
Context (p : PersistedSession) (subs : list PersistedSubscription)
  (infl : list PersistedInflightMessage) (inb : list PersistedInboundQos2Message).
Context (Hp : saveable p subs infl inb) (k k' : Contents) (Hk : wf_contents k).

Definition new_entries (t : TableId) : list (entry t) :=
  match t with
  | Subscriptions => subs
  | InflightMessages => infl
  | InboundMessages => inb
  | Sessions | RetainedMessages => []
  end.

Context (Hs : k' Sessions = upserted (same_entry Sessions) merge_session p (k Sessions)).
Context (Hr : k' RetainedMessages = k RetainedMessages).
Context (Ht : ∀ t, t ≠ Sessions → t ≠ RetainedMessages →
  k' t = without t (ps_client_id p) k ++ new_entries t).

Lemma new_entries_owner t : Forall (λ x, owner t x = ps_client_id p) (new_entries t).
Proof.
  destruct t; cbn; try constructor.
  - apply Hp.
  - eapply Forall_impl; [apply Hp|]. cbn. tauto.
  - eapply Forall_impl; [apply Hp|]. cbn. tauto.
Qed.

Lemma new_entries_valid t x : x ∈ new_entries t → valid t x.
Proof.
  destruct t; cbn; try done; try by intros ?%elem_of_nil.
  - intros Hx. pose proof (saveable_inflight _ _ _ _ Hp) as H. rewrite Forall_forall in H.
    destruct (H x Hx) as (_ & H1 & H2). done.
  - intros Hx. pose proof (saveable_inbound _ _ _ _ Hp) as H. rewrite Forall_forall in H.
    by destruct (H x Hx).
Qed.

Lemma client_ids_saved c : c ∈ client_ids k' ↔ c ∈ client_ids k ∨ c = ps_client_id p.
Proof.
  unfold client_ids. rewrite Hs, (keys_upserted ps_client_id) by (apply same_session || done).
  destruct (decide _) as [H|H]; [naive_solver|].
  rewrite elem_of_app, list_elem_of_singleton. done.
Qed.

Lemma wf_saved : wf_contents k'.
Proof.
  split.
  - unfold client_ids. rewrite Hs. apply NoDup_upserted; [apply same_session|done|apply Hk].
  - rewrite Hr. apply Hk.
  - intros t x Hnt Hx. apply client_ids_saved. destruct (decide (t = Sessions)) as [->|Hns].
    + rewrite <- client_ids_saved. by apply list_elem_of_fmap_2.
    + rewrite (Ht t Hns Hnt) in Hx. apply elem_of_app in Hx as [[_ Hx]%list_elem_of_filter|Hx].
      * left. by apply (contents_owned k Hk t).
      * right. pose proof (new_entries_owner t) as H. rewrite Forall_forall in H. by apply H.
  - intros t x Hx. destruct (decide (t = Sessions)) as [->|Hns].
    + rewrite Hs in Hx.
      apply (elem_of_upserted ps_client_id _ merge_session undated) in Hx
        as [[_ H]|[_ Hx]]; [| |apply same_session|done|apply undated_merge].
      * destruct x, p, Hp. cbn in *. injection H as -> -> ->. done.
      * by apply (contents_valid k Hk Sessions).
    + destruct (decide (t = RetainedMessages)) as [->|Hnt]; [done|].
      rewrite (Ht t Hns Hnt) in Hx. apply elem_of_app in Hx as [[_ Hx]%list_elem_of_filter|Hx].
      * by apply (contents_valid k Hk).
      * by apply new_entries_valid.
Qed.

Lemma saved_of_saved z :
  saved_of k' z = if decide (ps_client_id z = ps_client_id p) then mkSaved (undated z) subs infl inb
                  else saved_of k z.
Proof.
  unfold saved_of.
  rewrite (of_client_replaced Subscriptions _ _ _ k k' (Ht Subscriptions ltac:(done) ltac:(done))
    (new_entries_owner _)).
  rewrite (of_client_replaced InflightMessages _ _ _ k k'
    (Ht InflightMessages ltac:(done) ltac:(done)) (new_entries_owner _)).
  rewrite (of_client_replaced InboundMessages _ _ _ k k'
    (Ht InboundMessages ltac:(done) ltac:(done)) (new_entries_owner _)).
  by destruct (decide _).
Qed.

Lemma data_of_saved :
  data_of k' = set_kept <[ps_client_id p := mkSaved (undated p) subs infl inb]> (data_of k).
Proof.
  assert (kept (data_of k') = <[ps_client_id p := mkSaved (undated p) subs infl inb]> (kept (data_of k)))
    as E; [|unfold set_kept; rewrite <- E; unfold data_of; by rewrite Hr].
  apply map_eq. intros cid. apply option_eq. intros x.
  rewrite (kept_lookup _ _ _ wf_saved), lookup_insert_Some, (kept_lookup _ _ _ Hk). rewrite Hs. split.
  - intros (z & Hz & <- & ->). rewrite saved_of_saved.
    apply (elem_of_upserted ps_client_id _ merge_session undated) in Hz
      as [[H1 H2]|[H1 Hz]]; [| |apply same_session|done|apply undated_merge].
    + left. rewrite decide_True by done. by rewrite H2.
    + right. rewrite decide_False by done. eauto.
  - intros [[<- <-]|[Hne (z & Hz & <- & ->)]].
    + destruct (upserted_new ps_client_id (same_entry Sessions) merge_session undated
        same_session (λ _ _, eq_refl) undated_merge p (k Sessions)) as (z & Hz & H1 & H2).
      exists z. rewrite saved_of_saved, decide_True, H2 by done. done.
    + exists z. rewrite saved_of_saved, decide_False by done. split; [|done].
      apply (upserted_old ps_client_id); [apply same_session|done|done].
Qed.
End Save.

(** ** Deleting sessions *)
Section Remove.
Context (gone : list string) (k k' : Contents) (Hk : wf_contents k).
Context (Ht : ∀ t, t ≠ RetainedMessages → k' t = filter (λ x, owner t x ∉ gone) (k t)).
Context (Hr : k' RetainedMessages = k RetainedMessages).

Lemma elem_of_removed t x :
  t ≠ RetainedMessages → x ∈ k' t ↔ x ∈ k t ∧ owner t x ∉ gone.
Proof. intros H. rewrite (Ht t H), list_elem_of_filter. naive_solver. Qed.

Lemma wf_removed : wf_contents k'.
Proof.
  split.
  - unfold client_ids. rewrite (Ht Sessions) by done. eapply sublist_NoDup; [apply (contents_ids k Hk)|].
    apply fmap_sublist, sublist_filter.
  - rewrite Hr. apply Hk.
  - intros t x H [Hx Hg]%elem_of_removed; [|done].
    pose proof (contents_owned k Hk t x H Hx) as (p & Hp & Hpk)%list_elem_of_fmap.
    rewrite Hp in *. apply (list_elem_of_fmap_2 ps_client_id). by apply (elem_of_removed Sessions).
  - intros t x Hx. apply (contents_valid k Hk). destruct (decide (t = RetainedMessages)) as [->|H].
    + by rewrite <- Hr.
    + by apply elem_of_removed in Hx as [].
Qed.

Lemma saved_of_removed p : ps_client_id p ∉ gone → saved_of k' p = saved_of k p.
Proof.
  intros Hp. assert (∀ t, t ≠ RetainedMessages →
    of_client t (ps_client_id p) k' = of_client t (ps_client_id p) k) as E.
  { intros t H. unfold of_client. rewrite (Ht t H), list_filter_filter. apply list_filter_iff.
    intros x. split; [tauto|]. intros E. by rewrite E. }
  unfold saved_of. by rewrite !E.
Qed.

Lemma kept_removed cid x :
  kept (data_of k') !! cid = Some x ↔ kept (data_of k) !! cid = Some x ∧ cid ∉ gone.
Proof.
  rewrite (kept_lookup _ _ _ wf_removed), (kept_lookup _ _ _ Hk). split.
  - intros (p & [Hp Hg]%elem_of_removed & <- & ->); [|done]. split; [|done].
    exists p. by rewrite saved_of_removed.
  - intros [(p & Hp & <- & ->) Hg]. exists p. rewrite saved_of_removed by done. split; [|done].
    by apply (elem_of_removed Sessions).
Qed.

Lemma retained_removed : retained_by_topic (data_of k') = retained_by_topic (data_of k).
Proof. cbn. by rewrite Hr. Qed.
End Remove.
