(* ===== verification/SqliteContract.v ===== *)
(** The methods of [SqliteStorage] against the storage contract: what each does,
    with a library that may fail and with one that does not, and the instances
    of [StorageLaws] and [StorageReliable]. *)

From Stdlib Require Import Sorted.
From S2P Require Import Prelude Packet Storage Sql SqliteStorage SqliteTables SqliteRules SqliteFacts.

Local Open Scope Z_scope.

(** * The contents of a database *)
Section Parse.
Context {RF : Rfc3339}.

Definition parse_will (topic payload qos retain : Value) : option PersistedWillMessage :=
  match topic, payload, qos, retain with
  | VText t, VBlob p, VInt q, VInt r =>
      Some (mkPersistedWill t p (default SAtMostOnce (stored_qos_from_u8 q)) (negb (r =? 0)))
  | _, _, _, _ => None
  end.

Definition parse_row (t : TableId) (r : Row) : option (entry t) :=
  match t with
  | Sessions =>
      match project sessions_columns r with
      | [VText cid; VInt next; VInt keep; wt; wp; wq; wr; VText ca; VText ua] =>
          created ← parse_from_rfc3339 ca;
          updated ← parse_from_rfc3339 ua;
          Some (mkPersistedSession cid next keep (parse_will wt wp wq wr) created updated)
      | _ => None
      end
  | Subscriptions =>
      match project subscriptions_columns r with
      | [VText cid; VText f; VInt q] => mkPersistedSubscription cid f <$> stored_qos_from_u8 q
      | _ => None
      end
  | InflightMessages =>
      match project inflight_columns r with
      | [VText cid; VInt i; VText t; VBlob p; VInt q; VInt rt; VInt n; s; VText d] =>
          q ← stored_qos_from_u8 q;
          created ← parse_from_rfc3339 d;
          Some (mkPersistedInflight cid i t p q (negb (rt =? 0)) n
                  (match s with VInt s => qos2_state_from_u8 s | _ => None end) created)
      | _ => None
      end
  | InboundMessages =>
      match project inbound_columns r with
      | [VText cid; VInt i; VText t; VBlob p; VInt rt; VText d] =>
          received ← parse_from_rfc3339 d;
          Some (mkPersistedInbound cid i t p (negb (rt =? 0)) received)
      | _ => None
      end
  | RetainedMessages =>
      match project retained_columns r with
      | [VText t; VBlob p; VInt q; VText d] =>
          q ← stored_qos_from_u8 q;
          updated ← parse_from_rfc3339 d;
          Some (mkPersistedRetained t p q updated)
      | _ => None
      end
  end.

Definition contents_of (db : Database) : Contents := λ t,
  match db !! table_name t with Some tb => omap (parse_row t) (rows tb) | None => [] end.

Lemma parse_to_row {RL : Rfc3339Laws} t x : parse_row t (to_row t x) = Some x.
Proof.
  pose proof (project_to_row t x) as E. destruct t; cbn [table_schema columns] in E; cbn [parse_row];
    unfold subscriptions_schema, sessions_schema, inflight_schema, inbound_schema, retained_schema in E;
    cbn [columns] in E; rewrite E; cbn; rewrite ?parse_to_rfc3339, ?stored_qos_u8_roundtrip;
    cbn; rewrite ?parse_to_rfc3339; cbn; rewrite ?bool_of_i32.
  - destruct x as [cid n ka [[wt wp wq wr]|] ca ua]; cbn; [|done].
    by rewrite stored_qos_u8_roundtrip, bool_of_i32.
  - by destruct x.
  - destruct x as [cid i t p q rt n [s|] d]; cbn; rewrite ?qos2_state_u8_roundtrip; done.
  - by destruct x.
  - by destruct x.
Qed.

Lemma contents_holds {RL : Rfc3339Laws} db k t : holds db k → contents_of db t = k t.
Proof.
  intros Hk. unfold contents_of. rewrite (Hk t). cbn. induction (k t) as [|x l IH]; [done|].
  cbn. rewrite parse_to_row. by f_equal.
Qed.
End Parse.

(** * The methods *)
Section Methods.
Context {SQ : Rusqlite} {SL : RusqliteLaws} {RF : Rfc3339} {RL : Rfc3339Laws}.
Context (may_fail : bool) (HR : may_fail = false → RusqliteReliable).

#[local] Abbreviation does := (does may_fail).
#[local] Abbreviation tx := (tx may_fail).

Lemma updates_trans t l1 l2 k k1 k2 : updates t l1 k k1 → updates t l2 k1 k2 → updates t l2 k k2.
Proof. intros [_ H1] [H2 H3]. split; [done|]. intros t' Ht. by rewrite H3, H1. Qed.

Lemma tx_delete_where_client t cid (P : () → Contents → Prop) k :
  t ≠ RetainedMessages → (∀ k', updates t (without t cid k) k k' → P tt k') →
  tx (delete_where_client (table_name t) cid) P k.
Proof.
  intros Ht HP d. unfold delete_where_client.
  replace "client_id" with (owner_column t) by by destruct t.
  apply (does_delete may_fail HR _ t _ (λ x, owner t x = cid)); [apply cond_owner|done].
Qed.

(** An entry of a client whose key is not taken. *)
Lemma fresh_entry t (l : list (entry t)) cid x k :
  Forall (λ x, owner t x = cid) l → owner t x = cid →
  existsb (same_entry t x) (without t cid k ++ l) = false ↔ subkey t x ∉ subkey t <$> l.
Proof.
  intros Hl Hx. rewrite <- not_true_iff_false, existsb_exists. rewrite Forall_forall in Hl.
  apply not_iff_compat. rewrite list_elem_of_fmap. unfold same_entry.
  setoid_rewrite <- list_elem_of_In. setoid_rewrite bool_decide_eq_true. split.
  - intros (y & [[Hy _]%list_elem_of_filter|Hy]%elem_of_app & Ho & Hs); [congruence|eauto].
  - intros (y & Hs & Hy). exists y. rewrite (Hl y Hy), elem_of_app. auto.
Qed.

Lemma tx_replace_rows t cid l (P : () → Contents → Prop) k :
  t ≠ RetainedMessages → Forall (λ x, owner t x = cid) l →
  (may_fail = false → NoDup (subkey t <$> l)) →
  (∀ k', updates t (without t cid k ++ l) k k' → NoDup (subkey t <$> l) → P tt k') →
  tx (replace_rows (table_name t) (columns (table_schema t)) (params_of t) cid l) P k.
Proof.
  intros Ht Hl Hd HP. unfold replace_rows. apply tx_bind, tx_delete_where_client; [done|].
  intros k1 Hk1 d. apply (does_prepare may_fail HR). revert d.
  apply (tx_for_each may_fail (λ l' k', ∃ l1, l = l1 ++ l' ∧ NoDup (subkey t <$> l1) ∧
    updates t (without t cid k ++ l1) k k')).
  - exists []. rewrite app_nil_r. split; [done|]. split; [constructor|done].
  - intros x l' k2 (l1 & -> & Hn & E2 & H2) d.
    apply Forall_app in Hl as [Hl [Hx _]%Forall_cons].
    apply (does_insert may_fail HR); rewrite E2, (fresh_entry t l1 cid x k Hl Hx).
    + intros Hf. specialize (Hd Hf). rewrite fmap_app in Hd.
      apply NoDup_app in Hd as (_ & Hd & _). intros H. apply (Hd _ H). by left.
    + intros Hx' k3 H3. exists (l1 ++ [x]). rewrite <- app_assoc. split; [done|]. split.
      * rewrite fmap_app. apply NoDup_app. split_and!; [done| |apply NoDup_singleton].
        by intros y Hy ->%list_elem_of_singleton.
      * rewrite (assoc_L (++)). eapply updates_trans; [|exact H3]. by split.
  - intros k2 (l1 & -> & Hn & H2). rewrite app_nil_r in HP. auto.
Qed.

(** ** Sessions *)

Lemma subkeys_distinct subs infl inb :
  distinct_keys subs infl inb ↔ ∀ t, NoDup (subkey t <$> new_entries subs infl inb t).
Proof.
  assert (∀ {A} (f : A → string) l, NoDup ((λ x, [VText (f x)]) <$> l) ↔ NoDup (f <$> l)) as Ht.
  { intros A f l. rewrite (list_fmap_compose f (λ s, [VText s])). split; [apply NoDup_fmap_1|].
    apply NoDup_fmap_2. by intros ? ? [=]. }
  assert (∀ {A} (f : A → Z) l, NoDup ((λ x, [VInt (f x)]) <$> l) ↔ NoDup (f <$> l)) as Hi.
  { intros A f l. rewrite (list_fmap_compose f (λ s, [VInt s])). split; [apply NoDup_fmap_1|].
    apply NoDup_fmap_2. by intros ? ? [=]. }
  split.
  - intros [H1 H2 H3] []; cbn; [constructor|by apply Ht|by apply Hi|by apply Hi|constructor].
  - intros H. split; [by apply Ht, (H Subscriptions)|by apply Hi, (H InflightMessages)|].
    by apply Hi, (H InboundMessages).
Qed.

Lemma save_does p subs infl inb k :
  saveable p subs infl inb → wf_contents k →
  (may_fail = false → distinct_keys subs infl inb) →
  does None (sqlite_save_session p subs infl inb) (λ _ k',
    (wf_contents k' ∧
     data_of k' = set_kept <[ps_client_id p := mkSaved (undated p) subs infl inb]> (data_of k)) ∧
    distinct_keys subs infl inb) k.
Proof.
  intros Hp Hk Hd. apply (does_with_tx may_fail HR).
  assert (∀ t k (P : () → Contents → Prop), t ≠ RetainedMessages →
    (∀ k', updates t (without t (ps_client_id p) k ++ new_entries subs infl inb t) k k' →
       NoDup (subkey t <$> new_entries subs infl inb t) → P tt k') →
    tx (replace_rows (table_name t) (columns (table_schema t)) (params_of t) (ps_client_id p)
          (new_entries subs infl inb t)) P k) as Hreplace.
  { intros t k0 P Ht HP. apply tx_replace_rows; [done|by apply (new_entries_owner p)| |done].
    intros Hf. by apply subkeys_distinct, Hd. }
  apply tx_bind. intros d. apply (does_upsert may_fail HR _ Sessions p _ merge_session);
    [done|set_solver|intros; vm_compute; reflexivity|]. intros k1 [E1 U1].
  apply tx_bind, (Hreplace Subscriptions); [done|]. intros k2 [E2 U2] N2.
  apply tx_bind, (Hreplace InflightMessages); [done|]. intros k3 [E3 U3] N3.
  apply (Hreplace InboundMessages); [done|]. intros k4 [E4 U4] N4.
  assert (k4 Sessions = upserted (same_entry Sessions) merge_session p (k Sessions)) as Hs
    by (by rewrite U4, U3, U2).
  assert (k4 RetainedMessages = k RetainedMessages) as Hr by (by rewrite U4, U3, U2, U1).
  assert (∀ t, t ≠ Sessions → t ≠ RetainedMessages →
    k4 t = without t (ps_client_id p) k ++ new_entries subs infl inb t) as Ht.
  { unfold without in *. intros [] ? ?; try done.
    - by rewrite U4, U3, E2, U1.
    - by rewrite U4, E3, U2, U1.
    - by rewrite E4, U3, U2, U1. }
  split; [split; [by eapply wf_saved|by apply data_of_saved]|].
  apply subkeys_distinct. intros []; [constructor|done..|constructor].
Qed.

(** The deletion of what clients have, one client after the other. *)
Definition removed (gone : list string) (k k' : Contents) : Prop :=
  (∀ t, t ≠ RetainedMessages → k' t = filter (λ x, owner t x ∉ gone) (k t)) ∧
  k' RetainedMessages = k RetainedMessages.

Lemma tx_delete_client_data gone cid (P : () → Contents → Prop) k k0 :
  removed gone k0 k → (∀ k', removed (gone ++ [cid]) k0 k' → P tt k') →
  tx (delete_client_data cid) P k.
Proof.
  intros [Ht Hr] HP. unfold delete_client_data.
  apply tx_bind, (tx_delete_where_client InflightMessages); [done|]. intros k1 [E1 U1].
  apply tx_bind, (tx_delete_where_client InboundMessages); [done|]. intros k2 [E2 U2].
  apply tx_bind, (tx_delete_where_client Subscriptions); [done|]. intros k3 [E3 U3].
  apply (tx_delete_where_client Sessions); [done|]. intros k4 [E4 U4].
  apply HP. split; [|by rewrite U4, U3, U2, U1].
  assert (∀ t, t ≠ RetainedMessages → k4 t = without t cid k) as Hw.
  { unfold without in *. intros [] ?; try done.
    - by rewrite E4, U3, U2, U1.
    - by rewrite U4, E3, U2, U1.
    - by rewrite U4, U3, U2, E1.
    - by rewrite U4, U3, E2, U1. }
  intros t H. rewrite Hw by done. unfold without. rewrite (Ht t H), list_filter_filter.
  apply list_filter_iff. intros x. rewrite not_elem_of_app, not_elem_of_cons.
  pose proof (not_elem_of_nil (owner t x)). tauto.
Qed.

Lemma removed_nil k : removed [] k k.
Proof. split; [|done]. intros t _. symmetry. apply filter_all. intros x _. apply not_elem_of_nil. Qed.

Lemma delete_does cid k :
  wf_contents k →
  does None (sqlite_delete_session cid) (λ _ k', wf_contents k' ∧
    data_of k' = set_kept (delete cid) (data_of k)) k.
Proof.
  intros Hk. apply (does_with_tx may_fail HR).
  apply (tx_delete_client_data [] cid _ _ k); [apply removed_nil|]. intros k' [Ht Hr].
  split; [by eapply wf_removed|]. unfold set_kept.
  rewrite <- (retained_removed k k' Hr). assert (kept (data_of k') = delete cid (kept (data_of k))) as <-.
  { apply map_eq. intros c. apply option_eq. intros x. rewrite (kept_removed [cid] k k') by done.
    rewrite lookup_delete_Some, list_elem_of_singleton. split; intros []; split; congruence. }
  by destruct (data_of k').
Qed.

(** Deleting every session last used before [t]. *)
Lemma removed_expired t (xs : list PersistedSession) k k' :
  wf_contents k → xs ≡ₚ filter (λ p, nanos (ps_updated_at p) < nanos t) (k Sessions) →
  removed (ps_client_id <$> xs) k k' →
  data_of k' = set_kept (unexpired t) (data_of k) ∧
  (length xs + size (kept (data_of k')) = size (kept (data_of k)))%nat.
Proof.
  intros Hk Hxs [Ht Hr].
  assert (∀ p, p ∈ k Sessions →
    ps_client_id p ∈ ps_client_id <$> xs ↔ nanos (ps_updated_at p) < nanos t) as Hin.
  { intros p Hp. rewrite list_elem_of_fmap. setoid_rewrite Hxs.
    setoid_rewrite list_elem_of_filter. split; [|by eauto].
    intros (q & E & Hq & Hqk). by rewrite (NoDup_fmap_eq ps_client_id _ p q (contents_ids k Hk) Hp Hqk E). }
  split.
  - unfold set_kept. rewrite <- (retained_removed k k' Hr).
    assert (kept (data_of k') = unexpired t (kept (data_of k))) as <-; [|by destruct (data_of k')].
    apply map_eq. intros c. apply option_eq. intros x.
    rewrite (kept_removed _ k k' Hk Ht Hr). unfold unexpired. rewrite map_lookup_filter_Some.
    rewrite (kept_lookup k c x Hk). split; intros [(p & Hp & <- & ->) H]; split; eauto;
      cbn in H |- *; by rewrite <- ?(Hin p Hp), ?(Hin p Hp) in *.
  - cbn. rewrite !size_keyed by (apply (wf_removed _ k k' Hk Ht Hr) || apply Hk).
    rewrite Hxs, (Ht Sessions) by done.
    rewrite (filter_iff_in (λ p, owner Sessions p ∉ ps_client_id <$> xs)
      (λ p, ¬ nanos (ps_updated_at p) < nanos t) (k Sessions));
      [apply length_filter_split|]. intros p Hp. by rewrite <- (Hin p Hp).
Qed.

Lemma expired_does t k :
  wf_contents k →
  does None (sqlite_delete_expired_sessions t) (λ r k', wf_contents k' ∧
    data_of k' = set_kept (unexpired t) (data_of k) ∧
    (r + size (kept (data_of k')) = size (kept (data_of k)))%nat) k.
Proof.
  intros Hk. apply (does_with_tx may_fail HR). intros d0. apply (does_prepare may_fail HR _ Sessions).
  revert d0. apply tx_bind. intros d0.
  apply (does_query_all may_fail HR _ Sessions _ _ _ (λ p, [VText (ps_client_id p)])
    (λ p, nanos (ps_updated_at p) < nanos t) _ ps_client_id).
  - intros p. vm_compute. reflexivity.
  - intros p. apply cond_updated_before.
  - intros p _ _ c. left. by apply (get_Ok _ _ _ (VText (ps_client_id p))); [|apply from_text_text].
  - intros xs Hxs _. cbv zeta. apply tx_bind.
    apply (tx_for_each may_fail (λ l k', ∃ l1, ps_client_id <$> xs = l1 ++ l ∧ removed l1 k k')).
    + exists []. split; [done|apply removed_nil].
    + intros cid l k1 (l1 & El & H1). apply (tx_delete_client_data l1 cid _ _ k H1).
      intros k2 H2. exists (l1 ++ [cid]). rewrite <- app_assoc. done.
    + intros k' (l1 & El & Ht & Hr). rewrite app_nil_r in El. subst l1. intros d1. apply does_ret.
      split; [by eapply wf_removed|]. rewrite length_fmap. by apply removed_expired.
Qed.

(** A client's session, and its lists. *)
Lemma load_does cid k :
  wf_contents k →
  does None (sqlite_load_session cid) (λ r k', wf_contents k' ∧
    data_of k' = data_of k ∧ undated <$> r = saved <$> kept (data_of k) !! cid) k.
Proof.
  intros Hk. unfold sqlite_load_session. apply (does_prepare may_fail HR _ Sessions).
  apply (does_query_first may_fail HR Sessions _ _ _ session_params (λ p, ps_client_id p = cid) _ id).
  - apply (project_to_row Sessions).
  - apply (cond_owner Sessions).
  - intros p Hp _. apply reads_session. by apply (contents_valid k Hk Sessions).
  - intros p Hp <-. split_and!; [done..|].
    assert (kept (data_of k) !! ps_client_id p = Some (saved_of k p)) as ->; [|done].
    apply kept_lookup; eauto.
  - intros Hn. split_and!; [done..|].
    destruct (kept (data_of k) !! cid) as [x|] eqn:E; [|done].
    apply kept_lookup in E as (p & Hp & Hc & _); [|done]. destruct (Hn p Hp Hc).
Qed.

Lemma load_list_does {A} t cid o (f : SavedSession → list A) (g : entry t → A) rd k :
  t ≠ RetainedMessages → wf_contents k →
  (∀ x, x ∈ of_client t cid k → reads may_fail (params_of t) rd g x) →
  (∀ p, ps_client_id p = cid → f (saved_of k p) = g <$> of_client t cid k) →
  does None (sql (prepare (table_name t));;
             query_all (select_client (columns (table_schema t)) (table_name t) cid o) rd)
    (λ r k', wf_contents k' ∧ data_of k' = data_of k ∧
       r ≡ₚ default [] (f <$> kept (data_of k) !! cid)) k.
Proof.
  intros Ht Hk Hrd Hf. apply (does_prepare may_fail HR). unfold select_client.
  replace "client_id" with (owner_column t) by by destruct t.
  apply (does_query_all may_fail HR _ t _ _ _ (params_of t) (λ x, owner t x = cid) _ g).
  - apply project_to_row.
  - apply cond_owner.
  - intros x Hx Ho. apply Hrd. by apply list_elem_of_filter.
  - intros xs Hxs _. split_and!; [done..|].
    rewrite (of_client_default t cid k f (fmap g) Hk Ht eq_refl Hf). by rewrite Hxs.
Qed.

Lemma load_subscriptions_does cid k :
  wf_contents k →
  does None (sqlite_load_subscriptions cid) (λ r k', wf_contents k' ∧
    data_of k' = data_of k ∧ r ≡ₚ default [] (saved_subscriptions <$> kept (data_of k) !! cid)) k.
Proof.
  intros Hk. apply (load_list_does Subscriptions cid None saved_subscriptions id); [done..| |].
  - intros x _. apply reads_subscription.
  - intros p <-. by rewrite list_fmap_id.
Qed.

Lemma load_inflight_does cid k :
  wf_contents k →
  (may_fail = false →
     readable_inflight (default [] (saved_inflight <$> kept (data_of k) !! cid))) →
  does None (sqlite_load_inflight_messages cid) (λ r k', wf_contents k' ∧
    data_of k' = data_of k ∧ r ≡ₚ default [] (saved_inflight <$> kept (data_of k) !! cid)) k.
Proof.
  intros Hk Hread.
  assert (∀ p, ps_client_id p = cid →
    saved_inflight (saved_of k p) = id <$> of_client InflightMessages cid k) as Hf.
  { intros p <-. by rewrite list_fmap_id. }
  apply (load_list_does InflightMessages cid _ saved_inflight id); [done..| |done].
  intros m Hm. apply reads_inflight.
  - apply list_elem_of_filter in Hm as [_ Hm]. by apply (contents_valid k Hk InflightMessages).
  - intros H. specialize (Hread H).
    rewrite (of_client_default InflightMessages cid k saved_inflight (fmap id) Hk) in Hread by done.
    rewrite list_fmap_id in Hread. unfold readable_inflight in Hread.
    rewrite Forall_forall in Hread. by apply Hread.
Qed.

Lemma load_inbound_does cid k :
  wf_contents k →
  does None (sqlite_load_inbound_qos2_messages cid) (λ r k', wf_contents k' ∧
    data_of k' = data_of k ∧ r ≡ₚ default [] (saved_inbound <$> kept (data_of k) !! cid)) k.
Proof.
  intros Hk. apply (load_list_does InboundMessages cid _ saved_inbound id); [done..| |].
  - intros x [_ Hx]%list_elem_of_filter. apply reads_inbound.
    by apply (contents_valid k Hk InboundMessages).
  - intros p <-. by rewrite list_fmap_id.
Qed.

Lemma exists_does cid k :
  wf_contents k →
  does None (sqlite_session_exists cid) (λ r k', wf_contents k' ∧
    data_of k' = data_of k ∧ r = bool_decide (is_Some (kept (data_of k) !! cid))) k.
Proof.
  intros Hk. unfold sqlite_session_exists. pose proof (count_client k cid Hk) as Hz.
  apply (does_count may_fail HR Sessions _ (λ x, owner Sessions x = cid) from_i32 (λ n, 0 <? n));
    fold (of_client Sessions cid k).
  - apply (cond_owner Sessions).
  - apply from_i32_same.
  - intros _. rewrite Hz. destruct (decide _); (split; [lia|apply from_i32_int; lia]).
  - intros _. split_and!; [done..|]. rewrite Hz.
    by destruct (decide _); [rewrite bool_decide_true|rewrite bool_decide_false].
Qed.

(** ** Retained messages *)

Lemma save_retained_does m k :
  wf_contents k →
  does None (sqlite_save_retained_message m) (λ _ k', wf_contents k' ∧
    data_of k' = set_retained <[pr_topic m := m]> (data_of k)) k.
Proof.
  intros Hk. apply (does_upsert may_fail HR _ RetainedMessages m _ merge_retained);
    [done|set_solver|intros; vm_compute; reflexivity|]. intros k' [E U].
  assert (∀ z, z ∈ k' RetainedMessages ↔
    z = m ∨ (pr_topic z ≠ pr_topic m ∧ z ∈ k RetainedMessages)) as Hin.
  { intros z. rewrite E. split.
    - intros Hz. apply (elem_of_upserted pr_topic _ merge_retained id) in Hz;
        [naive_solver|apply same_retained|done|apply retained_merge].
    - intros [->|[Ht Hz]].
      + destruct (upserted_new pr_topic (same_entry RetainedMessages) merge_retained id
          same_retained (λ _ _, eq_refl) retained_merge m (k RetainedMessages)) as (z & Hz & _ & Ez).
        unfold id in Ez. by subst z.
      + apply (upserted_old pr_topic); [apply same_retained|done|done]. }
  assert (wf_contents k') as Hk'.
  { split.
    - unfold client_ids. rewrite U by done. apply Hk.
    - rewrite E. apply NoDup_upserted; [apply same_retained|done|apply Hk].
    - intros t x Ht Hx. unfold client_ids. rewrite U in Hx |- * by done.
      by apply (contents_owned k Hk t).
    - intros t x Hx. destruct (decide (t = RetainedMessages)) as [->|Ht]; [done|].
      rewrite U in Hx by done. by apply (contents_valid k Hk). }
  split; [done|]. unfold set_retained.
  assert (retained_by_topic (data_of k') = <[pr_topic m := m]> (retained_by_topic (data_of k))) as <-.
  { apply map_eq. intros t. apply option_eq. intros z.
    rewrite (retained_lookup _ _ _ Hk'), lookup_insert_Some, (retained_lookup _ _ _ Hk), Hin.
    naive_solver. }
  assert (kept (data_of k) = kept (data_of k')) as ->; [|by destruct (data_of k')].
  cbn. unfold saved_of, of_client. rewrite !U by done. done.
Qed.

Lemma load_retained_does t k :
  wf_contents k →
  does None (sqlite_load_retained_message t) (λ r k', wf_contents k' ∧
    data_of k' = data_of k ∧ r = retained_by_topic (data_of k) !! t) k.
Proof.
  intros Hk. unfold sqlite_load_retained_message. apply (does_prepare may_fail HR _ RetainedMessages).
  apply (does_query_first may_fail HR RetainedMessages _ _ _ retained_params
    (λ m, pr_topic m = t) _ id).
  - apply (project_to_row RetainedMessages).
  - apply (cond_owner RetainedMessages).
  - intros m _ _. apply reads_retained.
  - intros m Hm <-. split_and!; [done..|]. symmetry. by apply retained_lookup.
  - intros Hn. split_and!; [done..|].
    destruct (retained_by_topic (data_of k) !! t) as [m|] eqn:E; [|done].
    apply retained_lookup in E as [Hm Ht]; [|done]. destruct (Hn m Hm Ht).
Qed.

(** The messages that are retained, as a list. *)
Lemma retained_values k :
  wf_contents k → (map_to_list (retained_by_topic (data_of k))).*2 ≡ₚ k RetainedMessages.
Proof.
  intros Hk. cbn. rewrite map_to_list_to_map.
  - rewrite <- list_fmap_compose. by rewrite list_fmap_id.
  - rewrite <- list_fmap_compose. apply Hk.
Qed.

Lemma load_all_retained_does k :
  wf_contents k →
  does None sqlite_load_all_retained_messages (λ r k', wf_contents k' ∧
    data_of k' = data_of k ∧ r ≡ₚ (map_to_list (retained_by_topic (data_of k))).*2) k.
Proof.
  intros Hk. unfold sqlite_load_all_retained_messages.
  apply (does_prepare may_fail HR _ RetainedMessages).
  apply (does_query_all may_fail HR _ RetainedMessages _ _ _ retained_params (λ _, True) _ id).
  - apply (project_to_row RetainedMessages).
  - apply (cond_everything RetainedMessages).
  - intros m _ _. apply reads_retained.
  - intros xs Hxs _. split_and!; [done..|]. rewrite (retained_values k Hk), list_fmap_id, Hxs.
    by rewrite filter_all.
Qed.

Lemma delete_retained_does t k :
  wf_contents k →
  does None (sqlite_delete_retained_message t) (λ _ k', wf_contents k' ∧
    data_of k' = set_retained (delete t) (data_of k)) k.
Proof.
  intros Hk. apply (does_delete may_fail HR _ RetainedMessages _ (λ m, owner RetainedMessages m = t));
    [apply (cond_owner RetainedMessages)|]. intros k' [E U].
  assert (wf_contents k') as Hk'.
  { split.
    - unfold client_ids. rewrite U by done. apply Hk.
    - rewrite E. eapply sublist_NoDup; [apply (contents_topics k Hk)|].
      apply fmap_sublist, sublist_filter.
    - intros t' x Ht Hx. unfold client_ids. rewrite U in Hx |- * by done.
      by apply (contents_owned k Hk t').
    - intros t' x Hx. destruct (decide (t' = RetainedMessages)) as [->|Ht]; [done|].
      rewrite U in Hx by done. by apply (contents_valid k Hk). }
  split; [done|]. unfold set_retained.
  assert (retained_by_topic (data_of k') = delete t (retained_by_topic (data_of k))) as <-.
  { apply map_eq. intros t'. apply option_eq. intros z.
    rewrite (retained_lookup _ _ _ Hk'), lookup_delete_Some, (retained_lookup _ _ _ Hk), E.
    rewrite list_elem_of_filter. cbn. naive_solver. }
  assert (kept (data_of k) = kept (data_of k')) as ->; [|by destruct (data_of k')].
  cbn. unfold saved_of, of_client. rewrite !U by done. done.
Qed.

Lemma size_retained k :
  wf_contents k → size (retained_by_topic (data_of k)) = length (k RetainedMessages).
Proof. intros Hk. cbn. apply (size_keyed pr_topic id), Hk. Qed.

Lemma count_retained_does k :
  wf_contents k →
  (may_fail = false → Z.of_nat (size (retained_by_topic (data_of k))) < 2 ^ 63) →
  does None sqlite_count_retained_messages (λ r k', wf_contents k' ∧
    data_of k' = data_of k ∧ r = size (retained_by_topic (data_of k))) k.
Proof.
  intros Hk Hc. unfold sqlite_count_retained_messages. rewrite (size_retained k Hk) in Hc |- *.
  apply (does_count may_fail HR RetainedMessages _ (λ _, True) from_i64 (λ n, Z.to_nat (as_u64 n)));
    rewrite ?filter_all by done.
  - apply (cond_everything RetainedMessages).
  - apply from_i64_same.
  - intros Hf. specialize (Hc Hf). unfold zlen. split; [done|]. apply from_i64_int. lia.
  - intros Hn. split_and!; [done..|]. unfold zlen, as_u64 in *. rewrite Z.mod_small; lia.
Qed.
End Methods.

(** * The contract *)
Section Contract.
Context {SQ : Rusqlite} {SL : RusqliteLaws} {RF : Rfc3339} {RL : Rfc3339Laws}.

(** No transaction is open, and the tables are as the methods leave them. *)
Definition sqlite_inv (c : SqliteStorage) : Prop :=
  before_transaction c = None ∧ ∃ k, holds (database c) k ∧ wf_contents k.

Definition sqlite_abs (c : SqliteStorage) : StoredData := data_of (contents_of (database c)).

Lemma sqlite_abs_holds c k : holds (database c) k → sqlite_abs c = data_of k.
Proof. intros H. apply data_of_ext. intros t. by apply contents_holds. Qed.

(** What is shown of a method is what the contract asks of it. *)
Lemma does_call {A} (m : M SqliteStorage StorageError A) R :
  (∀ k, wf_contents k →
     does true None m (λ a k', wf_contents k' ∧ R (data_of k) (data_of k') a) k) →
  storage_call sqlite_inv sqlite_abs m R.
Proof.
  intros H c [Hb (k & Hk & Hw)]. specialize (H k Hw c Hb Hk).
  destruct (m c) as [c' [a|e| |]]; [| |done..]; cbn [fst snd].
  - destruct H as (Hb' & k' & Hk' & Hw' & HR). split; [by split; eauto|].
    by rewrite (sqlite_abs_holds c k Hk), (sqlite_abs_holds c' k' Hk').
  - destruct H as (_ & Hc & Hb'). assert (before_transaction c' = None) as Hn by naive_solver.
    unfold committed in Hc. rewrite Hb, Hn in Hc. cbn in Hc.
    split; [split; [done|]; rewrite Hc; eauto|]. unfold sqlite_abs. by rewrite Hc.
Qed.

Lemma does_Ok {A} (m : M SqliteStorage StorageError A) (P : Contents → A → Contents → Prop) c :
  sqlite_inv c →
  (∀ k, wf_contents k → sqlite_abs c = data_of k → does false None m (P k) k) → is_Ok (m c).2.
Proof.
  intros [Hb (k & Hk & Hw)] H. specialize (H k Hw (sqlite_abs_holds c k Hk) c Hb Hk).
  destruct (m c) as [c' [a|e| |]]; naive_solver.
Qed.

Lemma may_fail_vacuous : true = false → RusqliteReliable.
Proof. done. Qed.

#[local] Obligation Tactic := idtac.

#[export] Program Instance sqlite_laws : StorageLaws SqliteStorage := {
  storage_inv := sqlite_inv;
  storage_abs := sqlite_abs;
  storage_admits := saveable;
}.
Next Obligation. done. Qed.
Next Obligation.
  intros c cid x [_ (k & Hk & Hw)]. rewrite (sqlite_abs_holds c k Hk).
  by intros (p & _ & <- & ->)%kept_lookup.
Qed.
Next Obligation.
  intros c t m [_ (k & Hk & Hw)]. rewrite (sqlite_abs_holds c k Hk).
  by intros [_ <-]%retained_lookup.
Qed.
Next Obligation.
  intros p subs infl inb Hp. apply does_call. intros k Hk.
  eapply does_conseq; [|by apply (save_does true may_fail_vacuous)]. by intros [] k' [].
Qed.
Next Obligation. intros cid. apply does_call, (load_does true may_fail_vacuous). Qed.
Next Obligation. intros cid. apply does_call, (load_subscriptions_does true may_fail_vacuous). Qed.
Next Obligation.
  intros cid. apply does_call. intros k Hk. by apply (load_inflight_does true may_fail_vacuous).
Qed.
Next Obligation. intros cid. apply does_call, (load_inbound_does true may_fail_vacuous). Qed.
Next Obligation. intros cid. apply does_call, (delete_does true may_fail_vacuous). Qed.
Next Obligation. intros cid. apply does_call, (exists_does true may_fail_vacuous). Qed.
Next Obligation. intros t. apply does_call, (expired_does true may_fail_vacuous). Qed.
Next Obligation. intros m. apply does_call, (save_retained_does true may_fail_vacuous). Qed.
Next Obligation. intros t. apply does_call, (load_retained_does true may_fail_vacuous). Qed.
Next Obligation. apply does_call, (load_all_retained_does true may_fail_vacuous). Qed.
Next Obligation. intros t. apply does_call, (delete_retained_does true may_fail_vacuous). Qed.
Next Obligation.
  apply does_call. intros k Hk. by apply (count_retained_does true may_fail_vacuous).
Qed.

Context {SR : RusqliteReliable}.

#[export] Program Instance sqlite_reliable : StorageReliable SqliteStorage := {
  storage_stores p subs infl inb := saveable p subs infl inb ∧ distinct_keys subs infl inb;
  storage_reads := readable_inflight;
  storage_counts n := Z.of_nat n < 2 ^ 63;
}.
Next Obligation. done. Qed.
Next Obligation. done. Qed.
Next Obligation. done. Qed.
Next Obligation.
  intros p subs infl inb c Hc [Hp Hd]. eapply (does_Ok _ _ c Hc). intros k Hk _.
  by eapply (save_does false (λ _, SR)).
Qed.
Next Obligation.
  intros cid c Hc. eapply (does_Ok _ _ c Hc). intros k Hk _. by eapply (load_does false (λ _, SR)).
Qed.
Next Obligation.
  intros cid c Hc. eapply (does_Ok _ _ c Hc). intros k Hk _.
  by eapply (load_subscriptions_does false (λ _, SR)).
Qed.
Next Obligation.
  intros cid c Hc Hr. cbn [storage_abs sqlite_laws] in Hr. eapply (does_Ok _ _ c Hc). intros k Hk E.
  rewrite E in Hr. by eapply (load_inflight_does false (λ _, SR)).
Qed.
Next Obligation.
  intros cid c Hc. eapply (does_Ok _ _ c Hc). intros k Hk _.
  by eapply (load_inbound_does false (λ _, SR)).
Qed.
Next Obligation.
  intros cid c Hc. eapply (does_Ok _ _ c Hc). intros k Hk _. by eapply (delete_does false (λ _, SR)).
Qed.
Next Obligation.
  intros cid c Hc. eapply (does_Ok _ _ c Hc). intros k Hk _. by eapply (exists_does false (λ _, SR)).
Qed.
Next Obligation.
  intros t c Hc. eapply (does_Ok _ _ c Hc). intros k Hk _. by eapply (expired_does false (λ _, SR)).
Qed.
Next Obligation.
  intros m c Hc. eapply (does_Ok _ _ c Hc). intros k Hk _. by eapply (save_retained_does false (λ _, SR)).
Qed.
Next Obligation.
  intros t c Hc. eapply (does_Ok _ _ c Hc). intros k Hk _. by eapply (load_retained_does false (λ _, SR)).
Qed.
Next Obligation.
  intros c Hc. eapply (does_Ok _ _ c Hc). intros k Hk _. by eapply (load_all_retained_does false (λ _, SR)).
Qed.
Next Obligation.
  intros t c Hc. eapply (does_Ok _ _ c Hc). intros k Hk _.
  by eapply (delete_retained_does false (λ _, SR)).
Qed.
Next Obligation.
  intros c Hc Hn. cbn [storage_abs sqlite_laws] in Hn. eapply (does_Ok _ _ c Hc). intros k Hk E.
  rewrite E in Hn. by eapply (count_retained_does false (λ _, SR)).
Qed.
End Contract.
