(* ===== verification/SqliteProps.v ===== *)
(** What a user of [SqliteStorage] relies on: opening a file, what survives a
    restart, saving as a transaction, the order of what is loaded, and the
    contract of the storage interface as a refinement. *)

From Stdlib Require Import Sorted.
From S2P Require Import Prelude Packet Storage Sql SqlEngine SqliteStorage SqliteTables SqliteRules SqliteFacts SqliteContract.

Local Open Scope Z_scope.

(** * Opening *)
Section Opening.
Context {SQ : Rusqlite} {SL : RusqliteLaws} {RF : Rfc3339} {RL : Rfc3339Laws}.
Context (may_fail : bool) (HR : may_fail = false → RusqliteReliable).
Context (k : Contents).

(** A database in which every table of the file is as the methods leave it or is
    not there yet. *)
Definition prepared (db : Database) : Prop :=
  ∀ t, db !! table_name t = Some (table_of t (k t)) ∨ db !! table_name t = None ∧ k t = [].

(** The tables [ts] are there. *)
Definition opening (ts : list TableId) (c : SqliteStorage) : Prop :=
  before_transaction c = None ∧ prepared (database c) ∧
  ∀ t, t ∈ ts → database c !! table_name t = Some (table_of t (k t)).

Definition opens (m : M SqliteStorage StorageError ()) (Q : SqliteStorage → Prop)
    (c : SqliteStorage) : Prop :=
  match m c with
  | (c', Ok _) => Q c'
  | (_, Err _) => may_fail = true
  | _ => False
  end.

Lemma opens_bind m n Q c : opens m (opens n Q) c → opens (m;; n) Q c.
Proof. unfold opens, mbind, M_bind. by destruct (m c) as [c' [[]| | |]]. Qed.

Lemma opens_execute st Q c :
  before_transaction c = None → (may_fail = false → is_Some (run_stmt st (database c))) →
  (∀ c', before_transaction c' = None → run_stmt st (database c) = Some (database c') → Q c') →
  opens (sql (execute st)) Q c.
Proof.
  intros Hb Ho HQ. unfold opens, sql, map_err. pose proof (execute_law st c) as Hl.
  assert (may_fail = false → is_Ok (execute st c).2) as Hok.
  { intros Hf. specialize (HR Hf). by apply execute_Ok, Ho. }
  destruct (execute st c) as [c' [[]|e| |]]; [| |done..].
  - destruct Hl as [H1 H2]. apply HQ; [congruence|done].
  - destruct may_fail; [done|]. by specialize (Hok eq_refl).
Qed.

Lemma opens_create_table t ts Q c :
  opening ts c → (∀ c', opening (t :: ts) c' → Q c') →
  opens (sql (execute (CreateTable (table_name t) (table_schema t)))) Q c.
Proof.
  intros (Hb & Hp & Ht) HQ. apply opens_execute; [done|..].
  - intros _. cbn. by destruct (_ !! _); eexists.
  - intros c' Hb' E. apply HQ. cbn in E.
    destruct (Hp t) as [E1|[E1 E2]]; rewrite E1 in E; injection E as E.
    + split; [done|]. rewrite <- E. split; [done|].
      intros t' [->|Ht']%elem_of_cons; [done|by apply Ht].
    + assert (mkTable (table_schema t) [] = table_of t (k t)) as Et by (by rewrite E2).
      split; [done|]. rewrite <- E, Et. split.
      * intros t'. destruct (decide (t' = t)) as [->|Hne]; [left; by rewrite lookup_insert_eq|].
        rewrite lookup_insert_ne by (by intros ?%table_name_inj). apply Hp.
      * intros t' Ht'. destruct (decide (t' = t)) as [->|Hne]; [by rewrite lookup_insert_eq|].
        rewrite lookup_insert_ne by (by intros ?%table_name_inj).
        apply elem_of_cons in Ht' as [->|Ht']; [done|by apply Ht].
Qed.

Lemma opens_create_index name t cols ts Q c :
  opening ts c → t ∈ ts → (∀ c', opening ts c' → Q c') →
  opens (sql (execute (CreateIndex name (table_name t) cols))) Q c.
Proof.
  intros (Hb & Hp & Ht) Hin HQ. pose proof (Ht t Hin) as E. apply opens_execute; [done|..].
  - intros _. cbn. rewrite E. by eexists.
  - intros c' Hb' E'. apply HQ. cbn in E'. rewrite E in E'. injection E' as E'.
    split; [done|]. by rewrite <- E'.
Qed.

Lemma initialize_opens c :
  before_transaction c = None → prepared (database c) →
  opens initialize_schema (λ c', before_transaction c' = None ∧ holds (database c') k) c.
Proof.
  intros Hb Hp. unfold initialize_schema, schema_batch. cbn [for_each].
  apply opens_bind, (opens_create_table Sessions []);
    [split; [done|]; split; [done|]; by intros t ?%elem_of_nil|]. intros c1 H1.
  apply opens_bind, (opens_create_table Subscriptions _ _ _ H1). intros c2 H2.
  apply opens_bind, (opens_create_table InflightMessages _ _ _ H2). intros c3 H3.
  apply opens_bind, (opens_create_table InboundMessages _ _ _ H3). intros c4 H4.
  apply opens_bind, (opens_create_table RetainedMessages _ _ _ H4). intros c5 H5.
  apply opens_bind, (opens_create_index _ Subscriptions _ _ _ _ H5); [set_solver|]. intros c6 H6.
  apply opens_bind, (opens_create_index _ InflightMessages _ _ _ _ H6); [set_solver|]. intros c7 H7.
  apply opens_bind, (opens_create_index _ InboundMessages _ _ _ _ H7); [set_solver|].
  intros c8 (Hb8 & _ & H8). split; [done|]. intros t. apply H8. destruct t; set_solver.
Qed.

Lemma initialized_opens c :
  wf_contents k → before_transaction c = None → prepared (database c) →
  match initialized (inl c) with
  | Ok s => sqlite_inv s ∧ sqlite_abs s = data_of k
  | Err _ => may_fail = true
  | _ => False
  end.
Proof.
  intros Hk Hb Hp. pose proof (initialize_opens c Hb Hp) as H. unfold opens in H. unfold initialized.
  destruct (initialize_schema c) as [c' [[]| | |]]; [|done..]. destruct H as [H1 H2].
  split; [|by apply sqlite_abs_holds]. split; eauto.
Qed.
End Opening.

Lemma wf_no_entries : wf_contents no_entries.
Proof. split; try constructor; intros t x; [intros _|]; by intros ?%elem_of_nil. Qed.

Lemma prepared_empty {RF : Rfc3339} : prepared no_entries ∅.
Proof. intros t. right. by rewrite lookup_empty. Qed.

Lemma prepared_holds {RF : Rfc3339} db k : holds db k → prepared k db.
Proof. intros H t. left. apply H. Qed.

Section Properties.
Context {SQ : Rusqlite} {SL : RusqliteLaws} {RF : Rfc3339} {RL : Rfc3339Laws}.

(** A storage opened on the file of another keeps what that one had saved,
    however many of the calls before have failed: the schema is made again
    without touching the tables that are there. *)
Theorem sqlite_restart {SR : RusqliteReliable} path c (s0 : SqliteStorage) :
  open path = inl c → sqlite_inv s0 → database c = database s0 →
  ∃ s, sqlite_new path = Ok s ∧ sqlite_inv s ∧ sqlite_abs s = sqlite_abs s0.
Proof.
  intros Ho [_ (k & Hk & Hw)] Hc. unfold sqlite_new. rewrite Ho.
  assert (prepared k (database c)) as Hp by (rewrite Hc; by apply prepared_holds).
  pose proof (initialized_opens false (λ _, SR) k c Hw (open_law _ _ Ho) Hp) as H.
  destruct (initialized (inl c)) as [s| | |]; [|done..]. destruct H as [Hi Ha].
  exists s. by rewrite (sqlite_abs_holds s0 k Hk).
Qed.

(** C18: saving a session is all or nothing.  Whichever of the calls to the
    library fails, [save_session] replaces all that was kept of the client by
    what it is given and succeeds, or fails and what is stored is as it was, with
    no transaction left open.  It fails when two of the messages in flight have
    one packet identifier, and in general when two entries have one key, which
    the tables forbid. *)
Theorem sqlite_save_all_or_nothing p subs infl inb (s : SqliteStorage) :
  sqlite_inv s → saveable p subs infl inb →
  let s' := (sqlite_save_session p subs infl inb s).1 in
  sqlite_inv s' ∧
  match (sqlite_save_session p subs infl inb s).2 with
  | Ok _ => distinct_keys subs infl inb ∧
      sqlite_abs s' = set_kept <[ps_client_id p := mkSaved (undated p) subs infl inb]> (sqlite_abs s)
  | Err _ => database s' = database s
  | Panic | Pending => False
  end.
Proof.
  intros [Hb (k & Hk & Hw)] Hp.
  pose proof (save_does true may_fail_vacuous p subs infl inb k Hp Hw ltac:(done) s Hb Hk) as H.
  destruct (sqlite_save_session p subs infl inb s) as [s' [[]|e| |]]; [| |done..]; cbn [fst snd].
  - destruct H as (Hb' & k' & Hk' & [Hw' Hd] & Hn). split; [split; eauto|]. split; [done|].
    by rewrite (sqlite_abs_holds s k Hk), (sqlite_abs_holds s' k' Hk').
  - destruct H as (_ & Hc & Hb'). assert (before_transaction s' = None) as Hn by naive_solver.
    unfold committed in Hc. rewrite Hb, Hn in Hc. cbn in Hc.
    split; [split; [done|]; rewrite Hc; eauto|done].
Qed.

(** The messages in flight of a client are loaded with the oldest first. *)
Theorem sqlite_oldest_first cid (s s' : SqliteStorage) l :
  sqlite_inv s → sqlite_load_inflight_messages cid s = (s', Ok l) →
  l ≡ₚ default [] (saved_inflight <$> kept (sqlite_abs s) !! cid) ∧
  StronglySorted (λ a b, nanos (pi_created_at a) ≤ nanos (pi_created_at b)) l.
Proof.
  intros [Hb (k & Hk & Hw)] E. rewrite (sqlite_abs_holds s k Hk).
  assert (does true None (sqlite_load_inflight_messages cid) (λ r _,
    StronglySorted (λ a b, nanos (pi_created_at a) ≤ nanos (pi_created_at b)) r) k) as H.
  { apply (does_prepare true may_fail_vacuous _ InflightMessages).
    apply (does_query_all true may_fail_vacuous _ InflightMessages _ _ _ inflight_params
      (λ m, owner InflightMessages m = cid) _ id).
    - apply (project_to_row InflightMessages).
    - apply (cond_owner InflightMessages).
    - intros m Hm _. apply reads_inflight; [by apply (contents_valid k Hw InflightMessages)|done].
    - intros xs _ Hs. rewrite list_fmap_id. induction xs as [|m xs IH]; [constructor|].
      cbn [fmap list_fmap] in Hs. apply StronglySorted_inv in Hs as [Hs Hm].
      constructor; [by apply IH|]. rewrite Forall_fmap in Hm. eapply Forall_impl; [exact Hm|].
      intros m' H. unfold row_before in H. cbn [order_by compose] in H.
      assert (∀ m, column "created_at" (to_row InflightMessages m) =
        VText (to_rfc3339 (pi_created_at m))) as Ec by (intros; vm_compute; reflexivity).
      rewrite !Ec in H. unfold value_le in H. cbn [value_compare] in H.
      by rewrite compare_to_rfc3339 in H. }
  split.
  - pose proof (load_inflight_does true may_fail_vacuous cid k Hw ltac:(done) s Hb Hk) as H1.
    rewrite E in H1. destruct H1 as (_ & k' & _ & _ & _ & H1). done.
  - specialize (H s Hb Hk). rewrite E in H. destruct H as (_ & k' & _ & H). done.
Qed.

(** [SqliteStorage] is the store it stands for.  On a library that fails
    only when the data give it a reason to, a storage opened on an empty file
    serves every sequence of requests it can hold, with the replies of a store
    that keeps one saved session per client and one retained message per topic,
    a list in another order and the date a session was first saved apart. *)
Theorem sqlite_refines_store {SR : RusqliteReliable} path c rs :
  open path = inl c → database c = ∅ →
  requests_ok (S := SqliteStorage) rs (mkStored ∅ ∅) →
  ∃ s0 s l, sqlite_new path = Ok s0 ∧ serve_all rs s0 = (s, Ok l) ∧
    Forall2 same_reply l (spec_serve_all rs (mkStored ∅ ∅)).2.
Proof.
  intros Ho Hc Hrs. unfold sqlite_new. rewrite Ho.
  assert (prepared no_entries (database c)) as Hp by (rewrite Hc; apply prepared_empty).
  pose proof (initialized_opens false (λ _, SR) no_entries c wf_no_entries (open_law _ _ Ho) Hp)
    as H.
  destruct (initialized (inl c)) as [s0| | |]; [|done..]. destruct H as [Hi Ha].
  assert (data_of no_entries = mkStored ∅ ∅) as E by done. rewrite E in Ha.
  destruct (serve_all_refines (SL := sqlite_laws) rs s0 Hi) as (s & l & E1 & _ & _ & Hl).
  { change (requests_ok (S := SqliteStorage) rs (sqlite_abs s0)). by rewrite Ha. }
  exists s0, s, l. split; [done|]. split; [done|].
  change (storage_abs s0) with (sqlite_abs s0) in Hl. by rewrite Ha in Hl.
Qed.
End Properties.

(** * At a concrete database *)

Definition stored_session : PersistedSession :=
  mkPersistedSession "c" 7 60 (Some (mkPersistedWill "w" [Byte.x01] SAtLeastOnce true)) 0 5.
Definition stored_subscription : PersistedSubscription :=
  mkPersistedSubscription "c" "a/#" SExactlyOnce.
Definition stored_message (id created : Z) : PersistedInflightMessage :=
  mkPersistedInflight "c" id "a/b" [Byte.x00] SExactlyOnce false 2 (Some PAwaitingPubComp) created.
Definition stored_inbound : PersistedInboundQos2Message :=
  mkPersistedInbound "c" 9 "a/c" [] true 3.

Definition sample_contents : Contents := λ t,
  match t with
  | Sessions => [stored_session]
  | Subscriptions => [stored_subscription]
  | InflightMessages => [stored_message 4 20; stored_message 3 10]
  | InboundMessages => [stored_inbound]
  | RetainedMessages => [mkPersistedRetained "r" [Byte.x02] SAtMostOnce 1]
  end.

Definition sample_database : Database :=
  list_to_map ((λ t, (table_name t, table_of t (sample_contents t))) <$>
    [Sessions; Subscriptions; InflightMessages; InboundMessages; RetainedMessages]).

Definition sample_storage : EngineConnection := (sample_database, None).

Lemma sample_holds : holds sample_database sample_contents.
Proof. intros []; vm_compute; reflexivity. Qed.

Lemma sample_wf : wf_contents sample_contents.
Proof.
  split.
  - vm_compute. repeat constructor; set_solver.
  - vm_compute. repeat constructor; set_solver.
  - intros [] x Ht Hx; try done; cbn in Hx |- *; repeat (apply elem_of_cons in Hx as [->|Hx]; [by left|]);
      by apply elem_of_nil in Hx.
  - intros [] x Hx; cbn in Hx |- *; try done;
      repeat (apply elem_of_cons in Hx as [->|Hx]; [cbn; unfold is_u16, is_u32; lia|]);
      by apply elem_of_nil in Hx.
Qed.

Lemma sample_inv disk : sqlite_inv (SQ := engine_on disk) sample_storage.
Proof. split; [done|]. exists sample_contents. split; [apply sample_holds|apply sample_wf]. Qed.

Lemma sqlite_restart_witness :
  ∃ s, sqlite_new (SQ := engine_on sample_database) "iotd.db" = Ok s ∧
    sqlite_abs (SQ := engine_on sample_database) s =
      sqlite_abs (SQ := engine_on sample_database) sample_storage ∧
    saved <$> kept (sqlite_abs (SQ := engine_on sample_database) s) !! "c" =
      Some (undated stored_session).
Proof.
  destruct (sqlite_restart (SQ := engine_on sample_database) (SL := engine_laws _)
    (SR := engine_reliable _) "iotd.db" sample_storage sample_storage eq_refl (sample_inv _) eq_refl)
    as (s & E & _ & Ha).
  exists s. split; [exact E|]. split; [exact Ha|]. rewrite Ha. vm_compute. reflexivity.
Defined.

Lemma sqlite_save_all_or_nothing_witness :
  let save l := sqlite_save_session (SQ := engine) stored_session [] l [] sample_storage in
  distinct_keys [] [stored_message 5 30] [] ∧
  is_Ok (save [stored_message 5 30]).2 ∧
  (save [stored_message 5 30; stored_message 5 31]).2 = Err (Internal "constraint failed") ∧
  database (Rusqlite := engine) (save [stored_message 5 30; stored_message 5 31]).1 = sample_database.
Proof.
  assert (∀ i t1 t2, is_u16 i → saveable stored_session [] [stored_message i t1] [] ∧
    saveable stored_session [] [stored_message i t1; stored_message i t2] []) as Hs.
  { intros i t1 t2 Hi. unfold is_u16 in Hi.
    split; split; cbn; unfold is_u16, is_u32; repeat constructor; cbn; unfold is_u16, is_u32; lia || done. }
  intros save.
  assert (is_Ok (save [stored_message 5 30]).2) as E1 by (vm_compute; exact I).
  assert ((save [stored_message 5 30; stored_message 5 31]).2 = Err (Internal "constraint failed"))
    as E2 by (vm_compute; reflexivity).
  destruct (sqlite_save_all_or_nothing (SQ := engine) (SL := engine_laws _) stored_session []
    [stored_message 5 30] [] sample_storage (sample_inv _)
    (proj1 (Hs 5 30 30 ltac:(unfold is_u16; lia)))) as [_ H1].
  destruct (sqlite_save_all_or_nothing (SQ := engine) (SL := engine_laws _) stored_session []
    [stored_message 5 30; stored_message 5 31] [] sample_storage (sample_inv _)
    (proj2 (Hs 5 30 31 ltac:(unfold is_u16; lia)))) as [_ H2].
  fold (save [stored_message 5 30]) in H1.
  fold (save [stored_message 5 30; stored_message 5 31]) in H2. rewrite E2 in H2.
  destruct (save [stored_message 5 30]).2; [|destruct E1..].
  split; [exact (proj1 H1)|]. split; [done|]. split; [done|exact H2].
Defined.

Lemma sqlite_oldest_first_witness :
  let load := sqlite_load_inflight_messages (SQ := engine) "c" sample_storage in
  load.2 = Ok [stored_message 3 10; stored_message 4 20] ∧
  StronglySorted (λ a b, nanos (pi_created_at a) ≤ nanos (pi_created_at b))
    [stored_message 3 10; stored_message 4 20].
Proof.
  intros load. assert (load.2 = Ok [stored_message 3 10; stored_message 4 20]) as E
    by (vm_compute; reflexivity).
  split; [exact E|].
  apply (sqlite_oldest_first (SQ := engine) (SL := engine_laws _) "c" sample_storage load.1 _
    (sample_inv _)).
  rewrite <- E. apply surjective_pairing.
Defined.

Lemma sqlite_refines_store_witness :
  let rs := [SaveSession stored_session [stored_subscription] [stored_message 3 10] [];
             LoadInflight "c"; SessionExists "d"; DeleteSession "c"; LoadSession "c"; CountRetained] in
  ∃ s0 s l, sqlite_new (SQ := engine) "iotd.db" = Ok s0 ∧
    serve_all (S := SqliteStorage (SQ := engine)) rs s0 = (s, Ok l) ∧
    Forall2 same_reply l
      [Done; ReplyInflight [stored_message 3 10]; ReplyBool false; Done; ReplySession None;
       ReplyCount 0].
Proof.
  intros rs.
  refine (sqlite_refines_store (SQ := engine) (SL := engine_laws _) (SR := engine_reliable _)
    "iotd.db" (∅, None) rs eq_refl eq_refl _).
  cbn. unfold readable_inflight. cbn. split_and!; try lia; try done.
  - split; cbn; unfold is_u16, is_u32; repeat constructor; cbn; unfold is_u16, is_u32; lia || done.
  - split; cbn; unfold is_u16, is_u32; repeat constructor; cbn; unfold is_u16, is_u32; lia || done.
  - split; repeat constructor; set_solver.
  - repeat constructor.
Defined.
