(* ===== verification/Config.v ===== *)
(** [src/config.rs]: the configuration the broker is built from, its defaults,
    the guarded retransmission interval, and the form the listen addresses have
    in a file.  The rest of reading it is in [ConfigFile]. *)

From S2P Require Import Prelude.

Local Open Scope Z_scope.

Inductive StorageBackend := Memory | Sqlite.

Record PersistenceConfig := mkPersistence {
  storage_backend : StorageBackend;
  database_path : string;
  session_expiry_seconds : Z;
}.

Inductive AuthBackend := AuthAllowAll | PasswordFile.

Record AuthConfig := mkAuth {
  auth_backend : AuthBackend;
  password_file : string;
}.

Inductive AclBackend := AclAllowAll | AclFile.

Record AclConfig := mkAcl {
  acl_backend : AclBackend;
  acl_file : string;
}.

Record TlsConfig := mkTls {
  cert_file : string;
  key_file : string;
}.

Record Config := mkConfig {
  listen : list string;
  retained_message_limit : nat;
  max_retransmission_limit : Z;
  retransmission_interval_ms : Z;
  persistence : PersistenceConfig;
  auth : AuthConfig;
  acl : AclConfig;
  tls : option TlsConfig;
}.

Definition default_listen : list string := ["127.0.0.1:1883"].
Definition default_retained_message_limit : nat := N.to_nat 10000.
Definition default_max_retransmission_limit : Z := 10.
Definition default_retransmission_interval_ms : Z := 5000.
Definition default_database_path : string := "iotd.db".
Definition default_session_expiry_seconds : Z := 86400.
Definition default_password_file_path : string := "passwd".
Definition default_acl_file_path : string := "acl.conf".

Definition default_persistence : PersistenceConfig :=
  mkPersistence Memory default_database_path default_session_expiry_seconds.
Definition default_auth : AuthConfig := mkAuth AuthAllowAll default_password_file_path.
Definition default_acl : AclConfig := mkAcl AclAllowAll default_acl_file_path.

Definition default_config : Config :=
  mkConfig default_listen default_retained_message_limit default_max_retransmission_limit
    default_retransmission_interval_ms default_persistence default_auth default_acl None.

Definition get_retransmission_interval_ms (c : Config) : Z :=
  if retransmission_interval_ms c =? 0 then 0
  else Z.max (retransmission_interval_ms c) 500.

(** * The listen addresses in a file *)
Section Listen.
Context {E : Type}.

(** What [Deserializer::deserialize_any] hands to the visitor: a string, the
    elements of a sequence up to the first that is not a string, or a value the
    visitor does not take. *)
Inductive Visited :=
| VisitStr (value : string)
| VisitSeq (seq : list (string + E))
| VisitOther (e : E).

(** [ListenVisitor::visit_seq], the loop over [next_element]. *)
Fixpoint visit_seq (vec : list string) (seq : list (string + E)) : list string + E :=
  match seq with
  | [] => inl vec
  | inl value :: seq' => visit_seq (vec ++ [value]) seq'
  | inr e :: _ => inr e
  end.

Definition deserialize_listen (v : Visited) : list string + E :=
  match v with
  | VisitStr value => inl [value]
  | VisitSeq seq => visit_seq [] seq
  | VisitOther e => inr e
  end.

(** The value [serialize_listen] gives, as it is visited when it is read. *)
Definition serialize_listen (l : list string) : Visited :=
  match l with
  | [addr] => VisitStr addr
  | _ => VisitSeq (inl <$> l)
  end.

Lemma visit_seq_all vec l : visit_seq vec (inl <$> l) = inl (vec ++ l).
Proof.
  revert vec. induction l as [|a l IH]; intros vec; cbn; [by rewrite app_nil_r|].
  by rewrite IH, <- (assoc_L (++)).
Qed.

(** The addresses that are written are those that are read. *)
Lemma listen_roundtrip l : deserialize_listen (serialize_listen l) = inl l.
Proof. destruct l as [|a [|b l]]; [done..|]. apply (visit_seq_all [] (a :: b :: l)). Qed.

(** An element that is not a string refuses the configuration. *)
Lemma listen_refused l e seq : deserialize_listen (VisitSeq ((inl <$> l) ++ inr e :: seq)) = inr e.
Proof. cbn. generalize (@nil string). induction l as [|a l IH]; intros vec; cbn; [done|apply IH]. Qed.
End Listen.
Arguments Visited : clear implicits.

(** Off, or at least half a second; never shorter than what was asked for. *)
Lemma retransmission_interval_bounds c :
  0 ≤ retransmission_interval_ms c →
  get_retransmission_interval_ms c = 0 ∧ retransmission_interval_ms c = 0 ∨
  500 ≤ get_retransmission_interval_ms c ∧
  retransmission_interval_ms c ≤ get_retransmission_interval_ms c.
Proof. unfold get_retransmission_interval_ms. destruct (Z.eqb_spec (retransmission_interval_ms c) 0); lia. Qed.
