(* ===== verification/ConfigFile.v ===== *)
(** The configuration in a file: what serde derives for [Config] and its parts
    from the attributes in [src/config.rs], on what the [toml] crate makes of the
    text.  A setting the file does not mention has its default, one the program
    does not know is ignored, and a value of the wrong form refuses the file. *)

From S2P Require Import Prelude Utf8 Config.

Local Open Scope Z_scope.

(** * The document

    The data model of serde, as far as a TOML document has it: a node is what
    [deserialize_any] hands to a visitor.  Floats, booleans and dates are
    [NOther]. *)
#[warnings="-register-all"] Inductive Node :=
| NStr (s : string)
| NInt (n : Z)
| NSeq (l : list Node)
| NMap (entries : list (string * Node))
| NOther.

Abbreviation Entries := (list (string * Node)).

(** The crate: the root table of a text, unless it is no TOML, and the name of
    the unit variant a node stands for, where an enum is expected. *)
Class Toml := {
  toml_document : string → option Entries;
  toml_variant : Node → option string;
}.

(** A string names the variant. *)
Class TomlLaws {TM : Toml} : Prop := {
  toml_variant_str s : toml_variant (NStr s) = Some s;
}.

(** An [i64] is the widest integer of TOML. *)
Definition I64_MAX : Z := 2 ^ 63 - 1.
Definition U32_MAX : Z := 2 ^ 32 - 1.
Definition U64_MAX : Z := 2 ^ 64 - 1.

(** * Reading *)
Section Read.
Context {TM : Toml}.

(** [String] and [PathBuf] *)
Definition de_string (n : Node) : option string :=
  match n with NStr s => Some s | _ => None end.

(** [u32], [u64] and [usize], by their greatest value *)
Definition de_unsigned (max : Z) (n : Node) : option Z :=
  match n with NInt z => if (0 <=? z) && (z <=? max) then Some z else None | _ => None end.

Definition de_usize (n : Node) : option nat := Z.to_nat <$> de_unsigned U64_MAX n.

(** A unit variant, by the names serde knows the variants under. *)
Definition de_variant {A} (variants : list (string * A)) (n : Node) : option A :=
  name ← toml_variant n; snd <$> find (λ v, String.eqb v.1 name) variants.

(** What the derived visitor of a struct takes: a map, or the fields one after
    the other. *)
Definition struct_entries (fields : list string) (n : Node) : option Entries :=
  match n with
  | NMap entries => Some entries
  | NSeq l => Some (zip fields l)
  | _ => None
  end.

(** A field: what its entry says, or [absent] without one: its default, or [None]
    for [missing_field].  A second entry is a [duplicate_field]. *)
Definition field {A} (key : string) (de : Node → option A) (absent : option A)
    (entries : Entries) : option A :=
  match filter (λ kv, kv.1 = key) entries with
  | [] => absent
  | [(_, n)] => de n
  | _ => None
  end.

(** [#[serde(rename_all = "lowercase")]] *)
Definition storage_backends : list (string * StorageBackend) :=
  [("memory", Memory); ("sqlite", Sqlite)].

(** [#[serde(rename = "..")]] *)
Definition auth_backends : list (string * AuthBackend) :=
  [("allowall", AuthAllowAll); ("passwordfile", PasswordFile)].

Definition acl_backends : list (string * AclBackend) :=
  [("allowall", AclAllowAll); ("aclfile", AclFile)].

Definition de_persistence (n : Node) : option PersistenceConfig :=
  es ← struct_entries ["backend"; "database_path"; "session_expiry_seconds"] n;
  backend ← field "backend" (de_variant storage_backends) (Some Memory) es;
  path ← field "database_path" de_string (Some default_database_path) es;
  expiry ← field "session_expiry_seconds" (de_unsigned U64_MAX) (Some default_session_expiry_seconds) es;
  Some (mkPersistence backend path expiry).

Definition de_auth (n : Node) : option AuthConfig :=
  es ← struct_entries ["backend"; "password_file"] n;
  backend ← field "backend" (de_variant auth_backends) (Some AuthAllowAll) es;
  file ← field "password_file" de_string (Some default_password_file_path) es;
  Some (mkAuth backend file).

Definition de_acl (n : Node) : option AclConfig :=
  es ← struct_entries ["backend"; "acl_file"] n;
  backend ← field "backend" (de_variant acl_backends) (Some AclAllowAll) es;
  file ← field "acl_file" de_string (Some default_acl_file_path) es;
  Some (mkAcl backend file).

Definition de_tls (n : Node) : option TlsConfig :=
  es ← struct_entries ["cert_file"; "key_file"] n;
  cert ← field "cert_file" de_string None es;
  key ← field "key_file" de_string None es;
  Some (mkTls cert key).

(** What [deserialize_any] hands to [ListenVisitor]; [next_element] reads a
    [String]. *)
Definition visit_any (n : Node) : Visited () :=
  match n with
  | NStr s => VisitStr s
  | NSeq l => VisitSeq ((λ m, match de_string m with Some s => inl s | None => inr tt end) <$> l)
  | _ => VisitOther tt
  end.

Definition de_listen (n : Node) : option (list string) :=
  match deserialize_listen (visit_any n) with inl l => Some l | inr _ => None end.

Definition deserialize_config (es : Entries) : option Config :=
  listen ← field "listen" de_listen (Some default_listen) es;
  retained ← field "retained_message_limit" de_usize (Some default_retained_message_limit) es;
  retries ← field "max_retransmission_limit" (de_unsigned U32_MAX) (Some default_max_retransmission_limit) es;
  interval ← field "retransmission_interval_ms" (de_unsigned U64_MAX)
               (Some default_retransmission_interval_ms) es;
  persistence ← field "persistence" de_persistence (Some default_persistence) es;
  auth ← field "auth" de_auth (Some default_auth) es;
  acl ← field "acl" de_acl (Some default_acl) es;
  tls ← field "tls" (λ n, Some <$> de_tls n) (Some None) es;
  Some (mkConfig listen retained retries interval persistence auth acl tls).

(** [toml::from_str::<Config>]; why a file is refused is not modelled. *)
Definition from_toml (contents : string) : option Config :=
  es ← toml_document contents; deserialize_config es.
End Read.

(** * Writing

    [Serialize], derived from the same attributes.  TOML has no number above the
    greatest [i64] and leaves [None] out; serde refuses a path that is not UTF-8
    (a [PathBuf] is any sequence of bytes). *)

Definition ser_unsigned (z : Z) : option Node := if z <=? I64_MAX then Some (NInt z) else None.

Definition ser_path (p : string) : option Node :=
  if run_utf8_validation (as_bytes p) then Some (NStr p) else None.

(** What [serialize_listen] hands to the serializer, as a node. *)
Definition listen_node {E} (v : Visited E) : Node :=
  match v with
  | VisitStr s => NStr s
  | VisitSeq l => NSeq (omap (λ r, match r with inl s => Some (NStr s) | inr _ => None end) l)
  | VisitOther _ => NOther
  end.

Definition ser_storage_backend (b : StorageBackend) : Node :=
  NStr match b with Memory => "memory" | Sqlite => "sqlite" end.

Definition ser_auth_backend (b : AuthBackend) : Node :=
  NStr match b with AuthAllowAll => "allowall" | PasswordFile => "passwordfile" end.

Definition ser_acl_backend (b : AclBackend) : Node :=
  NStr match b with AclAllowAll => "allowall" | AclFile => "aclfile" end.

Definition ser_persistence (p : PersistenceConfig) : option Node :=
  path ← ser_path (database_path p);
  expiry ← ser_unsigned (session_expiry_seconds p);
  Some (NMap [("backend", ser_storage_backend (storage_backend p)); ("database_path", path);
              ("session_expiry_seconds", expiry)]).

Definition ser_auth (a : AuthConfig) : option Node :=
  file ← ser_path (password_file a);
  Some (NMap [("backend", ser_auth_backend (auth_backend a)); ("password_file", file)]).

Definition ser_acl (a : AclConfig) : option Node :=
  file ← ser_path (acl_file a);
  Some (NMap [("backend", ser_acl_backend (acl_backend a)); ("acl_file", file)]).

Definition ser_tls (t : TlsConfig) : option Node :=
  cert ← ser_path (cert_file t);
  key ← ser_path (key_file t);
  Some (NMap [("cert_file", cert); ("key_file", key)]).

Definition serialize_config (c : Config) : option Entries :=
  retained ← ser_unsigned (Z.of_nat (retained_message_limit c));
  retries ← ser_unsigned (max_retransmission_limit c);
  interval ← ser_unsigned (retransmission_interval_ms c);
  persistence ← ser_persistence (persistence c);
  auth ← ser_auth (auth c);
  acl ← ser_acl (acl c);
  tls ← match tls c with Some t => n ← ser_tls t; Some [("tls", n)] | None => Some [] end;
  Some ([("listen", listen_node (serialize_listen (E := ()) (listen c))); ("retained_message_limit", retained);
         ("max_retransmission_limit", retries); ("retransmission_interval_ms", interval);
         ("persistence", persistence); ("auth", auth); ("acl", acl)] ++ tls).

(** * What is written is what is read *)

(** The numbers of a configuration, in their types. *)
Record config_ranges (c : Config) : Prop := {
  cr_retained : Z.of_nat (retained_message_limit c) ≤ U64_MAX;
  cr_retries : 0 ≤ max_retransmission_limit c ≤ U32_MAX;
  cr_interval : 0 ≤ retransmission_interval_ms c ≤ U64_MAX;
  cr_expiry : 0 ≤ session_expiry_seconds (persistence c) ≤ U64_MAX;
}.

(** The paths of a configuration. *)
Definition config_paths (c : Config) : list string :=
  [database_path (persistence c); password_file (auth c); acl_file (acl c)] ++
  match tls c with Some t => [cert_file t; key_file t] | None => [] end.

(** The fields of [Config]. *)
Definition config_fields : list string :=
  ["listen"; "retained_message_limit"; "max_retransmission_limit"; "retransmission_interval_ms";
   "persistence"; "auth"; "acl"; "tls"].

Section Facts.
Context {TM : Toml} {TML : TomlLaws}.

(** A field does not depend on the order of the entries. *)
Lemma field_perm {A} key de (absent : option A) es es' :
  es ≡ₚ es' → (length (filter (λ kv : string * Node, kv.1 = key) es) ≤ 1)%nat →
  field key de absent es = field key de absent es'.
Proof.
  intros H Hl. pose proof (filter_Permutation (λ kv, kv.1 = key) _ _ H) as Hp. unfold field.
  destruct (filter _ es) as [|x [|]]; cbn in Hl; [| |lia].
  - by apply Permutation_nil_l in Hp as <-.
  - by apply Permutation_singleton_l in Hp as <-.
Qed.

Lemma filter_key_none key (es : Entries) : key ∉ es.*1 → filter (λ kv, kv.1 = key) es = [].
Proof.
  induction es as [|[k n] es IH]; [done|]. cbn [fmap list_fmap]. intros [Hk H]%not_elem_of_cons.
  rewrite filter_cons_False by (cbn in *; congruence). by apply IH.
Qed.

(** The entries of other fields are ignored. *)
Lemma field_other {A} key de (absent : option A) es extra :
  key ∉ extra.*1 → field key de absent (es ++ extra) = field key de absent es.
Proof. intros H. unfold field. by rewrite filter_app, (filter_key_none key extra H), app_nil_r. Qed.

Lemma filter_key_short key (es : Entries) : NoDup es.*1 → (length (filter (λ kv, kv.1 = key) es) ≤ 1)%nat.
Proof.
  induction es as [|[k n] es IH]; cbn [fmap list_fmap]; [cbn; lia|]. intros [Hk Hn]%NoDup_cons.
  rewrite filter_cons. case_decide as E; [|by apply IH]. cbn in E. subst k.
  rewrite (filter_key_none key es Hk). cbn. lia.
Qed.

(** An entry, and one of another field. *)
Lemma field_here {A} key de (absent : option A) n es :
  key ∉ es.*1 → field key de absent ((key, n) :: es) = de n.
Proof. intros H. unfold field. by rewrite filter_cons_True, filter_key_none. Qed.

Lemma field_next {A} k key de (absent : option A) n es :
  k ≠ key → field key de absent ((k, n) :: es) = field key de absent es.
Proof. intros H. unfold field. by rewrite filter_cons_False. Qed.

Lemma field_absent {A} key de (absent : option A) : field key de absent [] = absent.
Proof. done. Qed.

(** Reads the fields of a struct whose entries are listed. *)
Ltac read_fields :=
  repeat first
    [ rewrite field_here by (refine (bool_decide_unpack _ _); vm_compute; exact I)
    | rewrite field_next by discriminate
    | rewrite field_absent ];
  cbn [mbind option_bind].

(** ** Each part *)

Lemma de_ser_unsigned max z n :
  0 ≤ z ≤ max → ser_unsigned z = Some n → de_unsigned max n = Some z.
Proof.
  intros Hz. unfold ser_unsigned. destruct (z <=? I64_MAX); [|done]. intros [= <-]. cbn.
  by rewrite (proj2 (Z.leb_le 0 z)), (proj2 (Z.leb_le z max)) by lia.
Qed.

Lemma de_ser_listen l : de_listen (listen_node (serialize_listen (E := ()) l)) = Some l.
Proof.
  unfold de_listen. assert (visit_any (listen_node (serialize_listen (E := ()) l)) = serialize_listen l) as ->;
    [|by rewrite listen_roundtrip].
  destruct l as [|a [|b l]]; [done..|]. cbn. do 3 f_equal.
  induction l as [|d l IH]; [done|]. cbn. by rewrite IH.
Qed.

Lemma de_ser_path p n : ser_path p = Some n → de_string n = Some p.
Proof. unfold ser_path. destruct (run_utf8_validation _); [|done]. by intros [= <-]. Qed.

Lemma de_ser_persistence p n :
  0 ≤ session_expiry_seconds p ≤ U64_MAX → ser_persistence p = Some n → de_persistence n = Some p.
Proof.
  unfold ser_persistence. intros Hp. destruct (ser_path _) as [f|] eqn:F; [|done].
  destruct (ser_unsigned _) as [e|] eqn:E; [|done]. intros [= <-].
  apply (de_ser_unsigned U64_MAX) in E; [|done]. apply de_ser_path in F.
  unfold de_persistence. cbn [struct_entries mbind option_bind].
  read_fields. unfold de_variant, ser_storage_backend. rewrite toml_variant_str, E, F.
  by destruct p as [[] path x].
Qed.

Lemma de_ser_auth a n : ser_auth a = Some n → de_auth n = Some a.
Proof.
  unfold ser_auth. destruct (ser_path _) as [f|] eqn:F; [|done]. intros [= <-]. apply de_ser_path in F.
  unfold de_auth. cbn [struct_entries mbind option_bind]. read_fields.
  unfold de_variant, ser_auth_backend. rewrite toml_variant_str, F. by destruct a as [[] p].
Qed.

Lemma de_ser_acl a n : ser_acl a = Some n → de_acl n = Some a.
Proof.
  unfold ser_acl. destruct (ser_path _) as [f|] eqn:F; [|done]. intros [= <-]. apply de_ser_path in F.
  unfold de_acl. cbn [struct_entries mbind option_bind]. read_fields.
  unfold de_variant, ser_acl_backend. rewrite toml_variant_str, F. by destruct a as [[] p].
Qed.

Lemma de_ser_tls t n : ser_tls t = Some n → de_tls n = Some t.
Proof.
  unfold ser_tls. destruct (ser_path (cert_file t)) as [f|] eqn:F; [|done].
  destruct (ser_path (key_file t)) as [k|] eqn:K; [|done]. intros [= <-].
  apply de_ser_path in F, K. unfold de_tls. cbn [struct_entries mbind option_bind]. read_fields.
  rewrite F, K. by destruct t.
Qed.

(** ** The whole *)

(** Takes a configuration that has been written apart. *)
Ltac written H :=
  unfold serialize_config in H;
  repeat match type of H with
  | context [mbind _ ?m] => let E := fresh "E" in destruct m eqn:E; [|done]; cbn [mbind option_bind] in H
  end;
  injection H as <-.

Lemma deserialize_serialized c es :
  config_ranges c → serialize_config c = Some es → deserialize_config es = Some c.
Proof.
  intros [R1 R2 R3 R4] H. written H.
  apply (de_ser_unsigned U64_MAX) in E; [|lia]. apply (de_ser_unsigned U32_MAX) in E0; [|done].
  apply (de_ser_unsigned U64_MAX) in E1; [|done]. apply de_ser_persistence in E2; [|done].
  apply de_ser_auth in E3. apply de_ser_acl in E4.
  unfold deserialize_config, de_usize. destruct (tls c) as [t|] eqn:Et.
  - destruct (ser_tls t) as [node|] eqn:En; [|done]. injection E5 as <-. apply de_ser_tls in En.
    cbn [app]. read_fields. rewrite de_ser_listen, E, E0, E1, E2, E3, E4, En.
    cbn [fmap option_fmap option_map mbind option_bind]. rewrite Nat2Z.id, <- Et. by destruct c.
  - injection E5 as <-. cbn [app]. read_fields. rewrite de_ser_listen, E, E0, E1, E2, E3, E4.
    cbn [fmap option_fmap option_map mbind option_bind]. rewrite Nat2Z.id, <- Et. by destruct c.
Qed.

Lemma serialized_keys c es :
  serialize_config c = Some es → NoDup es.*1.
Proof.
  intros H. written H. destruct (tls c) as [t|]; [destruct (ser_tls t); [|done]|];
    injection E5 as <-; refine (bool_decide_unpack _ _); vm_compute; exact I.
Qed.

(** A field is the same in a file with other entries, in whatever order. *)
Lemma field_in_file {A} key de (absent : option A) es extra es' :
  es' ≡ₚ es ++ extra → NoDup es.*1 → key ∉ extra.*1 → field key de absent es' = field key de absent es.
Proof.
  intros Hp Hn Hk. rewrite <- (field_other key de absent es extra Hk). symmetry.
  apply field_perm; [by symmetry|]. rewrite filter_app, (filter_key_none key extra Hk), app_nil_r.
  by apply filter_key_short.
Qed.

Lemma deserialize_in_file es extra es' :
  es' ≡ₚ es ++ extra → NoDup es.*1 → Forall (λ k, k ∉ config_fields) extra.*1 →
  deserialize_config es' = deserialize_config es.
Proof.
  intros Hp Hn He. rewrite Forall_forall in He.
  assert (∀ A key de (absent : option A), key ∈ config_fields →
    field key de absent es' = field key de absent es) as Hf.
  { intros A key de absent Hk. apply (field_in_file key de absent es extra); [done..|]. intros H. by apply (He key). }
  unfold deserialize_config. by rewrite !Hf by (refine (bool_decide_unpack _ _); vm_compute; exact I).
Qed.

Lemma ser_unsigned_None z : ser_unsigned z = None ↔ I64_MAX < z.
Proof. unfold ser_unsigned. destruct (Z.leb_spec z I64_MAX); split; try done; lia. Qed.

Lemma ser_path_None p : ser_path p = None ↔ ¬ utf8 p.
Proof. unfold ser_path, utf8. by destruct (run_utf8_validation _). Qed.

(** One setting that can be written, or not. *)
Ltac one m := destruct m; cbn [mbind option_bind]; [|by (split; auto 12)].

(** When a configuration cannot be written. *)
Lemma serialize_config_None c :
  serialize_config c = None ↔
    I64_MAX < Z.of_nat (retained_message_limit c) ∨ I64_MAX < max_retransmission_limit c ∨
    I64_MAX < retransmission_interval_ms c ∨ I64_MAX < session_expiry_seconds (persistence c) ∨
    Exists (λ p, ¬ utf8 p) (config_paths c).
Proof.
  unfold serialize_config, ser_persistence, ser_auth, ser_acl, ser_tls, config_paths.
  rewrite <- !ser_unsigned_None.
  assert (∀ l : list string, Exists (λ p, ¬ utf8 p) l ↔ Exists (λ p, ser_path p = None) l) as ->.
  { intros l. split; intros H; (eapply Exists_impl; [exact H|]); intros p; by rewrite ser_path_None. }
  destruct (tls c) as [t|]; cbn [app]; rewrite ?Exists_cons, Exists_nil.
  all: one (ser_unsigned (Z.of_nat (retained_message_limit c))); one (ser_unsigned (max_retransmission_limit c));
    one (ser_unsigned (retransmission_interval_ms c)); one (ser_path (database_path (persistence c)));
    one (ser_unsigned (session_expiry_seconds (persistence c))); one (ser_path (password_file (auth c)));
    one (ser_path (acl_file (acl c))).
  1: one (ser_path (cert_file t)); one (ser_path (key_file t)).
  all: split; [done|]; intros H; repeat destruct H as [H|H]; done.
Qed.

(** C26: a configuration that is written to a file is read back as it was, from
    any text that the parser reads as the entries that were written, also when
    they have been put in another order and entries the program does not know
    have been added.  Every configuration can be written but one with a number
    above the greatest [i64], the greatest of TOML, or with a path that is not
    UTF-8. *)
Theorem config_roundtrip c :
  config_ranges c →
  (∀ es extra es' contents, serialize_config c = Some es → es' ≡ₚ es ++ extra →
     Forall (λ k, k ∉ config_fields) extra.*1 → toml_document contents = Some es' →
     from_toml contents = Some c) ∧
  (serialize_config c = None ↔
     I64_MAX < Z.of_nat (retained_message_limit c) ∨ I64_MAX < max_retransmission_limit c ∨
     I64_MAX < retransmission_interval_ms c ∨ I64_MAX < session_expiry_seconds (persistence c) ∨
     Exists (λ p, ¬ utf8 p) (config_paths c)).
Proof.
  intros Hr. split; [|apply serialize_config_None].
  intros es extra es' contents Hs Hp He Hd. pose proof (serialized_keys c es Hs) as Hn.
  unfold from_toml. rewrite Hd. cbn [mbind option_bind].
  rewrite (deserialize_in_file es extra es' Hp Hn He). by apply deserialize_serialized.
Qed.
End Facts.
