(* ===== verification/Text.v ===== *)
(** The functions of the standard library on strings that the authentication
    files and the addresses are read with: [lines], [trim], [starts_with],
    [strip_prefix], [split_once] and [splitn].  A string is its UTF-8 bytes, so
    [trim] looks for the encodings of the white-space characters of Unicode. *)

From S2P Require Import Prelude.
From Stdlib Require Import Ascii.

Definition NEWLINE : ascii := "010"%char.
Definition CR : ascii := "013"%char.

(** [s.starts_with(c)] *)
Definition str_starts_with (c : ascii) (s : string) : bool :=
  match s with EmptyString => false | String a _ => Ascii.eqb a c end.

(** [s.strip_prefix(p)], of a string *)
Fixpoint str_strip_prefix (p s : string) : option string :=
  match p, s with
  | EmptyString, _ => Some s
  | String a p', String b s' => if Ascii.eqb a b then str_strip_prefix p' s' else None
  | String _ _, EmptyString => None
  end.

(** [s.starts_with(p)], of a string *)
Definition starts_with (p s : string) : bool :=
  match str_strip_prefix p s with Some _ => true | None => false end.

(** [s.split_once(c)] *)
Fixpoint str_split_once (c : ascii) (s : string) : option (string * string) :=
  match s with
  | EmptyString => None
  | String a s' =>
      if Ascii.eqb a c then Some (EmptyString, s')
      else match str_split_once c s' with
           | Some (l, r) => Some (String a l, r)
           | None => None
           end
  end.

(** [s.splitn(n, c)] *)
Fixpoint str_splitn (n : nat) (c : ascii) (s : string) : list string :=
  match n with
  | O => []
  | S O => [s]
  | S n' =>
      match str_split_once c s with
      | Some (l, r) => l :: str_splitn n' c r
      | None => [s]
      end
  end.

(** A carriage return before the line feed belongs to the end of the line. *)
Fixpoint strip_cr (s : string) : string :=
  match s with
  | EmptyString => EmptyString
  | String a EmptyString => if Ascii.eqb a CR then EmptyString else s
  | String a s' => String a (strip_cr s')
  end.

(** [s.lines()]: what stands before each line feed, and what follows the last
    one if anything does. *)
Fixpoint end_lines (ps : list string) : list string :=
  match ps with
  | [] => []
  | [p] => if str_is_empty p then [] else [p]
  | p :: ps' => strip_cr p :: end_lines ps'
  end.
Definition str_lines (s : string) : list string := end_lines (str_split NEWLINE s).

(** The encodings of the characters with the property [White_Space]. *)
Definition white_space : list (list ascii) :=
  let b (l : list nat) := ascii_of_nat <$> l in
  [b [9]; b [10]; b [11]; b [12]; b [13]; b [32]; b [194; 133]; b [194; 160];
   b [225; 154; 128]; b [226; 128; 168]; b [226; 128; 169]; b [226; 128; 175];
   b [226; 129; 159]; b [227; 128; 128]] ++
  ((λ n, b [226; 128; n]) <$> seq 128 11).

Fixpoint strip_prefix (p l : list ascii) : option (list ascii) :=
  match p, l with
  | [], _ => Some l
  | a :: p', b :: l' => if Ascii.eqb a b then strip_prefix p' l' else None
  | _ :: _, [] => None
  end.

Definition strip_one (ws : list (list ascii)) (l : list ascii) : option (list ascii) :=
  foldr (λ p r, match strip_prefix p l with Some l' => Some l' | None => r end) None ws.

Fixpoint strip_all (fuel : nat) (ws : list (list ascii)) (l : list ascii) : list ascii :=
  match fuel with
  | O => l
  | S n => match strip_one ws l with Some l' => strip_all n ws l' | None => l end
  end.

(** [s.trim()]: no character is longer than the text, so the length of the
    text is fuel enough. *)
Definition trim_start (ws : list (list ascii)) (l : list ascii) : list ascii :=
  strip_all (length l) ws l.
Definition str_trim (s : string) : string :=
  let l := trim_start white_space (String.list_ascii_of_string s) in
  String.string_of_list_ascii (reverse (trim_start (reverse <$> white_space) (reverse l))).

Example str_trim_ends : str_trim "  a b " = "a b".
Proof. reflexivity. Qed.

(** * Lemmas *)

Lemma str_split_once_app c l r :
  str_contains c l = false → str_split_once c (l +:+ String c r) = Some (l, r).
Proof.
  induction l as [|a l IH]; simpl; [by rewrite Ascii.eqb_refl|].
  intros [Ha Hl]%orb_false_iff. by rewrite Ha, IH.
Qed.

Lemma str_split_once_None c s : str_contains c s = false → str_split_once c s = None.
Proof.
  induction s as [|a s IH]; simpl; [done|]. intros [Ha Hs]%orb_false_iff. by rewrite Ha, IH.
Qed.

Lemma str_split_once_Some c s l r :
  str_split_once c s = Some (l, r) → s = l +:+ String c r ∧ str_contains c l = false.
Proof.
  revert l r. induction s as [|a s IH]; intros l r; simpl; [done|].
  destruct (Ascii.eqb_spec a c) as [->|Ha]; [by intros [= <- <-]|].
  destruct (str_split_once c s) as [[l' r']|]; [|done].
  intros [= <- <-]. destruct (IH l' r' eq_refl) as [-> Hl]. split; [done|].
  simpl. rewrite Hl, orb_false_r. by apply Ascii.eqb_neq.
Qed.

Lemma str_split_app c p s :
  str_contains c p = false → str_split c (p +:+ String c s) = p :: str_split c s.
Proof.
  induction p as [|a p IH]; simpl; [by rewrite Ascii.eqb_refl|].
  intros [Ha Hp]%orb_false_iff. by rewrite Ha, IH.
Qed.

(** A file of lines. *)
Fixpoint unlines (ls : list string) : string :=
  match ls with
  | [] => EmptyString
  | l :: ls' => l +:+ String NEWLINE (unlines ls')
  end.

Lemma str_lines_unlines ls :
  Forall (λ l, str_contains NEWLINE l = false) ls → str_lines (unlines ls) = strip_cr <$> ls.
Proof.
  unfold str_lines. induction 1 as [|l ls Hl _ IH]; [done|]. cbn [unlines].
  rewrite str_split_app by done. rewrite fmap_cons, <- IH.
  pose proof (str_split_ne_nil NEWLINE (unlines ls)). by destruct (str_split _ _).
Qed.
