(* ===== verification/TomlReader.v ===== *)
(** A reader of a part of TOML, on which the witnesses and the unit tests that read
    a configuration are run: tables, strings without escapes, numbers and
    arrays of these on one line, and comments on lines of their own. *)

From S2P Require Import Prelude Text Config ConfigFile.
From Stdlib Require Import Ascii.

Local Open Scope Z_scope.

Definition QUOTE : ascii := "034"%char.

Fixpoint read_digits (acc : Z) (s : string) : option Z :=
  match s with
  | EmptyString => Some acc
  | String a s' =>
      let d := Z.of_N (N_of_ascii a) - 48 in
      if (0 <=? d) && (d <=? 9) then read_digits (10 * acc + d) s' else None
  end.

Definition read_number (s : string) : option Node :=
  match s with
  | EmptyString => None
  | String a s' =>
      if Ascii.eqb a "-" then NInt ∘ Z.opp <$> (if str_is_empty s' then None else read_digits 0 s')
      else NInt <$> read_digits 0 s
  end.

Definition read_scalar (s : string) : option Node :=
  match s with
  | String a rest =>
      if Ascii.eqb a QUOTE then
        match str_split_once QUOTE rest with
        | Some (v, EmptyString) => Some (NStr v)
        | _ => None
        end
      else if String.eqb s "true" || String.eqb s "false" then Some NOther
      else read_number s
  | EmptyString => None
  end.

(** What stands between an opening character and its closing one at the end. *)
Definition enclosed (close : ascii) (s : string) : option string :=
  match s with
  | String _ rest =>
      match str_split_once close rest with Some (inner, EmptyString) => Some inner | _ => None end
  | EmptyString => None
  end.

Definition read_value (s : string) : option Node :=
  if str_starts_with "[" s then
    inner ← enclosed "]" s;
    if str_is_empty (str_trim inner) then Some (NSeq [])
    else NSeq <$> mapM (read_scalar ∘ str_trim) (str_split "," inner)
  else read_scalar s.

(** The table that is being read, put at the end of the root table. *)
Definition close_table (root : Entries) (table : option (string * Entries)) : Entries :=
  match table with
  | Some (name, es) => root ++ [(name, NMap es)]
  | None => root
  end.

Fixpoint read_lines (lines : list string) (root : Entries) (table : option (string * Entries)) :
    option Entries :=
  match lines with
  | [] => Some (close_table root table)
  | line :: lines' =>
      if str_is_empty line || str_starts_with "#" line then read_lines lines' root table
      else if str_starts_with "[" line then
        name ← enclosed "]" line; read_lines lines' (close_table root table) (Some (name, []))
      else
        '(key, value) ← str_split_once "=" line;
        n ← read_value (str_trim value);
        match table with
        | Some (name, es) => read_lines lines' root (Some (name, es ++ [(str_trim key, n)]))
        | None => read_lines lines' (root ++ [(str_trim key, n)]) None
        end
  end.

#[export] Instance toml_reader : Toml := {
  toml_document s := read_lines (str_trim <$> str_lines s) [] None;
  toml_variant n := match n with NStr s => Some s | NMap [(s, NMap [])] => Some s | _ => None end;
}.

#[export] Instance toml_reader_laws : TomlLaws (TM := toml_reader).
Proof. by split. Qed.

(** * Concrete files *)

Definition quoted (s : string) : string := String QUOTE (s +:+ String QUOTE EmptyString).

(** [examples/config.toml], without its comments: it spells out the defaults, on
    all interfaces. *)
Definition example_config : string := unlines
  ["# IoTD Example Configuration File"; "listen = " +:+ quoted "0.0.0.0:1883"; EmptyString;
   "retained_message_limit = 10000"; "max_retransmission_limit = 10"; "retransmission_interval_ms = 5000";
   EmptyString; "[persistence]"; "backend = " +:+ quoted "memory"; "database_path = " +:+ quoted "iotd.db";
   "session_expiry_seconds = 86400"; EmptyString; "[auth]"; "backend = " +:+ quoted "allowall";
   "password_file = " +:+ quoted "passwd"; EmptyString; "[acl]"; "backend = " +:+ quoted "allowall";
   "acl_file = " +:+ quoted "acl.conf"].

Example example_config_defaults :
  from_toml example_config =
    Some (mkConfig ["0.0.0.0:1883"] default_retained_message_limit default_max_retransmission_limit
            default_retransmission_interval_ms default_persistence default_auth default_acl None).
Proof. vm_compute. reflexivity. Qed.

(** The name README.md gives the file backend is refused. *)
Example readme_backend_refused :
  from_toml (unlines ["[auth]"; "backend = " +:+ quoted "file"; "password_file = " +:+ quoted "p"]) = None.
Proof. vm_compute. reflexivity. Qed.

(** So is a number that does not fit, a number for a string, and a TLS section
    without its key. *)
Example refused_files :
  from_toml "max_retransmission_limit = 4294967296" = None ∧
  from_toml "retained_message_limit = -1" = None ∧
  from_toml "listen = 1883" = None ∧
  from_toml ("listen = [" +:+ quoted "a:1" +:+ ", 1883]") = None ∧
  from_toml (unlines ["[tls]"; "cert_file = " +:+ quoted "server.crt"]) = None.
Proof. vm_compute. auto. Qed.

(** A configuration that is not the default one, for the round trip, and a file
    with its settings in an order of its own and one the program does not know. *)
Definition other_config : Config :=
  mkConfig ["tcp://0.0.0.0:1883"; "tls://0.0.0.0:8883"] 5 3 0 (mkPersistence Sqlite "b.db" 0)
    (mkAuth PasswordFile "users") (mkAcl AclFile "rules") (Some (mkTls "server.crt" "server.key")).

Definition other_file : string := unlines
  ["max_connections = 7"; "listen = [" +:+ quoted "tcp://0.0.0.0:1883" +:+ ", " +:+ quoted "tls://0.0.0.0:8883" +:+ "]";
   "retained_message_limit = 5"; "max_retransmission_limit = 3"; "retransmission_interval_ms = 0";
   "[tls]"; "cert_file = " +:+ quoted "server.crt"; "key_file = " +:+ quoted "server.key";
   "[persistence]"; "backend = " +:+ quoted "sqlite"; "database_path = " +:+ quoted "b.db";
   "session_expiry_seconds = 0"; "[auth]"; "backend = " +:+ quoted "passwordfile";
   "password_file = " +:+ quoted "users"; "[acl]"; "backend = " +:+ quoted "aclfile"; "acl_file = " +:+ quoted "rules"].

(** A path that is not UTF-8 cannot be written. *)
Example bad_path_not_written :
  serialize_config (mkConfig [] 0 0 0 (mkPersistence Memory (String (Ascii.ascii_of_nat 255) EmptyString) 0)
    default_auth default_acl None) = None.
Proof. reflexivity. Qed.

Lemma config_roundtrip_witness :
  config_ranges other_config ∧ from_toml other_file = Some other_config.
Proof.
  assert (config_ranges other_config) as Hr by (split; vm_compute; intuition discriminate).
  split; [exact Hr|].
  refine (proj1 (config_roundtrip other_config Hr) _ [("max_connections", NInt 7)] _ other_file eq_refl _ _ _).
  3: vm_compute; reflexivity.
  - etrans; [apply Permutation_cons_append|]. do 4 apply perm_skip. exact (Permutation_middle [_; _; _] [_] _).
  - refine (bool_decide_unpack _ _); vm_compute; exact I.
Defined.
