(* ===== verification/Auth.v ===== *)
(** [src/auth/]: the traits [Authenticator] and [Authorizer] as classes, the
    backend that allows everything, the password file and the access-control
    file, and their construction from a configuration.  The file system is a
    parameter. *)

From S2P Require Import Prelude Utf8 External Config Text.
From Stdlib Require Import Ascii.

(** * Traits *)

Inductive AuthError :=
| InvalidCredentials
| NotAuthorized
| BackendError (msg : string)
| AuthIo (e : io_error).

Record Credentials := mkCredentials {
  cred_username : option string;
  cred_password : option Bytes;
  cred_client_id : string;
}.

Class Authenticator (A : Type) := authenticate : A → Credentials → () + AuthError.

Class Authorizer (A : Type) := {
  authorize_publish : A → string → string → () + AuthError;
  authorize_subscribe : A → string → string → () + AuthError;
}.

(** [std::fs::read_to_string] *)
Class FileSystem := read_to_string : string → string + io_error.

(** * Allow all *)

Inductive AllowAllAuthenticator := AllowAll.

#[export] Instance allow_all_authenticator : Authenticator AllowAllAuthenticator :=
  λ _ _, inl tt.

#[export] Instance allow_all_authorizer : Authorizer AllowAllAuthenticator := {
  authorize_publish _ _ _ := inl tt;
  authorize_subscribe _ _ _ := inl tt;
}.

(** * Password file *)

Definition COLON : ascii := ":"%char.
Definition SPACE : ascii := " "%char.
Definition COMMENT : ascii := "#"%char.

Record PasswordFileAuthenticator := mkPasswordFile { credentials : gmap string string }.

(** One turn of the loop of [PasswordFileAuthenticator::new]. *)
Definition read_password_line (credentials : gmap string string) (line : string) :
    gmap string string :=
  let line := str_trim line in
  if str_is_empty line || str_starts_with COMMENT line then credentials
  else match str_split_once COLON line with
       | Some (username, password) => <[username := password]> credentials
       | None => credentials
       end.

Definition password_file_new {FS : FileSystem} (path : string) :
    PasswordFileAuthenticator + AuthError :=
  match read_to_string path with
  | inr e => inr (AuthIo e)
  | inl contents => inl (mkPasswordFile (foldl read_password_line ∅ (str_lines contents)))
  end.

#[export] Instance password_file_authenticator : Authenticator PasswordFileAuthenticator :=
  λ self creds,
    match cred_username creds with
    | None => inr InvalidCredentials
    | Some username =>
        match cred_password creds with
        | None => inr InvalidCredentials
        | Some password =>
            match from_utf8 password with
            | None => inr InvalidCredentials
            | Some password_str =>
                match credentials self !! username with
                | Some stored =>
                    if String.eqb stored password_str then inl tt else inr InvalidCredentials
                | None => inr InvalidCredentials
                end
            end
        end
    end.

(** * Access-control file *)

Inductive Permission := PermPublish | PermSubscribe | PermPublishSubscribe.

Record AclRule := mkRule {
  rule_client_id : string;
  permission : Permission;
  rule_topic_filter : string;
}.

Record AclFileAuthorizer := mkAclFile { rules : list AclRule }.

(** The rule a line adds, if it is one: the loop body of [AclFileAuthorizer::new]. *)
Definition read_acl_line (line : string) : option AclRule :=
  let line := str_trim line in
  if str_is_empty line || str_starts_with COMMENT line then None
  else match str_splitn 3 SPACE line with
       | [p0; p1; p2] =>
           let add perm := Some (mkRule p0 perm p2) in
           if String.eqb p1 "pub" then add PermPublish
           else if String.eqb p1 "sub" then add PermSubscribe
           else if String.eqb p1 "pubsub" then add PermPublishSubscribe
           else None
       | _ => None
       end.

Definition acl_file_new {FS : FileSystem} (path : string) : AclFileAuthorizer + AuthError :=
  match read_to_string path with
  | inr e => inr (AuthIo e)
  | inl contents => inl (mkAclFile (omap read_acl_line (str_lines contents)))
  end.

Definition permits_publish (p : Permission) : bool :=
  match p with PermPublish | PermPublishSubscribe => true | PermSubscribe => false end.
Definition permits_subscribe (p : Permission) : bool :=
  match p with PermSubscribe | PermPublishSubscribe => true | PermPublish => false end.

(** The loop over the rules, for the permissions [ok] accepts. *)
Fixpoint find_rule (ok : Permission → bool) (client_id topic : string) (l : list AclRule) :
    () + AuthError :=
  match l with
  | [] => inr NotAuthorized
  | rule :: l' =>
      if negb (String.eqb (rule_client_id rule) client_id) then find_rule ok client_id topic l'
      else if negb (ok (permission rule)) then find_rule ok client_id topic l'
      else if String.eqb (rule_topic_filter rule) topic then inl tt
      else find_rule ok client_id topic l'
  end.

#[export] Instance acl_file_authorizer : Authorizer AclFileAuthorizer := {
  authorize_publish self client_id topic :=
    find_rule permits_publish client_id topic (rules self);
  authorize_subscribe self client_id topic_filter :=
    find_rule permits_subscribe client_id topic_filter (rules self);
}.

(** * Construction *)

(** [Arc<dyn Authenticator>] and [Arc<dyn Authorizer>]: one of the backends. *)
Inductive DynAuthenticator :=
| DynAllowAll (a : AllowAllAuthenticator)
| DynPasswordFile (a : PasswordFileAuthenticator).

#[export] Instance dyn_authenticator : Authenticator DynAuthenticator := λ self creds,
  match self with
  | DynAllowAll a => authenticate a creds
  | DynPasswordFile a => authenticate a creds
  end.

Inductive DynAuthorizer :=
| DynAllowAllZ (a : AllowAllAuthenticator)
| DynAclFile (a : AclFileAuthorizer).

#[export] Instance dyn_authorizer : Authorizer DynAuthorizer := {
  authorize_publish self :=
    match self with
    | DynAllowAllZ a => authorize_publish a
    | DynAclFile a => authorize_publish a
    end;
  authorize_subscribe self :=
    match self with
    | DynAllowAllZ a => authorize_subscribe a
    | DynAclFile a => authorize_subscribe a
    end;
}.

(** [auth::new] *)
Definition auth_new {FS : FileSystem} (config : AuthConfig) : DynAuthenticator + AuthError :=
  match auth_backend config with
  | AuthAllowAll => inl (DynAllowAll AllowAll)
  | PasswordFile =>
      match password_file_new (password_file config) with
      | inl a => inl (DynPasswordFile a)
      | inr e => inr e
      end
  end.

(** [auth::new_authorizer] *)
Definition new_authorizer {FS : FileSystem} (config : AclConfig) : DynAuthorizer + AuthError :=
  match acl_backend config with
  | AclAllowAll => inl (DynAllowAllZ AllowAll)
  | AclFile =>
      match acl_file_new (acl_file config) with
      | inl a => inl (DynAclFile a)
      | inr e => inr e
      end
  end.

(** * What a file says *)

(** A line of a file that the readers take as it is: no line break in it and
    nothing for [trim] to take off. *)
Definition clean_line (l : string) : Prop :=
  str_contains NEWLINE l = false ∧ strip_cr l = l ∧ str_trim l = l ∧
  l ≠ EmptyString ∧ str_starts_with COMMENT l = false.

#[export] Instance clean_line_dec l : Decision (clean_line l).
Proof. unfold clean_line. apply _. Defined.

Definition password_line (e : string * string) : string := e.1 +:+ String COLON e.2.

Definition permission_word (p : Permission) : string :=
  match p with PermPublish => "pub" | PermSubscribe => "sub" | PermPublishSubscribe => "pubsub" end.

Definition acl_line (r : AclRule) : string :=
  rule_client_id r +:+ String SPACE
    (permission_word (permission r) +:+ String SPACE (rule_topic_filter r)).

Definition password_entry_ok (e : string * string) : Prop :=
  str_contains COLON e.1 = false ∧ clean_line (password_line e).

Definition acl_rule_ok (r : AclRule) : Prop :=
  str_contains SPACE (rule_client_id r) = false ∧ clean_line (acl_line r).

Lemma lines_of_clean ls : Forall clean_line ls → str_lines (unlines ls) = ls.
Proof.
  intros H. rewrite str_lines_unlines.
  - induction H as [|l ls (_ & Hl & _) _ IH]; [done|]. cbn. by rewrite Hl, IH.
  - induction H as [|l ls [] _ IH]; by constructor.
Qed.

Lemma read_password_line_ok m e :
  password_entry_ok e → read_password_line m (password_line e) = <[e.1 := e.2]> m.
Proof.
  destruct e as [u p]. intros (Hu & _ & _ & Ht & He & Hc). unfold read_password_line. cbv zeta.
  rewrite Ht, Hc. destruct (str_is_empty _) eqn:E.
  { destruct (password_line (u, p)); done. }
  unfold password_line. simpl. by rewrite str_split_once_app.
Qed.

Lemma read_acl_line_ok r : acl_rule_ok r → read_acl_line (acl_line r) = Some r.
Proof.
  intros (Hu & _ & _ & Ht & He & Hc). unfold read_acl_line. cbv zeta.
  rewrite Ht, Hc. destruct (str_is_empty _) eqn:E; [by destruct (acl_line r)|].
  unfold acl_line. cbn [str_splitn orb]. rewrite str_split_once_app by done.
  rewrite str_split_once_app by (by destruct (permission r)).
  by destruct r as [c [] t].
Qed.

Lemma foldl_passwords es m :
  Forall password_entry_ok es →
  foldl read_password_line m (password_line <$> es) = foldl (λ m e, <[e.1 := e.2]> m) m es.
Proof.
  intros H. revert m. induction H as [|e es He _ IH]; intros m; [done|].
  cbn [fmap list_fmap foldl]. by rewrite read_password_line_ok.
Qed.

(** Inserting in order lets the last entry of a key win. *)
Lemma foldl_inserts (es : list (string * string)) :
  foldl (λ m e, <[e.1 := e.2]> m) ∅ es = (list_to_map (reverse es) : gmap string string).
Proof.
  induction es as [|[u p] es IH] using rev_ind; [done|].
  by rewrite foldl_app, reverse_snoc, list_to_map_cons, <- IH.
Qed.

Lemma omap_acl rs : Forall acl_rule_ok rs → omap read_acl_line (acl_line <$> rs) = rs.
Proof.
  induction 1 as [|r rs Hr _ IH]; [done|]. cbn. rewrite read_acl_line_ok by done.
  f_equal. exact IH.
Qed.

Definition grants (ok : Permission → bool) (c t : string) (r : AclRule) : Prop :=
  rule_client_id r = c ∧ ok (permission r) = true ∧ rule_topic_filter r = t.

(** The loop finds a rule exactly if there is one, and otherwise refuses. *)
Lemma find_rule_spec ok c t l :
  find_rule ok c t l = inl tt ∧ Exists (grants ok c t) l ∨
  find_rule ok c t l = inr NotAuthorized ∧ ¬ Exists (grants ok c t) l.
Proof.
  unfold grants. induction l as [|r l IH]; cbn [find_rule].
  { right. split; [done|]. by inversion 1. }
  rewrite Exists_cons. destruct (String.eqb_spec (rule_client_id r) c) as [Hc|Hc]; simpl;
    [destruct (ok (permission r)) eqn:Ho; simpl;
      [destruct (String.eqb_spec (rule_topic_filter r) t) as [Ht|Ht]|]|];
    naive_solver.
Qed.

Lemma authenticate_password_file_spec self creds :
  authenticate self creds = inl tt ∧
    (∃ u s, cred_username creds = Some u ∧ cred_password creds = Some (as_bytes s) ∧
       utf8 s ∧ credentials self !! u = Some s) ∨
  authenticate self creds = inr InvalidCredentials ∧
    ¬ (∃ u s, cred_username creds = Some u ∧ cred_password creds = Some (as_bytes s) ∧
         utf8 s ∧ credentials self !! u = Some s).
Proof.
  unfold authenticate, password_file_authenticator.
  destruct (cred_username creds) as [u|]; [|right; naive_solver].
  destruct (cred_password creds) as [pw|]; [|right; naive_solver].
  destruct (from_utf8 pw) as [s|] eqn:E; [apply from_utf8_Some in E as [<- Hs]|].
  - destruct (credentials self !! u) as [s'|] eqn:Hu; [|right; naive_solver].
    destruct (String.eqb_spec s' s) as [->|Hne]; [left; naive_solver|].
    right. split; [done|]. intros (u' & s2 & [= <-] & [= Hb%as_bytes_inj] & _ & H2). congruence.
  - right. split; [done|]. intros (u' & s2 & _ & [= ->] & Hs2 & _).
    by rewrite from_utf8_as_bytes in E.
Qed.

(** * Properties *)

(** C38: a password file written one [user:password] line per user is read back:
    authentication then succeeds exactly for a user of the file who gives the
    password of the last line with that user, byte for byte; everything else,
    a missing user name or password included, is [InvalidCredentials]. *)
Theorem password_file_authenticates {FS : FileSystem} path es :
  read_to_string path = inl (unlines (password_line <$> es)) →
  Forall password_entry_ok es →
  ∃ self, password_file_new path = inl self ∧
    ∀ creds,
      authenticate self creds = inl tt ∧
        (∃ u s, cred_username creds = Some u ∧ cred_password creds = Some (as_bytes s) ∧
           utf8 s ∧ (list_to_map (reverse es) : gmap string string) !! u = Some s) ∨
      authenticate self creds = inr InvalidCredentials ∧
        ¬ (∃ u s, cred_username creds = Some u ∧ cred_password creds = Some (as_bytes s) ∧
             utf8 s ∧ (list_to_map (reverse es) : gmap string string) !! u = Some s).
Proof.
  intros Hf Hes. unfold password_file_new. rewrite Hf. eexists; split; [done|].
  intros creds. rewrite lines_of_clean, foldl_passwords; [|done|].
  - rewrite foldl_inserts. apply (authenticate_password_file_spec (mkPasswordFile _) creds).
  - apply Forall_fmap. eapply list.Forall_impl; [exact Hes|]. by intros e [].
Qed.

(** C39: an access-control file written one [client permission topic] line per
    rule is read back: a client may publish to (subscribe to) exactly the
    topics (filters) some rule for that client spells out and allows; anything
    else is [NotAuthorized].  Rules are compared as strings, so a wildcard in a
    rule stands for itself. *)
Theorem acl_file_authorizes {FS : FileSystem} path rs :
  read_to_string path = inl (unlines (acl_line <$> rs)) →
  Forall acl_rule_ok rs →
  ∃ self, acl_file_new path = inl self ∧
    ∀ c t,
      (authorize_publish self c t = inl tt ↔ Exists (grants permits_publish c t) rs) ∧
      (authorize_subscribe self c t = inl tt ↔ Exists (grants permits_subscribe c t) rs) ∧
      (authorize_publish self c t = inl tt ∨ authorize_publish self c t = inr NotAuthorized) ∧
      (authorize_subscribe self c t = inl tt ∨ authorize_subscribe self c t = inr NotAuthorized).
Proof.
  intros Hf Hrs. unfold acl_file_new. rewrite Hf. eexists; split; [done|].
  intros c t. rewrite lines_of_clean, omap_acl; [|done|].
  - cbn [authorize_publish authorize_subscribe acl_file_authorizer rules].
    destruct (find_rule_spec permits_publish c t rs) as [[-> ?]|[-> ?]],
      (find_rule_spec permits_subscribe c t rs) as [[-> ?]|[-> ?]];
      intuition congruence.
  - apply Forall_fmap. eapply list.Forall_impl; [exact Hrs|]. by intros r [].
Qed.

Definition one_file (path contents : string) : FileSystem :=
  λ p, if String.eqb p path then inl contents else inr (OtherIo 2).

Lemma password_file_authenticates_witness :
  let es := [("alice", "secret"); ("bob", "a:b"); ("alice", "new")] in
  ∃ self,
    password_file_new (FS := one_file "passwd" (unlines (password_line <$> es))) "passwd" = inl self ∧
    authenticate self (mkCredentials (Some "alice") (Some (as_bytes "new")) "c") = inl tt ∧
    authenticate self (mkCredentials (Some "alice") (Some (as_bytes "secret")) "c") =
      inr InvalidCredentials.
Proof.
  intros es.
  destruct (password_file_authenticates (FS := one_file "passwd" (unlines (password_line <$> es)))
    "passwd" es) as (self & E & H).
  - vm_compute. reflexivity.
  - repeat constructor; vm_compute; congruence.
  - exists self. split; [exact E|]. vm_compute in E. injection E as <-.
    split; vm_compute; reflexivity.
Defined.

Lemma acl_file_authorizes_witness :
  let rs := [mkRule "dev1" PermPublish "a/+"; mkRule "dev1" PermPublishSubscribe "cmd/1"] in
  ∃ self,
    acl_file_new (FS := one_file "acl.conf" (unlines (acl_line <$> rs))) "acl.conf" = inl self ∧
    authorize_publish self "dev1" "a/b" = inr NotAuthorized ∧
    authorize_subscribe self "dev1" "cmd/1" = inl tt.
Proof.
  intros rs.
  destruct (acl_file_authorizes (FS := one_file "acl.conf" (unlines (acl_line <$> rs)))
    "acl.conf" rs) as (self & E & H).
  - vm_compute. reflexivity.
  - repeat constructor; vm_compute; congruence.
  - exists self. split; [exact E|]. vm_compute in E. injection E as <-.
    split; vm_compute; reflexivity.
Defined.
