(* ===== verification/Router.v ===== *)
(** [Router] of [src/router.rs]: subscriptions, retained messages, and the
    routing of a published message to the mailboxes of the sessions.

    A [Mailbox] is a sender of a bounded channel, so it names one of the
    channels of [mailboxes]; a channel that is not there any more has lost its
    receiver.  The storage and the channels are shared with the sessions, and
    are part of the state here for that reason.  Logging is left out. *)

From S2P Require Import Prelude External Packet Topic Storage.

Definition Mailbox := nat.

Record RouterInternal := mkInternal {
  filters : gmap string (gmap string (Mailbox * QoS));
  sessions : gmap string (gset string);
}.

Definition internal_new : RouterInternal := mkInternal ∅ ∅.

Section RouterState.
Context {MP : Mpsc} {HO : HashOrder} {S : Type} {ST : Storage S}.

Record Router := mkRouter {
  data : RouterInternal;
  storage : S;
  limit : nat;
  mailboxes : gmap Mailbox (channel Packet);
}.

Definition router_new (retained_message_limit : nat) (storage : S) : Router :=
  mkRouter internal_new storage retained_message_limit ∅.

Definition with_data (d : RouterInternal) (r : Router) : Router :=
  mkRouter d (storage r) (limit r) (mailboxes r).
Definition with_storage (s : S) (r : Router) : Router :=
  mkRouter (data r) s (limit r) (mailboxes r).
Definition with_mailboxes (m : gmap Mailbox (channel Packet)) (r : Router) : Router :=
  mkRouter (data r) (storage r) (limit r) m.

Section Operations.
Context {E : Type}.

Definition on_storage {A} (m : M S StorageError A) : M Router E (A + StorageError) :=
  attempt (zoom storage with_storage m).

(** [sender.send(packet).await]: waits for room, fails when the receiver is
    gone. *)
Definition mailbox_send (sender : Mailbox) (p : Packet) : M Router E (() + ()) :=
  ms ← gets mailboxes;
  match ms !! sender with
  | None => mret (inr tt)
  | Some c =>
      if length (queued c) <? capacity c then
        modify (with_mailboxes (<[sender := push p c]> ms));; mret (inl tt)
      else hang
  end.

(** * Subscribing *)

Definition add_retained_packet (retained : PersistedRetainedMessage) (subscription_qos : QoS)
    (retained_to_send : list PublishPacket) : list PublishPacket :=
  let retained_qos := qos_from_stored (pr_qos retained) in
  let effective_qos := min_qos retained_qos subscription_qos in
  retained_to_send ++
    [mkPublish (pr_topic retained) None (pr_payload retained) effective_qos true false].

Definition find_retained_for_filter (filter : string) (subscription_qos : QoS)
    (retained_to_send : list PublishPacket)
    (all_retained : option (list PersistedRetainedMessage)) :
    M Router E (list PublishPacket * option (list PersistedRetainedMessage)) :=
  if has_wildcards filter then
    all_retained ←
      match all_retained with
      | None =>
          r ← on_storage load_all_retained_messages;
          match r with
          | inl msgs => mret (Some msgs)
          | inr _ => mret (Some [])
          end
      | Some _ => mret all_retained
      end;
    match all_retained with
    | Some messages =>
        mret (foldl (λ acc retained,
          if topic_matches (pr_topic retained) filter
          then add_retained_packet retained subscription_qos acc
          else acc) retained_to_send messages, all_retained)
    | None => mret (retained_to_send, all_retained)
    end
  else
    r ← on_storage (load_retained_message filter);
    match r with
    | inl (Some retained) =>
        mret (add_retained_packet retained subscription_qos retained_to_send, all_retained)
    | inl None => mret (retained_to_send, all_retained)
    | inr _ => mret (retained_to_send, all_retained)
    end.

(** The two entries a subscription makes. *)
Definition insert_subscription (session_id : string) (sender : Mailbox)
    (filter : string) (qos : QoS) (d : RouterInternal) : RouterInternal :=
  mkInternal
    (<[filter := <[session_id := (sender, qos)]> (default ∅ (filters d !! filter))]> (filters d))
    (<[session_id := {[filter]} ∪ default ∅ (sessions d !! session_id)]> (sessions d)).

Definition SubscribeVars : Type :=
  list Z * list PublishPacket * option (list PersistedRetainedMessage).

(** One turn of the loop of [subscribe]. *)
Definition subscribe_one (session_id : string) (sender : Mailbox) (vars : SubscribeVars)
    (filter : string * QoS) : M Router E SubscribeVars :=
  let '(return_codes, retained_to_send, all_retained) := vars in
  if negb (validate_subscribe_filter filter.1) then
    mret (return_codes ++ [subscribe_return_codes.FAILURE], retained_to_send, all_retained)
  else
    modify (λ r, with_data (insert_subscription session_id sender filter.1 filter.2 (data r)) r);;
    let granted_qos := Z.min (qos_as_u8 filter.2) MAX_SUPPORTED_QOS in
    found ← find_retained_for_filter filter.1 filter.2 retained_to_send all_retained;
    mret (return_codes ++ [granted_qos], found.1, found.2).

Definition subscribe (session_id : string) (sender : Mailbox)
    (topic_filters : list (string * QoS)) : M Router E (list Z * list PublishPacket) :=
  vars ← fold_each (subscribe_one session_id sender) ([], [], None) topic_filters;
  mret (vars.1.1, vars.1.2).

(** * Unsubscribing *)

Definition remove_subscription (session_id filter : string) (d : RouterInternal) :
    RouterInternal :=
  mkInternal (alter (delete session_id) filter (filters d))
    (alter (λ record, record ∖ {[filter]}) session_id (sessions d)).

Definition unsubscribe (session_id : string) (topic_filters : list string) : M Router E () :=
  for_each topic_filters (λ filter,
    modify (λ r, with_data (remove_subscription session_id filter (data r)) r)).

Definition unsubscribe_all (session_id : string) : M Router E () :=
  d ← gets data;
  match sessions d !! session_id with
  | None => mret tt
  | Some fs =>
      modify (with_data (mkInternal (filters d) (delete session_id (sessions d))));;
      for_each (set_iter fs) (λ filter,
        modify (λ r, with_data (mkInternal (alter (delete session_id) filter (filters (data r)))
                                  (sessions (data r))) r))
  end.

Definition get_subscriptions (session_id : string) : M Router E (list (string * QoS)) :=
  gets (λ r,
    match sessions (data r) !! session_id with
    | None => []
    | Some fs =>
        omap (λ filter,
          match filters (data r) !! filter with
          | None => None
          | Some record =>
              match record !! session_id with
              | None => None
              | Some (_, qos) => Some (filter, qos)
              end
          end) (set_iter fs)
    end).

(** * Routing *)

Definition handle_retained_message (now : DateTime) (packet : PublishPacket) : M Router E () :=
  match payload packet with
  | [] => on_storage (delete_retained_message (topic packet));; mret tt
  | _ =>
      existing ← on_storage (load_retained_message (topic packet));
      count ← on_storage count_retained_messages;
      let count := match count with inl n => n | inr _ => 0 end in
      let is_new := match existing with inl None => true | _ => false end in
      r ← gets limit;
      if is_new && (r <=? count) then mret tt
      else
        let retained := mkPersistedRetained (topic packet) (payload packet)
                          (stored_qos_from_qos (qos packet)) now in
        res ← on_storage (save_retained_message retained);
        match res with
        | inr _ => mret tt
        | inl _ => on_storage count_retained_messages;; mret tt
        end
  end.

(** The copy of a message for one subscriber. *)
Definition forward_packet (packet : PublishPacket) (subscription_qos : QoS) : PublishPacket :=
  mkPublish (topic packet) None (payload packet) (min_qos (qos packet) subscription_qos)
    false false.

Definition route_to_subscribers (packet : PublishPacket) : M Router E () :=
  d ← gets data;
  for_each (map_iter (filters d)) (λ '(filter, subscribers),
    if topic_matches (topic packet) filter then
      for_each (map_iter subscribers) (λ '(session_id, (sender, subscription_qos)),
        mailbox_send sender (Publish (forward_packet packet subscription_qos));;
        mret tt)
    else mret tt).

Definition route (now : DateTime) (packet : PublishPacket) : M Router E () :=
  if negb (validate_publish_topic (topic packet)) then mret tt
  else
    (if retain packet then handle_retained_message now packet else mret tt);;
    route_to_subscribers packet.
End Operations.
End RouterState.
Arguments Router {MP} S.
Arguments mkRouter {MP S} _ _ _ _.
