(* ===== verification/RouterFacts.v ===== *)
(** Properties of the router: its two hash maps are one table of
    subscriptions, and what subscribing, unsubscribing, routing and the
    retained messages do in terms of that table. *)

From S2P Require Import Prelude External Packet Topic Storage MemoryStorage Router.

(** * The table of subscriptions *)

(** Who is subscribed to what: client session and filter to mailbox and level. *)
Abbreviation Table := (gmap (string * string) (Mailbox * QoS)).

Definition sub (d : RouterInternal) (sid f : string) : option (Mailbox * QoS) :=
  filters d !! f ≫= (.!! sid).

(** The two maps of the router hold the same subscriptions, those of [t], and
    only under filters the validation lets through. *)
Record rep (t : Table) (d : RouterInternal) : Prop := {
  rep_sub sid f : t !! (sid, f) = sub d sid f;
  rep_sessions sid f : f ∈ default ∅ (sessions d !! sid) ↔ is_Some (sub d sid f);
  rep_valid sid f : is_Some (sub d sid f) → validate_subscribe_filter f = true;
}.

(** Each operation on the table. *)
Definition table_subscribe (sid : string) (mb : Mailbox) (t : Table) (fq : string * QoS) : Table :=
  if validate_subscribe_filter fq.1 then <[(sid, fq.1) := (mb, fq.2)]> t else t.

Definition table_unsubscribe (sid : string) (t : Table) (f : string) : Table :=
  delete (sid, f) t.

Definition table_unsubscribe_all (sid : string) (t : Table) : Table :=
  filter (λ kv, kv.1.1 ≠ sid) t.

Lemma rep_new : rep ∅ internal_new.
Proof.
  split; unfold sub, internal_new; simpl; intros sid f; rewrite ?lookup_empty; simpl.
  - done.
  - split; [set_solver|by intros []].
  - by intros [].
Qed.

(** * Single updates *)

Lemma sub_insert sid mb f q d sid' f' :
  sub (insert_subscription sid mb f q d) sid' f' =
  if decide (sid' = sid ∧ f' = f) then Some (mb, q) else sub d sid' f'.
Proof.
  unfold sub, insert_subscription; simpl. destruct (decide (f' = f)) as [->|Hf].
  - rewrite lookup_insert_eq; simpl. destruct (decide (sid' = sid)) as [->|Hs].
    + by rewrite lookup_insert_eq, decide_True.
    + rewrite lookup_insert_ne, decide_False by naive_solver.
      destruct (filters d !! f); simpl; [done|apply lookup_empty].
  - by rewrite lookup_insert_ne, decide_False by naive_solver.
Qed.

Lemma sub_remove sid f d sid' f' :
  sub (remove_subscription sid f d) sid' f' =
  if decide (sid' = sid ∧ f' = f) then None else sub d sid' f'.
Proof.
  unfold sub, remove_subscription; simpl. destruct (decide (f' = f)) as [->|Hf].
  - rewrite lookup_alter_eq. destruct (filters d !! f) as [m|]; simpl.
    + destruct (decide (sid' = sid)) as [->|Hs].
      * by rewrite lookup_delete_eq, decide_True.
      * by rewrite lookup_delete_ne, decide_False by naive_solver.
    + by case_decide.
  - by rewrite lookup_alter_ne, decide_False by naive_solver.
Qed.

Lemma rep_insert t d sid mb f q :
  validate_subscribe_filter f = true → rep t d →
  rep (<[(sid, f) := (mb, q)]> t) (insert_subscription sid mb f q d).
Proof.
  intros Hv [H1 H2 H3]. split.
  - intros sid' f'. rewrite sub_insert. case_decide as Hd.
    + destruct Hd as [-> ->]. apply lookup_insert_eq.
    + rewrite lookup_insert_ne by naive_solver. apply H1.
  - intros sid' f'. rewrite sub_insert. unfold insert_subscription; cbn [sessions].
    destruct (decide (sid' = sid)) as [->|Hs].
    + rewrite lookup_insert_eq. simpl. rewrite elem_of_union, elem_of_singleton, H2.
      case_decide; naive_solver.
    + rewrite lookup_insert_ne, decide_False by naive_solver. apply H2.
  - intros sid' f'. rewrite sub_insert. case_decide; naive_solver.
Qed.

Lemma rep_remove t d sid f :
  rep t d → rep (table_unsubscribe sid t f) (remove_subscription sid f d).
Proof.
  unfold table_unsubscribe. intros [H1 H2 H3]. split.
  - intros sid' f'. rewrite sub_remove. case_decide as Hd.
    + destruct Hd as [-> ->]. apply lookup_delete_eq.
    + rewrite lookup_delete_ne by naive_solver. apply H1.
  - intros sid' f'. rewrite sub_remove. unfold remove_subscription; cbn [sessions].
    specialize (H2 sid' f'). destruct (decide (sid' = sid)) as [->|Hs].
    + rewrite lookup_alter_eq. destruct (sessions d !! sid) as [X|]; simpl in *.
      * rewrite elem_of_difference, elem_of_singleton, H2. case_decide; naive_solver.
      * case_decide; [|done]. split; [set_solver|by intros []].
    + rewrite lookup_alter_ne, decide_False by naive_solver. done.
  - intros sid' f'. rewrite sub_remove. case_decide; [by intros []|apply H3].
Qed.

(** * Calls on the storage *)

Section Facts.
Context {MP : Mpsc} {MPL : MpscLaws} {HO : HashOrder} {HOL : HashOrderLaws}.
Context {S : Type} {ST : Storage S} {SL : StorageLaws S}.

Implicit Types (r : Router S) (t : Table) (sid f : string).

Definition stored r : StoredData := storage_abs (storage r).
Definition retained r : gmap string PersistedRetainedMessage := retained_by_topic (stored r).

Lemma with_storage_id r : with_storage (storage r) r = r.
Proof. by destruct r. Qed.

(** A call on the storage comes back, having changed nothing but the storage. *)
Lemma on_storage_spec {E A} (m : M S StorageError A) R r :
  storage_call storage_inv storage_abs m R → storage_inv (storage r) →
  ∃ s' res, on_storage (E := E) m r = (with_storage s' r, Ok res) ∧ storage_inv s' ∧
    match res with
    | inl a => R (stored r) (storage_abs s') a
    | inr _ => storage_abs s' = stored r
    end.
Proof.
  intros H Hs. unfold on_storage, attempt, zoom, stored.
  destruct (storage_call_cases m R (storage r) H Hs) as [(s' & a & -> & Hi & Ha)|(s' & e & -> & Hi & Ha)];
    eexists _, _; split; [done|by split|done|by split].
Qed.

Lemma on_storage_Ok {E A} (m : M S StorageError A) R r :
  storage_call storage_inv storage_abs m R → storage_inv (storage r) →
  is_Ok (m (storage r)).2 →
  ∃ s' a, on_storage (E := E) m r = (with_storage s' r, Ok (inl a)) ∧ storage_inv s' ∧
    R (stored r) (storage_abs s') a.
Proof.
  intros H Hs Ho. unfold on_storage, attempt, zoom, stored.
  destruct (storage_call_Ok m R (storage r) H Hs Ho) as (s' & a & -> & Hi & Ha).
  eexists _, _. by split.
Qed.

(** * Subscribing *)

(** Looking for retained messages comes back whatever the storage does, and
    leaves what is stored alone. *)
Lemma find_retained_returns {E} f q acc all r :
  storage_inv (storage r) →
  ∃ s' x, find_retained_for_filter (E := E) f q acc all r = (with_storage s' r, Ok x) ∧
    storage_inv s' ∧ storage_abs s' = stored r.
Proof.
  intros Hs. unfold find_retained_for_filter. destruct (has_wildcards f).
  - destruct all as [l|].
    { exists (storage r). eexists. rewrite with_storage_id. by split. }
    destruct (on_storage_spec (E := E) _ _ r load_all_retained_messages_spec Hs)
      as (s' & res & E1 & Hi & Ha).
    exists s'. destruct res as [msgs|e]; eexists;
      erewrite bind_Ok by (erewrite bind_Ok by exact E1; done); (split; [done|]); split; try done.
    by destruct Ha as [-> _].
  - destruct (on_storage_spec (E := E) _ _ r (load_retained_message_spec f) Hs)
      as (s' & res & E1 & Hi & Ha).
    exists s'. destruct res as [[m|]|e]; eexists; rewrite (bind_Ok _ _ _ _ _ E1);
      (split; [done|]); split; try done; by destruct Ha as [-> _].
Qed.

Definition granted (fq : string * QoS) : Z :=
  if validate_subscribe_filter fq.1 then qos_as_u8 fq.2 else subscribe_return_codes.FAILURE.

Lemma subscribe_one_spec {E} sid mb vars fq r t :
  storage_inv (storage r) → rep t (data r) →
  ∃ r' vars', subscribe_one (E := E) sid mb vars fq r = (r', Ok vars') ∧
    storage_inv (storage r') ∧ stored r' = stored r ∧
    rep (table_subscribe sid mb t fq) (data r') ∧
    limit r' = limit r ∧ mailboxes r' = mailboxes r ∧
    vars'.1.1 = vars.1.1 ++ [granted fq].
Proof.
  intros Hs Ht. unfold subscribe_one, table_subscribe, granted.
  destruct vars as [[codes acc] all]. destruct (validate_subscribe_filter fq.1) eqn:Hv; simpl.
  - rewrite bind_modify.
    set (r1 := with_data _ r).
    destruct (find_retained_returns (E := E) fq.1 fq.2 acc all r1) as (s' & x & E1 & Hi & Ha);
      [done|].
    rewrite (bind_Ok _ _ _ _ _ E1). eexists _, _. split; [done|].
    split_and!; try done; [by apply rep_insert|]. simpl.
    pose proof (qos_as_u8_range fq.2). by rewrite Z.min_l by (unfold MAX_SUPPORTED_QOS; lia).
  - exists r. eexists. split; [done|]. by split_and!.
Qed.

(** Subscribing makes the table entries, one filter after the other, and grants
    every valid filter the level it asks for. *)
Lemma subscribe_spec {E} sid mb fs r t :
  storage_inv (storage r) → rep t (data r) →
  ∃ r' pkts, subscribe (E := E) sid mb fs r = (r', Ok (granted <$> fs, pkts)) ∧
    storage_inv (storage r') ∧ stored r' = stored r ∧
    rep (foldl (table_subscribe sid mb) t fs) (data r') ∧
    limit r' = limit r ∧ mailboxes r' = mailboxes r.
Proof.
  intros Hs Ht. unfold subscribe.
  assert (Hloop : ∀ fs vars r t, storage_inv (storage r) → rep t (data r) →
    ∃ r' vars', fold_each (subscribe_one (E := E) sid mb) vars fs r = (r', Ok vars') ∧
      storage_inv (storage r') ∧ stored r' = stored r ∧
      rep (foldl (table_subscribe sid mb) t fs) (data r') ∧
      limit r' = limit r ∧ mailboxes r' = mailboxes r ∧
      vars'.1.1 = vars.1.1 ++ (granted <$> fs)).
  { clear. intros fs. induction fs as [|fq fs IH]; intros vars r t Hs Ht.
    { exists r, vars. split; [done|]. rewrite app_nil_r. by split_and!. }
    destruct (subscribe_one_spec (E := E) sid mb vars fq r t Hs Ht)
      as (r1 & v1 & E1 & H1 & H2 & H3 & H4 & H5 & H6).
    destruct (IH v1 r1 _ H1 H3) as (r2 & v2 & E2 & G1 & G2 & G3 & G4 & G5 & G6).
    exists r2, v2. cbn [fold_each]. rewrite (bind_Ok _ _ _ _ _ E1). split; [done|].
    split_and!; try done; try congruence.
    rewrite G6, H6, <- app_assoc. done. }
  destruct (Hloop fs ([], [], None) r t Hs Ht) as (r' & v & E1 & H1 & H2 & H3 & H4 & H5 & H6).
  exists r', v.1.2. rewrite (bind_Ok _ _ _ _ _ E1). unfold mret, M_ret. rewrite H6. done.
Qed.

(** * Unsubscribing *)

Lemma unsubscribe_spec {E} sid fs r t :
  rep t (data r) →
  ∃ d', unsubscribe (E := E) sid fs r = (with_data d' r, Ok tt) ∧
    rep (foldl (table_unsubscribe sid) t fs) d'.
Proof.
  unfold unsubscribe. revert r t. induction fs as [|f fs IH]; intros r t Ht.
  { exists (data r). split; [by destruct r|done]. }
  cbn [for_each]. rewrite bind_modify.
  destruct (IH (with_data (remove_subscription sid f (data r)) r) (table_unsubscribe sid t f))
    as (d' & E1 & H1); [by apply rep_remove|].
  exists d'. by rewrite E1.
Qed.

(** Removing a session from the entries of a list of filters. *)
Definition drop_entries (sid : string) (fs : list string) (d : RouterInternal) : RouterInternal :=
  mkInternal (foldl (λ m f, alter (delete sid) f m) (filters d) fs) (sessions d).

Lemma drop_entries_loop {E} sid fs r :
  for_each (E := E) fs (λ f,
    modify (λ r, with_data (mkInternal (alter (delete sid) f (filters (data r)))
                              (sessions (data r))) r)) r =
  (with_data (drop_entries sid fs (data r)) r, Ok tt).
Proof.
  revert r. induction fs as [|f fs IH]; intros r; [by destruct r as [[]]|].
  cbn [for_each]. by rewrite bind_modify, IH.
Qed.

Lemma sub_drop_entries sid fs d sid' f' :
  sub (drop_entries sid fs d) sid' f' =
  if decide (sid' = sid ∧ f' ∈ fs) then None else sub d sid' f'.
Proof.
  unfold drop_entries. destruct d as [m ss]. cbn [filters sessions].
  revert m. induction fs as [|f fs IH]; intros m; cbn [foldl].
  { rewrite decide_False; [done|]. intros [_ H]. by apply elem_of_nil in H. }
  rewrite IH. pose proof (sub_remove sid f (mkInternal m ss) sid' f') as Hr.
  change (sub (mkInternal (alter (delete sid) f m) ss) sid' f') with
    (sub (remove_subscription sid f (mkInternal m ss)) sid' f'). rewrite Hr.
  repeat case_decide; try done; rewrite ?elem_of_cons in *; naive_solver.
Qed.

Lemma unsubscribe_all_spec {E} sid r t :
  rep t (data r) →
  ∃ d', unsubscribe_all (E := E) sid r = (with_data d' r, Ok tt) ∧
    rep (table_unsubscribe_all sid t) d' ∧ sessions d' = delete sid (sessions (data r)).
Proof.
  intros [H1 H2 H3]. unfold unsubscribe_all, table_unsubscribe_all. rewrite bind_gets.
  set (d0 := match sessions (data r) !! sid with
             | Some fs => drop_entries sid (set_iter fs)
                 (mkInternal (filters (data r)) (delete sid (sessions (data r))))
             | None => data r end).
  assert (Hsub : ∀ sid' f', sub d0 sid' f' = if decide (sid' = sid) then None else sub (data r) sid' f').
  { intros sid' f'. specialize (H2 sid' f'). unfold d0.
    destruct (sessions (data r) !! sid) as [X|] eqn:HX.
    - rewrite sub_drop_entries. change (sub (mkInternal (filters ?d) _)) with (sub d).
      repeat case_decide; rewrite ?elem_of_set_iter in *; try naive_solver.
      destruct (sub (data r) sid' f') eqn:Hs; [|done]. exfalso. subst. rewrite HX in H2.
      simpl in H2. naive_solver.
    - case_decide; [|done]. subst. rewrite HX in H2. simpl in H2.
      apply eq_None_not_Some. intros Hs. apply H2 in Hs. set_solver. }
  assert (Hss : sessions d0 = delete sid (sessions (data r))).
  { unfold d0. destruct (sessions (data r) !! sid) eqn:HX; [done|]. by rewrite delete_id. }
  exists d0. split; [|split; [split|done]].
  - unfold d0. destruct (sessions (data r) !! sid) as [X|]; [|by destruct r].
    by rewrite bind_modify, drop_entries_loop.
  - intros sid' f'. rewrite Hsub, <- H1. case_decide as Hd.
    + apply map_lookup_filter_None. right. intros x _. naive_solver.
    + destruct (t !! (sid', f')) eqn:Ht.
      * by apply map_lookup_filter_Some.
      * apply map_lookup_filter_None. by left.
  - intros sid' f'. rewrite Hss, Hsub. case_decide as Hd.
    + subst. rewrite lookup_delete_eq. split; [set_solver|by intros []].
    + by rewrite lookup_delete_ne by done.
  - intros sid' f'. rewrite Hsub. case_decide; [by intros []|apply H3].
Qed.

Lemma get_subscriptions_spec {E} sid r t :
  rep t (data r) →
  ∃ l, get_subscriptions (E := E) sid r = (r, Ok l) ∧ NoDup l.*1 ∧
    ∀ f q, (f, q) ∈ l ↔ ∃ mb, t !! (sid, f) = Some (mb, q).
Proof.
  intros [H1 H2 _]. unfold get_subscriptions, gets. eexists. split; [done|].
  specialize (H2 sid). destruct (sessions (data r) !! sid) as [X|]; simpl in H2.
  - split.
    + set (g := λ f, _). assert (Hg : ∀ l, NoDup l → NoDup (omap g l).*1 ∧ ∀ f, f ∈ (omap g l).*1 → f ∈ l).
      { induction 1 as [|f l Hf _ [IH1 IH2]]; [split; [constructor|done]|].
        cbn. destruct (g f) as [[f' q]|] eqn:Hgf; cbn.
        - assert (f' = f) as ->.
          { unfold g in Hgf. destruct (filters (data r) !! f); [|done].
            destruct (g0 !! sid) as [[]|]; naive_solver. }
          split; [|set_solver]. constructor; [|done]. intros Hf'. apply Hf, IH2, Hf'.
        - split; [done|set_solver]. }
      apply Hg, NoDup_set_iter.
    + intros f q. rewrite list_elem_of_omap. setoid_rewrite elem_of_set_iter. split.
      * intros (f' & Hf' & Hl). specialize (H1 sid f'). unfold sub in H1.
        destruct (filters (data r) !! f') as [m|]; [|done]. simpl in H1.
        destruct (m !! sid) as [[mb q']|]; simplify_eq. eauto.
      * intros (mb & Ht). rewrite H1 in Ht. exists f. split; [apply H2; by rewrite Ht|].
        unfold sub in Ht. destruct (filters (data r) !! f) as [m|]; [|done]. simpl in Ht.
        by rewrite Ht.
  - split; [constructor|]. intros f q. split; [by intros ?%elem_of_nil|].
    intros (mb & Ht). rewrite H1 in Ht. exfalso. apply (not_elem_of_empty (C := gset string) f).
    apply H2. by rewrite Ht.
Qed.

(** * Routing *)

(** Every subscription with its mailbox and level, in the order of the loops. *)
Definition rows (d : RouterInternal) : list (string * string * (Mailbox * QoS)) :=
  map_iter (filters d) ≫= λ '(f, subscribers),
    (λ '(sid, x), ((sid, f), x)) <$> map_iter subscribers.

(** The lower of two levels, and the copy of a message a subscription gets. *)
Definition lower (a b : QoS) : QoS := if (qos_as_u8 a <=? qos_as_u8 b)%Z then a else b.

Definition copy_for (p : PublishPacket) (q : QoS) : PublishPacket :=
  mkPublish (topic p) None (payload p) (lower (qos p) q) false false.

Lemma min_qos_lower a b : min_qos a b = lower a b.
Proof. by destruct a, b. Qed.

Lemma forward_packet_copy p q : forward_packet p q = copy_for p q.
Proof. unfold forward_packet, copy_for. by rewrite min_qos_lower. Qed.

(** The copies of a message and where they go. *)
Definition deliveries (p : PublishPacket) (l : list (string * string * (Mailbox * QoS))) :
    list (Mailbox * PublishPacket) :=
  omap (λ '((sid, f), (mb, q)),
    if topic_matches (topic p) f then Some (mb, copy_for p q) else None) l.

Definition send_to {E} (x : Mailbox * PublishPacket) : M (Router S) E () :=
  mailbox_send x.1 (Publish x.2);; mret tt.

Lemma rows_table t d : rep t d → rows d ≡ₚ map_to_list t.
Proof.
  intros [H1 _ _]. apply NoDup_Permutation; [|apply NoDup_map_to_list|].
  - apply NoDup_bind.
    + intros [f1 m1] [f2 m2] [[sid f] x] H H' Hx Hx'. apply elem_of_map_iter in H, H'.
      apply list_elem_of_fmap in Hx as ([sid1 x1] & E1 & _), Hx' as ([sid2 x2] & E2 & _).
      simplify_eq. congruence.
    + intros [f m] _. apply NoDup_fmap_2; [|].
      * intros [s1 x1] [s2 x2]. by intros [= -> ->].
      * apply (NoDup_fmap_1 fst), NoDup_fst_map_iter.
    + apply (NoDup_fmap_1 fst), NoDup_fst_map_iter.
  - intros [[sid f] x]. rewrite elem_of_map_to_list, H1. unfold rows, sub.
    rewrite list_elem_of_bind, bind_Some. split.
    + intros ([f' m] & Hx & Hm%elem_of_map_iter).
      apply list_elem_of_fmap in Hx as ([sid' x'] & [= -> -> ->] & Hx%elem_of_map_iter). eauto.
    + intros (m & Hm & Hx). exists (f, m). rewrite elem_of_map_iter. split; [|done].
      apply list_elem_of_fmap. exists (sid, x). by rewrite elem_of_map_iter.
Qed.

Lemma deliveries_bind {A} p (g : A → list (string * string * (Mailbox * QoS))) l :
  deliveries p (l ≫= g) = mjoin ((λ x, deliveries p (g x)) <$> l).
Proof.
  induction l as [|x l IH]; [done|].
  etransitivity; [apply omap_app|]. exact (f_equal (app _) IH).
Qed.

(** The nested loops of [route] are one loop over the copies. *)
Lemma route_deliveries {E} p r :
  route_to_subscribers (E := E) p r = for_each (deliveries p (rows (data r))) send_to r.
Proof.
  unfold route_to_subscribers, rows. rewrite bind_gets.
  rewrite (for_each_ext _ (λ x, for_each
    (deliveries p ((λ '(sid, y), ((sid, x.1), y)) <$> map_iter x.2)) send_to)).
  - rewrite for_each_bind, deliveries_bind. f_equal. f_equal.
    apply list_fmap_ext. by intros _ [f m] _.
  - clear. intros [f m] r. cbn [fst snd]. induction (map_iter m) as [|[sid [mb q]] l IH] in r |- *.
    { by case_match. }
    cbn. destruct (topic_matches (topic p) f); [|apply IH].
    cbn [for_each]. rewrite forward_packet_copy.
    unfold mbind, M_bind in *. unfold send_to at 1. unfold mbind, M_bind. cbn [fst snd].
    destruct (mailbox_send mb _ r) as [r1 [x| | |]]; [|done..]. apply IH.
Qed.

Definition for_mailbox (mb : Mailbox) (l : list (Mailbox * PublishPacket)) : list Packet :=
  Publish <$> (filter (λ x, x.1 = mb) l).*2.

(** Every channel has room for the copies that go there. *)
Definition room_for (l : list (Mailbox * PublishPacket)) r : Prop :=
  ∀ mb c, mailboxes r !! mb = Some c → for_mailbox mb l ≠ [] →
  length (queued c) + length (for_mailbox mb l) ≤ capacity c.

(** What the channels hold once the copies have been sent: a channel that has
    lost its receiver gets nothing. *)
Definition sent_to (l : list (Mailbox * PublishPacket))
    (ms ms' : gmap Mailbox (channel Packet)) : Prop :=
  ∀ mb, match ms !! mb with
        | Some c => ∃ c', ms' !! mb = Some c' ∧ capacity c' = capacity c ∧
                      queued c' = queued c ++ for_mailbox mb l
        | None => ms' !! mb = None
        end.

Lemma for_mailbox_cons mb mb' pk l :
  for_mailbox mb ((mb', pk) :: l) =
  (if decide (mb' = mb) then [Publish pk] else []) ++ for_mailbox mb l.
Proof. unfold for_mailbox. rewrite filter_cons. simpl. by case_decide. Qed.

Lemma mailbox_send_cases {E} mb pk r :
  (mailboxes r !! mb = None ∧ mailbox_send (E := E) mb pk r = (r, Ok (inr tt))) ∨
  (∃ c, mailboxes r !! mb = Some c ∧ length (queued c) < capacity c ∧
     mailbox_send (E := E) mb pk r =
       (with_mailboxes (<[mb := push pk c]> (mailboxes r)) r, Ok (inl tt))) ∨
  (∃ c, mailboxes r !! mb = Some c ∧ capacity c ≤ length (queued c) ∧
     mailbox_send (E := E) mb pk r = (r, Pending)).
Proof.
  unfold mailbox_send. rewrite bind_gets. destruct (mailboxes r !! mb) as [c|]; [|by left].
  right. destruct (Nat.ltb_spec (length (queued c)) (capacity c)); [left|right]; by exists c.
Qed.

Lemma room_for_push mb pk c l r :
  mailboxes r !! mb = Some c → length (queued c) < capacity c →
  room_for l (with_mailboxes (<[mb := push (Publish pk) c]> (mailboxes r)) r) ↔
  room_for ((mb, pk) :: l) r.
Proof.
  intros Hm Hc. unfold room_for. cbn [mailboxes with_mailboxes].
  split; intros H mb' c' Hm'; destruct (decide (mb = mb')) as [<-|Hne].
  - rewrite for_mailbox_cons, decide_True by done. simplify_eq. intros _.
    specialize (H mb (push (Publish pk) c)). rewrite lookup_insert_eq in H.
    rewrite queued_push, capacity_push, length_app in H. simpl in *.
    destruct (for_mailbox mb l) as [|x k] eqn:Hl; simpl in *; [lia|].
    specialize (H eq_refl ltac:(done)). lia.
  - rewrite for_mailbox_cons, decide_False by done. apply H. by rewrite lookup_insert_ne.
  - rewrite lookup_insert_eq in Hm'. simplify_eq. intros _.
    specialize (H mb c Hm). rewrite for_mailbox_cons, decide_True in H by done. simpl in H.
    specialize (H ltac:(done)). rewrite queued_push, capacity_push, length_app. simpl. lia.
  - rewrite lookup_insert_ne in Hm' by done. specialize (H mb' c' Hm').
    by rewrite for_mailbox_cons, decide_False in H by done.
Qed.

Lemma sent_to_push mb pk c l ms ms' :
  ms !! mb = Some c → sent_to l (<[mb := push (Publish pk) c]> ms) ms' →
  sent_to ((mb, pk) :: l) ms ms'.
Proof.
  intros Hm H mb'. specialize (H mb'). destruct (decide (mb = mb')) as [<-|Hne].
  - rewrite lookup_insert_eq in H. rewrite Hm. destruct H as (c' & H1 & H2 & H3).
    exists c'. split; [done|]. rewrite H2, H3, capacity_push, queued_push.
    by rewrite for_mailbox_cons, decide_True, <- app_assoc by done.
  - rewrite lookup_insert_ne in H by done. destruct (ms !! mb') as [c'|]; [|done].
    by rewrite for_mailbox_cons, decide_False by done.
Qed.

(** Sending a list of copies: all of them when there is room, and otherwise
    the loop is left waiting. *)
Lemma send_all_cases {E} l r :
  (room_for l r ∧ ∃ ms', for_each (E := E) l send_to r = (with_mailboxes ms' r, Ok tt) ∧
     sent_to l (mailboxes r) ms') ∨
  (¬ room_for l r ∧ ∃ ms', for_each (E := E) l send_to r = (with_mailboxes ms' r, Pending)).
Proof.
  revert r. induction l as [|[mb pk] l IH]; intros r.
  { left. split; [by intros ? ? ? []|]. exists (mailboxes r). split; [by destruct r|]. intros mb.
    destruct (mailboxes r !! mb) as [c|]; [|done]. exists c. by rewrite app_nil_r. }
  cbn [for_each].
  destruct (mailbox_send_cases (E := E) mb (Publish pk) r)
    as [[Hm E1]|[(c & Hm & Hc & E1)|(c & Hm & Hc & E1)]].
  - rewrite !(bind_Ok _ _ _ _ _ (bind_Ok _ _ _ _ _ E1 : send_to (E := E) (mb, pk) r = (r, Ok tt))).
    destruct (IH r) as [[Hr (ms' & E2 & H2)]|[Hr (ms' & E2)]]; rewrite E2; [left|right].
    + split; [|exists ms'; split; [done|]].
      * intros mb' c' Hm'. rewrite for_mailbox_cons, decide_False by congruence. by apply Hr.
      * intros mb'. specialize (H2 mb'). destruct (mailboxes r !! mb') eqn:Hm'; [|done].
        rewrite for_mailbox_cons, decide_False by congruence. done.
    + split; [|by exists ms']. intros H. apply Hr. intros mb' c' Hm'.
      specialize (H mb' c' Hm'). rewrite for_mailbox_cons, decide_False in H by congruence. done.
  - rewrite !(bind_Ok _ _ _ _ _ (bind_Ok _ _ _ _ _ E1 : send_to (E := E) (mb, pk) r = (_, Ok tt))).
    assert (Hroom : room_for l (with_mailboxes (<[mb := push (Publish pk) c]> (mailboxes r)) r) ↔
      room_for ((mb, pk) :: l) r) by (by apply room_for_push).
    destruct (IH (with_mailboxes (<[mb := push (Publish pk) c]> (mailboxes r)) r))
      as [[Hr (ms' & E2 & H2)]|[Hr (ms' & E2)]]; rewrite E2; [left|right].
    + split; [by apply Hroom|]. exists ms'. split; [done|]. by eapply sent_to_push.
    + split; [by rewrite <- Hroom|by exists ms'].
  - right. rewrite !(bind_Pending _ _ _ _ (bind_Pending _ _ _ _ E1 : send_to (E := E) (mb, pk) r = (r, Pending))).
    split; [|exists (mailboxes r); by destruct r]. intros H. specialize (H mb c Hm).
    rewrite for_mailbox_cons, decide_True in H by done. simpl in H.
    specialize (H ltac:(done)). lia.
Qed.

(** * Retained messages *)

Definition retained_record (now : DateTime) (p : PublishPacket) : PersistedRetainedMessage :=
  mkPersistedRetained (topic p) (payload p) (stored_qos_from_qos (qos p)) now.

(** What a message with the retain flag does to the retained messages. *)
Definition retained_after (lim : nat) (now : DateTime) (p : PublishPacket)
    (m : gmap string PersistedRetainedMessage) : gmap string PersistedRetainedMessage :=
  match payload p with
  | [] => delete (topic p) m
  | _ =>
      if decide (m !! topic p = None ∧ lim ≤ size m) then m
      else <[topic p := retained_record now p]> m
  end.

Lemma retained_after_size lim now p m :
  size m ≤ lim → size (retained_after lim now p m) ≤ lim.
Proof.
  unfold retained_after. intros Hm. destruct (payload p).
  - rewrite map_size_delete. destruct (m !! topic p); simpl; lia.
  - case_decide as Hd; [done|]. rewrite map_size_insert.
    destruct (m !! topic p) eqn:E; simpl; [done|].
    assert (¬ lim ≤ size m) by tauto. lia.
Qed.

Lemma on_storage_with {E A} (m : M S StorageError A) s r :
  on_storage (E := E) m (with_storage s r) =
  (with_storage (m s).1 r,
   match (m s).2 with
   | Ok a => Ok (inl a) | Err e => Ok (inr e) | Panic => Panic | Pending => Pending
   end).
Proof. unfold on_storage, attempt, zoom. simpl. by destruct (m s) as [? []]. Qed.

(** A call that keeps the saved sessions, whether it fails or not. *)
Lemma on_storage_kept {E A} (m : M S StorageError A) R r :
  storage_call storage_inv storage_abs m R → (∀ d d' a, R d d' a → kept d' = kept d) →
  storage_inv (storage r) →
  ∃ s' res, on_storage (E := E) m r = (with_storage s' r, Ok res) ∧ storage_inv s' ∧
    kept (storage_abs s') = kept (stored r).
Proof.
  intros H HR Hs. destruct (on_storage_spec (E := E) m R r H Hs) as (s' & res & E1 & Hi & Ha).
  exists s', res. split_and!; [done..|]. destruct res; [by eapply HR|by rewrite Ha].
Qed.

(** Whatever the storage does, handling a retained message comes back having
    changed nothing but the storage, and no saved session. *)
Lemma handle_retained_returns {E} now p r :
  storage_inv (storage r) →
  ∃ s', handle_retained_message (E := E) now p r = (with_storage s' r, Ok tt) ∧ storage_inv s' ∧
    kept (storage_abs s') = kept (stored r).
Proof.
  intros Hs. unfold handle_retained_message. destruct (payload p) as [|b bs] eqn:Hp.
  - destruct (on_storage_kept (E := E) _ _ r (delete_retained_message_spec (topic p)))
      as (s1 & r1 & E1 & H1 & K1); [by intros ??? ->|done|].
    exists s1. by rewrite (bind_Ok _ _ _ _ _ E1).
  - destruct (on_storage_kept (E := E) _ _ r (load_retained_message_spec (topic p)))
      as (s1 & ex & E1 & H1 & K1); [by intros ??? [-> _]|done|].
    rewrite (bind_Ok _ _ _ _ _ E1). cbv zeta.
    destruct (on_storage_kept (E := E) _ _ (with_storage s1 r) count_retained_messages_spec)
      as (s2 & n & E2 & H2 & K2); [by intros ??? [-> _]|done|].
    rewrite (bind_Ok _ _ _ _ _ E2), bind_gets.
    change (stored (with_storage s1 r)) with (storage_abs s1) in K2. rewrite K1 in K2.
    destruct (_ && _); [by exists s2|]. set (rec := mkPersistedRetained _ _ _ _).
    destruct (on_storage_kept (E := E) _ _ (with_storage s2 r) (save_retained_message_spec rec))
      as (s3 & o & E3 & H3 & K3); [by intros ??? ->|done|].
    change (stored (with_storage s2 r)) with (storage_abs s2) in K3. rewrite K2 in K3.
    rewrite (bind_Ok _ _ _ _ _ E3). destruct o; [|by exists s3].
    destruct (on_storage_kept (E := E) _ _ (with_storage s3 r) count_retained_messages_spec)
      as (s4 & k & E4 & H4 & K4); [by intros ??? [-> _]|done|].
    change (stored (with_storage s3 r)) with (storage_abs s3) in K4. rewrite K3 in K4.
    rewrite (bind_Ok _ _ _ _ _ E4). by exists s4.
Qed.

Lemma handle_retained_spec {SR : StorageReliable S} {E} now p r :
  storage_inv (storage r) → storage_counts (size (retained_by_topic (stored r))) →
  ∃ s', handle_retained_message (E := E) now p r = (with_storage s' r, Ok tt) ∧ storage_inv s' ∧
    storage_abs s' = set_retained (retained_after (limit r) now p) (stored r).
Proof.
  intros Hs Hc. unfold handle_retained_message, retained_after, set_retained.
  destruct (payload p) as [|b bs] eqn:Hp.
  - destruct (on_storage_Ok (E := E) _ _ r (delete_retained_message_spec (topic p)) Hs)
      as (s1 & [] & E1 & H1 & A1); [by apply delete_retained_message_Ok|].
    exists s1. by rewrite (bind_Ok _ _ _ _ _ E1).
  - destruct (on_storage_Ok (E := E) _ _ r (load_retained_message_spec (topic p)) Hs)
      as (s1 & ex & E1 & H1 & A1 & ->); [by apply load_retained_message_Ok|].
    rewrite (bind_Ok _ _ _ _ _ E1). cbv zeta.
    destruct (on_storage_Ok (E := E) _ _ (with_storage s1 r) count_retained_messages_spec H1)
      as (s2 & n & E2 & H2 & A2 & ->); [apply count_retained_messages_Ok; [done|]; cbn [storage with_storage]; by rewrite A1|].
    rewrite (bind_Ok _ _ _ _ _ E2), bind_gets.
    change (stored (with_storage s1 r)) with (storage_abs s1) in *. rewrite A1 in *.
    cbn [with_storage limit].
    assert (Hnew : (match (inl (retained_by_topic (stored r) !! topic p) : _ + StorageError) with
                    | inl None => true | _ => false end && (limit r <=? size (retained_by_topic (stored r)))) =
                   bool_decide (retained_by_topic (stored r) !! topic p = None ∧
                                limit r ≤ size (retained_by_topic (stored r)))).
    { rewrite bool_decide_and. f_equal; [by destruct (retained_by_topic (stored r) !! topic p)|].
      by apply eq_bool_prop_intro; rewrite bool_decide_spec, Is_true_true, Nat.leb_le. }
    rewrite Hnew. clear Hnew. destruct (decide _) as [Hd|Hd].
    { rewrite bool_decide_true by done. exists s2. split; [done|]. split; [done|].
      rewrite A2. by destruct (stored r). }
    rewrite bool_decide_false by done. rewrite <- Hp. fold (retained_record now p).
    destruct (on_storage_Ok (E := E) _ _ (with_storage s2 r)
      (save_retained_message_spec (retained_record now p)) H2)
      as (s3 & [] & E3 & H3 & A3); [by apply save_retained_message_Ok|].
    rewrite (bind_Ok _ _ _ _ _ E3).
    destruct (on_storage_spec (E := E) _ _ (with_storage s3 r) count_retained_messages_spec H3)
      as (s4 & k & E4 & H4 & A4).
    rewrite (bind_Ok _ _ _ _ _ E4). exists s4. split; [done|]. split; [done|].
    assert (storage_abs s4 = stored (with_storage s3 r)) as -> by (destruct k; naive_solver).
    change (stored (with_storage s3 r)) with (storage_abs s3).
    rewrite A3. change (stored (with_storage s2 r)) with (storage_abs s2). by rewrite A2.
Qed.

(** * Retained messages for a new subscription *)

Definition retained_packet (q : QoS) (m : PersistedRetainedMessage) : PublishPacket :=
  mkPublish (pr_topic m) None (pr_payload m) (lower (qos_from_stored (pr_qos m)) q) true false.

(** The retained messages a filter selects, as they are sent. *)
Definition retained_matches (R : gmap string PersistedRetainedMessage) (fq : string * QoS) :
    list PublishPacket :=
  retained_packet fq.2 <$>
    filter (λ m, Is_true (topic_matches (pr_topic m) fq.1)) (map_to_list R).*2.

Lemma add_retained_eq m q acc : add_retained_packet m q acc = acc ++ [retained_packet q m].
Proof. unfold add_retained_packet, retained_packet. by rewrite min_qos_lower. Qed.

Lemma foldl_add_retained f q acc l :
  foldl (λ acc m, if topic_matches (pr_topic m) f then add_retained_packet m q acc else acc) acc l =
  acc ++ (retained_packet q <$> filter (λ m, Is_true (topic_matches (pr_topic m) f)) l).
Proof.
  revert acc. induction l as [|m l IH]; intros acc; cbn [foldl]; [by rewrite app_nil_r|].
  rewrite IH, filter_cons, add_retained_eq.
  destruct (topic_matches (pr_topic m) f) eqn:E; simpl; [by rewrite <- app_assoc|done].
Qed.

(** For a filter without wildcards the only candidate is the message kept under
    that topic. *)
Lemma retained_matches_exact R f q :
  (∀ k m, R !! k = Some m → pr_topic m = k) → has_wildcards f = false →
  retained_matches R (f, q) ≡ₚ
  match R !! f with Some m => [retained_packet q m] | None => [] end.
Proof.
  intros HR Hw. unfold retained_matches. cbn [fst snd].
  assert (Hrest : ∀ R' : gmap string _, R' ⊆ R → R' !! f = None →
    filter (λ m, Is_true (topic_matches (pr_topic m) f)) (map_to_list R').*2 = []).
  { intros R' Hsub HN. apply filter_none. intros m ([k m'] & -> & Hm)%list_elem_of_fmap.
    apply elem_of_map_to_list in Hm. cbn [snd]. rewrite Is_true_true, topic_matches_exact by done.
    rewrite (HR k m') by (by eapply lookup_weaken). naive_solver. }
  destruct (R !! f) as [m|] eqn:Hm; [|by rewrite Hrest].
  rewrite <- (insert_delete_id R f m Hm) at 1.
  rewrite map_to_list_insert by apply lookup_delete_eq. rewrite fmap_cons, filter_cons.
  rewrite decide_True; [|cbn [snd]; rewrite Is_true_true, topic_matches_exact by done; eauto].
  rewrite fmap_cons. rewrite Hrest; [done|apply delete_subseteq|apply lookup_delete_eq].
Qed.

Definition cache_ok r (all : option (list PersistedRetainedMessage)) : Prop :=
  match all with Some l => l ≡ₚ (map_to_list (retained r)).*2 | None => True end.

Lemma find_retained_spec {SR : StorageReliable S} {E} f q acc all r :
  storage_inv (storage r) → cache_ok r all →
  ∃ s' acc' all', find_retained_for_filter (E := E) f q acc all r =
    (with_storage s' r, Ok (acc', all')) ∧
    storage_inv s' ∧ storage_abs s' = stored r ∧ cache_ok r all' ∧
    acc' ≡ₚ acc ++ retained_matches (retained r) (f, q).
Proof.
  intros Hs Hall. unfold find_retained_for_filter, cache_ok in *.
  destruct (has_wildcards f) eqn:Hw.
  - destruct all as [l|].
    + exists (storage r), (acc ++ (retained_packet q <$>
        filter (λ m, Is_true (topic_matches (pr_topic m) f)) l)), (Some l).
      rewrite with_storage_id, bind_ret, foldl_add_retained.
      split_and!; try done. unfold retained_matches. cbn [fst snd]. by rewrite Hall.
    + destruct (on_storage_Ok (E := E) _ _ r load_all_retained_messages_spec Hs)
        as (s' & l & E1 & Hi & Ha & Hl); [by apply load_all_retained_messages_Ok|].
      exists s', (acc ++ (retained_packet q <$>
        filter (λ m, Is_true (topic_matches (pr_topic m) f)) l)), (Some l).
      erewrite bind_Ok by (erewrite bind_Ok by exact E1; done).
      cbv beta iota. rewrite foldl_add_retained. split_and!; try done.
      unfold retained_matches. cbn [fst snd]. by rewrite Hl.
  - destruct (on_storage_Ok (E := E) _ _ r (load_retained_message_spec f) Hs)
      as (s' & o & E1 & Hi & Ha & ->); [by apply load_retained_message_Ok|].
    rewrite (bind_Ok _ _ _ _ _ E1).
    assert (Hx := retained_matches_exact (retained r) f q
      (λ k m, storage_retained_topic (storage r) k m Hs) Hw).
    unfold retained in *. destruct (retained_by_topic (stored r) !! f) as [m|];
      eexists s', _, all; (split; [done|]); split_and!; try done; rewrite Hx;
      by rewrite ?add_retained_eq, ?app_nil_r.
Qed.

Lemma subscribe_one_retained {SR : StorageReliable S} {E} sid mb codes acc all f q r :
  storage_inv (storage r) → cache_ok r all →
  ∃ r' codes' acc' all',
    subscribe_one (E := E) sid mb (codes, acc, all) (f, q) r = (r', Ok (codes', acc', all')) ∧
    storage_inv (storage r') ∧ stored r' = stored r ∧ cache_ok r all' ∧
    acc' ≡ₚ acc ++ (if validate_subscribe_filter f then retained_matches (retained r) (f, q) else []).
Proof.
  intros Hs Hall. unfold subscribe_one. cbn [fst snd].
  destruct (validate_subscribe_filter f) eqn:Hv; cbn [negb].
  - rewrite bind_modify. set (r2 := with_data _ r).
    destruct (find_retained_spec (E := E) f q acc all r2)
      as (s' & acc' & all' & E1 & Hi & Ha & Hc & Hp); [done..|].
    rewrite (bind_Ok _ _ _ _ _ E1). eexists _, _, acc', all'. by split_and!.
  - exists r. eexists _, acc, all. rewrite app_nil_r. by split_and!.
Qed.

(** The retained messages [subscribe] hands back: for each valid filter in turn,
    those it selects. *)
Lemma subscribe_retained_spec {SR : StorageReliable S} {E} sid mb fs r t :
  storage_inv (storage r) → rep t (data r) →
  ∃ r' pkts, subscribe (E := E) sid mb fs r = (r', Ok (granted <$> fs, pkts)) ∧
    pkts ≡ₚ filter (λ fq, Is_true (validate_subscribe_filter fq.1)) fs
              ≫= retained_matches (retained r).
Proof.
  intros Hs Ht. destruct (subscribe_spec (E := E) sid mb fs r t Hs Ht) as (r' & pkts & E1 & _).
  exists r', pkts. split; [done|]. revert E1. unfold subscribe.
  assert (Hloop : ∀ fs codes acc all r1, storage_inv (storage r1) → stored r1 = stored r →
    cache_ok r1 all →
    ∃ r' codes' acc' all', fold_each (subscribe_one (E := E) sid mb) (codes, acc, all) fs r1 =
      (r', Ok (codes', acc', all')) ∧
      acc' ≡ₚ acc ++ (filter (λ fq, Is_true (validate_subscribe_filter fq.1)) fs
              ≫= retained_matches (retained r))).
  { clear - SR. intros fs. induction fs as [|[f q] fs IH]; intros codes acc all r1 Hs Hst Hall.
    { exists r1, codes, acc, all. split; [done|]. by rewrite app_nil_r. }
    cbn [fold_each].
    destruct (subscribe_one_retained (E := E) sid mb codes acc all f q r1 Hs Hall)
      as (r2 & codes' & acc' & all' & E1 & H1 & H2 & H3 & H4).
    destruct (IH codes' acc' all' r2) as (r3 & codes2 & acc2 & all2 & E2 & H5); [done|congruence| |].
    { unfold cache_ok, retained in *. by rewrite H2. }
    exists r3, codes2, acc2, all2. rewrite (bind_Ok _ _ _ _ _ E1). split; [done|].
    rewrite H5, H4, filter_cons, <- app_assoc. cbn [fst]. unfold retained. rewrite Hst.
    by destruct (validate_subscribe_filter f). }
  destruct (Hloop fs [] [] None r Hs eq_refl I) as (r2 & codes & acc & all & E2 & H2).
  rewrite (bind_Ok _ _ _ _ _ E2). unfold mret, M_ret. cbn [fst snd]. intros [= _ _ <-].
  exact H2.
Qed.
End Facts.
