(* ===== verification/RouterProps.v ===== *)
(** What the router promises: it is a table of subscriptions, it delivers a
    message once per matching subscription, it hands retained messages to new
    subscribers, and it keeps no more of them than its limit. *)

From S2P Require Import Prelude External Packet Topic Storage MemoryStorage Router.
From S2P Require Import RouterFacts.

(** * Calls that change subscriptions *)

Inductive Call :=
| CallSubscribe (sid : string) (mb : Mailbox) (fs : list (string * QoS))
| CallUnsubscribe (sid : string) (fs : list string)
| CallUnsubscribeAll (sid : string).

Definition table_step (t : Table) (c : Call) : Table :=
  match c with
  | CallSubscribe sid mb fs => foldl (table_subscribe sid mb) t fs
  | CallUnsubscribe sid fs => foldl (table_unsubscribe sid) t fs
  | CallUnsubscribeAll sid => table_unsubscribe_all sid t
  end.

Section Props.
Context {MP : Mpsc} {MPL : MpscLaws} {HO : HashOrder} {HOL : HashOrderLaws}.
Context {S : Type} {ST : Storage S} {SL : StorageLaws S}.

Implicit Types (r : Router S) (t : Table).

Definition perform {E} (c : Call) : M (Router S) E () :=
  match c with
  | CallSubscribe sid mb fs => subscribe sid mb fs;; mret tt
  | CallUnsubscribe sid fs => unsubscribe sid fs
  | CallUnsubscribeAll sid => unsubscribe_all sid
  end.

Lemma perform_step {E} c r t :
  storage_inv (storage r) → rep t (data r) →
  ∃ r', perform (E := E) c r = (r', Ok tt) ∧ storage_inv (storage r') ∧ rep (table_step t c) (data r').
Proof.
  intros Hs Ht. destruct c as [sid mb fs|sid fs|sid]; cbn [perform table_step].
  - destruct (subscribe_spec (E := E) sid mb fs r t Hs Ht) as (r' & pk & E1 & H1 & _ & H2 & _).
    exists r'. by rewrite (bind_Ok _ _ _ _ _ E1).
  - destruct (unsubscribe_spec (E := E) sid fs r t Ht) as (d' & E1 & H1). rewrite E1. eauto.
  - destruct (unsubscribe_all_spec (E := E) sid r t Ht) as (d' & E1 & H1 & _). rewrite E1. eauto.
Qed.

Lemma perform_all {E} cs r t :
  storage_inv (storage r) → rep t (data r) →
  ∃ r', for_each (E := E) cs perform r = (r', Ok tt) ∧ rep (foldl table_step t cs) (data r').
Proof.
  revert r t. induction cs as [|c cs IH]; intros r t Hs Ht; [by exists r|].
  destruct (perform_step (E := E) c r t Hs Ht) as (r1 & E1 & H1 & H2).
  destruct (IH r1 (table_step t c) H1 H2) as (r2 & E2 & H3).
  exists r2. cbn [for_each]. by rewrite (bind_Ok _ _ _ _ _ E1).
Qed.

(** * Routing *)

Lemma room_for_perm l k r : l ≡ₚ k → room_for l r → room_for k r.
Proof.
  intros Hp H mb c Hc Hne. assert (Hm : for_mailbox mb l ≡ₚ for_mailbox mb k).
  { unfold for_mailbox. by rewrite Hp. }
  rewrite <- Hm. apply H; [done|]. intros Hl. apply Hne. rewrite Hl in Hm.
  by apply Permutation_nil in Hm.
Qed.

Lemma deliveries_perm p l k : l ≡ₚ k → deliveries p l ≡ₚ deliveries p k.
Proof. intros H. unfold deliveries. by rewrite H. Qed.

Lemma route_reaches_subscribers {E} now p r :
  storage_inv (storage r) → validate_publish_topic (topic p) = true →
  ∃ s', storage_inv s' ∧ kept (storage_abs s') = kept (stored r) ∧
    route (E := E) now p r = route_to_subscribers p (with_storage s' r).
Proof.
  intros Hs Hv. unfold route. rewrite Hv. cbn [negb]. destruct (retain p).
  - destruct (handle_retained_returns (E := E) now p r Hs) as (s' & E1 & Hi & Hk).
    exists s'. split_and!; [done..|]. by rewrite (bind_Ok _ _ _ _ _ E1).
  - exists (storage r). rewrite with_storage_id. by split_and!.
Qed.

(** Routing returns or waits; the subscriptions and the saved sessions stay. *)
Lemma route_frame {E} now p r :
  storage_inv (storage r) →
  ∃ r' o, route (E := E) now p r = (r', o) ∧ (o = Ok tt ∨ o = Pending) ∧
    data r' = data r ∧ kept (stored r') = kept (stored r).
Proof.
  intros Hs. destruct (validate_publish_topic (topic p)) eqn:Hv.
  2: { exists r, (Ok tt). split_and!; [|by left|done..]. unfold route. by rewrite Hv. }
  destruct (route_reaches_subscribers (E := E) now p r Hs Hv) as (s' & _ & Hk & ->).
  rewrite route_deliveries. set (r1 := with_storage s' r).
  destruct (send_all_cases (E := E) (deliveries p (rows (data r1))) r1)
    as [[_ (ms & E1 & _)]|[_ (ms & E1)]]; eexists _, _; (split; [exact E1|]); auto.
Qed.

(** C9: the router is a table of subscriptions.  Whatever calls are made on a
    new router, they return, its two hash maps hold exactly the subscriptions
    of a table to which the calls are applied one by one (a valid filter is
    entered with its mailbox and level and replaces an earlier one, an invalid
    one is left out), and [get_subscriptions] lists a session's entries, each
    filter once. *)
Theorem router_refines_table {E} lim s cs :
  storage_inv s →
  ∃ r, for_each (E := E) cs perform (router_new lim s) = (r, Ok tt) ∧
    rep (foldl table_step ∅ cs) (data r) ∧
    ∀ sid, ∃ l, get_subscriptions (E := E) sid r = (r, Ok l) ∧ NoDup l.*1 ∧
      ∀ f q, (f, q) ∈ l ↔ ∃ mb, foldl table_step ∅ cs !! (sid, f) = Some (mb, q).
Proof.
  intros Hs. destruct (perform_all (E := E) cs (router_new lim s) ∅ Hs rep_new) as (r & E1 & H1).
  exists r. split; [done|]. split; [done|]. intros sid. by apply get_subscriptions_spec.
Qed.

Lemma route_with_room {E} now p r t :
  storage_inv (storage r) → rep t (data r) → validate_publish_topic (topic p) = true →
  room_for (deliveries p (map_to_list t)) r →
  ∃ s' ms', route (E := E) now p r = (with_mailboxes ms' (with_storage s' r), Ok tt) ∧ storage_inv s' ∧
    ∀ mb, match mailboxes r !! mb with
          | Some c => ∃ c' ds, ms' !! mb = Some c' ∧ capacity c' = capacity c ∧
              queued c' = queued c ++ ds ∧ ds ≡ₚ for_mailbox mb (deliveries p (map_to_list t))
          | None => ms' !! mb = None
          end.
Proof.
  intros Hs Ht Hv Hroom.
  destruct (route_reaches_subscribers (E := E) now p r Hs Hv) as (s' & Hi & _ & ->).
  set (r1 := with_storage s' r). rewrite route_deliveries.
  assert (Hp : deliveries p (rows (data r1)) ≡ₚ deliveries p (map_to_list t))
    by (apply deliveries_perm, rows_table, Ht).
  destruct (send_all_cases (E := E) (deliveries p (rows (data r1))) r1)
    as [[Hr (ms' & E1 & H1)]|[Hr _]]; [|destruct Hr; exact (room_for_perm _ _ r (symmetry Hp) Hroom)].
  exists s', ms'. split; [done|]. split; [done|]. intros mb.
  specialize (H1 mb). change (mailboxes r1) with (mailboxes r) in H1.
  destruct (mailboxes r !! mb) as [c|]; [|done]. destruct H1 as (c' & G1 & G2 & G3).
  exists c'. eexists. split_and!; [done..|]. unfold for_mailbox. by rewrite Hp.
Qed.

Lemma route_without_room {E} now p r t :
  storage_inv (storage r) → rep t (data r) → validate_publish_topic (topic p) = true →
  ¬ room_for (deliveries p (map_to_list t)) r → ∃ r', route (E := E) now p r = (r', Pending).
Proof.
  intros Hs Ht Hv Hroom.
  destruct (route_reaches_subscribers (E := E) now p r Hs Hv) as (s' & _ & _ & ->).
  set (r1 := with_storage s' r). rewrite route_deliveries.
  assert (Hp : deliveries p (rows (data r1)) ≡ₚ deliveries p (map_to_list t))
    by (apply deliveries_perm, rows_table, Ht).
  destruct (send_all_cases (E := E) (deliveries p (rows (data r1))) r1)
    as [[Hr _]|[_ (ms' & E1)]]; [destruct Hroom; exact (room_for_perm _ _ r Hp Hr)|].
  by exists (with_mailboxes ms' r1).
Qed.

(** C6: routing a message with a valid topic puts, for every subscription whose
    filter matches the topic, one copy at the end of the subscriber's mailbox:
    no packet identifier, retain and dup off, the lower of the two levels.  The
    other mailboxes are left alone and a subscriber that is gone is skipped.
    The call returns if every mailbox has room for its copies, and is left
    waiting if one has not. *)
Theorem route_delivers {E} now p r t :
  storage_inv (storage r) → rep t (data r) → validate_publish_topic (topic p) = true →
  let copies := deliveries p (map_to_list t) in
  (room_for copies r →
   ∃ r', route (E := E) now p r = (r', Ok tt) ∧ data r' = data r ∧
     ∀ mb, match mailboxes r !! mb with
           | Some c => ∃ c' ds, mailboxes r' !! mb = Some c' ∧ capacity c' = capacity c ∧
               queued c' = queued c ++ ds ∧ ds ≡ₚ for_mailbox mb copies
           | None => mailboxes r' !! mb = None
           end) ∧
  (¬ room_for copies r → ∃ r', route (E := E) now p r = (r', Pending)).
Proof.
  intros Hs Ht Hv copies. split; intros Hr.
  - destruct (route_with_room (E := E) now p r t Hs Ht Hv Hr) as (s' & ms' & E1 & _ & H1).
    by exists (with_mailboxes ms' (with_storage s' r)).
  - exact (route_without_room now p r t Hs Ht Hv Hr).
Qed.

(** * Messages one after the other *)

Definition all_deliveries (l : list PublishPacket) (t : Table) : list (Mailbox * PublishPacket) :=
  mjoin ((λ p, deliveries p (map_to_list t)) <$> l).

(** The router after some messages have been routed: at the end of each mailbox
    are its copies of the first, of the second and so on. *)
Record delivered (t : Table) (l : list PublishPacket) (r r' : Router S) : Prop := {
  dl_data : data r' = data r;
  dl_mailboxes mb :
    match mailboxes r !! mb with
    | Some c => ∃ c' dss, mailboxes r' !! mb = Some c' ∧ capacity c' = capacity c ∧
        queued c' = queued c ++ mjoin dss ∧
        Forall2 (λ p ds, ds ≡ₚ for_mailbox mb (deliveries p (map_to_list t))) l dss
    | None => mailboxes r' !! mb = None
    end;
}.

Lemma delivered_nil t r : delivered t [] r r.
Proof.
  split; [done|]. intros mb. destruct (mailboxes r !! mb) as [c|]; [|done].
  exists c, []. by rewrite app_nil_r.
Qed.

Lemma delivered_app t l1 l2 r r1 r2 :
  delivered t l1 r r1 → delivered t l2 r1 r2 → delivered t (l1 ++ l2) r r2.
Proof.
  intros [D1 M1] [D2 M2]. split; [congruence|]. intros mb. specialize (M1 mb). specialize (M2 mb).
  destruct (mailboxes r !! mb) as [c|]; [|by rewrite M1 in M2].
  destruct M1 as (c1 & d1 & E1 & C1 & Q1 & P1). rewrite E1 in M2.
  destruct M2 as (c2 & d2 & E2 & C2 & Q2 & P2). exists c2, (d1 ++ d2).
  split_and!; [done|congruence| |by apply Forall2_app]. by rewrite Q2, Q1, join_app, app_assoc.
Qed.

Lemma for_mailbox_app mb l1 l2 : for_mailbox mb (l1 ++ l2) = for_mailbox mb l1 ++ for_mailbox mb l2.
Proof. unfold for_mailbox. by rewrite filter_app, !fmap_app. Qed.

Lemma for_mailbox_all mb l t dss :
  Forall2 (λ p ds, ds ≡ₚ for_mailbox mb (deliveries p (map_to_list t))) l dss →
  mjoin dss ≡ₚ for_mailbox mb (all_deliveries l t).
Proof.
  unfold all_deliveries. induction 1 as [|p ds l dss Hp _ IH]; [done|].
  cbn [fmap list_fmap mjoin list_join]. by rewrite for_mailbox_app, <- Hp, <- IH.
Qed.

(** There is room for the first ones, and then for the others. *)
Lemma room_for_app l1 l2 t r r1 :
  room_for (all_deliveries (l1 ++ l2) t) r →
  room_for (all_deliveries l1 t) r ∧
  (delivered t l1 r r1 → room_for (all_deliveries l2 t) r1).
Proof.
  unfold all_deliveries. rewrite fmap_app, join_app. fold (all_deliveries l1 t) (all_deliveries l2 t).
  intros H. split; [|intros [_ M]]; intros mb c Hc Hne.
  - specialize (H mb c Hc). rewrite for_mailbox_app, length_app in H.
    destruct (for_mailbox mb (all_deliveries l1 t)); [done|]. cbn in *. specialize (H ltac:(done)). lia.
  - specialize (M mb). destruct (mailboxes r !! mb) as [c0|] eqn:E0; [|by rewrite M in Hc].
    destruct M as (c' & dss & E1 & Ecap & Q & P). rewrite E1 in Hc. injection Hc as ->.
    specialize (H mb c0 E0). rewrite for_mailbox_app, length_app in H.
    rewrite Q, Ecap, length_app, (for_mailbox_all _ _ _ _ P).
    rewrite <- Nat.add_assoc. apply H. by destruct (for_mailbox mb (all_deliveries l1 t)).
Qed.

(** What the subscriptions of a session that has gone do not ask for. *)
Lemma omap_filter {A B} (P : A → Prop) `{∀ x, Decision (P x)} (f : A → option B) (l : list A) :
  (∀ x, ¬ P x → f x = None) → omap f (filter P l) = omap f l.
Proof.
  intros Hf. induction l as [|x l IH]; [done|]. rewrite filter_cons.
  destruct (decide (P x)) as [Hx|Hx]; cbn [omap list_omap]; rewrite IH; [done|by rewrite Hf].
Qed.

Lemma unsubscribed_rows x t :
  map_to_list (table_unsubscribe_all x t) ≡ₚ filter (λ kv, kv.1.1 ≠ x) (map_to_list t).
Proof.
  apply NoDup_Permutation; [apply NoDup_map_to_list|apply NoDup_filter, NoDup_map_to_list|].
  intros [[sid f] y]. unfold table_unsubscribe_all.
  rewrite list_elem_of_filter, !elem_of_map_to_list, map_lookup_filter_Some. tauto.
Qed.

Lemma all_deliveries_unsubscribed x l t :
  all_deliveries l (table_unsubscribe_all x t) ⊆+ all_deliveries l t.
Proof.
  unfold all_deliveries. induction l as [|p l IH]; [done|]. cbn [fmap list_fmap mjoin list_join].
  apply submseteq_app; [|exact IH]. unfold deliveries. rewrite (unsubscribed_rows x t).
  generalize (map_to_list t). clear. intros rs. induction rs as [|[[sid f] [mb q]] rs IH]; [done|].
  rewrite filter_cons. destruct (decide _); cbn [omap list_omap]; destruct (topic_matches (topic p) f);
    try done; by constructor.
Qed.

#[export] Instance filter_submseteq {A} (P : A → Prop) `{∀ x, Decision (P x)} :
  Proper (submseteq ==> submseteq) (filter (B := list A) P).
Proof.
  intros l k Hlk. induction Hlk as [|x l k _ IH|x y l|x l k _ IH|l1 l2 l3 _ IH1 _ IH2]; [done|..].
  - rewrite !filter_cons. destruct (decide (P x)); [by apply submseteq_skip|done].
  - rewrite !filter_cons. destruct (decide (P x)), (decide (P y)); try done. apply submseteq_swap.
  - rewrite filter_cons. destruct (decide (P x)); [by apply submseteq_cons|done].
  - by etrans.
Qed.

Lemma room_for_fewer l k r : l ⊆+ k → room_for k r → room_for l r.
Proof.
  intros Hlk H mb c Hc Hne. assert (for_mailbox mb l ⊆+ for_mailbox mb k) as Hm.
  { unfold for_mailbox. by rewrite Hlk. }
  pose proof (submseteq_length _ _ Hm). specialize (H mb c Hc).
  destruct (for_mailbox mb k) eqn:Ek; [by apply submseteq_nil_r in Hm|]. specialize (H ltac:(done)). lia.
Qed.

(** One message, if there is room for its copies. *)
Lemma route_delivered {E} now p r t :
  storage_inv (storage r) → rep t (data r) → validate_publish_topic (topic p) = true →
  room_for (deliveries p (map_to_list t)) r →
  ∃ r', route (E := E) now p r = (r', Ok tt) ∧ storage_inv (storage r') ∧ delivered t [p] r r'.
Proof.
  intros Hs Ht Hv Hroom. destruct (route_with_room (E := E) now p r t Hs Ht Hv Hroom) as (s' & ms' & E1 & Hs' & H1).
  exists (with_mailboxes ms' (with_storage s' r)). split; [exact E1|]. split; [exact Hs'|].
  split; [done|]. intros mb. specialize (H1 mb). destruct (mailboxes r !! mb) as [c|]; [|done].
  destruct H1 as (c' & ds & F1 & F2 & F3 & F4). exists c', [ds]. cbn. rewrite app_nil_r.
  split_and!; [done..|]. by repeat constructor.
Qed.

Lemma room_for_or_not l r : room_for l r ∨ ¬ room_for l r.
Proof. destruct (send_all_cases (E := Empty_set) l r) as [[H _]|[H _]]; auto. Qed.

(** Messages with a valid topic are all routed if there is room; without, the
    call is left waiting at the first that has none. *)
Lemma route_all {E} now l r t :
  storage_inv (storage r) → rep t (data r) → Forall (λ p, validate_publish_topic (topic p) = true) l →
  room_for (all_deliveries l t) r →
  ∃ r', for_each (E := E) l (route now) r = (r', Ok tt) ∧ delivered t l r r'.
Proof.
  intros Hs Ht Hv. revert r Hs Ht. induction Hv as [|p l Hp _ IH]; intros r Hs Ht Hroom.
  { exists r. split; [done|]. apply delivered_nil. }
  destruct (room_for_app [p] l t r r Hroom) as [Hroom1 _].
  unfold all_deliveries in Hroom1. cbn [fmap list_fmap mjoin list_join] in Hroom1. rewrite app_nil_r in Hroom1.
  destruct (route_delivered (E := E) now p r t Hs Ht Hp Hroom1) as (r1 & E1 & Hs1 & D1).
  destruct (IH r1) as (r' & E2 & D2); [done|by rewrite (dl_data _ _ _ _ D1)|by apply (room_for_app [p] l t r r1)|].
  exists r'. cbn [for_each]. rewrite (bind_Ok _ _ _ _ _ E1). split; [exact E2|].
  by apply (delivered_app t [p] l r r1).
Qed.

Lemma route_all_cases {E} now l r t :
  storage_inv (storage r) → rep t (data r) → Forall (λ p, validate_publish_topic (topic p) = true) l →
  (∃ r', for_each (E := E) l (route now) r = (r', Ok tt) ∧ delivered t l r r') ∨
  ∃ r', for_each (E := E) l (route now) r = (r', Pending).
Proof.
  intros Hs Ht Hv. revert r Hs Ht. induction Hv as [|p l Hp _ IH]; intros r Hs Ht.
  { left. exists r. split; [done|]. apply delivered_nil. }
  cbn [for_each]. destruct (room_for_or_not (deliveries p (map_to_list t)) r) as [Hroom|Hroom].
  - destruct (route_delivered (E := E) now p r t Hs Ht Hp Hroom) as (r1 & E1 & Hs1 & D1).
    rewrite (bind_Ok _ _ _ _ _ E1).
    destruct (IH r1 Hs1) as [(r' & E2 & D2)|(r' & E2)]; [by rewrite (dl_data _ _ _ _ D1)|left|right]; exists r'.
    + split; [exact E2|]. by apply (delivered_app t [p] l r r1).
    + exact E2.
  - right. destruct (route_without_room (E := E) now p r t Hs Ht Hp Hroom) as (r1 & E1).
    exists r1. exact (bind_Pending _ _ _ _ E1).
Qed.

(** * Retained messages *)

Context {SR : StorageReliable S}.

(** C32: on a storage that does not fail, a SUBSCRIBE grants each valid filter
    the level it asks for and refuses the others with 0x80, and hands back, for
    each valid filter, exactly the retained messages it selects, with the
    retain flag on and the lower of the two levels. *)
Theorem subscribe_hands_retained {E} sid mb fs r t :
  storage_inv (storage r) → rep t (data r) →
  ∃ r' pkts, subscribe (E := E) sid mb fs r = (r', Ok (granted <$> fs, pkts)) ∧
    pkts ≡ₚ filter (λ fq, Is_true (validate_subscribe_filter fq.1)) fs
              ≫= retained_matches (retained r).
Proof. apply subscribe_retained_spec. Qed.

(** C31: on a storage that does not fail, a message with the retain flag and a
    valid topic replaces the retained message of its topic, or removes it when
    its payload is empty, and a new topic is dropped when the limit has been
    reached; a message without the flag changes nothing.  So there are never
    more retained messages than the limit. *)
Theorem route_retains {E} now p r :
  storage_inv (storage r) → storage_counts (size (retained r)) →
  let r' := (route (E := E) now p r).1 in
  storage_inv (storage r') ∧
  stored r' = (if validate_publish_topic (topic p) && retain p
               then set_retained (retained_after (limit r) now p) (stored r) else stored r) ∧
  (size (retained r) ≤ limit r → size (retained r') ≤ limit r').
Proof.
  intros Hs Hc. unfold route. destruct (validate_publish_topic (topic p)); cbn [negb andb]; [|done].
  assert (Hsub : ∀ r1, let r2 := (route_to_subscribers (E := E) p r1).1 in
    storage r2 = storage r1 ∧ limit r2 = limit r1).
  { intros r1. rewrite route_deliveries.
    destruct (send_all_cases (E := E) (deliveries p (rows (data r1))) r1)
      as [[_ (ms & -> & _)]|[_ (ms & ->)]]; done. }
  destruct (retain p).
  - destruct (handle_retained_spec (E := E) now p r Hs Hc) as (s' & E1 & Hi & Ha).
    rewrite (bind_Ok _ _ _ _ _ E1). cbv zeta.
    destruct (Hsub (with_storage s' r)) as [H1 H2]. unfold retained, stored in *.
    rewrite H1, H2. cbn [storage limit with_storage]. rewrite Ha. split; [done|]. split; [done|].
    apply retained_after_size.
  - rewrite bind_ret. cbv zeta. destruct (Hsub r) as [H1 H2]. unfold retained, stored in *.
    by rewrite H1, H2.
Qed.
End Props.

(** * At a concrete router *)

Abbreviation test_router := (Router (MP := queue_mpsc) InMemoryStorage).

Definition test_message (t : string) (q : QoS) (b : list byte) (ret : bool) : PublishPacket :=
  mkPublish t None b q ret false.

(** Two sessions with a mailbox each. *)
Definition two_subscribers : test_router :=
  (for_each (E := Empty_set)
     [CallSubscribe "s1" 1 [("a/+", ExactlyOnce); ("b", AtMostOnce)];
      CallSubscribe "s2" 2 [("a/#", AtLeastOnce)]]
     perform
     (mkRouter internal_new memory_new 2
        {[ 1 := mpsc_channel 3; 2 := mpsc_channel 3 ]})).1.

Definition two_table : Table :=
  foldl table_step ∅
    [CallSubscribe "s1" 1 [("a/+", ExactlyOnce); ("b", AtMostOnce)];
     CallSubscribe "s2" 2 [("a/#", AtLeastOnce)]].

Lemma two_subscribers_rep : rep two_table (data two_subscribers).
Proof.
  destruct (perform_all (E := Empty_set) (SL := memory_laws)
    [CallSubscribe "s1" 1 [("a/+", ExactlyOnce); ("b", AtMostOnce)];
     CallSubscribe "s2" 2 [("a/#", AtLeastOnce)]]
    (mkRouter internal_new memory_new 2 {[ 1 := mpsc_channel 3; 2 := mpsc_channel 3 ]})
    ∅ memory_inv_new rep_new) as (r & E1 & H1).
  unfold two_subscribers. rewrite E1. exact H1.
Qed.

Lemma memory_inv_two : memory_inv (storage two_subscribers).
Proof.
  assert (storage two_subscribers = memory_new) as -> by (vm_compute; reflexivity).
  apply memory_inv_new.
Qed.

Lemma router_refines_table_witness :
  ∃ r, for_each (E := Empty_set)
         [CallSubscribe "s1" 1 [("a/+", ExactlyOnce); ("#/a", AtMostOnce)]; CallUnsubscribe "s1" ["b"]]
         perform (router_new 2 memory_new : test_router) = (r, Ok tt) ∧
    get_subscriptions (E := Empty_set) "s1" r = (r, Ok [("a/+", ExactlyOnce)]).
Proof.
  destruct (router_refines_table (E := Empty_set) (SL := memory_laws) (MP := queue_mpsc) 2 memory_new
    [CallSubscribe "s1" 1 [("a/+", ExactlyOnce); ("#/a", AtMostOnce)]; CallUnsubscribe "s1" ["b"]]
    memory_inv_new) as (r & E1 & _ & _).
  exists r. split; [exact E1|]. vm_compute in E1. injection E1 as <-. vm_compute. reflexivity.
Defined.

Lemma route_delivers_witness :
  let p := test_message "a/x" ExactlyOnce [] false in
  room_for (deliveries p (map_to_list two_table)) two_subscribers ∧
  ∃ r', route (E := Empty_set) 0%Z p two_subscribers = (r', Ok tt) ∧
    (queued <$> mailboxes r' !! 2) =
      Some [Publish (mkPublish "a/x" None [] AtLeastOnce false false)].
Proof.
  intros p.
  assert (Hroom : room_for (deliveries p (map_to_list two_table)) two_subscribers).
  { assert (Hms : mailboxes two_subscribers =
      {[ 1 := mpsc_channel 3; 2 := mpsc_channel 3 ]}) by (vm_compute; reflexivity).
    intros mb c Hc _. rewrite Hms in Hc.
    apply lookup_insert_Some in Hc as [[<- <-]|[_ [<- <-]%lookup_singleton_Some]];
      vm_compute; lia. }
  split; [exact Hroom|].
  destruct (proj1 (route_delivers (E := Empty_set) (SL := memory_laws) 0%Z p two_subscribers two_table
    memory_inv_two two_subscribers_rep eq_refl) Hroom) as (r' & E1 & _ & _).
  exists r'. split; [exact E1|]. vm_compute in E1. injection E1 as <-. vm_compute. reflexivity.
Defined.

(** A router with one retained message. *)
Definition keeps_one : test_router :=
  mkRouter internal_new
    (save_retained_message (mkPersistedRetained "a/x" [Byte.x00] SExactlyOnce 5%Z) memory_new).1
    2 {[ 3 := mpsc_channel 3 ]}.

Lemma subscribe_hands_retained_witness :
  ∃ r' pkts,
    subscribe (E := Empty_set) "s3" 3 [("+/x", AtLeastOnce); ("a#", AtMostOnce)] keeps_one =
      (r', Ok ([1; 128]%Z, pkts)) ∧
    pkts = [mkPublish "a/x" None [Byte.x00] AtLeastOnce true false].
Proof.
  destruct (subscribe_hands_retained (E := Empty_set) (SL := memory_laws) "s3" 3
    [("+/x", AtLeastOnce); ("a#", AtMostOnce)] keeps_one ∅
    (proj1 (save_retained_message_spec (StorageLaws := memory_laws) _ memory_new memory_inv_new)) rep_new)
    as (r' & pkts & E1 & _).
  exists r', pkts. split; [exact E1|]. vm_compute in E1. by injection E1 as <- <-.
Defined.

Lemma route_retains_witness :
  let r := (route (E := Empty_set) 5%Z (test_message "a/x" ExactlyOnce [Byte.x00] true) two_subscribers).1 in
  storage_inv (storage r) ∧ size (retained_by_topic (stored r)) = 1.
Proof.
  intros r. destruct (route_retains (E := Empty_set) (SL := memory_laws) (SR := memory_reliable) 5%Z
    (test_message "a/x" ExactlyOnce [Byte.x00] true) two_subscribers memory_inv_two I) as (H1 & H2 & _).
  split; [exact H1|]. vm_compute. reflexivity.
Defined.
