(* ===== verification/Broker.v ===== *)
(** [Broker] of [src/broker.rs], the state the sessions share: the table of
    sessions, the clients known by name, the router with the storage, and the
    command channels the sessions listen on.

    A [Sender<Command>] names one of the channels of [commands]; a
    [TakeoverAction] is a closure over nothing but such a sender, so it is one.
    The mutex and the concurrent map are not modelled: a call is atomic up to
    the point where it waits for room in a channel. *)

From S2P Require Import Prelude External Packet Storage Router Config Auth.

(** [mpsc::Sender<Command>] *)
Definition CommandTx := nat.
Definition TakeoverAction := CommandTx.

(** The handle of a session: [Session] of [src/session.rs]. *)
Record Session := mkSession {
  session_id : string;
  session_command_tx : CommandTx;
}.

(** A [Box<dyn AsyncStream>] is a reader and a writer. *)
Record TakeoverParams (R W : Type) := mkTakeover {
  to_stream : R * W;
  to_clean_session : bool;
  to_keep_alive : Z;
}.
Arguments mkTakeover {R W} _ _ _.
Arguments to_stream {R W} _.
Arguments to_clean_session {R W} _.
Arguments to_keep_alive {R W} _.

Inductive Command (R W : Type) :=
| Takeover (params : TakeoverParams R W)
| Cancel.
Arguments Takeover {R W} params.
Arguments Cancel {R W}.

Section BrokerState.
Context {MP : Mpsc} {HO : HashOrder} {S : Type} {ST : Storage S}.
Context {R W Au Az : Type}.

Record Broker := mkBroker {
  b_sessions : gmap string Session;
  named_clients : gmap string TakeoverAction;
  router : Router S;
  config : Config;
  authenticator : Au;
  authorizer : Az;
  commands : gmap CommandTx (channel (Command R W));
}.

Definition broker_new (config : Config) (storage : S) (authenticator : Au) (authorizer : Az) :
    Broker :=
  mkBroker ∅ ∅ (router_new (retained_message_limit config) storage) config
    authenticator authorizer ∅.

Definition with_b_sessions (x : gmap string Session) (b : Broker) : Broker :=
  mkBroker x (named_clients b) (router b) (config b) (authenticator b) (authorizer b) (commands b).
Definition with_named_clients (x : gmap string TakeoverAction) (b : Broker) : Broker :=
  mkBroker (b_sessions b) x (router b) (config b) (authenticator b) (authorizer b) (commands b).
Definition with_router (x : Router S) (b : Broker) : Broker :=
  mkBroker (b_sessions b) (named_clients b) x (config b) (authenticator b) (authorizer b) (commands b).
Definition with_commands (x : gmap CommandTx (channel (Command R W))) (b : Broker) : Broker :=
  mkBroker (b_sessions b) (named_clients b) (router b) (config b) (authenticator b) (authorizer b) x.

Section Operations.
Context {E : Type}.

(** A call on the router. *)
Definition on_router {B} (m : M (Router S) E B) : M Broker E B := zoom router with_router m.

(** [command_tx.send(command).await] *)
Definition command_send (tx : CommandTx) (c : Command R W) : M Broker E (() + ()) :=
  cs ← gets commands;
  match cs !! tx with
  | None => mret (inr tt)
  | Some ch =>
      if length (queued ch) <? capacity ch then
        modify (with_commands (<[tx := push c ch]> cs));; mret (inl tt)
      else hang
  end.

(** [Session::cancel] *)
Definition cancel (session : Session) : M Broker E () :=
  command_send (session_command_tx session) Cancel;; mret tt.

(** The closure [Session::make_takeover] builds over [command_tx]. *)
Definition make_takeover (command_tx : CommandTx) : TakeoverAction := command_tx.
Definition call_takeover (takeover : TakeoverAction) (stream : R * W) (clean_session : bool)
    (keep_alive : Z) : M Broker E () :=
  command_send takeover (Takeover (mkTakeover stream clean_session keep_alive));; mret tt.

Definition cancel_all_sessions : M Broker E () :=
  ss ← gets (λ b, (map_iter (b_sessions b)).*2);
  modify (with_b_sessions ∅);;
  for_each ss cancel;;
  modify (with_named_clients ∅).

(** [Some] of the action of the session that has the name, or takes the name. *)
Definition has_collision (client_id : string) (action : TakeoverAction) :
    M Broker E (option TakeoverAction) :=
  ns ← gets named_clients;
  match ns !! client_id with
  | Some old => mret (Some old)
  | None => modify (with_named_clients (<[client_id := action]> ns));; mret None
  end.

Definition remove_session (session_id : string) (client_id : option string) : M Broker E () :=
  on_router (unsubscribe_all session_id);;
  modify (λ b, with_b_sessions (delete session_id (b_sessions b)) b);;
  match client_id with
  | Some cid => modify (λ b, with_named_clients (delete cid (named_clients b)) b)
  | None => mret tt
  end.

Definition broker_subscribe (session_id : string) (sender : Mailbox)
    (topic_filters : list (string * QoS)) : M Broker E (list Z * list PublishPacket) :=
  on_router (subscribe session_id sender topic_filters).
Definition broker_unsubscribe (session_id : string) (topic_filters : list string) : M Broker E () :=
  on_router (unsubscribe session_id topic_filters).
Definition broker_unsubscribe_all (session_id : string) : M Broker E () :=
  on_router (unsubscribe_all session_id).
Definition broker_route (now : DateTime) (packet : PublishPacket) : M Broker E () :=
  on_router (route now packet).
Definition broker_get_subscriptions (session_id : string) : M Broker E (list (string * QoS)) :=
  on_router (get_subscriptions session_id).

(** A call on the storage the broker hands out. *)
Definition on_broker_storage {B} (m : M S StorageError B) : M Broker E (B + StorageError) :=
  on_router (on_storage m).
End Operations.
End BrokerState.
Arguments Broker {MP} S R W Au Az.
