(* ===== verification/Session.v ===== *)
(** [src/session.rs]: the runtime of a session.  A [Runtime] is the session's
    own state; [Env] is what one of its methods can reach: the runtime, the two
    halves of the stream it works on, and the broker.  A method is a call on
    [Env] that returns, fails with a [SessionError] or waits.

    Times are arguments: [now] is [Instant::now()] in nanoseconds, [utc] is
    [Utc::now()].  The identifiers of a new session (a UUID, and which channels
    it is given) are arguments too.  Logging is left out. *)

From S2P Require Import Prelude External Packet Codec Topic Storage Config Auth Router.
From S2P Require Import Broker.

Local Open Scope Z_scope.

(** * Data *)

Inductive Qos2State := AwaitingPubRec | AwaitingPubComp.

#[export] Instance Qos2State_eq_dec : EqDecision Qos2State.
Proof. solve_decision. Defined.

(** [tokio::time::Instant], in nanoseconds *)
Definition Instant := Z.

Record InflightMessage := mkInflight {
  if_packet : PublishPacket;
  timestamp : Instant;
  retry_count : Z;
  qos2_state : option Qos2State;
}.

Record ReceivedQos2Message := mkReceived { received_packet : PublishPacket }.

Record WillMessage := mkWill {
  wm_topic : string;
  wm_payload : Bytes;
  wm_qos : QoS;
  wm_retain : bool;
}.

Inductive State := Waiting | Processing | PendingState | Cleanup.

Inductive SessionError :=
| IOError (e : io_error)
| SendError (p : Packet).

Record Runtime (R W : Type) := mkRuntime {
  rt_id : string;
  rt_client_id : option string;
  rt_takeover : TakeoverAction;
  rt_command_rx : CommandTx;
  rt_message_tx : Mailbox;
  rt_stream : option (R * W);
  rt_clean_session : bool;
  rt_keep_alive : Z;
  rt_will_message : option WillMessage;
  rt_next_packet_id : Z;
  rt_inflight_queue : list InflightMessage;
  rt_inbound_qos2 : gmap Z ReceivedQos2Message;
}.
Arguments mkRuntime {R W} _ _ _ _ _ _ _ _ _ _ _ _.
Arguments rt_id {R W} _.
Arguments rt_client_id {R W} _.
Arguments rt_takeover {R W} _.
Arguments rt_command_rx {R W} _.
Arguments rt_message_tx {R W} _.
Arguments rt_stream {R W} _.
Arguments rt_clean_session {R W} _.
Arguments rt_keep_alive {R W} _.
Arguments rt_will_message {R W} _.
Arguments rt_next_packet_id {R W} _.
Arguments rt_inflight_queue {R W} _.
Arguments rt_inbound_qos2 {R W} _.

Section Fields.
Context {R W : Type}.
Implicit Types r : Runtime R W.

Definition set_client_id (x : option string) r : Runtime R W :=
  mkRuntime (rt_id r) x (rt_takeover r) (rt_command_rx r) (rt_message_tx r) (rt_stream r)
    (rt_clean_session r) (rt_keep_alive r) (rt_will_message r) (rt_next_packet_id r)
    (rt_inflight_queue r) (rt_inbound_qos2 r).
Definition set_stream (x : option (R * W)) r : Runtime R W :=
  mkRuntime (rt_id r) (rt_client_id r) (rt_takeover r) (rt_command_rx r) (rt_message_tx r) x
    (rt_clean_session r) (rt_keep_alive r) (rt_will_message r) (rt_next_packet_id r)
    (rt_inflight_queue r) (rt_inbound_qos2 r).
Definition set_params (clean : bool) (keep : Z) r : Runtime R W :=
  mkRuntime (rt_id r) (rt_client_id r) (rt_takeover r) (rt_command_rx r) (rt_message_tx r)
    (rt_stream r) clean keep (rt_will_message r) (rt_next_packet_id r)
    (rt_inflight_queue r) (rt_inbound_qos2 r).
Definition set_keep_alive (keep : Z) r : Runtime R W := set_params (rt_clean_session r) keep r.
Definition set_will (x : option WillMessage) r : Runtime R W :=
  mkRuntime (rt_id r) (rt_client_id r) (rt_takeover r) (rt_command_rx r) (rt_message_tx r)
    (rt_stream r) (rt_clean_session r) (rt_keep_alive r) x (rt_next_packet_id r)
    (rt_inflight_queue r) (rt_inbound_qos2 r).
Definition set_next_packet_id (x : Z) r : Runtime R W :=
  mkRuntime (rt_id r) (rt_client_id r) (rt_takeover r) (rt_command_rx r) (rt_message_tx r)
    (rt_stream r) (rt_clean_session r) (rt_keep_alive r) (rt_will_message r) x
    (rt_inflight_queue r) (rt_inbound_qos2 r).
Definition set_inflight (x : list InflightMessage) r : Runtime R W :=
  mkRuntime (rt_id r) (rt_client_id r) (rt_takeover r) (rt_command_rx r) (rt_message_tx r)
    (rt_stream r) (rt_clean_session r) (rt_keep_alive r) (rt_will_message r)
    (rt_next_packet_id r) x (rt_inbound_qos2 r).
Definition set_inbound (x : gmap Z ReceivedQos2Message) r : Runtime R W :=
  mkRuntime (rt_id r) (rt_client_id r) (rt_takeover r) (rt_command_rx r) (rt_message_tx r)
    (rt_stream r) (rt_clean_session r) (rt_keep_alive r) (rt_will_message r)
    (rt_next_packet_id r) (rt_inflight_queue r) x.
End Fields.

(** [Runtime::validate_client_id]: lengths are in bytes, and a character that is
    not ASCII has a byte that is not alphanumeric. *)
Definition is_ascii_alphanumeric (b : byte) : bool :=
  let n := byte.unsigned b in
  ((0x30 <=? n) && (n <=? 0x39)) || ((0x41 <=? n) && (n <=? 0x5A)) || ((0x61 <=? n) && (n <=? 0x7A)).

Definition validate_client_id (client_id : string) (clean_session : bool) : () + Z :=
  if negb (str_is_empty client_id) then
    if 23 <? str_len client_id then inr connect_return_codes.IDENTIFIER_REJECTED
    else if negb (forallb is_ascii_alphanumeric (as_bytes client_id)) then
      inr connect_return_codes.IDENTIFIER_REJECTED
    else inl tt
  else if negb clean_session then inr connect_return_codes.IDENTIFIER_REJECTED
  else inl tt.

(** * The methods of a runtime *)

Section Session.
Context {BC : BytesCrate} {MP : Mpsc} {HO : HashOrder}.
Context {S : Type} {ST : Storage S} {R W : Type} {AR : AsyncRead R} {AW : AsyncWrite W}.
Context {Au Az : Type} {AU : Authenticator Au} {AZ : Authorizer Az}.

Record Env := mkEnv {
  rt : Runtime R W;
  reader : R;
  writer : W;
  broker : Broker S R W Au Az;
}.

Definition with_rt (x : Runtime R W) (v : Env) : Env := mkEnv x (reader v) (writer v) (broker v).
Definition with_reader (x : R) (v : Env) : Env := mkEnv (rt v) x (writer v) (broker v).
Definition with_writer (x : W) (v : Env) : Env := mkEnv (rt v) (reader v) x (broker v).
Definition with_broker (x : Broker S R W Au Az) (v : Env) : Env :=
  mkEnv (rt v) (reader v) (writer v) x.

Section AnyError.
Context {E : Type}.

Definition on_runtime (f : Runtime R W → Runtime R W) : M Env E () :=
  modify (λ v, with_rt (f (rt v)) v).
Definition on_broker {B} (m : M (Broker S R W Au Az) E B) : M Env E B := zoom broker with_broker m.
Definition on_env_storage {B} (m : M S StorageError B) : M Env E (B + StorageError) :=
  on_broker (on_broker_storage m).

Definition next_packet_id : M Env E Z :=
  r ← gets rt;
  let id := rt_next_packet_id r in
  on_runtime (set_next_packet_id
    (if rt_next_packet_id r =? 65535 then 1 else rt_next_packet_id r + 1));;
  mret id.
End AnyError.

Definition send_packet (packet : Packet) : M Env SessionError () :=
  let buf := encode packet bytes_new in
  map_err IOError (zoom writer with_writer (write_all (as_slice buf))).

(** [self.message_tx.send(packet).await?] *)
Definition send_to_self (packet : Packet) : M Env SessionError () :=
  tx ← gets (λ v, rt_message_tx (rt v));
  r ← on_broker (on_router (mailbox_send tx packet));
  match r with
  | inl _ => mret tt
  | inr _ => throw (SendError packet)
  end.

(** [self.client_id.as_deref().unwrap_or("")] *)
Definition client_name (r : Runtime R W) : string := default EmptyString (rt_client_id r).

(** * Messages for the client *)

(** Tracking a message that has just been sent. *)
Definition track (now : Instant) (p : PublishPacket) (state : option Qos2State)
    (r : Runtime R W) : Runtime R W :=
  set_inflight (rt_inflight_queue r ++ [mkInflight (with_dup true p) now 0 state]) r.

Definition on_message (now : Instant) (message : Packet) : M Env SessionError () :=
  match message with
  | Publish pub_packet =>
      match qos pub_packet with
      | AtMostOnce => send_packet (Publish pub_packet)
      | AtLeastOnce =>
          if negb (dup pub_packet) then
            packet_id ← next_packet_id;
            let pub_packet := with_packet_id (Some packet_id) pub_packet in
            send_packet (Publish pub_packet);;
            on_runtime (track now pub_packet None)
          else send_packet (Publish pub_packet)
      | ExactlyOnce =>
          if negb (dup pub_packet) then
            packet_id ← next_packet_id;
            let pub_packet := with_packet_id (Some packet_id) pub_packet in
            send_packet (Publish pub_packet);;
            on_runtime (track now pub_packet (Some AwaitingPubRec))
          else send_packet (Publish pub_packet)
      end
  | _ => mret tt
  end.

(** The messages in flight that do not have the identifier. *)
Definition drop_inflight (id : Z) (l : list InflightMessage) : list InflightMessage :=
  filter (λ i, packet_id (if_packet i) ≠ Some id) l.

Definition on_puback (packet : PubAckPacket) : M Env SessionError bool :=
  on_runtime (λ r, set_inflight (drop_inflight (puback_id packet) (rt_inflight_queue r)) r);;
  mret true.

(** The loop of [on_pubrec], which stops at the first message it finds. *)
Fixpoint mark_received (now : Instant) (id : Z) (l : list InflightMessage) :
    list InflightMessage :=
  match l with
  | [] => []
  | i :: l' =>
      if bool_decide (packet_id (if_packet i) = Some id ∧ qos2_state i = Some AwaitingPubRec)
      then mkInflight (if_packet i) now 0 (Some AwaitingPubComp) :: l'
      else i :: mark_received now id l'
  end.

Definition on_pubrec (now : Instant) (packet : PubRecPacket) : M Env SessionError bool :=
  on_runtime (λ r, set_inflight (mark_received now (pubrec_id packet) (rt_inflight_queue r)) r);;
  send_packet (PubRel (mkPubRel (pubrec_id packet)));;
  mret true.

Definition on_pubcomp (packet : PubCompPacket) : M Env SessionError bool :=
  on_runtime (λ r, set_inflight (drop_inflight (pubcomp_id packet) (rt_inflight_queue r)) r);;
  mret true.

(** * Messages from the client *)

(** Checks the permission of the client and routes: the common end of
    [on_publish] and [on_pubrel]. *)
Definition authorize_and_route (utc : DateTime) (packet : PublishPacket) :
    M Env SessionError bool :=
  v ← gets id;
  match authorize_publish (authorizer (broker v)) (client_name (rt v)) (topic packet) with
  | inr _ => mret true
  | inl _ => on_broker (broker_route utc packet);; mret true
  end.

Definition on_pubrel (utc : DateTime) (packet : PubRelPacket) : M Env SessionError bool :=
  send_packet (PubComp (mkPubComp (pubrel_id packet)));;
  r ← gets rt;
  match rt_inbound_qos2 r !! pubrel_id packet with
  | Some received =>
      on_runtime (λ r, set_inbound (delete (pubrel_id packet) (rt_inbound_qos2 r)) r);;
      authorize_and_route utc (received_packet received)
  | None => mret true
  end.

Definition on_publish_qos1 (utc : DateTime) (packet : PublishPacket) : M Env SessionError bool :=
  match packet_id packet with
  | Some id =>
      send_packet (PubAck (mkPubAck id));;
      if dup packet then mret true else authorize_and_route utc packet
  | None => mret false
  end.

Definition on_publish_qos2 (packet : PublishPacket) : M Env SessionError bool :=
  match packet_id packet with
  | Some id =>
      r ← gets rt;
      match rt_inbound_qos2 r !! id with
      | Some _ => send_packet (PubRec (mkPubRec id));; mret true
      | None =>
          on_runtime (λ r, set_inbound (<[id := mkReceived packet]> (rt_inbound_qos2 r)) r);;
          send_packet (PubRec (mkPubRec id));;
          mret true
      end
  | None => mret false
  end.

Definition on_publish (utc : DateTime) (packet : PublishPacket) : M Env SessionError bool :=
  match qos packet with
  | AtLeastOnce => on_publish_qos1 utc packet
  | ExactlyOnce => on_publish_qos2 packet
  | AtMostOnce => authorize_and_route utc packet
  end.

(** * Subscriptions *)

(** The filters the client may subscribe to, and the places of the others. *)
Fixpoint split_authorized (z : Az) (client_id : string) (i : nat) (l : list (string * QoS)) :
    list (string * QoS) * list nat :=
  match l with
  | [] => ([], [])
  | (topic_filter, q) :: l' =>
      let '(authorized_filters, denied_indices) := split_authorized z client_id (i + 1) l' in
      match authorize_subscribe z client_id topic_filter with
      | inl _ => ((topic_filter, q) :: authorized_filters, denied_indices)
      | inr _ => (authorized_filters, i :: denied_indices)
      end
  end.

(** The return codes, place by place; [None] is the panic of an index that is
    out of range. *)
Fixpoint merge_codes (denied_indices : list nat) (router_codes : list Z) (router_idx : nat)
    (places : list nat) : option (list Z) :=
  match places with
  | [] => Some []
  | i :: places' =>
      if bool_decide (i ∈ denied_indices) then
        codes ← merge_codes denied_indices router_codes router_idx places';
        Some (subscribe_return_codes.FAILURE :: codes)
      else
        code ← router_codes !! router_idx;
        codes ← merge_codes denied_indices router_codes (router_idx + 1) places';
        Some (code :: codes)
  end.

Definition on_subscribe (packet : SubscribePacket) : M Env SessionError bool :=
  v ← gets id;
  let '(authorized_filters, denied_indices) :=
    split_authorized (authorizer (broker v)) (client_name (rt v)) 0 (topic_filters packet) in
  answer ←
    (if negb (bool_decide (authorized_filters = [])) then
       on_broker (broker_subscribe (rt_id (rt v)) (rt_message_tx (rt v)) authorized_filters)
     else mret ([], []));
  let '(router_codes, retained_messages) := answer in
  return_codes ← or_panic (merge_codes denied_indices router_codes 0
                             (seq 0 (length (topic_filters packet))));
  send_packet (SubAck (mkSubAck (subscribe_id packet) return_codes));;
  for_each retained_messages (λ retained_msg, send_to_self (Publish retained_msg));;
  mret true.

Definition on_unsubscribe (packet : UnsubscribePacket) : M Env SessionError bool :=
  r ← gets rt;
  on_broker (broker_unsubscribe (rt_id r) (unsub_filters packet));;
  send_packet (UnsubAck (mkUnsubAck (unsubscribe_id packet)));;
  mret true.

Definition on_pingreq : M Env SessionError bool := send_packet PingResp;; mret true.

Definition on_disconnect : M Env SessionError bool := on_runtime (set_will None);; mret false.

Definition on_packet (now : Instant) (utc : DateTime) (pack : Packet) : M Env SessionError bool :=
  match pack with
  | Publish p => on_publish utc p
  | PubAck p => on_puback p
  | PubRec p => on_pubrec now p
  | PubRel p => on_pubrel utc p
  | PubComp p => on_pubcomp p
  | Subscribe p => on_subscribe p
  | Unsubscribe p => on_unsubscribe p
  | PingReq => on_pingreq
  | Disconnect => on_disconnect
  | _ => mret false
  end.

(** * Retransmission *)

(** [now.duration_since(timestamp).as_millis() as u64] *)
Definition elapsed_ms (now timestamp : Instant) : Z :=
  as_u64 (Z.max 0 (now - timestamp) / 1000000).

(** What the closure of [retain_mut] does with a message: what is left of it,
    and what is to be sent again, the PUBLISH or the PUBREL.  [None] is the panic
    of [retry_count += 1] when the count is the greatest [u32]. *)
Definition retransmit_one (interval limit : Z) (now : Instant) (i : InflightMessage) :
    option (option InflightMessage * list PublishPacket * list Z) :=
  if interval <=? elapsed_ms now (timestamp i) then
    retry_count ← checked_u32 (retry_count i + 1);
    let i' := mkInflight (if_packet i) now retry_count (qos2_state i) in
    if limit <? retry_count then Some (None, [], [])
    else
      match qos2_state i' with
      | None | Some AwaitingPubRec => Some (Some i', [if_packet i'], [])
      | Some AwaitingPubComp =>
          Some (Some i', [], match packet_id (if_packet i') with Some id => [id] | None => [] end)
      end
  else Some (Some i, [], []).

Fixpoint retransmit_all (interval limit : Z) (now : Instant) (l : list InflightMessage) :
    option (list InflightMessage * list PublishPacket * list Z) :=
  match l with
  | [] => Some ([], [], [])
  | i :: l' =>
      '(kept, publish, pubrel) ← retransmit_one interval limit now i;
      '(kept', publish', pubrel') ← retransmit_all interval limit now l';
      Some (option_list kept ++ kept', publish ++ publish', pubrel ++ pubrel')
  end.

Definition on_retransmit (now : Instant) : M Env SessionError () :=
  c ← gets (λ v, config (broker v));
  let retransmission_interval_ms := get_retransmission_interval_ms c in
  if retransmission_interval_ms =? 0 then mret tt
  else
    r ← gets rt;
    '(kept, publish_to_retransmit, pubrel_to_retransmit) ←
      or_panic (retransmit_all retransmission_interval_ms (max_retransmission_limit c) now
                  (rt_inflight_queue r));
    on_runtime (set_inflight kept);;
    for_each publish_to_retransmit (λ packet, send_to_self (Publish packet));;
    for_each pubrel_to_retransmit (λ packet_id, send_packet (PubRel (mkPubRel packet_id))).
End Session.
