(* ===== verification/Lifecycle.v ===== *)
(** The life of a session in [src/session.rs]: connecting, being taken over,
    saving and restoring, the Will, and the state machine of [Runtime::run]
    with the way in ([Session::new], [Broker::add_client]) and the way out. *)

From S2P Require Import Prelude External Packet Codec Topic Storage Config Auth Router.
From S2P Require Import Broker Session.

Local Open Scope Z_scope.

(** * What is stored of a session *)

Definition persisted_will (w : WillMessage) : PersistedWillMessage :=
  mkPersistedWill (wm_topic w) (wm_payload w) (stored_qos_from_qos (wm_qos w)) (wm_retain w).

Definition restored_will (w : PersistedWillMessage) : WillMessage :=
  mkWill (pw_topic w) (pw_payload w) (qos_from_stored (pw_qos w)) (pw_retain w).

Definition persisted_qos2_state (s : Qos2State) : PersistedQos2State :=
  match s with AwaitingPubRec => PAwaitingPubRec | AwaitingPubComp => PAwaitingPubComp end.

Definition restored_qos2_state (s : PersistedQos2State) : Qos2State :=
  match s with PAwaitingPubRec => AwaitingPubRec | PAwaitingPubComp => AwaitingPubComp end.

Definition persisted_subscription (client_id : string) (fq : string * QoS) :
    PersistedSubscription :=
  mkPersistedSubscription client_id fq.1 (stored_qos_from_qos fq.2).

Definition persisted_inflight (client_id : string) (now : DateTime) (i : InflightMessage) :
    PersistedInflightMessage :=
  mkPersistedInflight client_id (default 0 (packet_id (if_packet i))) (topic (if_packet i))
    (payload (if_packet i)) (stored_qos_from_qos (qos (if_packet i))) (retain (if_packet i))
    (retry_count i) (persisted_qos2_state <$> qos2_state i) now.

Definition restored_inflight (now : Instant) (msg : PersistedInflightMessage) : InflightMessage :=
  mkInflight
    (mkPublish (pi_topic msg) (Some (pi_packet_id msg)) (pi_payload msg)
       (qos_from_stored (pi_qos msg)) (pi_retain msg) true)
    now (pi_retry_count msg) (restored_qos2_state <$> pi_qos2_state msg).

Definition persisted_inbound (client_id : string) (now : DateTime)
    (x : Z * ReceivedQos2Message) : PersistedInboundQos2Message :=
  let p := received_packet x.2 in
  mkPersistedInbound client_id x.1 (topic p) (payload p) (retain p) now.

Definition restored_inbound (msg : PersistedInboundQos2Message) : ReceivedQos2Message :=
  mkReceived (mkPublish (pq_topic msg) (Some (pq_packet_id msg)) (pq_payload msg) ExactlyOnce
    (pq_retain msg) false).

Section Lifecycle.
Context {BC : BytesCrate} {MP : Mpsc} {HO : HashOrder}.
Context {S : Type} {ST : Storage S} {R W : Type} {AR : AsyncRead R} {AW : AsyncWrite W}.
Context {Au Az : Type} {AU : Authenticator Au} {AZ : Authorizer Az}.

Abbreviation Env := (Env (S := S) (R := R) (W := W) (Au := Au) (Az := Az)).

Section AnyError.
Context {E : Type}.

Definition publish_will (utc : DateTime) : M Env E () :=
  r ← gets rt;
  match rt_will_message r with
  | None => mret tt
  | Some will =>
      on_runtime (set_will None);;
      on_broker (broker_route utc
        (mkPublish (wm_topic will) None (wm_payload will) AtMostOnce (wm_retain will) false))
  end.

Definition save_to_storage (now : DateTime) : M Env E () :=
  r ← gets rt;
  match rt_client_id r with
  | None => mret tt
  | Some client_id =>
      let persisted_session :=
        mkPersistedSession client_id (rt_next_packet_id r) (rt_keep_alive r)
          (persisted_will <$> rt_will_message r) now now in
      router_subs ← on_broker (broker_get_subscriptions (rt_id r));
      on_env_storage
        (save_session persisted_session
           (persisted_subscription client_id <$> router_subs)
           (persisted_inflight client_id now <$> rt_inflight_queue r)
           (persisted_inbound client_id now <$> map_iter (rt_inbound_qos2 r)));;
      mret tt
  end.

(** A list that is loaded, or nothing when loading fails. *)
Definition load_or_empty {B} (m : M S StorageError (list B)) : M Env E (list B) :=
  res ← on_env_storage m;
  match res with inl l => mret l | inr _ => mret [] end.

Definition restore_from_storage (now : Instant) (client_id : string) : M Env E bool :=
  loaded ← on_env_storage (load_session client_id);
  match loaded with
  | inr _ => mret false
  | inl None => mret false
  | inl (Some persisted_session) =>
      persisted_subs ← load_or_empty (load_subscriptions client_id);
      persisted_inflight ← load_or_empty (load_inflight_messages client_id);
      persisted_inbound_qos2 ← load_or_empty (load_inbound_qos2_messages client_id);
      on_runtime (λ r,
        set_will (restored_will <$> ps_will_message persisted_session)
          (set_keep_alive (ps_keep_alive persisted_session)
             (set_next_packet_id (ps_next_packet_id persisted_session) r)));;
      let topic_filters :=
        (λ s, (psub_topic_filter s, qos_from_stored (psub_qos s))) <$> persisted_subs in
      r ← gets rt;
      (if negb (bool_decide (topic_filters = [])) then
         on_broker (broker_subscribe (rt_id r) (rt_message_tx r) topic_filters);; mret tt
       else mret tt);;
      on_runtime (λ r, set_inflight (rt_inflight_queue r ++
                                     (restored_inflight now <$> persisted_inflight)) r);;
      on_runtime (λ r, set_inbound
        (foldl (λ m msg, <[pq_packet_id msg := restored_inbound msg]> m) (rt_inbound_qos2 r)
           persisted_inbound_qos2) r);;
      on_env_storage (delete_session client_id);;
      mret true
  end.
End AnyError.

(** * Connecting *)

Definition send_connack_error (return_code : Z) : M Env SessionError () :=
  send_packet (ConnAck (mkConnAck false return_code)).

(** [AuthError::InvalidCredentials] and the other errors have return codes of
    their own. *)
Definition auth_return_code (e : AuthError) : Z :=
  match e with
  | InvalidCredentials => connect_return_codes.BAD_USERNAME_OR_PASSWORD
  | _ => connect_return_codes.NOT_AUTHORIZED
  end.

Definition stored_will (connect : ConnectPacket) : option WillMessage :=
  if will_flag connect then
    match will_topic connect, will_payload connect with
    | Some topic, Some payload => Some (mkWill topic payload (will_qos connect) (will_retain connect))
    | _, _ => None
    end
  else None.

(** The end of [on_connect]: the client is accepted. *)
Definition accept_connection (session_present : bool) : M Env SessionError State :=
  send_packet (ConnAck (mkConnAck session_present connect_return_codes.ACCEPTED));;
  modify (λ v, with_rt (set_stream (Some (reader v, writer v)) (rt v)) v);;
  mret Processing.

(** [on_connect] once the client is authenticated. *)
Definition enter_session (now : Instant) (connect : ConnectPacket) : M Env SessionError State :=
  on_runtime (set_params (clean_session connect) (keep_alive connect));;
  on_runtime (λ r, match stored_will connect with
                   | Some will => set_will (Some will) r
                   | None => r
                   end);;
  if negb (str_is_empty (client_id connect)) then
    on_runtime (set_client_id (Some (client_id connect)));;
    v ← gets id;
    collision ← on_broker (has_collision (client_id connect) (rt_takeover (rt v)));
    match collision with
    | Some takeover =>
        on_broker (call_takeover takeover (reader v, writer v) (clean_session connect)
                     (keep_alive connect));;
        mret Cleanup
    | None =>
        if clean_session connect then
          on_env_storage (delete_session (client_id connect));;
          accept_connection false
        else
          session_present ← restore_from_storage now (client_id connect);
          accept_connection session_present
    end
  else accept_connection false.

Definition on_connect (now : Instant) (connect : ConnectPacket) : M Env SessionError State :=
  if negb (String.eqb (protocol_name connect) PROTOCOL_NAME)
     || negb (protocol_level connect =? PROTOCOL_LEVEL) then
    send_connack_error connect_return_codes.UNACCEPTABLE_PROTOCOL_VERSION;;
    mret Cleanup
  else
    match validate_client_id (client_id connect) (clean_session connect) with
    | inr return_code => send_connack_error return_code;; mret Cleanup
    | inl _ =>
        v ← gets id;
        match authenticate (authenticator (broker v))
                (mkCredentials (username connect) (password connect) (client_id connect)) with
        | inl _ => enter_session now connect
        | inr e => send_connack_error (auth_return_code e);; mret Cleanup
        end
    end.

(** * Being taken over *)

(** The stream of the new connection is the one [Env] holds. *)
Definition on_takeover (clean_session : bool) (keep_alive : Z) : M Env SessionError () :=
  let session_present := negb clean_session in
  send_packet (ConnAck (mkConnAck session_present connect_return_codes.ACCEPTED));;
  on_runtime (set_params clean_session keep_alive);;
  if clean_session then
    r ← gets rt;
    on_broker (broker_unsubscribe_all (rt_id r));;
    match rt_client_id r with
    | Some client_id => on_env_storage (delete_session client_id);; mret tt
    | None => mret tt
    end;;
    on_runtime (set_inflight [])
  else mret tt.

(** [self.stream.take()]: the halves of the stream become those [Env] works on. *)
Definition take_stream {E} : M Env E bool :=
  r ← gets rt;
  match rt_stream r with
  | None => mret false
  | Some (rd, wr) =>
      modify (λ v, mkEnv (set_stream None (rt v)) rd wr (broker v));;
      mret true
  end.

(** Takes the stream of a takeover and, when it goes well, keeps it. *)
Definition take_over {E} (params : TakeoverParams R W) : M Env E (() + SessionError) :=
  modify (λ v, with_reader (to_stream params).1 (with_writer (to_stream params).2 v));;
  res ← attempt (on_takeover (to_clean_session params) (to_keep_alive params));
  match res with
  | inl _ =>
      modify (λ v, with_rt (set_stream (Some (reader v, writer v)) (rt v)) v);;
      mret (inl tt)
  | inr e => mret (inr e)
  end.

(** [self.command_rx.recv().await]: waits for a command; the session holds a
    sender of its own, so the channel never closes. *)
Definition recv_command {E} : M Env E (Command R W) :=
  v ← gets id;
  match commands (broker v) !! rt_command_rx (rt v) with
  | None => hang
  | Some ch =>
      match queued ch with
      | [] => hang
      | c :: _ =>
          on_broker (modify (with_commands
            (<[rt_command_rx (rt v) := pop ch]> (commands (broker v)))));;
          mret c
      end
  end.

(** [self.message_rx.recv().await] *)
Definition recv_message {E} : M Env E Packet :=
  v ← gets id;
  let ms := mailboxes (router (broker v)) in
  match ms !! rt_message_tx (rt v) with
  | None => hang
  | Some ch =>
      match queued ch with
      | [] => hang
      | p :: _ =>
          on_broker (on_router (modify (with_mailboxes (<[rt_message_tx (rt v) := pop ch]> ms))));;
          mret p
      end
  end.

(** * The state machine *)

(** [Duration] of the keep-alive interval and of the retransmission timer, in
    milliseconds. *)
Definition keep_alive_timeout_ms (keep_alive_secs : Z) : Z :=
  if 0 <? keep_alive_secs then keep_alive_secs * 1500 else 3600 * 24 * 365 * 1000.

Definition timer_interval_ms (c : Config) : Z :=
  let retransmission_interval_ms := get_retransmission_interval_ms c in
  if 0 <? retransmission_interval_ms then retransmission_interval_ms / 2 else 3600 * 24 * 1000.

(** The branches of the [select!] of [do_processing]. *)
Inductive Branch := OnDecode | OnMessage | OnCommand | OnKeepAlive | OnRetransmit.

(** One turn: the branch that is taken, whether [decode] had been polled before
    another branch was (its future is then dropped), and the clocks. *)
Record Turn := mkTurn {
  branch : Branch;
  polled : bool;
  at_instant : Instant;
  at_utc : DateTime;
}.

(** Dropping a [decode] that is waiting loses what it has read. *)
Definition drop_decode {E} (was_polled : bool) : M Env E () :=
  v ← gets id;
  match decode (reader v) with
  | (r', Pending) => if was_polled then modify (with_reader r') else mret tt
  | _ => mret tt
  end.

(** The state a session goes to when its connection is over. *)
Definition lost_connection {E} : M Env E State :=
  r ← gets rt;
  mret (if negb (rt_clean_session r) then PendingState else Cleanup).

Definition decode_packet {E} : M Env E (Packet + PacketError) :=
  attempt (zoom reader with_reader decode).

(** One turn of the loop of [do_processing]: [Some] of the next state when the
    loop is left. *)
Definition processing_turn {E} (keep_alive_secs : Z) (t : Turn) : M Env E (option State) :=
  match branch t with
  | OnDecode =>
      pack ← decode_packet;
      success ←
        match pack with
        | inl pack =>
            res ← attempt (on_packet (at_instant t) (at_utc t) pack);
            mret (match res with inl b => b | inr _ => false end)
        | inr _ => mret false
        end;
      if negb success then next_state ← lost_connection; mret (Some next_state)
      else mret None
  | OnMessage =>
      drop_decode (polled t);;
      message ← recv_message;
      res ← attempt (on_message (at_instant t) message);
      match res with
      | inr _ => next_state ← lost_connection; mret (Some next_state)
      | inl _ => mret None
      end
  | OnCommand =>
      drop_decode (polled t);;
      command ← recv_command;
      match command with
      | Takeover params =>
          attempt (send_packet Disconnect);;
          res ← take_over params;
          match res with
          | inl _ => mret (Some Processing)
          | inr _ => mret (Some (if negb (to_clean_session params) then PendingState else Cleanup))
          end
      | Cancel => mret (Some Cleanup)
      end
  | OnKeepAlive =>
      drop_decode (polled t);;
      if 0 <? keep_alive_secs then next_state ← lost_connection; mret (Some next_state)
      else mret None
  | OnRetransmit =>
      drop_decode (polled t);;
      res ← attempt (on_retransmit (at_instant t));
      match res with
      | inr _ => next_state ← lost_connection; mret (Some next_state)
      | inl _ => mret None
      end
  end.

(** [do_waiting]; any branch but [OnDecode] is the command. *)
Definition do_waiting {E} (t : Turn) : M Env E State :=
  has_stream ← take_stream;
  if negb has_stream then mret Cleanup
  else
    match branch t with
    | OnDecode =>
        pack ← decode_packet;
        match pack with
        | inl (Connect connect) =>
            res ← attempt (on_connect (at_instant t) connect);
            mret (match res with inl state => state | inr _ => Cleanup end)
        | inl _ => mret Cleanup
        | inr _ => mret Cleanup
        end
    | _ => recv_command;; mret Cleanup
    end.

(** What [do_pending] does with the command it was waiting for. *)
Definition pending_command {E} : M Env E State :=
  command ← recv_command;
  match command with
  | Takeover params =>
      res ← take_over params;
      mret (match res with inl _ => Processing | inr _ => PendingState end)
  | Cancel => mret Cleanup
  end.

(** Where [run] is: about to enter a state, in the loop of [do_processing], at
    the receive of [do_pending], or done. *)
Inductive Phase :=
| Enter (s : State)
| InLoop (keep_alive_secs : Z)
| AwaitCommand
| Exited.

(** One step of [run]. *)
Definition run_step {E} (t : Turn) (ph : Phase) : M Env E Phase :=
  match ph with
  | Enter Waiting => s ← do_waiting t; mret (Enter s)
  | Enter Processing =>
      has_stream ← take_stream;
      if negb has_stream then mret (Enter Cleanup)
      else keep_alive_secs ← gets (λ v, rt_keep_alive (rt v)); mret (InLoop keep_alive_secs)
  | InLoop keep_alive_secs =>
      next ← processing_turn keep_alive_secs t;
      mret (match next with Some s => Enter s | None => InLoop keep_alive_secs end)
  | Enter PendingState => save_to_storage (at_utc t);; mret AwaitCommand
  | AwaitCommand => s ← pending_command; mret (Enter s)
  | Enter Cleanup => publish_will (at_utc t);; mret Exited
  | Exited => hang
  end.

Fixpoint run {E} (ts : list Turn) (ph : Phase) : M Env E Phase :=
  match ts with
  | [] => mret ph
  | t :: ts' => ph' ← run_step t ph; run ts' ph'
  end.

(** * The way in and the way out *)

(** [Session::new]: the handle, and the runtime its future starts with. *)
Definition session_new (id : string) (command_tx : CommandTx) (message_tx : Mailbox)
    (stream : R * W) : Session * Runtime R W :=
  (mkSession id command_tx,
   mkRuntime id None (make_takeover command_tx) command_tx message_tx (Some stream)
     true 0 None 1 [] ∅).

(** [Broker::add_client], with the channels [Session::new] creates. *)
Definition add_client {E} (id : string) (command_tx : CommandTx) (message_tx : Mailbox)
    (stream : R * W) : M (Broker S R W Au Az) E (Runtime R W) :=
  modify (λ b, with_commands (<[command_tx := mpsc_channel 10]> (commands b)) b);;
  on_router (modify (λ r, with_mailboxes (<[message_tx := mpsc_channel 100]> (mailboxes r)) r));;
  let '(handle, runtime) := session_new id command_tx message_tx stream in
  modify (λ b, with_b_sessions (<[session_id handle := handle]> (b_sessions b)) b);;
  mret runtime.

(** The end of the session's future, after [run]: the session is taken off the
    broker, and the runtime is dropped, its receivers with it. *)
Definition session_end {E} : M Env E () :=
  r ← gets rt;
  on_broker (remove_session (rt_id r) (rt_client_id r));;
  on_broker (modify (λ b, with_commands (delete (rt_command_rx r) (commands b)) b));;
  on_broker (on_router (modify (λ x, with_mailboxes (delete (rt_message_tx r) (mailboxes x)) x))).
End Lifecycle.
