(* ===== verification/SessionInv.v ===== *)
(** What every session keeps true: the packet identifiers, the queue of messages
    in flight and the inbound QoS 2 messages are well formed, the router is the
    table it stands for, and what is stored can be restored.  Every method of a
    session preserves this, whatever it comes to, and none of them panics. *)

From S2P Require Import Prelude Utf8 External Packet Codec CodecSim CodecFacts Topic.
From S2P Require Import Storage Config Auth Router RouterFacts Broker Session.
From S2P Require Import Lifecycle.

Local Open Scope Z_scope.

(** * Well-formed runtimes *)

Definition valid_id (id : Z) : Prop := 1 ≤ id ≤ 65535.

(** The exchange state goes with the level. *)
Definition state_fits {T} (q : QoS) (s : option T) : Prop :=
  match q, s with
  | AtLeastOnce, None => True
  | ExactlyOnce, Some _ => True
  | _, _ => False
  end.

(** The counts of a session stay below this bound: the greatest [u32], unless that
    is the limit, and then all of them can be reached. *)
Definition retry_bound (c : Config) : Z :=
  if max_retransmission_limit c <? 2 ^ 32 - 1 then 2 ^ 32 - 1 else 2 ^ 32.

Lemma retry_bound_range c : 2 ^ 32 - 1 ≤ retry_bound c ≤ 2 ^ 32.
Proof. unfold retry_bound. destruct (_ <? _); lia. Qed.

(** A message in flight has an identifier, is above level 0, and would be sent
    again with the dup flag; how often it has been is below the bound. *)
Record wf_inflight (bound : Z) (i : InflightMessage) : Prop := {
  wf_if_id : ∃ id, packet_id (if_packet i) = Some id ∧ valid_id id;
  wf_if_state : state_fits (qos (if_packet i)) (qos2_state i);
  wf_if_dup : dup (if_packet i) = true;
  wf_if_retry : is_u32 (retry_count i);
  wf_if_bound : retry_count i < bound;
}.

Record wf_inbound (id : Z) (m : ReceivedQos2Message) : Prop := {
  wf_in_id : packet_id (received_packet m) = Some id;
  wf_in_qos : qos (received_packet m) = ExactlyOnce;
  wf_in_u16 : is_u16 id;
}.

Record wf_runtime {R W} (bound : Z) (r : Runtime R W) : Prop := {
  wf_keep : is_u16 (rt_keep_alive r);
  wf_next : valid_id (rt_next_packet_id r);
  wf_queue : Forall (wf_inflight bound) (rt_inflight_queue r);
  wf_received : map_Forall wf_inbound (rt_inbound_qos2 r);
}.

(** The same of what is stored. *)
Record wf_stored_inflight (bound : Z) (m : PersistedInflightMessage) : Prop := {
  wf_pi_id : valid_id (pi_packet_id m);
  wf_pi_state : state_fits (qos_from_stored (pi_qos m)) (pi_qos2_state m);
  wf_pi_retry : is_u32 (pi_retry_count m);
  wf_pi_bound : pi_retry_count m < bound;
}.

Record wf_saved (bound : Z) (x : SavedSession) : Prop := {
  wf_saved_keep : is_u16 (ps_keep_alive (saved x));
  wf_saved_next : valid_id (ps_next_packet_id (saved x));
  wf_saved_inbound : Forall (λ m, is_u16 (pq_packet_id m)) (saved_inbound x);
  wf_saved_inflight : Forall (wf_stored_inflight bound) (saved_inflight x);
}.

Definition wf_stored (bound : Z) (d : StoredData) : Prop := map_Forall (λ _, wf_saved bound) (kept d).

Arguments wf_if_id {bound} _ _.
Arguments wf_if_state {bound} _ _.
Arguments wf_if_dup {bound} _ _.
Arguments wf_keep {R W bound} _ _.
Arguments wf_next {R W bound} _ _.
Arguments wf_queue {R W bound} _ _.
Arguments wf_received {R W bound} _ _.
Arguments wf_pi_id {bound} _ _.
Arguments wf_pi_state {bound} _ _.
Arguments wf_saved_keep {bound} _ _.
Arguments wf_saved_next {bound} _ _.
Arguments wf_saved_inflight {bound} _ _.

(** The numbers a packet brings into a session are [u16]s; so is the keep-alive a
    command brings. *)
Definition typed_packet (p : Packet) : Prop :=
  match p with
  | Publish p => match packet_id p with Some id => is_u16 id | None => True end
  | Connect c => is_u16 (keep_alive c)
  | _ => True
  end.

Lemma wf_decoded_typed p : wf_decoded p → typed_packet p.
Proof.
  destruct p as [p| |p| | | | | | | | | | |]; try done; [by intros []|].
  intros [_ H]. simpl. by destruct (packet_id p) as [id|]; [apply H|].
Qed.

Definition typed_command {R W} (c : Command R W) : Prop :=
  match c with Takeover params => is_u16 (to_keep_alive params) | Cancel => True end.

Lemma counts_typed {R W} bound (r : Runtime R W) :
  wf_runtime bound r → Forall (λ i, is_u32 (retry_count i)) (rt_inflight_queue r).
Proof. intros Hr. eapply Forall_impl; [apply (wf_queue r Hr)|]. by intros i []. Qed.

(** * Packet identifiers *)

Definition succ_id (n : Z) : Z := if n =? 65535 then 1 else n + 1.

Lemma succ_id_valid n : valid_id n → valid_id (succ_id n).
Proof. unfold succ_id, valid_id. destruct (Z.eqb_spec n 65535); lia. Qed.

Lemma succ_id_iter n k :
  valid_id n → Nat.iter k succ_id n = (n - 1 + Z.of_nat k) mod 65535 + 1.
Proof.
  intros Hn. induction k as [|k IH].
  { simpl. rewrite Z.add_0_r, Z.mod_small by (unfold valid_id in Hn; lia). lia. }
  change (Nat.iter (S k) succ_id n) with (succ_id (Nat.iter k succ_id n)).
  rewrite IH. clear IH. unfold succ_id.
  set (m := n - 1 + Z.of_nat k).
  replace (n - 1 + Z.of_nat (S k)) with (m + 1) by lia.
  pose proof (Z.mod_pos_bound m 65535 ltac:(lia)).
  rewrite Z.add_mod by lia. change (1 mod 65535) with 1.
  destruct (Z.eqb_spec (m mod 65535 + 1) 65535) as [E|E].
  - by rewrite E.
  - rewrite (Z.mod_small (m mod 65535 + 1)) by lia. lia.
Qed.

(** * Updates of the runtime *)

Section Updates.
Context {R W : Type} {bound : Z}.
Implicit Types r : Runtime R W.

Lemma wf_set_inflight l r : Forall (wf_inflight bound) l → wf_runtime bound r → wf_runtime bound (set_inflight l r).
Proof. intros Hl []. by split. Qed.

Lemma wf_set_inbound m r : map_Forall wf_inbound m → wf_runtime bound r → wf_runtime bound (set_inbound m r).
Proof. intros Hm []. by split. Qed.

Lemma wf_set_keep clean n r : is_u16 n → wf_runtime bound r → wf_runtime bound (set_params clean n r).
Proof. intros Hn []. by split. Qed.

Lemma wf_set_next n r : valid_id n → wf_runtime bound r → wf_runtime bound (set_next_packet_id n r).
Proof. intros Hn []. by split. Qed.

Lemma wf_drop_inflight id l : Forall (wf_inflight bound) l → Forall (wf_inflight bound) (drop_inflight id l).
Proof.
  intros Hl. apply Forall_forall. intros i [_ Hi]%list_elem_of_filter.
  by eapply Forall_forall in Hi.
Qed.

Lemma wf_mark_received now id l :
  Forall (wf_inflight bound) l → Forall (wf_inflight bound) (mark_received now id l).
Proof.
  induction 1 as [|i l Hi Hl IH]; cbn [mark_received]; [constructor|].
  case_bool_decide as Hd; constructor; try done.
  destruct Hi as [H1 H2 H3 H4 H5], Hd as [_ Hs]. split; try done; simpl.
  - rewrite Hs in H2. by destruct (qos (if_packet i)).
  - unfold is_u32 in H4. lia.
Qed.

Lemma wf_track now p id s r :
  0 < bound → packet_id p = Some id → valid_id id → state_fits (qos p) s → wf_runtime bound r →
  wf_runtime bound (track now p s r).
Proof.
  intros Hb Hp Hid Hs Hr. apply wf_set_inflight; [|done].
  apply Forall_app. split; [apply Hr|]. constructor; [|constructor].
  split; simpl; eauto; unfold is_u32; lia.
Qed.

Definition resendable (p : PublishPacket) : Prop := dup p = true ∧ qos p ≠ AtMostOnce.

Lemma wf_retransmit_one c interval now i k pubs rels :
  retry_bound c ≤ bound → wf_inflight bound i →
  retransmit_one interval (max_retransmission_limit c) now i = Some (k, pubs, rels) →
  (∀ i', k = Some i' → wf_inflight bound i') ∧ Forall resendable pubs.
Proof.
  intros Hb Hi. unfold retransmit_one.
  assert (Hp : resendable (if_packet i)).
  { destruct Hi as [_ H2 H3 _]. split; [done|]. by destruct (qos (if_packet i)). }
  destruct (_ <=? _); [|intros [= <- <- <-]; split; [by intros ? [= <-]|apply Forall_nil_2]].
  destruct (checked_u32 _) as [n|] eqn:En; [|done]. apply checked_u32_Some in En as [-> Hn].
  cbn [mbind option_bind]. cbv zeta.
  destruct (Z.ltb_spec (max_retransmission_limit c) (retry_count i + 1)) as [Hl|Hl];
    [intros [= <- <- <-]; split; [done|apply Forall_nil_2]|].
  assert (Hi' : wf_inflight bound (mkInflight (if_packet i) now (retry_count i + 1) (qos2_state i))).
  { destruct Hi. split; try done. cbn. unfold retry_bound, is_u32 in *.
    destruct (Z.ltb_spec (max_retransmission_limit c) (2 ^ 32 - 1)); lia. }
  cbn [qos2_state if_packet]. destruct (qos2_state i) as [[]|]; intros [= <- <- <-];
    (split; [by intros ? [= <-]|]); rewrite ?Forall_singleton; first [done|apply Forall_nil_2].
Qed.

(** The messages a retransmission keeps are well formed, and what it sends
    again comes from the queue. *)
Lemma wf_retransmit c interval now l kept pubs rels :
  retry_bound c ≤ bound → Forall (wf_inflight bound) l →
  retransmit_all interval (max_retransmission_limit c) now l = Some (kept, pubs, rels) →
  Forall (wf_inflight bound) kept ∧ Forall resendable pubs.
Proof.
  intros Hb Hl. revert kept pubs rels. induction Hl as [|i l Hi Hl IH]; intros kept pubs rels.
  { intros [= <- <- <-]. by split. }
  cbn [retransmit_all]. destruct (retransmit_one _ _ _ _) as [[[k1 p1] r1]|] eqn:E1; [|done].
  cbn [mbind option_bind]. destruct (retransmit_all _ _ _ l) as [[[k2 p2] r2]|]; [|done].
  intros [= <- <- <-]. destruct (IH k2 p2 r2 eq_refl) as [IH1 IH2].
  apply wf_retransmit_one in E1 as [H1 H2]; [|done..].
  rewrite !Forall_app. split_and!; try done. destruct k1; constructor; [by apply H1|constructor].
Qed.
End Updates.

(** * The shared state *)

Section Invariant.
Context {BC : BytesCrate} {MP : Mpsc} {MPL : MpscLaws} {HO : HashOrder} {HOL : HashOrderLaws}.
Context {S : Type} {ST : Storage S} {SL : StorageLaws S}.
Context {R W : Type} {AR : AsyncRead R} {AW : AsyncWrite W} {AWL : AsyncWriteLaws W}.
Context {Au Az : Type} {AU : Authenticator Au} {AZ : Authorizer Az}.
Context (bound : Z).

Abbreviation Env := (Env (S := S) (R := R) (W := W) (Au := Au) (Az := Az)).
Abbreviation Broker := (Broker S R W Au Az).

Definition wf_router (r : Router S) : Prop :=
  (∃ t, rep t (data r)) ∧ storage_inv (storage r) ∧ wf_stored bound (stored r).

(** The commands that wait carry what their types allow. *)
Definition typed_commands (b : Broker) : Prop :=
  map_Forall (λ _ ch, Forall typed_command (queued ch)) (commands b).

Definition wf_broker (b : Broker) : Prop :=
  wf_router (router b) ∧ typed_commands b ∧ retry_bound (config b) ≤ bound.

Definition wf_env (v : Env) : Prop := wf_runtime bound (rt v) ∧ wf_broker (broker v).

Lemma wf_env_bound v : wf_env v → 0 < bound.
Proof. intros (_ & _ & _ & Hb). pose proof (retry_bound_range (config (broker v))). lia. Qed.

(** What a call on the storage gives when it succeeds. *)
Definition if_loaded {A} (Q : A → Prop) (x : A + StorageError) : Prop :=
  match x with inl a => Q a | inr _ => True end.

Lemma safe_on_storage {E A} (m : M S StorageError A) R0 (Q : A → Prop) :
  storage_call storage_inv storage_abs m R0 →
  (∀ d d' a, wf_stored bound d → R0 d d' a → wf_stored bound d' ∧ Q a) →
  safe (E := E) wf_router (if_loaded Q) (on_storage m).
Proof.
  intros H HR r (Ht & Hs & Hw).
  destruct (on_storage_spec (E := E) m R0 r H Hs) as (s' & res & -> & Hi & Ha). simpl.
  destruct res as [a|e]; simpl.
  - destruct (HR _ _ _ Hw Ha). by split_and!.
  - unfold wf_router, stored in *. simpl. by rewrite Ha.
Qed.

Lemma safe_mailbox_send {E} mb p : safe (E := E) wf_router (λ _, True) (mailbox_send mb p).
Proof.
  intros r Hr. destruct (mailbox_send_cases (E := E) mb p r)
    as [[_ ->]|[(c & _ & _ & ->)|(c & _ & _ & ->)]]; by split.
Qed.

Lemma safe_handle_retained {E} now p :
  safe (E := E) wf_router (λ _, True) (handle_retained_message now p).
Proof.
  unfold handle_retained_message. destruct (payload p).
  - eapply safe_bind; [|intros; by apply safe_ret].
    eapply safe_on_storage with (Q := λ _, True); [apply delete_retained_message_spec|].
    by intros d d' a Hd ->.
  - eapply safe_bind; [eapply safe_on_storage with (Q := λ _, True);
      [apply load_retained_message_spec|by intros d d' a Hd [-> _]]|].
    intros existing _. eapply safe_bind; [eapply safe_on_storage with (Q := λ _, True);
      [apply count_retained_messages_spec|by intros d d' a Hd [-> _]]|].
    intros count _. cbv zeta. eapply safe_bind; [apply safe_gets|]. intros lim _.
    destruct (_ && _); [by apply safe_ret|].
    eapply safe_bind; [eapply safe_on_storage with (Q := λ _, True);
      [apply save_retained_message_spec|by intros d d' a Hd ->]|].
    intros [|] _; [|by apply safe_ret].
    eapply safe_bind; [eapply safe_on_storage with (Q := λ _, True);
      [apply count_retained_messages_spec|by intros d d' x Hd [-> _]]|].
    intros; by apply safe_ret.
Qed.

Lemma safe_route {E} now p : safe (E := E) wf_router (λ _, True) (route now p).
Proof.
  unfold route. destruct (negb _); [by apply safe_ret|].
  eapply safe_bind; [destruct (retain p); [apply safe_handle_retained|by apply safe_ret]|].
  intros _ _. intros r Hr. rewrite route_deliveries. revert r Hr.
  change (safe (E := E) wf_router (λ _, True)
    (λ r, for_each (deliveries p (rows (data r))) send_to r)).
  intros r Hr. apply safe_for_each; [|done]. intros x _.
  eapply safe_bind; [apply safe_mailbox_send|]. intros; by apply safe_ret.
Qed.

Lemma safe_subscribe {E} sid mb fs :
  safe (E := E) wf_router (λ x, length x.1 = length fs) (subscribe sid mb fs).
Proof.
  intros r ([t Ht] & Hs & Hw).
  destruct (subscribe_spec (E := E) sid mb fs r t Hs Ht) as (r' & pkts & -> & H1 & H2 & H3 & _).
  split; [|by simpl; rewrite length_fmap]. split_and!; [by eauto|done|].
  change (wf_stored bound (stored r')). by rewrite H2.
Qed.

Lemma safe_unsubscribe {E} sid fs : safe (E := E) wf_router (λ _, True) (unsubscribe sid fs).
Proof.
  intros r ([t Ht] & Hs & Hw).
  destruct (unsubscribe_spec (E := E) sid fs r t Ht) as (d' & -> & H1).
  split; [|done]. split_and!; by eauto.
Qed.

Lemma safe_unsubscribe_all {E} sid : safe (E := E) wf_router (λ _, True) (unsubscribe_all sid).
Proof.
  intros r ([t Ht] & Hs & Hw).
  destruct (unsubscribe_all_spec (E := E) sid r t Ht) as (d' & -> & H1 & _).
  split; [|done]. split_and!; by eauto.
Qed.

(** * From the router to the session *)

Lemma safe_on_router {E A} (Q : A → Prop) (m : M (Router S) E A) :
  safe wf_router Q m → safe (E := E) wf_broker Q (on_router m).
Proof. apply safe_zoom; [by intros b []|]. by intros b r [] Hr. Qed.

Lemma safe_on_broker {E A} (Q : A → Prop) (m : M Broker E A) :
  safe wf_broker Q m → safe (E := E) wf_env Q (on_broker m).
Proof. apply safe_zoom; [by intros v []|]. by intros v b [] Hb. Qed.

Lemma safe_on_env_storage {E A} (m : M S StorageError A) R0 (Q : A → Prop) :
  storage_call storage_inv storage_abs m R0 →
  (∀ d d' a, wf_stored bound d → R0 d d' a → wf_stored bound d' ∧ Q a) →
  safe (E := E) wf_env (if_loaded Q) (on_env_storage m).
Proof. intros H HR. by eapply safe_on_broker, safe_on_router, safe_on_storage. Qed.

Lemma safe_on_runtime {E} f :
  (∀ r, wf_runtime bound r → wf_runtime bound (f r)) → safe (E := E) wf_env (λ _, True) (on_runtime f).
Proof. intros Hf. apply safe_modify. intros v [H1 H2]. split; [by apply Hf|done]. Qed.

Lemma safe_command_send {E} tx c :
  typed_command c → safe (E := E) wf_broker (λ _, True) (command_send tx c).
Proof.
  intros Hc b Hb. unfold command_send. rewrite bind_gets.
  destruct (commands b !! tx) as [ch|] eqn:Hch; [|done]. destruct (_ <? _)%nat; [|done].
  destruct Hb as (H1 & H2 & H3). split; [|done]. split; [done|]. split; [|done].
  apply map_Forall_insert_2; [|done].
  rewrite queued_push. apply Forall_app. split; [exact (H2 tx ch Hch)|by constructor].
Qed.

Lemma safe_send_packet p : safe wf_env (λ _, True) (send_packet p).
Proof.
  unfold send_packet. apply safe_map_err.
  apply (safe_zoom wf_env (λ _, True)); [done|by intros v w [] _|].
  intros w _. split; [done|]. pose proof (write_all_no_panic (as_slice (encode p bytes_new)) w).
  by destruct (write_all _ w) as [w' []].
Qed.

Lemma safe_send_to_self p : safe wf_env (λ _, True) (send_to_self p).
Proof.
  unfold send_to_self. eapply safe_bind; [apply safe_gets|]. intros tx _.
  eapply safe_bind; [apply safe_on_broker, safe_on_router, safe_mailbox_send|].
  intros [] _; [by apply safe_ret|apply safe_throw].
Qed.

Lemma safe_next_packet_id {E} : safe (E := E) wf_env valid_id next_packet_id.
Proof.
  intros v Hv. unfold next_packet_id. rewrite bind_gets.
  assert (Hn : valid_id (rt_next_packet_id (rt v))) by apply Hv. cbv zeta.
  eapply (safe_bind _ (λ _, True)); [|intros _ _; by apply safe_ret|done].
  apply safe_on_runtime. intros r Hr. apply wf_set_next; [by apply succ_id_valid|done].
Qed.
End Invariant.

#[export] Hint Resolve safe_send_packet safe_send_to_self safe_next_packet_id
  safe_mailbox_send safe_route safe_unsubscribe safe_unsubscribe_all : safe.
