(* ===== verification/SessionSafe.v ===== *)
(** The methods of a session one by one: each preserves the invariant of
    [SessionInv.v] whatever it comes to, and none panics; and the state machine
    that calls them, where only [decode] can panic. *)

From S2P Require Import Prelude External Packet Codec CodecFacts Topic Storage Config.
From S2P Require Import Auth Router RouterFacts Broker Session Lifecycle SessionInv.

Local Open Scope Z_scope.

Section SessionSafe.
Context {BC : BytesCrate} {BL : BytesLaws} {MP : Mpsc} {MPL : MpscLaws} {HO : HashOrder} {HOL : HashOrderLaws}.
Context {S : Type} {ST : Storage S} {SL : StorageLaws S}.
Context {R W : Type} {AR : AsyncRead R} {ARL : AsyncReadLaws R} {AW : AsyncWrite W} {AWL : AsyncWriteLaws W}.
Context {Au Az : Type} {AU : Authenticator Au} {AZ : Authorizer Az}.
Context (bound : Z) (Hbound : 0 < bound).

Abbreviation Env := (Env (S := S) (R := R) (W := W) (Au := Au) (Az := Az)).
Abbreviation Broker := (Broker S R W Au Az).
Abbreviation safe_env := (safe (wf_env (S := S) (R := R) (W := W) (Au := Au) (Az := Az) bound)).
Abbreviation keeps_env := (keeps (wf_env (S := S) (R := R) (W := W) (Au := Au) (Az := Az) bound)).

(** One action after the other. *)
Ltac safe_then := eapply safe_bind; [|intros ? ?].
Ltac safe_done := intros; by apply safe_ret.

Lemma safe_on_message now p : safe_env (λ _, True) (on_message now p).
Proof.
  unfold on_message. destruct p as [| |p| | | | | | | | | | |]; try by apply safe_ret.
  destruct (qos p) eqn:Hq; [apply safe_send_packet|destruct (dup p); cbn [negb];
    [apply safe_send_packet|]..]; (safe_then; [apply safe_next_packet_id|]); cbv zeta;
    (safe_then; [apply safe_send_packet|]); apply safe_on_runtime; intros r Hr;
    (eapply wf_track; [done..| |done]); cbn; by rewrite Hq.
Qed.

Lemma safe_on_puback p : safe_env (λ _, True) (on_puback p).
Proof.
  unfold on_puback. safe_then; [apply safe_on_runtime|safe_done].
  intros r Hr. apply wf_set_inflight; [|done]. apply wf_drop_inflight, Hr.
Qed.

Lemma safe_on_pubcomp p : safe_env (λ _, True) (on_pubcomp p).
Proof.
  unfold on_pubcomp. safe_then; [apply safe_on_runtime|safe_done].
  intros r Hr. apply wf_set_inflight; [|done]. apply wf_drop_inflight, Hr.
Qed.

Lemma safe_on_pubrec now p : safe_env (λ _, True) (on_pubrec now p).
Proof.
  unfold on_pubrec. safe_then; [apply safe_on_runtime|].
  - intros r Hr. apply wf_set_inflight; [|done]. apply wf_mark_received, Hr.
  - safe_then; [apply safe_send_packet|safe_done].
Qed.

Lemma safe_authorize_and_route utc p : safe_env (λ _, True) (authorize_and_route utc p).
Proof.
  unfold authorize_and_route. safe_then; [apply safe_gets|].
  destruct (authorize_publish _ _ _); [|by apply safe_ret].
  safe_then; [|safe_done]. eapply safe_on_broker, safe_on_router, safe_route.
Qed.

Lemma safe_on_pubrel utc p : safe_env (λ _, True) (on_pubrel utc p).
Proof.
  unfold on_pubrel. safe_then; [apply safe_send_packet|]. safe_then; [apply safe_gets|].
  destruct (_ !! _); [|by apply safe_ret].
  safe_then; [apply safe_on_runtime|apply safe_authorize_and_route].
  intros r' Hr. apply wf_set_inbound; [|done]. apply map_Forall_delete, Hr.
Qed.

Lemma safe_on_publish_qos1 utc p : safe_env (λ _, True) (on_publish_qos1 utc p).
Proof.
  unfold on_publish_qos1. destruct (packet_id p); [|by apply safe_ret].
  safe_then; [apply safe_send_packet|]. destruct (dup p); [by apply safe_ret|].
  apply safe_authorize_and_route.
Qed.

Lemma safe_on_publish_qos2 p :
  qos p = ExactlyOnce → typed_packet (Publish p) → safe_env (λ _, True) (on_publish_qos2 p).
Proof.
  intros Hq Hp. unfold on_publish_qos2. destruct (packet_id p) as [id|] eqn:Hid; [|by apply safe_ret].
  safe_then; [apply safe_gets|]. destruct (_ !! _).
  - safe_then; [apply safe_send_packet|safe_done].
  - safe_then; [apply safe_on_runtime|].
    + intros r' Hr. apply wf_set_inbound; [|done]. apply map_Forall_insert_2; [|apply Hr].
      simpl in Hp. rewrite Hid in Hp. by split.
    + safe_then; [apply safe_send_packet|safe_done].
Qed.

Lemma safe_on_publish utc p :
  typed_packet (Publish p) → safe_env (λ _, True) (on_publish utc p).
Proof.
  intros Hp. unfold on_publish. destruct (qos p) eqn:Hq; [apply safe_authorize_and_route|
    apply safe_on_publish_qos1|by apply safe_on_publish_qos2].
Qed.

(** * SUBSCRIBE *)

Lemma split_authorized_denied z c i l x :
  x ∈ (split_authorized z c i l).2 → (i ≤ x < i + length l)%nat.
Proof.
  revert i. induction l as [|[f q] l IH]; intros i; cbn [split_authorized]; [by intros ?%elem_of_nil|].
  specialize (IH (i + 1)%nat). destruct (split_authorized z c (i + 1) l) as [a d].
  destruct (authorize_subscribe z c f); cbn [snd] in *; intros Hx; simpl.
  - specialize (IH Hx). lia.
  - apply elem_of_cons in Hx as [->|Hx]; [|specialize (IH Hx)]; lia.
Qed.

(** What stands at each place of the SUBACK: the answers to the authorized
    filters in order, and a failure at the places of the others. *)
Fixpoint place_codes (z : Az) (c : string) (codes : list Z) (l : list (string * QoS)) : list Z :=
  match l with
  | [] => []
  | (f, q) :: l' =>
      match authorize_subscribe z c f with
      | inl _ => match codes with
                 | code :: codes' => code :: place_codes z c codes' l'
                 | [] => []
                 end
      | inr _ => subscribe_return_codes.FAILURE :: place_codes z c codes l'
      end
  end.

(** The indices of [merge_codes] are in range, and it computes [place_codes]. *)
Lemma merge_codes_spec z c l i k codes denied :
  length codes = (k + length (split_authorized z c i l).1)%nat →
  (∀ x, (i ≤ x)%nat → x ∈ denied ↔ x ∈ (split_authorized z c i l).2) →
  merge_codes denied codes k (seq i (length l)) = Some (place_codes z c (drop k codes) l).
Proof.
  revert i k. induction l as [|[f q] l IH]; intros i k Hc Hd; [done|].
  cbn [split_authorized length seq merge_codes place_codes] in *.
  pose proof (λ x, split_authorized_denied z c (i + 1) l x) as Hr.
  specialize (IH (i + 1)%nat). rewrite Nat.add_1_r in IH, Hr, Hc, Hd.
  destruct (split_authorized z c (Datatypes.S i) l) as [a d] eqn:Es. cbn [fst snd] in *.
  destruct (authorize_subscribe z c f) as [u|e]; cbn [fst snd length] in *.
  - rewrite bool_decide_false.
    2:{ intros Hi. apply Hd in Hi; [|lia]. apply Hr in Hi. lia. }
    destruct (lookup_lt_is_Some_2 codes k ltac:(lia)) as [code Hcode].
    rewrite Hcode. cbn [mbind option_bind]. rewrite Nat.add_1_r, (IH (Datatypes.S k)); [|lia|].
    + cbn. by rewrite (drop_S codes code k Hcode).
    + intros x Hx. apply Hd. lia.
  - rewrite bool_decide_true by (apply Hd; [lia|by left]).
    rewrite (IH k); [done|lia|]. intros x Hx. rewrite Hd by lia.
    rewrite elem_of_cons. split; [intros [->|?]; [lia|done]|by right].
Qed.

(** The codes the router gives to the authorized filters fill the places. *)
Lemma merge_codes_subscribe z c l codes :
  length codes = length (split_authorized z c 0 l).1 →
  merge_codes (split_authorized z c 0 l).2 codes 0 (seq 0 (length l)) =
  Some (place_codes z c codes l).
Proof. intros Hc. rewrite (merge_codes_spec z c l 0 0 codes); [done|done|]. by intros x _. Qed.

Lemma safe_on_subscribe p : safe_env (λ _, True) (on_subscribe p).
Proof.
  unfold on_subscribe. safe_then; [apply safe_gets|]. rename a into v.
  pose proof (merge_codes_subscribe (authorizer (broker v)) (client_name (rt v)) (topic_filters p))
    as Hmerge.
  destruct (split_authorized _ _ 0 _) as [fs denied]. cbn [fst snd] in Hmerge.
  eapply safe_bind with (Q := λ x, length x.1 = length fs).
  { destruct (bool_decide_reflect (fs = [])) as [->|Hne]; cbn [negb]; [by apply safe_ret|].
    eapply safe_on_broker, safe_on_router, safe_subscribe. }
  intros [codes pkts] Hl. cbn [fst] in Hl. rewrite (Hmerge codes Hl). cbn [or_panic].
  safe_then; [by apply safe_ret with (Q := λ _, True)|].
  safe_then; [apply safe_send_packet|].
  safe_then; [|safe_done]. apply safe_for_each. intros x _. apply safe_send_to_self.
Qed.

Lemma safe_on_unsubscribe p : safe_env (λ _, True) (on_unsubscribe p).
Proof.
  unfold on_unsubscribe. safe_then; [apply safe_gets|].
  safe_then; [eapply safe_on_broker, safe_on_router, safe_unsubscribe|].
  safe_then; [apply safe_send_packet|safe_done].
Qed.

Lemma safe_on_packet now utc p : typed_packet p → safe_env (λ _, True) (on_packet now utc p).
Proof.
  intros Hp. destruct p; cbn [on_packet]; try by apply safe_ret.
  - by apply safe_on_publish.
  - apply safe_on_puback.
  - apply safe_on_pubrec.
  - apply safe_on_pubrel.
  - apply safe_on_pubcomp.
  - apply safe_on_subscribe.
  - apply safe_on_unsubscribe.
  - unfold on_pingreq. safe_then; [apply safe_send_packet|safe_done].
  - unfold on_disconnect. safe_then; [apply safe_on_runtime; by intros r []|safe_done].
Qed.

(** What a tick does with what it has collected. *)
Lemma safe_resend kept pubs rels :
  Forall (wf_inflight bound) kept →
  safe_env (λ _, True) (on_runtime (set_inflight kept);;
    for_each pubs (λ packet, send_to_self (Publish packet));;
    for_each rels (λ packet_id, send_packet (PubRel (mkPubRel packet_id)))).
Proof.
  intros Hk. safe_then; [apply safe_on_runtime; intros r Hr; by apply wf_set_inflight|].
  safe_then; apply safe_for_each; intros x _; [apply safe_send_to_self|apply safe_send_packet].
Qed.

(** A tick panics when collecting does. *)
Lemma on_retransmit_cases now (v : Env) :
  wf_env bound v →
  let interval := get_retransmission_interval_ms (config (broker v)) in
  wf_env bound (on_retransmit now v).1 ∧
  ((on_retransmit now v).2 = Panic ↔ interval ≠ 0 ∧
   retransmit_all interval (max_retransmission_limit (config (broker v))) now (rt_inflight_queue (rt v)) = None).
Proof.
  intros Hv. cbv zeta. unfold on_retransmit. rewrite bind_gets. cbv zeta.
  destruct (Z.eqb_spec (get_retransmission_interval_ms (config (broker v))) 0) as [|Hi];
    [split; [done|]; split; [done|by intros []]|].
  rewrite bind_gets. destruct (retransmit_all _ _ _ _) as [[[kept pubs] rels]|] eqn:Er; [|done].
  apply (wf_retransmit (bound := bound) (config (broker v))) in Er as [Hk _]; [|apply Hv..].
  cbn [or_panic]. rewrite bind_ret. destruct (safe_resend kept pubs rels Hk v Hv) as [H1 H2].
  split; [exact H1|]. split; [|by intros []]. by intros E; rewrite E in H2.
Qed.

Lemma keeps_on_retransmit now : keeps_env (λ _, True) (on_retransmit now).
Proof. intros v Hv. split; [apply (on_retransmit_cases now v Hv)|]. by destruct (on_retransmit now v).2. Qed.

(** * Saving and restoring *)

Lemma wf_persisted_inflight cid now i :
  wf_inflight bound i → wf_stored_inflight bound (persisted_inflight cid now i).
Proof.
  intros [(id & H1 & H2) H3 _ H4 H5]. split; simpl.
  - by rewrite H1.
  - rewrite stored_qos_roundtrip. revert H3. by destruct (qos (if_packet i)), (qos2_state i) as [[]|].
  - done.
  - done.
Qed.

Lemma wf_restored_inflight now m : wf_stored_inflight bound m → wf_inflight bound (restored_inflight now m).
Proof.
  intros [H1 H2 H3 H4]. split; simpl; [by eauto| |done..].
  revert H2. by destruct (qos_from_stored (pi_qos m)), (pi_qos2_state m) as [[]|].
Qed.

Lemma safe_publish_will {E} utc : safe_env (λ _, True) (publish_will (E := E) utc).
Proof.
  unfold publish_will. safe_then; [apply safe_gets|]. destruct (rt_will_message _); [|by apply safe_ret].
  safe_then; [apply safe_on_runtime; by intros r' []|].
  eapply safe_on_broker, safe_on_router, safe_route.
Qed.

Lemma wf_persisted_inbounds cid now (r : Runtime R W) :
  wf_runtime bound r →
  Forall (λ m, is_u16 (pq_packet_id m)) (persisted_inbound cid now <$> map_iter (rt_inbound_qos2 r)).
Proof.
  intros Hr. rewrite Forall_fmap. apply Forall_forall. intros [i m] Hm.
  apply elem_of_map_iter in Hm. apply (wf_received r Hr i m Hm).
Qed.

Lemma valid_id_u16 i : valid_id i → is_u16 i.
Proof. unfold valid_id, is_u16. lia. Qed.

(** A well-formed session can be saved. *)
Lemma saveable_state cid now will (r : Runtime R W) subs :
  wf_runtime bound r →
  saveable (mkPersistedSession cid (rt_next_packet_id r) (rt_keep_alive r) will now now)
    (persisted_subscription cid <$> subs) (persisted_inflight cid now <$> rt_inflight_queue r)
    (persisted_inbound cid now <$> map_iter (rt_inbound_qos2 r)).
Proof.
  intros Hr. split; cbn; [apply valid_id_u16, Hr|apply Hr| | |]; rewrite Forall_fmap.
  - by apply Forall_true.
  - eapply Forall_impl; [apply Hr|]. intros i Hi. destruct (wf_persisted_inflight cid now i Hi).
    split; [done|]. split; [by apply valid_id_u16|done].
  - pose proof (wf_persisted_inbounds cid now r Hr) as H. rewrite Forall_fmap in H.
    eapply Forall_impl; [exact H|]. by intros x Hx.
Qed.

Lemma safe_save_to_storage {E} now : safe_env (λ _, True) (save_to_storage (E := E) now).
Proof.
  unfold save_to_storage. apply safe_bind_gets. intros v Hv.
  destruct (rt_client_id (rt v)) as [cid|]; [|by split].
  revert Hv. cbv zeta. set (r := rt v). intros Hv. assert (Hr : wf_runtime bound r) by apply Hv.
  clearbody r. revert v Hv.
  match goal with |- ∀ v, _ → wf_env _ (?m v).1 ∧ _ => change (safe_env (λ _, True) m) end.
  safe_then; [apply safe_on_broker, safe_on_router, safe_gets|].
  eapply safe_bind; [|safe_done].
  eapply (safe_on_env_storage _ _ _ (λ _, True));
    [by apply save_session_spec, saveable_admits, saveable_state|].
  intros d d' u Hd ->. split; [|done]. unfold wf_stored, set_kept; cbn [kept].
  apply map_Forall_insert_2; [|done]. split; cbn; [apply Hr..| |].
  - by apply wf_persisted_inbounds.
  - rewrite Forall_fmap. eapply Forall_impl; [apply Hr|]. intros i. apply wf_persisted_inflight.
Qed.

Lemma safe_load_or_empty {E B} (m : M S StorageError (list B)) R0 (Q : list B → Prop) :
  storage_call storage_inv storage_abs m R0 →
  (∀ d d' a, wf_stored bound d → R0 d d' a → wf_stored bound d' ∧ Q a) → Q [] →
  safe_env Q (load_or_empty (E := E) m).
Proof.
  intros H HR HQ. unfold load_or_empty.
  eapply safe_bind; [by eapply safe_on_env_storage|]. intros [l|e] Hl; by apply safe_ret.
Qed.

Lemma wf_foldl_inbound l (m : gmap Z ReceivedQos2Message) :
  Forall (λ x, is_u16 (pq_packet_id x)) l → map_Forall wf_inbound m →
  map_Forall wf_inbound
    (foldl (λ m msg, <[pq_packet_id msg := restored_inbound msg]> m) m l).
Proof.
  intros Hl. revert m. induction Hl as [|x l Hx _ IH]; intros m Hm; cbn [foldl]; [done|].
  apply IH. by apply map_Forall_insert_2.
Qed.

Lemma wf_restore_params ps (r : Runtime R W) will :
  valid_id (ps_next_packet_id ps) → is_u16 (ps_keep_alive ps) → wf_runtime bound r →
  wf_runtime bound (set_will will (set_keep_alive (ps_keep_alive ps)
                               (set_next_packet_id (ps_next_packet_id ps) r))).
Proof. intros H1 H2 []. by split. Qed.

Lemma safe_restore {E} now cid : safe_env (λ _, True) (restore_from_storage (E := E) now cid).
Proof.
  unfold restore_from_storage.
  eapply safe_bind.
  { eapply safe_on_env_storage with
      (Q := λ o, ∀ ps, o = Some ps → valid_id (ps_next_packet_id ps) ∧ is_u16 (ps_keep_alive ps));
      [apply load_session_spec|].
    intros d d' o Hd [-> Ho]. split; [done|]. intros ps ->. symmetry in Ho.
    apply fmap_Some in Ho as (x & Hx & Hps). destruct (Hd cid x Hx) as [Hk Hn _ _].
    rewrite <- Hps in Hk, Hn. by split. }
  intros [[ps|]|e] Hps; cbn in Hps; [|by apply safe_ret..].
  destruct (Hps ps eq_refl) as [Hnext Hkeep].
  safe_then; [eapply safe_load_or_empty with (Q := λ _, True);
    [apply load_subscriptions_spec|by intros d d' l Hd [-> _]|done]|].
  eapply safe_bind.
  { eapply safe_load_or_empty with (Q := Forall (wf_stored_inflight bound));
      [apply load_inflight_messages_spec| |constructor].
    intros d d' l Hd [-> Hl]. split; [done|]. rewrite Hl.
    destruct (kept d !! cid) as [x|] eqn:Hx; cbn; [by apply (Hd cid x Hx)|constructor]. }
  intros infl Hinfl.
  eapply safe_bind.
  { eapply safe_load_or_empty with (Q := Forall (λ x, is_u16 (pq_packet_id x)));
      [apply load_inbound_qos2_messages_spec| |constructor].
    intros d d' l Hd [-> Hl]. split; [done|]. rewrite Hl.
    destruct (kept d !! cid) as [x|] eqn:Hx; cbn; [by apply (Hd cid x Hx)|constructor]. }
  intros inb Hinb.
  safe_then; [apply safe_on_runtime; intros r Hr; by apply wf_restore_params|].
  cbv zeta. safe_then; [apply safe_gets|].
  safe_then.
  { destruct (negb _); [|by apply safe_ret with (Q := λ _, True)]. eapply safe_bind; [|safe_done].
    eapply safe_on_broker, safe_on_router, safe_subscribe. }
  safe_then.
  { apply safe_on_runtime. intros r' Hr. apply wf_set_inflight; [|done].
    apply Forall_app. split; [apply Hr|]. rewrite Forall_fmap.
    eapply Forall_impl; [exact Hinfl|]. intros m. apply wf_restored_inflight. }
  safe_then.
  { apply safe_on_runtime. intros r' Hr. apply wf_set_inbound; [|done].
    apply wf_foldl_inbound; [exact Hinb|apply Hr]. }
  eapply safe_bind; [|safe_done].
  eapply (safe_on_env_storage _ _ _ (λ _, True)); [apply delete_session_spec|].
  intros d d' u Hd ->. split; [|done]. by apply map_Forall_delete.
Qed.

Lemma safe_delete_session {E} cid :
  safe_env (λ _, True) (on_env_storage (E := E) (delete_session cid)).
Proof.
  eapply safe_True, (safe_on_env_storage _ _ _ (λ _, True)); [apply delete_session_spec|].
  intros d d' u Hd ->. split; [|done]. by apply map_Forall_delete.
Qed.

(** * Connecting *)

Lemma safe_send_connack_error code : safe_env (λ _, True) (send_connack_error code).
Proof. apply safe_send_packet. Qed.

Lemma safe_set_own_stream {E} :
  safe_env (λ _, True)
    (modify (E := E) (λ v, with_rt (set_stream (Some (reader v, writer v)) (rt v)) v)).
Proof. apply safe_modify. intros v [[] H]. by split. Qed.

Lemma safe_accept_connection b : safe_env (λ _, True) (accept_connection b).
Proof.
  unfold accept_connection. safe_then; [apply safe_send_packet|].
  safe_then; [apply safe_set_own_stream|safe_done].
Qed.

Lemma safe_has_collision {E} cid action :
  safe_env (λ _, True) (on_broker (E := E) (has_collision cid action)).
Proof.
  apply safe_on_broker. intros b Hb. unfold has_collision. rewrite bind_gets.
  by destruct (named_clients b !! cid).
Qed.

Lemma safe_enter_session now c :
  typed_packet (Connect c) → safe_env (λ _, True) (enter_session now c).
Proof.
  intros Hc. unfold enter_session.
  safe_then; [apply safe_on_runtime; intros r Hr; by apply wf_set_keep|].
  safe_then; [apply safe_on_runtime; intros r []; by destruct (stored_will c)|].
  destruct (negb _); [|apply safe_accept_connection].
  safe_then; [apply safe_on_runtime; by intros r []|].
  safe_then; [apply safe_gets|]. safe_then; [apply safe_has_collision|].
  match goal with |- context [match ?x with Some _ => _ | None => _ end] => destruct x end.
  - eapply safe_bind; [|safe_done]. apply safe_on_broker.
    unfold call_takeover. safe_then; [by apply safe_command_send|].
    by apply safe_ret with (Q := λ _, True).
  - destruct (clean_session c).
    + safe_then; [apply safe_delete_session|apply safe_accept_connection].
    + safe_then; [apply safe_restore|apply safe_accept_connection].
Qed.

Lemma safe_on_connect now c :
  typed_packet (Connect c) → safe_env (λ _, True) (on_connect now c).
Proof.
  intros Hc. unfold on_connect. destruct (_ || _); [safe_then; [apply safe_send_connack_error|safe_done]|].
  destruct (validate_client_id _ _); [|safe_then; [apply safe_send_connack_error|safe_done]].
  safe_then; [apply safe_gets|]. destruct (authenticate _ _); [by apply safe_enter_session|].
  safe_then; [apply safe_send_connack_error|safe_done].
Qed.

Lemma safe_on_takeover clean keep :
  is_u16 keep → safe_env (λ _, True) (on_takeover clean keep).
Proof.
  intros Hk. unfold on_takeover. cbv zeta. safe_then; [apply safe_send_packet|].
  safe_then; [apply safe_on_runtime; intros r Hr; by apply wf_set_keep|].
  destruct clean; [|by apply safe_ret]. safe_then; [apply safe_gets|].
  safe_then; [eapply safe_on_broker, safe_on_router, safe_unsubscribe_all|].
  safe_then.
  - destruct (rt_client_id _); [|by apply safe_ret with (Q := λ _, True)].
    safe_then; [apply safe_delete_session|safe_done].
  - apply safe_on_runtime. intros r' Hr. by apply wf_set_inflight; [constructor|].
Qed.

(** * The state machine *)

Ltac keep_then := eapply keeps_bind; [|intros ? ?].

Lemma safe_take_stream {E} : safe_env (λ _, True) (take_stream (E := E)).
Proof.
  unfold take_stream. apply safe_bind_gets. intros v Hv.
  destruct (rt_stream (rt v)) as [[rd wr]|]; [|by split].
  split; [|done]. destruct Hv as [[] H]. by split.
Qed.

Lemma safe_recv_command {E} : safe_env typed_command (recv_command (E := E)).
Proof.
  unfold recv_command. apply safe_bind_gets. intros v Hv. unfold id.
  destruct (commands (broker v) !! _) as [ch|] eqn:Hch; [|by split].
  destruct Hv as (Hr & Hb & Hc & Hl). pose proof (Hc _ _ Hch) as Hq. cbv beta in Hq.
  destruct (queued ch) as [|c l] eqn:El; [done|]. apply Forall_cons in Hq as [Hq1 Hq2].
  split; [|exact Hq1]. split; [done|]. split; [done|]. split; [|done]. apply map_Forall_insert_2; [|done].
  by rewrite queued_pop, El.
Qed.

Lemma safe_recv_message {E} : safe_env (λ _, True) (recv_message (E := E)).
Proof.
  unfold recv_message. apply safe_bind_gets. intros v Hv. unfold id. cbv zeta.
  destruct (mailboxes (router (broker v)) !! _) as [ch|]; [|by split].
  by destruct (queued ch).
Qed.

Lemma safe_drop_decode {E} b : safe_env (λ _, True) (drop_decode (E := E) b).
Proof.
  unfold drop_decode. apply safe_bind_gets. intros v Hv. unfold id.
  destruct (decode (reader v)) as [r' [| | |]]; try by split. by destruct b.
Qed.

Lemma safe_lost_connection {E} : safe_env (λ _, True) (lost_connection (E := E)).
Proof. unfold lost_connection. safe_then; [apply safe_gets|safe_done]. Qed.

Lemma safe_take_over {E} params :
  typed_command (Takeover params) → safe_env (λ _, True) (take_over (E := E) params).
Proof.
  intros Hp. unfold take_over. safe_then; [apply safe_modify; by intros v []|].
  safe_then; [by apply safe_attempt, safe_on_takeover|].
  match goal with |- context [match ?x with inl _ => _ | inr _ => _ end] => destruct x end;
    [|by apply safe_ret].
  safe_then; [apply safe_set_own_stream|safe_done].
Qed.

(** [decode] may panic, and reads nothing but the stream. *)
Lemma keeps_decode_packet {E} :
  keeps_env (λ x, match x with inl p => typed_packet p | inr _ => True end) (decode_packet (E := E)).
Proof.
  intros v Hv. unfold decode_packet, attempt, zoom.
  destruct (decode (reader v)) as [r' [p| | |]] eqn:Ed; split; try done.
  by eapply wf_decoded_typed, decode_Ok_wf.
Qed.

Lemma keeps_processing_turn {E} k t : keeps_env (λ _, True) (processing_turn (E := E) k t).
Proof.
  unfold processing_turn. destruct (branch t).
  - eapply keeps_bind; [apply keeps_decode_packet|intros [p|e] Hp].
    all: eapply keeps_bind with (Q := λ _, True).
    all: try (intros b _; apply keeps_safe; destruct (negb b); [|by apply safe_ret];
      safe_then; [apply safe_lost_connection|safe_done]).
    + apply keeps_safe. safe_then; [by apply safe_attempt, safe_on_packet|safe_done].
    + apply keeps_safe. by apply safe_ret.
  - apply keeps_safe. safe_then; [apply safe_drop_decode|]. safe_then; [apply safe_recv_message|].
    eapply safe_bind; [apply safe_attempt, safe_on_message|]. intros [u|e] _; [by apply safe_ret|].
    safe_then; [apply safe_lost_connection|safe_done].
  - apply keeps_safe. safe_then; [apply safe_drop_decode|].
    eapply safe_bind; [apply safe_recv_command|]. intros [params|] Hc; [|by apply safe_ret].
    safe_then; [apply safe_attempt, safe_send_packet|].
    eapply safe_bind; [by apply safe_take_over|]. intros [u|e] _; by apply safe_ret.
  - apply keeps_safe. safe_then; [apply safe_drop_decode|]. destruct (0 <? k); [|by apply safe_ret].
    safe_then; [apply safe_lost_connection|safe_done].
  - keep_then; [apply keeps_safe, safe_drop_decode|]. keep_then; [apply keeps_attempt, keeps_on_retransmit|].
    match goal with |- context [match ?x with inl _ => _ | inr _ => _ end] => destruct x end;
      apply keeps_safe; [by apply safe_ret|]. safe_then; [apply safe_lost_connection|safe_done].
Qed.

Lemma keeps_do_waiting {E} t : keeps_env (λ _, True) (do_waiting (E := E) t).
Proof.
  unfold do_waiting. keep_then; [apply keeps_safe, safe_take_stream|].
  match goal with |- context [if negb ?b then _ else _] => destruct b; cbn [negb] end;
    [|apply keeps_safe; by apply safe_ret].
  assert (Hcmd : keeps_env (λ _ : State, True) (recv_command (E := E);; mret Cleanup)).
  { apply keeps_safe. safe_then; [apply safe_recv_command|safe_done]. }
  destruct (branch t); try exact Hcmd.
  eapply keeps_bind; [apply keeps_decode_packet|].
  intros [[]|] Hp; try (apply keeps_safe; by apply safe_ret).
  apply keeps_safe. safe_then; [by apply safe_attempt, safe_on_connect|safe_done].
Qed.

Lemma keeps_run_step {E} t ph : keeps_env (λ _, True) (run_step (E := E) t ph).
Proof.
  destruct ph as [[]|k| |]; cbn [run_step].
  - keep_then; [apply keeps_do_waiting|]. apply keeps_safe. safe_done.
  - apply keeps_safe. eapply safe_bind; [apply safe_take_stream|].
    intros [] _; cbn [negb]; [|by apply safe_ret]. safe_then; [apply safe_gets|safe_done].
  - apply keeps_safe. safe_then; [apply safe_save_to_storage|safe_done].
  - apply keeps_safe. safe_then; [apply safe_publish_will|safe_done].
  - keep_then; [apply keeps_processing_turn|]. apply keeps_safe. safe_done.
  - apply keeps_safe. eapply safe_bind with (Q := λ _, True); [|safe_done]. unfold pending_command.
    eapply safe_bind; [apply safe_recv_command|]. intros [params|] Hc; [|by apply safe_ret].
    safe_then; [by apply safe_take_over|safe_done].
  - apply keeps_safe, safe_hang.
Qed.

Lemma keeps_run {E} ts ph : keeps_env (λ _, True) (run (E := E) ts ph).
Proof.
  revert ph. induction ts as [|t ts IH]; intros ph; [apply keeps_safe; by apply safe_ret|].
  cbn [run]. keep_then; [apply keeps_run_step|apply IH].
Qed.
End SessionSafe.
