(* ===== verification/SessionFacts.v ===== *)
(** How the messages a session handles travel: exactly-once reception, packet
    identifiers, the queue of messages in flight, acknowledgements and
    retransmission. *)

From S2P Require Import Prelude External Packet Codec CodecSim Topic Storage Config.
From S2P Require Import Auth Router RouterFacts Broker Session Lifecycle SessionInv.

Local Open Scope Z_scope.

Section SessionFacts.
Context {BC : BytesCrate} {BL : BytesLaws} {MP : Mpsc} {MPL : MpscLaws}.
Context {HO : HashOrder} {HOL : HashOrderLaws}.
Context {S : Type} {ST : Storage S} {SL : StorageLaws S}.
Context {R W : Type} {AR : AsyncRead R} {AW : AsyncWrite W} {AWL : AsyncWriteLaws W}
  {CN : Connection W}.
Context {Au Az : Type} {AU : Authenticator Au} {AZ : Authorizer Az}.

Abbreviation Env := (Env (S := S) (R := R) (W := W) (Au := Au) (Az := Az)).

Implicit Types v : Env.

(** * Writing *)

(** The bytes of a sequence of packets. *)
Definition packets_bytes (ps : list Packet) : Bytes := mjoin (packet_bytes <$> ps).

Lemma packets_bytes_app ps qs :
  packets_bytes (ps ++ qs) = packets_bytes ps ++ packets_bytes qs.
Proof. unfold packets_bytes. by rewrite fmap_app, join_app. Qed.

(** [w'] is the writer [w] after it has taken the packets. *)
Definition took (w : W) (ps : list Packet) (w' : W) : Prop :=
  connected w' ∧ written w' = written w ++ packets_bytes ps.

Lemma took_nil w : connected w → took w [] w.
Proof. intros Hw. split; [done|]. by rewrite app_nil_r. Qed.

Lemma took_app w ps w' qs w'' : took w ps w' → took w' qs w'' → took w (ps ++ qs) w''.
Proof.
  intros [_ H1] [H2 H3]. split; [done|]. by rewrite H3, H1, packets_bytes_app, app_assoc.
Qed.

Lemma send_connected p v :
  connected (writer v) →
  ∃ w', send_packet p v = (with_writer w' v, Ok tt) ∧ took (writer v) [p] w'.
Proof.
  intros Hc. destruct (connected_write (as_slice (encode p bytes_new)) (writer v) Hc)
    as (w' & E1 & Hw'). exists w'.
  unfold send_packet, map_err, zoom. rewrite E1. split; [done|]. split; [done|].
  rewrite (write_all_Ok _ _ _ E1), encode_app, as_slice_new. cbn.
  unfold packets_bytes. cbn. by rewrite app_nil_r.
Qed.

(** Whatever becomes of a packet that is sent, only the writer changes, and it
    has taken a part of the packet. *)
Lemma send_packet_cases p v :
  ∃ w' o, send_packet p v = (with_writer w' v, o) ∧
    (o = Ok tt ∧ written w' = written (writer v) ++ packet_bytes p ∨
     ((∃ e, o = Err (IOError e)) ∨ o = Pending) ∧
       ∃ n, written w' = written (writer v) ++ take n (packet_bytes p)).
Proof.
  unfold send_packet, map_err, zoom.
  pose proof (write_all_no_panic (as_slice (encode p bytes_new)) (writer v)) as Hp.
  destruct (write_all _ (writer v)) as [w' o] eqn:E1. cbn [snd] in Hp.
  rewrite encode_app, as_slice_new in E1. exists w'.
  destruct o as [[]|e| |]; [| |done|]; eexists; (split; [done|]).
  - left. split; [done|]. by rewrite (write_all_Ok _ _ _ E1).
  - right. split; [eauto|]. apply (write_all_prefix _ _ _ _ E1).
  - right. split; [eauto|]. apply (write_all_prefix _ _ _ _ E1).
Qed.

(** * Exactly-once reception *)

(** Receiving packets one after the other. *)
Definition receive (now : Instant) (utc : DateTime) (ps : list Packet) : M Env SessionError () :=
  for_each ps (λ p, on_packet now utc p;; mret tt).

Definition set_received (m : gmap Z ReceivedQos2Message) v : Env :=
  with_rt (set_inbound m (rt v)) v.

Lemma with_writer_id v : with_writer (writer v) v = v.
Proof. by destruct v. Qed.

Lemma set_received_id v : set_received (rt_inbound_qos2 (rt v)) v = v.
Proof. by destruct v as [[] ? ? ?]. Qed.

Lemma publish_qos2_first now utc p pid v :
  connected (writer v) → qos p = ExactlyOnce → packet_id p = Some pid →
  rt_inbound_qos2 (rt v) !! pid = None →
  ∃ w', on_packet now utc (Publish p) v =
    (with_writer w' (set_received (<[pid := mkReceived p]> (rt_inbound_qos2 (rt v))) v), Ok true) ∧
    took (writer v) [PubRec (mkPubRec pid)] w'.
Proof.
  intros Hc Hq Hid Hn. cbn [on_packet]. unfold on_publish, on_publish_qos2.
  rewrite Hq, Hid, bind_gets, Hn. unfold on_runtime. rewrite bind_modify.
  match goal with |- context [mbind _ (send_packet ?q) ?v1] =>
    destruct (send_connected q v1 Hc) as (w' & E1 & Hw') end.
  exists w'. by rewrite (bind_Ok _ _ _ _ _ E1).
Qed.

Lemma publish_qos2_again now utc p pid m v :
  connected (writer v) → qos p = ExactlyOnce → packet_id p = Some pid →
  rt_inbound_qos2 (rt v) !! pid = Some m →
  ∃ w', on_packet now utc (Publish p) v = (with_writer w' v, Ok true) ∧
    took (writer v) [PubRec (mkPubRec pid)] w'.
Proof.
  intros Hc Hq Hid Hn. cbn [on_packet]. unfold on_publish, on_publish_qos2.
  rewrite Hq, Hid, bind_gets, Hn.
  destruct (send_connected (PubRec (mkPubRec pid)) v Hc) as (w' & E1 & Hw').
  exists w'. by rewrite (bind_Ok _ _ _ _ _ E1).
Qed.

Lemma pubrel_first now utc pid p v r' :
  connected (writer v) → rt_inbound_qos2 (rt v) !! pid = Some (mkReceived p) →
  authorize_publish (authorizer (broker v)) (client_name (rt v)) (topic p) = inl tt →
  route (E := SessionError) utc p (router (broker v)) = (r', Ok tt) →
  ∃ w', on_packet now utc (PubRel (mkPubRel pid)) v =
    (with_broker (with_router r' (broker v))
       (with_writer w' (set_received (delete pid (rt_inbound_qos2 (rt v))) v)), Ok true) ∧
    took (writer v) [PubComp (mkPubComp pid)] w'.
Proof.
  intros Hc Hm Ha Hr. cbn [on_packet]. unfold on_pubrel. cbn [pubrel_id].
  destruct (send_connected (PubComp (mkPubComp pid)) v Hc) as (w' & E1 & Hw').
  exists w'. split; [|done]. rewrite (bind_Ok _ _ _ _ _ E1), bind_gets.
  cbn [rt with_writer]. rewrite Hm. unfold on_runtime. rewrite bind_modify.
  unfold authorize_and_route. rewrite bind_gets.
  match goal with |- context [authorize_publish ?a ?b ?c] =>
    change (authorize_publish a b c) with
      (authorize_publish (authorizer (broker v)) (client_name (rt v)) (topic p)) end.
  rewrite Ha. erewrite bind_Ok; [done|].
  unfold on_broker, broker_route, on_router, zoom. cbn. by rewrite Hr.
Qed.

Lemma pubrel_again now utc pid v :
  connected (writer v) → rt_inbound_qos2 (rt v) !! pid = None →
  ∃ w', on_packet now utc (PubRel (mkPubRel pid)) v = (with_writer w' v, Ok true) ∧
    took (writer v) [PubComp (mkPubComp pid)] w'.
Proof.
  intros Hc Hm. cbn [on_packet]. unfold on_pubrel. cbn [pubrel_id].
  destruct (send_connected (PubComp (mkPubComp pid)) v Hc) as (w' & E1 & Hw').
  exists w'. split; [|done]. rewrite (bind_Ok _ _ _ _ _ E1), bind_gets.
  cbn [rt with_writer]. by rewrite Hm.
Qed.

(** Packets that change nothing but the writer, and get the same reply. *)
Lemma receive_again now utc reply ps v :
  connected (writer v) →
  (∀ p w, p ∈ ps → connected w →
     ∃ w', on_packet now utc p (with_writer w v) = (with_writer w' v, Ok true) ∧
       took w [reply] w') →
  ∃ w', receive now utc ps v = (with_writer w' v, Ok tt) ∧
    took (writer v) (replicate (length ps) reply) w'.
Proof.
  intros Hv Hp.
  enough (H : ∀ w, connected w → ∃ w', receive now utc ps (with_writer w v) =
    (with_writer w' v, Ok tt) ∧ took w (replicate (length ps) reply) w').
  { destruct (H (writer v) Hv) as (w' & E1 & H1). rewrite with_writer_id in E1. eauto. }
  induction ps as [|p ps IH]; intros w Hc.
  { exists w. split; [done|]. by apply took_nil. }
  destruct (Hp p w ltac:(by left) Hc) as (w1 & E1 & H1).
  destruct (IH ltac:(intros; apply Hp; [by right|done]) w1 (proj1 H1)) as (w2 & E2 & H2).
  exists w2. cbn [length replicate receive for_each].
  rewrite (bind_Ok _ _ _ _ _ (bind_Ok _ _ _ _ _ E1)). split; [exact E2|].
  by apply (took_app w [reply] w1).
Qed.

Lemma receive_app now utc ps qs v :
  receive now utc (ps ++ qs) v = (receive now utc ps;; receive now utc qs) v.
Proof. apply for_each_app. Qed.

Lemma receive_cons now utc p ps v v1 b :
  on_packet now utc p v = (v1, Ok b) → receive now utc (p :: ps) v = receive now utc ps v1.
Proof. intros E1. cbn [receive for_each]. by rewrite (bind_Ok _ _ _ _ _ (bind_Ok _ _ _ _ _ E1)). Qed.

(** * Sending to the client *)

Lemma next_packet_id_eq {E} v :
  next_packet_id (E := E) v =
  (with_rt (set_next_packet_id (succ_id (rt_next_packet_id (rt v))) (rt v)) v,
   Ok (rt_next_packet_id (rt v))).
Proof. done. Qed.

(** The runtime after a message has been given an identifier and tracked. *)
Definition tracked (now : Instant) (p : PublishPacket) (s : option Qos2State)
    (r : Runtime R W) : Runtime R W :=
  track now (with_packet_id (Some (rt_next_packet_id r)) p) s
    (set_next_packet_id (succ_id (rt_next_packet_id r)) r).

Definition initial_state (q : QoS) : option Qos2State :=
  match q with ExactlyOnce => Some AwaitingPubRec | _ => None end.

(** A message from the router is sent: at level 0 as it is, above with a new
    identifier, after which it is in flight. *)
Lemma on_message_level0 now p v :
  connected (writer v) → qos p = AtMostOnce →
  ∃ w', on_message now (Publish p) v = (with_writer w' v, Ok tt) ∧
    took (writer v) [Publish p] w'.
Proof. intros Hc Hq. cbn [on_message]. rewrite Hq. by apply send_connected. Qed.

Lemma on_message_tracked now p v :
  connected (writer v) → qos p ≠ AtMostOnce → dup p = false →
  ∃ w', on_message now (Publish p) v =
    (with_rt (tracked now p (initial_state (qos p)) (rt v)) (with_writer w' v), Ok tt) ∧
    took (writer v) [Publish (with_packet_id (Some (rt_next_packet_id (rt v))) p)] w'.
Proof.
  intros Hc Hq Hd. cbn [on_message]. rewrite Hd. cbn [negb].
  destruct (qos p); [done|..]; rewrite (bind_Ok _ _ _ _ _ (next_packet_id_eq v)); cbv zeta;
    (match goal with |- context [mbind _ (send_packet ?q) ?v1] =>
       destruct (send_connected q v1 Hc) as (w' & E1 & Hw') end);
    exists w'; rewrite (bind_Ok _ _ _ _ _ E1); by split.
Qed.

Lemma on_message_again now p v :
  connected (writer v) → dup p = true →
  ∃ w', on_message now (Publish p) v = (with_writer w' v, Ok tt) ∧
    took (writer v) [Publish p] w'.
Proof.
  intros Hc Hd. cbn [on_message]. rewrite Hd. cbn [negb].
  destruct (qos p); by apply send_connected.
Qed.

(** * Acknowledgements *)

(** No message in flight has the identifier. *)
Definition free_id (i : Z) (r : Runtime R W) : Prop :=
  Forall (λ m, packet_id (if_packet m) ≠ Some i) (rt_inflight_queue r).

Lemma drop_inflight_free i l :
  Forall (λ m, packet_id (if_packet m) ≠ Some i) l → drop_inflight i l = l.
Proof.
  induction 1 as [|m l Hm _ IH]; [done|]. unfold drop_inflight in *. by rewrite filter_cons_True, IH.
Qed.

Lemma drop_inflight_last i l m :
  Forall (λ m, packet_id (if_packet m) ≠ Some i) l → packet_id (if_packet m) = Some i →
  drop_inflight i (l ++ [m]) = l.
Proof.
  intros Hl Hm. unfold drop_inflight. rewrite filter_app. fold (drop_inflight i l).
  rewrite drop_inflight_free by done. rewrite filter_cons_False by (by intros []).
  apply app_nil_r.
Qed.

Lemma mark_received_last now i l m :
  Forall (λ m, packet_id (if_packet m) ≠ Some i) l →
  packet_id (if_packet m) = Some i → qos2_state m = Some AwaitingPubRec →
  mark_received now i (l ++ [m]) = l ++ [mkInflight (if_packet m) now 0 (Some AwaitingPubComp)].
Proof.
  intros Hl Hm Hs. induction Hl as [|x l Hx _ IH]; cbn [app mark_received].
  - by rewrite bool_decide_true.
  - rewrite bool_decide_false by naive_solver. by rewrite IH.
Qed.

Lemma on_puback_eq now utc i v :
  on_packet now utc (PubAck (mkPubAck i)) v =
  (with_rt (set_inflight (drop_inflight i (rt_inflight_queue (rt v))) (rt v)) v, Ok true).
Proof. done. Qed.

Lemma on_pubcomp_eq now utc i v :
  on_packet now utc (PubComp (mkPubComp i)) v =
  (with_rt (set_inflight (drop_inflight i (rt_inflight_queue (rt v))) (rt v)) v, Ok true).
Proof. done. Qed.

Lemma on_pubrec_eq now utc i v :
  connected (writer v) →
  ∃ w', on_packet now utc (PubRec (mkPubRec i)) v =
    (with_rt (set_inflight (mark_received now i (rt_inflight_queue (rt v))) (rt v))
       (with_writer w' v), Ok true) ∧
    took (writer v) [PubRel (mkPubRel i)] w'.
Proof.
  intros Hc. cbn [on_packet]. unfold on_pubrec, on_runtime. rewrite bind_modify. cbn [pubrec_id].
  match goal with |- context [mbind _ (send_packet ?q) ?v1] =>
    destruct (send_connected q v1 Hc) as (w' & E1 & Hw') end.
  exists w'. rewrite (bind_Ok _ _ _ _ _ E1). by split.
Qed.

(** * The mailbox of the session itself *)

Lemma send_to_self_cases p v :
  (mailboxes (router (broker v)) !! rt_message_tx (rt v) = None ∧
   send_to_self p v = (v, Err (SendError p))) ∨
  (∃ c, mailboxes (router (broker v)) !! rt_message_tx (rt v) = Some c ∧
     (length (queued c) < capacity c)%nat ∧
     send_to_self p v =
       (with_broker (with_router (with_mailboxes
          (<[rt_message_tx (rt v) := push p c]> (mailboxes (router (broker v))))
          (router (broker v))) (broker v)) v, Ok tt)) ∨
  (∃ c, mailboxes (router (broker v)) !! rt_message_tx (rt v) = Some c ∧
     (capacity c ≤ length (queued c))%nat ∧ send_to_self p v = (v, Pending)).
Proof.
  unfold send_to_self. rewrite bind_gets. unfold on_broker, on_router, zoom.
  destruct (mailbox_send_cases (E := SessionError) (rt_message_tx (rt v)) p (router (broker v)))
    as [[Hm E1]|[(c & Hm & Hc & E1)|(c & Hm & Hc & E1)]]; rewrite ?Hm.
  - left. split; [done|]. unfold mbind, M_bind. rewrite E1. by destruct v as [? ? ? []].
  - right; left. exists c. split; [done|]. split; [done|]. unfold mbind, M_bind. by rewrite E1.
  - right; right. exists c. split; [done|]. split; [done|]. unfold mbind, M_bind. rewrite E1.
    by destruct v as [? ? ? []].
Qed.

(** The environment after packets have been put in the session's own mailbox. *)
Definition enqueue_own (c : channel Packet) v : Env :=
  with_broker (with_router (with_mailboxes
    (<[rt_message_tx (rt v) := c]> (mailboxes (router (broker v))))
    (router (broker v))) (broker v)) v.

(** A session that puts packets in its own mailbox gets through with all of them,
    or is left waiting for room that only it could make. *)
Lemma send_all_to_self {A} (f : A → Packet) l c v :
  mailboxes (router (broker v)) !! rt_message_tx (rt v) = Some c →
  ((length (queued c) + length l ≤ capacity c)%nat ∨ l = [] →
   ∃ c', for_each l (λ x, send_to_self (f x)) v = (enqueue_own c' v, Ok tt) ∧
     queued c' = queued c ++ (f <$> l) ∧ capacity c' = capacity c) ∧
  ((capacity c < length (queued c) + length l)%nat → l ≠ [] →
   ∃ v', for_each l (λ x, send_to_self (f x)) v = (v', Pending)).
Proof.
  revert c v. induction l as [|x l IH]; intros c v Hm.
  { split; [|done]. intros _. exists c. rewrite app_nil_r. split; [|done].
    unfold enqueue_own. rewrite insert_id by done. by destruct v as [? ? ? [? ? []]]. }
  cbn [for_each length].
  destruct (send_to_self_cases (f x) v) as [[Hm' _]|[(c' & Hm' & Hc & E1)|(c' & Hm' & Hc & E1)]];
    [congruence|..]; rewrite Hm in Hm'; injection Hm' as <-.
  - set (v1 := with_broker _ v) in E1.
    destruct (IH (push (f x) c) v1) as [IH1 IH2]; [by apply lookup_insert_eq|].
    rewrite queued_push, length_app, capacity_push in IH1, IH2. simpl in IH1, IH2.
    rewrite !(bind_Ok _ _ _ _ _ E1). split.
    + intros [Hl|]; [|done]. destruct IH1 as (c2 & E2 & Q2 & C2); [left; lia|].
      exists c2. rewrite E2. split_and!; [|by rewrite Q2, <- app_assoc|done].
      unfold v1, enqueue_own. cbn. by rewrite insert_insert_eq.
    + intros Hl _. destruct l as [|y l]; [simpl in Hl; lia|]. apply IH2; [lia|done].
  - split; [intros [?|]; [lia|done]|]. intros _ _. exists v. by rewrite (bind_Pending _ _ _ _ E1).
Qed.
End SessionFacts.

(** * Retransmission *)

(** A message that is due and has been sent again as often as a [u32] can count. *)
Definition overflows (interval : Z) (now : Instant) (i : InflightMessage) : Prop :=
  interval ≤ elapsed_ms now (timestamp i) ∧ retry_count i = 2 ^ 32 - 1.

#[export] Instance overflows_dec interval now i : Decision (overflows interval now i).
Proof. unfold overflows. apply _. Defined.

(** What a tick leaves of a message. *)
Definition after_tick (interval limit : Z) (now : Instant) (i : InflightMessage) : option InflightMessage :=
  if decide (interval ≤ elapsed_ms now (timestamp i)) then
    if decide (retry_count i < limit)
    then Some (mkInflight (if_packet i) now (retry_count i + 1) (qos2_state i)) else None
  else Some i.

(** The messages a tick sends again, and of these the ones whose PUBREL is sent. *)
Definition sent_again (interval limit : Z) (now : Instant) (i : InflightMessage) : Prop :=
  interval ≤ elapsed_ms now (timestamp i) ∧ retry_count i < limit.

#[export] Instance sent_again_dec interval limit now i : Decision (sent_again interval limit now i).
Proof. unfold sent_again. apply _. Defined.

Definition released (i : InflightMessage) : Prop := qos2_state i = Some AwaitingPubComp.

#[export] Instance released_dec i : Decision (released i).
Proof. unfold released. apply _. Defined.

Lemma retransmit_one_spec interval limit now i :
  is_u32 (retry_count i) →
  retransmit_one interval limit now i =
  if decide (overflows interval now i) then None
  else Some (after_tick interval limit now i,
    if_packet <$> filter (λ i, ¬ released i) (filter (sent_again interval limit now) [i]),
    omap (λ i, packet_id (if_packet i)) (filter released (filter (sent_again interval limit now) [i]))).
Proof.
  intros Hi. unfold retransmit_one, after_tick, overflows.
  rewrite (filter_cons (sent_again interval limit now)), filter_nil. unfold sent_again.
  destruct (Z.leb_spec interval (elapsed_ms now (timestamp i))) as [Hd|Hd].
  2: { rewrite !decide_False by lia. done. }
  destruct (decide (retry_count i = 2 ^ 32 - 1)) as [Hm|Hm].
  { rewrite decide_True by done. unfold checked_u32.
    by rewrite (proj2 (Z.ltb_ge (retry_count i + 1) (2 ^ 32))), andb_false_r by lia. }
  rewrite (decide_False (P := _ ∧ retry_count i = _)), (decide_True (P := _ ≤ _)) by (done || naive_solver).
  rewrite (proj2 (checked_u32_Some (retry_count i + 1) _)) by (split; [done|unfold is_u32 in *; lia]).
  cbn [mbind option_bind]. cbv zeta.
  destruct (Z.ltb_spec limit (retry_count i + 1)) as [Hl|Hl].
  { by rewrite (decide_False (P := _ < _)), (decide_False (P := _ ∧ _)) by lia. }
  rewrite (decide_True (P := _ < _)), (decide_True (P := _ ∧ _)) by lia.
  cbn [qos2_state if_packet]. rewrite !filter_cons, !filter_nil. destruct (decide (released i)) as [Hr|Hr].
  - rewrite decide_False by (by intros H). rewrite Hr. cbn. by destruct (packet_id (if_packet i)).
  - rewrite decide_True by done. unfold released in Hr. by destruct (qos2_state i) as [[]|].
Qed.

Lemma retransmit_all_spec interval limit now l :
  Forall (λ i, is_u32 (retry_count i)) l →
  let again := filter (sent_again interval limit now) l in
  retransmit_all interval limit now l =
  if decide (Exists (overflows interval now) l) then None
  else Some (omap (after_tick interval limit now) l, if_packet <$> filter (λ i, ¬ released i) again,
             omap (λ i, packet_id (if_packet i)) (filter released again)).
Proof.
  intros Hl. cbv zeta. induction Hl as [|i l Hi Hl IH].
  { rewrite decide_False by by intros ?%Exists_nil. done. }
  cbn [retransmit_all]. rewrite IH, (retransmit_one_spec interval limit now i Hi).
  destruct (decide (overflows interval now i)) as [Ho|Ho].
  { rewrite (decide_True (P := Exists _ (i :: l))) by by constructor. done. }
  cbn [mbind option_bind]. destruct (decide (Exists _ l)) as [He|He].
  { rewrite (decide_True (P := Exists _ (i :: l))) by by constructor. done. }
  rewrite (decide_False (P := Exists _ (i :: l))) by (intros [?|?]%Exists_cons; done). cbn [mbind option_bind]. do 2 f_equal; [f_equal|].
  - cbn [omap list_omap]. by destruct (after_tick _ _ _ i).
  - change (i :: l) with ([i] ++ l). rewrite !filter_app, fmap_app. done.
  - change (i :: l) with ([i] ++ l). by rewrite !filter_app, omap_app.
Qed.
