(* ===== verification/Samples.v ===== *)
(** Concrete instances to run the session on: streams that hold the bytes that
    have arrived and have been sent, the in-memory storage, everything
    allowed.  The witnesses of the properties are computed on them. *)

From S2P Require Import Prelude Utf8 External Packet Codec Topic Storage MemoryStorage.
From S2P Require Import Config Auth Router RouterFacts Broker Session Lifecycle.
From S2P Require Import SessionInv.

Local Open Scope Z_scope.

Abbreviation sample_broker_type :=
  (Broker (MP := queue_mpsc) InMemoryStorage Incoming Outgoing AllowAllAuthenticator AllowAllAuthenticator).
Abbreviation sample_env_type :=
  (Env (MP := queue_mpsc) (S := InMemoryStorage) (R := Incoming) (W := Outgoing)
     (Au := AllowAllAuthenticator) (Az := AllowAllAuthenticator)).

Definition sample_broker : sample_broker_type :=
  broker_new default_config memory_new AllowAll AllowAll.

Definition sample_stream (bs : Bytes) : Incoming * Outgoing :=
  (mkIncoming bs None, mkOutgoing [] None).

(** A session that has just been added, working on an open stream. *)
Definition sample_env : sample_env_type :=
  match add_client (E := Empty_set) (S := InMemoryStorage) "session-1" 1%nat 1%nat (sample_stream [])
          sample_broker with
  | (b, Ok r) => mkEnv (set_stream None r) (mkIncoming [] None) (mkOutgoing [] None) b
  | (b, _) => mkEnv (session_new "session-1" 1%nat 1%nat (sample_stream [])).2
                (mkIncoming [] None) (mkOutgoing [] None) b
  end.

Definition sample_publish (t : string) (q : QoS) (i : option Z) (d : bool) : PublishPacket :=
  mkPublish t i [Byte.x2a] q false d.

Lemma memory_new_wf bound : wf_stored bound (memory_abs memory_new).
Proof.
  intros k x Hx. change (kept (memory_abs memory_new) !! k = Some x) in Hx.
  rewrite memory_abs_lookup in Hx. simpl in Hx. by rewrite lookup_empty in Hx.
Qed.

Lemma sample_broker_wf bound : 2 ^ 32 - 1 ≤ bound → wf_broker bound sample_broker.
Proof.
  intros Hb.
  split; [|split; [apply map_Forall_empty|exact Hb]].
  split; [exists ∅; apply rep_new|]. split; [apply memory_inv_new|apply memory_new_wf].
Qed.

Lemma sample_env_wf : wf_env (2 ^ 32 - 1) sample_env.
Proof.
  destruct (sample_broker_wf (2 ^ 32 - 1)) as (Hr & Hc & Hb); [done|].
  split; [split; try done; unfold valid_id; simpl; lia|]. split; [exact Hr|].
  split; [|exact Hb]. apply map_Forall_insert_2; [constructor|exact Hc].
Qed.

(** A mailbox as the broker makes it, with no room left. *)
Definition sample_full : channel Packet :=
  Nat.iter 100 (push (Publish (sample_publish "a" AtMostOnce None false))) (mpsc_channel 100).

Lemma sample_full_length : length (queued sample_full) = 100%nat.
Proof. reflexivity. Qed.
