(* ===== verification/SessionProps.v ===== *)
(** What a session promises about the messages it carries. *)

From S2P Require Import Prelude Utf8 External Packet Codec CodecSim Topic Storage.
From S2P Require Import MemoryStorage Config Auth Router RouterFacts Broker Session.
From S2P Require Import Lifecycle SessionInv SessionSafe SessionFacts Samples.

Local Open Scope Z_scope.

Section SessionProps.
Context {BC : BytesCrate} {BL : BytesLaws} {MP : Mpsc} {MPL : MpscLaws}.
Context {HO : HashOrder} {HOL : HashOrderLaws}.
Context {S : Type} {ST : Storage S} {SL : StorageLaws S}.
Context {R W : Type} {AR : AsyncRead R} {ARL : AsyncReadLaws R} {AW : AsyncWrite W}
  {AWL : AsyncWriteLaws W} {CN : Connection W}.
Context {Au Az : Type} {AU : Authenticator Au} {AZ : Authorizer Az}.

Abbreviation Env := (Env (S := S) (R := R) (W := W) (Au := Au) (Az := Az)).

Implicit Types v : Env.

(** C1: a session keeps its packet identifiers, its queue of messages in flight
    and its inbound messages well formed, the router a table of subscriptions
    and the stored sessions restorable, on every path through its state
    machine, whatever arrives, fails, waits or is taken over.  The counts of the
    messages in flight stay below any bound above the limit ([retry_bound]). *)
Theorem session_invariant {E} bound ts ph v v' o :
  wf_env bound v → run (E := E) ts ph v = (v', o) → wf_env bound v'.
Proof.
  intros Hv E1. pose proof (proj1 (keeps_run (E := E) bound (wf_env_bound bound v Hv) ts ph v Hv)) as H.
  by rewrite E1 in H.
Qed.

(** C27: no packet and no message from the router makes a session panic once the
    packet has been decoded, in a build that checks arithmetic for overflow;
    connecting, saving and restoring do not either.  A tick of the retransmission
    timer panics if and only if a message is due that has been sent again
    [u32::MAX] times; with a limit below that none is (the bound of C1). *)
Theorem session_no_panic bound now utc p c v :
  wf_env bound v → typed_packet p → typed_packet (Connect c) →
  (on_packet now utc p v).2 ≠ Panic ∧ (on_message now p v).2 ≠ Panic ∧ (on_connect now c v).2 ≠ Panic ∧
  (∀ clean keep, is_u16 keep → (on_takeover clean keep v).2 ≠ Panic) ∧
  (save_to_storage (E := SessionError) utc v).2 ≠ Panic ∧
  (publish_will (E := SessionError) utc v).2 ≠ Panic ∧
  (let interval := get_retransmission_interval_ms (config (broker v)) in
   (on_retransmit now v).2 = Panic ↔
     interval ≠ 0 ∧ Exists (overflows interval now) (rt_inflight_queue (rt v))) ∧
  (bound < 2 ^ 32 → (on_retransmit now v).2 ≠ Panic).
Proof.
  intros Hv Hp Hc. pose proof (wf_env_bound bound v Hv) as Hb.
  assert (H : ∀ A (m : M Env SessionError A), safe (wf_env bound) (λ _, True) m → (m v).2 ≠ Panic).
  { intros A m Hm. destruct (Hm v Hv) as [_ H2]. by destruct (m v) as [? []]. }
  assert (Hpanic : let interval := get_retransmission_interval_ms (config (broker v)) in
    (on_retransmit now v).2 = Panic ↔
      interval ≠ 0 ∧ Exists (overflows interval now) (rt_inflight_queue (rt v))).
  { cbv zeta. destruct (on_retransmit_cases bound now v Hv) as [_ ->].
    rewrite retransmit_all_spec by by apply (counts_typed bound), Hv.
    case_decide as Ho; split; intros [? ?]; by split. }
  split_and!; try (intros; apply H; eauto using safe_on_packet, safe_on_message,
    safe_on_connect, safe_on_takeover, safe_save_to_storage, safe_publish_will; fail); [exact Hpanic|].
  intros Hlim [_ Ho%Exists_exists]%Hpanic. destruct Ho as (i & Hi & _ & Hm).
  destruct Hv as [Hr _]. pose proof (wf_queue _ Hr) as Hq. rewrite Forall_forall in Hq. destruct (Hq i Hi). lia.
Qed.

(** A QoS 2 message is routed once.  However often the client sends the
    PUBLISH with one identifier, with or without the dup flag, and then the
    PUBREL, the message that came first is routed exactly once, at the first
    PUBREL; every PUBLISH is answered with a PUBREC and every PUBREL with a
    PUBCOMP, and the session ends up as it was. *)
Theorem qos2_exactly_once now utc id p ps m v r' :
  connected (writer v) → rt_inbound_qos2 (rt v) !! id = None →
  Forall (λ q, qos q = ExactlyOnce ∧ packet_id q = Some id) (p :: ps) →
  authorize_publish (authorizer (broker v)) (client_name (rt v)) (topic p) = inl tt →
  route (E := SessionError) utc p (router (broker v)) = (r', Ok tt) →
  ∃ w', receive now utc
      ((Publish <$> p :: ps) ++ replicate (Datatypes.S m) (PubRel (mkPubRel id))) v =
    (with_broker (with_router r' (broker v)) (with_writer w' v), Ok tt) ∧
    took (writer v)
      (replicate (length (p :: ps)) (PubRec (mkPubRec id)) ++
       replicate (Datatypes.S m) (PubComp (mkPubComp id))) w'.
Proof.
  intros Hc Hn [[Hq Hi] Hps]%Forall_cons Ha Hr.
  destruct (publish_qos2_first now utc p id v Hc Hq Hi Hn) as (w1 & E1 & T1).
  set (v1 := with_writer w1 (set_received (<[id := mkReceived p]> (rt_inbound_qos2 (rt v))) v)) in *.
  destruct (receive_again now utc (PubRec (mkPubRec id)) (Publish <$> ps) v1 (proj1 T1))
    as (w2 & E2 & T2).
  { intros q w (q' & -> & Hq')%list_elem_of_fmap Hw. eapply Forall_forall in Hps as [Hq1 Hq2]; [|done].
    apply (publish_qos2_again now utc q' id (mkReceived p) (with_writer w v1) Hw Hq1 Hq2).
    apply lookup_insert_eq. }
  set (v2 := with_writer w2 v1) in *.
  destruct (pubrel_first now utc id p v2 r' (proj1 T2)) as (w3 & E3 & T3);
    [apply lookup_insert_eq|exact Ha|exact Hr|].
  set (v3 := with_broker _ _) in E3.
  destruct (receive_again now utc (PubComp (mkPubComp id)) (replicate m (PubRel (mkPubRel id))) v3
    (proj1 T3)) as (w4 & E4 & T4).
  { intros q w [-> _]%elem_of_replicate Hw.
    apply (pubrel_again now utc id (with_writer w v3) Hw). apply lookup_delete_eq. }
  exists w4. split.
  - cbn [fmap list_fmap replicate]. rewrite <- app_comm_cons, (receive_cons _ _ _ _ _ _ _ E1).
    rewrite receive_app, (bind_Ok _ _ _ _ _ E2), (receive_cons _ _ _ _ _ _ _ E3), E4.
    unfold v3, v2, v1, with_writer, with_broker, set_received, with_rt, set_inbound. cbn.
    rewrite delete_insert_eq, delete_id by done. by destruct v as [[]].
  - rewrite length_fmap in T2. rewrite length_replicate in T4. cbn [length replicate].
    rewrite <- !app_comm_cons. change (?x :: ?a ++ ?y :: ?b) with ([x] ++ (a ++ ([y] ++ b))).
    by apply (took_app _ [_] w1), (took_app _ _ w2), (took_app _ [_] w3).
Qed.

(** Allocating identifiers one after the other. *)
Fixpoint allocate (n : nat) : M Env SessionError (list Z) :=
  match n with
  | O => mret []
  | Datatypes.S n => i ← next_packet_id; l ← allocate n; mret (i :: l)
  end.

Lemma allocate_eq n v :
  ∃ v', allocate n v = (v', Ok ((λ k, Nat.iter k succ_id (rt_next_packet_id (rt v))) <$> seq 0 n)) ∧
    rt_next_packet_id (rt v') = Nat.iter n succ_id (rt_next_packet_id (rt v)).
Proof.
  revert v. induction n as [|n IH]; intros v; [by exists v|].
  cbn [allocate]. rewrite (bind_Ok _ _ _ _ _ (next_packet_id_eq v)).
  destruct (IH (with_rt (set_next_packet_id (succ_id (rt_next_packet_id (rt v))) (rt v)) v))
    as (v' & E1 & H1). exists v'. rewrite (bind_Ok _ _ _ _ _ E1).
  set (n0 := rt_next_packet_id (rt v)) in *.
  change (rt_next_packet_id (rt (with_rt _ v))) with (succ_id n0) in H1 |- *. split.
  - unfold mret, M_ret. do 2 f_equal. cbn [seq fmap list_fmap]. f_equal.
    rewrite <- fmap_S_seq, <- list_fmap_compose. apply list_fmap_ext. intros _ k _.
    symmetry. apply Nat.iter_succ_r.
  - rewrite H1. symmetry. apply Nat.iter_succ_r.
Qed.

(** The identifiers a session gives out are never 0, and any 65535 of them in
    a row are distinct: the counter comes around only after the whole range. *)
Theorem packet_ids_distinct n v :
  valid_id (rt_next_packet_id (rt v)) → (Z.of_nat n ≤ 65535) →
  ∃ v' ids, allocate n v = (v', Ok ids) ∧ length ids = n ∧ NoDup ids ∧ Forall valid_id ids ∧
    valid_id (rt_next_packet_id (rt v')).
Proof.
  intros Hv Hn. destruct (allocate_eq n v) as (v' & E1 & H1).
  assert (Hid : ∀ k, valid_id (Nat.iter k succ_id (rt_next_packet_id (rt v)))).
  { intros k. rewrite succ_id_iter by done. unfold valid_id.
    pose proof (Z.mod_pos_bound (rt_next_packet_id (rt v) - 1 + Z.of_nat k) 65535 ltac:(lia)). lia. }
  eexists v', _. split; [exact E1|]. split_and!.
  - by rewrite length_fmap, length_seq.
  - apply NoDup_alt. intros i j x Hi Hj.
    apply list_lookup_fmap_Some in Hi as (ki & -> & Hki), Hj as (kj & Hx & Hkj).
    apply lookup_seq in Hki as [-> Hli], Hkj as [-> Hlj].
    rewrite !Nat.add_0_l in Hx. rewrite !succ_id_iter in Hx by done. unfold valid_id in Hv.
    set (a := rt_next_packet_id (rt v) - 1) in *.
    assert (Hm : (a + Z.of_nat i) mod 65535 = (a + Z.of_nat j) mod 65535) by lia.
    pose proof (Z.div_mod (a + Z.of_nat i) 65535 ltac:(lia)).
    pose proof (Z.div_mod (a + Z.of_nat j) 65535 ltac:(lia)). nia.
  - apply Forall_fmap, Forall_true. intros k. apply Hid.
  - rewrite H1. apply Hid.
Qed.

(** C11: a message above level 0 is sent with a new identifier and stays in flight
    until it is acknowledged: the PUBACK of a QoS 1 message, or the PUBREC and
    PUBCOMP of a QoS 2 message, with a PUBREL in between, leave the queue as it
    was before, as long as the identifier was not in use. *)
Theorem outbound_handshake now utc p v :
  connected (writer v) → qos p ≠ AtMostOnce → dup p = false →
  let i := rt_next_packet_id (rt v) in
  free_id i (rt v) →
  let acks := match qos p with
              | ExactlyOnce => [PubRec (mkPubRec i); PubComp (mkPubComp i)]
              | _ => [PubAck (mkPubAck i)]
              end in
  let sent := match qos p with ExactlyOnce => [PubRel (mkPubRel i)] | _ => [] end in
  ∃ v1 w', on_message now (Publish p) v = (v1, Ok tt) ∧
    rt_inflight_queue (rt v1) = rt_inflight_queue (rt v) ++
      [mkInflight (with_dup true (with_packet_id (Some i) p)) now 0 (initial_state (qos p))] ∧
    receive now utc acks v1 =
      (with_rt (set_next_packet_id (succ_id i) (rt v)) (with_writer w' v), Ok tt) ∧
    took (writer v) (Publish (with_packet_id (Some i) p) :: sent) w'.
Proof.
  intros Hc Hq Hd i Hf acks sent.
  destruct (on_message_tracked now p v Hc Hq Hd) as (w1 & E1 & T1). fold i in T1, E1.
  set (v1 := with_rt _ (with_writer w1 v)) in E1. exists v1.
  set (m := mkInflight _ _ _ _).
  assert (Hqueue : rt_inflight_queue (rt v1) = rt_inflight_queue (rt v) ++ [m]) by done.
  unfold acks, sent. destruct (qos p) eqn:Eq; [done|..].
  - exists w1. split_and!; [exact E1|done| |exact T1].
    erewrite receive_cons by apply on_puback_eq. rewrite Hqueue, drop_inflight_last by done.
    cbn. by destruct v as [[] ? ? ?].
  - destruct (on_pubrec_eq now utc i v1 (proj1 T1)) as (w2 & E2 & T2). exists w2.
    split_and!; [exact E1|done| |by apply (took_app _ [_] w1)].
    erewrite receive_cons by exact E2. rewrite Hqueue, mark_received_last by done.
    erewrite receive_cons by apply on_pubcomp_eq. cbn [rt with_rt rt_inflight_queue set_inflight].
    rewrite drop_inflight_last by done. by destruct v as [[] ? ? ?].
Qed.

(** * Retransmission *)

(** How often a message is sent again over the ticks of the timer, and what
    becomes of it; [None] when a tick panics. *)
Fixpoint resends (interval limit : Z) (nows : list Instant) (i : InflightMessage) :
    option (nat * option InflightMessage) :=
  match nows with
  | [] => Some (0%nat, Some i)
  | now :: nows =>
      '(kept, pubs, rels) ← retransmit_one interval limit now i;
      match kept with
      | None => Some ((length pubs + length rels)%nat, None)
      | Some i' =>
          '(n, o) ← resends interval limit nows i';
          Some ((length pubs + length rels + n)%nat, o)
      end
  end.

(** Every tick finds the message due. *)
Fixpoint all_due (interval : Z) (prev : Instant) (nows : list Instant) : Prop :=
  match nows with
  | [] => True
  | now :: nows => interval ≤ elapsed_ms now prev ∧ all_due interval now nows
  end.

(** C22: a message that is never acknowledged is sent again at most as often as
    the limit allows, a tick that comes early does nothing, and once the message
    has been due more often than that it is dropped.  (The limit is not the
    largest [u32], where the counter would overflow; below it no tick panics.) *)
Theorem retransmission_bounded interval limit nows i :
  0 ≤ retry_count i ≤ limit → limit < 2 ^ 32 - 1 →
  ∃ n o, resends interval limit nows i = Some (n, o) ∧
    Z.of_nat n ≤ limit - retry_count i ∧
    (all_due interval (timestamp i) nows → limit - retry_count i < Z.of_nat (length nows) → o = None).
Proof.
  intros Hi Hl. revert i Hi. induction nows as [|now nows IH]; intros i Hi; cbn [resends].
  { eexists _, _. split; [done|]. simpl. split; [lia|]. intros _. lia. }
  rewrite retransmit_one_spec by (unfold is_u32; lia).
  rewrite decide_False by (unfold overflows; lia). cbn [mbind option_bind]. unfold after_tick.
  rewrite (filter_cons (sent_again interval limit now)), filter_nil.
  destruct (decide (interval ≤ elapsed_ms now (timestamp i))) as [Hd|Hd].
  - destruct (decide (retry_count i < limit)) as [Hx|Hx].
    + rewrite (decide_True (P := sent_again _ _ _ _)) by done. set (i' := mkInflight _ _ _ _).
      destruct (IH i' ltac:(cbn; lia)) as (n & o & -> & IH1 & IH2). cbn [mbind option_bind].
      eexists _, _. split; [done|]. cbn [retry_count i'] in IH1, IH2.
      assert (length (if_packet <$> filter (λ i, ¬ released i) [i]) +
        length (omap (λ i, packet_id (if_packet i)) (filter released [i])) ≤ 1)%nat as Hone.
      { rewrite !filter_cons, !filter_nil. destruct (decide (released i)) as [Hr|Hr].
        - rewrite decide_False by (by intros H). cbn. destruct (packet_id (if_packet i)); cbn; lia.
        - rewrite decide_True by done. cbn. lia. }
      split; [lia|]. intros [_ Hall] Hn. simpl in Hn. apply IH2; [exact Hall|lia].
    + rewrite (decide_False (P := sent_again _ _ _ _)) by (unfold sent_again; lia). eexists _, _. split; [done|]. cbn. by split; [lia|].
  - rewrite (decide_False (P := sent_again _ _ _ _)) by (unfold sent_again; lia). destruct (IH i Hi) as (n & o & -> & IH1 & IH2).
    eexists _, _. split; [done|]. cbn. split; [lia|]. intros [Hdue _]. lia.
Qed.

Lemma send_pubrels l v :
  connected (writer v) →
  ∃ w', for_each l (λ i, send_packet (PubRel (mkPubRel i))) v = (with_writer w' v, Ok tt) ∧
    took (writer v) ((λ i, PubRel (mkPubRel i)) <$> l) w'.
Proof.
  revert v. induction l as [|i l IH]; intros v Hc.
  { exists (writer v). rewrite with_writer_id. split; [done|by apply took_nil]. }
  destruct (send_connected (PubRel (mkPubRel i)) v Hc) as (w1 & E1 & T1).
  destruct (IH (with_writer w1 v) (proj1 T1)) as (w2 & E2 & T2).
  exists w2. cbn [for_each]. rewrite (bind_Ok _ _ _ _ _ E1), E2. split; [done|].
  by apply (took_app _ [_] w1).
Qed.

(** C19: a tick of the retransmission timer goes through the messages in flight
    that are as old as the interval.  One that has been sent again as often as the
    limit allows is dropped; another is counted, has its time set to now, and is
    sent again: as the PUBLISH, through the session's own mailbox, or as the
    PUBREL, written at once, if the PUBREC for it has come.  A younger one stays
    as it is.  But a session that has more PUBLISH packets to send than its mailbox
    has room for is left waiting for ever, since only the session itself takes
    packets out of it; and a count that has reached the greatest [u32] overflows.
    An interval of 0 turns all this off. *)
Theorem retransmit_tick now v c :
  connected (writer v) → mailboxes (router (broker v)) !! rt_message_tx (rt v) = Some c →
  Forall (λ i, is_u32 (retry_count i)) (rt_inflight_queue (rt v)) →
  let interval := get_retransmission_interval_ms (config (broker v)) in
  let limit := max_retransmission_limit (config (broker v)) in
  let due i := interval ≤ elapsed_ms now (timestamp i) in
  let again := filter (λ i, due i ∧ retry_count i < limit) (rt_inflight_queue (rt v)) in
  let pubs := if_packet <$> filter (λ i, qos2_state i ≠ Some AwaitingPubComp) again in
  let rels := omap (λ i, packet_id (if_packet i)) (filter (λ i, qos2_state i = Some AwaitingPubComp) again) in
  let kept := omap (λ i,
    if decide (due i) then
      if decide (retry_count i < limit)
      then Some (mkInflight (if_packet i) now (retry_count i + 1) (qos2_state i)) else None
    else Some i) (rt_inflight_queue (rt v)) in
  let overflow := Exists (λ i, due i ∧ retry_count i = 2 ^ 32 - 1) (rt_inflight_queue (rt v)) in
  (interval = 0 → on_retransmit now v = (v, Ok tt)) ∧
  (interval ≠ 0 → overflow → on_retransmit now v = (v, Panic)) ∧
  (interval ≠ 0 → ¬ overflow → (length (queued c) + length pubs ≤ capacity c)%nat →
   ∃ c' w', on_retransmit now v =
       (with_writer w' (enqueue_own c' (with_rt (set_inflight kept (rt v)) v)), Ok tt) ∧
     queued c' = queued c ++ (Publish <$> pubs) ∧
     took (writer v) ((λ i, PubRel (mkPubRel i)) <$> rels) w') ∧
  (interval ≠ 0 → ¬ overflow → pubs ≠ [] → (capacity c < length (queued c) + length pubs)%nat →
   ∃ v', on_retransmit now v = (v', Pending)).
Proof.
  intros Hc Hm Hu interval limit due again pubs rels kept overflow.
  assert (retransmit_all interval limit now (rt_inflight_queue (rt v)) =
    if decide overflow then None else Some (kept, pubs, rels)) as Hr by exact (retransmit_all_spec _ _ _ _ Hu).
  unfold on_retransmit. rewrite bind_gets. cbv zeta. fold interval limit.
  split; [by intros ->|].
  split; [intros Hi Ho|split; intros Hi Ho]; apply Z.eqb_neq in Hi; rewrite Hi, bind_gets, Hr.
  { by rewrite decide_True. }
  all: rewrite decide_False by done; cbn [or_panic]; rewrite bind_ret; unfold on_runtime;
    rewrite bind_modify; set (v1 := with_rt _ _);
    destruct (send_all_to_self Publish pubs c v1 Hm) as [Hok Hfull].
  - intros Hroom. destruct Hok as (c' & E1 & Q1 & _); [by left|].
    rewrite (bind_Ok _ _ _ _ _ E1).
    destruct (send_pubrels rels (enqueue_own c' v1) Hc) as (w' & E2 & T2).
    exists c', w'. by rewrite E2.
  - intros Hne Hover. destruct (Hfull Hover Hne) as (v' & E1). exists v'.
    by rewrite (bind_Pending _ _ _ _ E1).
Qed.

(** * PUBLISH at levels 0 and 1 *)

(** A PUBLISH of level 0 or 1 from an authorized client is routed, after a
    PUBACK at level 1; one the client may not send is acknowledged and dropped.
    A level 1 PUBLISH with the dup flag is acknowledged and never routed,
    whether or not the session has seen the message before. *)
Theorem publish_received now utc p v :
  connected (writer v) → qos p ≠ ExactlyOnce →
  (qos p = AtLeastOnce → is_Some (packet_id p)) →
  let acks := match qos p, packet_id p with
              | AtLeastOnce, Some i => [PubAck (mkPubAck i)]
              | _, _ => []
              end in
  let routed := negb (bool_decide (qos p = AtLeastOnce) && dup p) in
  ∃ w', took (writer v) acks w' ∧
    (routed = false → on_packet now utc (Publish p) v = (with_writer w' v, Ok true)) ∧
    (∀ e, authorize_publish (authorizer (broker v)) (client_name (rt v)) (topic p) = inr e →
       on_packet now utc (Publish p) v = (with_writer w' v, Ok true)) ∧
    (∀ r', routed = true →
       authorize_publish (authorizer (broker v)) (client_name (rt v)) (topic p) = inl tt →
       route (E := SessionError) utc p (router (broker v)) = (r', Ok tt) →
       on_packet now utc (Publish p) v =
         (with_broker (with_router r' (broker v)) (with_writer w' v), Ok true)).
Proof.
  intros Hc Hq Hid acks routed. cbn [on_packet]. unfold on_publish.
  assert (Hend : ∀ v1, broker v1 = broker v → rt v1 = rt v →
    (∀ e, authorize_publish (authorizer (broker v)) (client_name (rt v)) (topic p) = inr e →
       authorize_and_route utc p v1 = (v1, Ok true)) ∧
    (∀ r', authorize_publish (authorizer (broker v)) (client_name (rt v)) (topic p) = inl tt →
       route (E := SessionError) utc p (router (broker v)) = (r', Ok tt) →
       authorize_and_route utc p v1 = (with_broker (with_router r' (broker v)) v1, Ok true))).
  { intros v1 Hb Hr. unfold authorize_and_route. rewrite bind_gets. unfold id. rewrite Hb, Hr.
    split; [by intros e ->|]. intros r' -> Hroute. erewrite bind_Ok; [done|].
    unfold on_broker, broker_route, on_router, zoom. rewrite Hb. by rewrite Hroute. }
  destruct (qos p) eqn:Eq; [| |done].
  - exists (writer v). split; [by apply took_nil|]. rewrite with_writer_id.
    destruct (Hend v eq_refl eq_refl) as [H1 H2]. split_and!; [done|done|auto].
  - destruct (Hid eq_refl) as [i Hi]. unfold on_publish_qos1, acks. rewrite Hi.
    destruct (send_connected (PubAck (mkPubAck i)) v Hc) as (w' & E1 & T1).
    exists w'. split; [exact T1|]. rewrite (bind_Ok _ _ _ _ _ E1). unfold routed.
    destruct (Hend (with_writer w' v) eq_refl eq_refl) as [H1 H2].
    destruct (dup p); cbn; split_and!; done || auto.
Qed.

(** * SUBSCRIBE *)

Definition authorized (z : Az) (c : string) (fq : string * QoS) : bool :=
  match authorize_subscribe z c fq.1 with inl _ => true | inr _ => false end.

(** The answer to one filter. *)
Definition answer (z : Az) (c : string) (fq : string * QoS) : Z :=
  if authorized z c fq then granted fq else subscribe_return_codes.FAILURE.

Lemma split_authorized_filter z c i l :
  (split_authorized z c i l).1 = filter (λ fq, Is_true (authorized z c fq)) l.
Proof.
  revert i. induction l as [|[f q] l IH]; intros i; [done|]. cbn [split_authorized].
  specialize (IH (i + 1)%nat). destruct (split_authorized z c (i + 1) l) as [a d].
  cbn [fst] in IH. rewrite filter_cons, <- IH. unfold authorized. cbn [fst].
  by destruct (authorize_subscribe z c f).
Qed.

Lemma place_codes_answer z c l :
  place_codes z c (granted <$> filter (λ fq, Is_true (authorized z c fq)) l) l = answer z c <$> l.
Proof.
  induction l as [|[f q] l IH]; [done|]. cbn [place_codes fmap list_fmap].
  unfold answer at 1. destruct (authorized z c (f, q)) eqn:Ha.
  - rewrite filter_cons_True by (by rewrite Ha). unfold authorized in Ha. cbn [fst] in Ha.
    destruct (authorize_subscribe z c f); [|done]. cbn [fmap list_fmap]. f_equal. exact IH.
  - rewrite filter_cons_False by (rewrite Ha; by intros []). unfold authorized in Ha. cbn [fst] in Ha.
    destruct (authorize_subscribe z c f); [done|]. f_equal. exact IH.
Qed.

(** C12: a SUBSCRIBE is answered with one return code per filter, in order: the
    level asked for if the client is authorized and the filter valid, 0x80
    otherwise; the authorized valid filters are subscribed with the mailbox of
    the session.  The retained messages these filters select, and no others, go
    to that mailbox (the storage does not fail); and if it has no room for all of
    them the session is left waiting for ever. *)
Theorem subscribe_answered {SR : StorageReliable S} now utc p v t c :
  connected (writer v) → storage_inv (storage (router (broker v))) →
  rep t (data (router (broker v))) →
  mailboxes (router (broker v)) !! rt_message_tx (rt v) = Some c →
  let z := authorizer (broker v) in
  let name := client_name (rt v) in
  let fs := filter (λ fq, Is_true (authorized z name fq)) (topic_filters p) in
  ∃ w' r' pkts,
    pkts ≡ₚ filter (λ fq, Is_true (validate_subscribe_filter fq.1)) fs
              ≫= retained_matches (retained (router (broker v))) ∧
    took (writer v) [SubAck (mkSubAck (subscribe_id p) (answer z name <$> topic_filters p))] w' ∧
    rep (foldl (table_subscribe (rt_id (rt v)) (rt_message_tx (rt v))) t fs) (data r') ∧
    mailboxes r' = mailboxes (router (broker v)) ∧ stored r' = stored (router (broker v)) ∧
    let v1 := with_writer w' (with_broker (with_router r' (broker v)) v) in
    ((length (queued c) + length pkts ≤ capacity c)%nat ∨ pkts = [] →
     ∃ c', on_packet now utc (Subscribe p) v = (enqueue_own c' v1, Ok true) ∧
       queued c' = queued c ++ (Publish <$> pkts)) ∧
    ((capacity c < length (queued c) + length pkts)%nat → pkts ≠ [] →
     ∃ v', on_packet now utc (Subscribe p) v = (v', Pending)).
Proof.
  intros Hc Hs Ht Hm z name fs. cbn [on_packet]. unfold on_subscribe. rewrite bind_gets.
  unfold id.
  pose proof (merge_codes_subscribe z name (topic_filters p)) as Hmerge.
  pose proof (split_authorized_filter z name 0 (topic_filters p)) as Hfs.
  fold z name. fold fs in Hfs. destruct (split_authorized z name 0 (topic_filters p)) as [fs' denied].
  cbn [fst snd] in Hmerge, Hfs. subst fs'.
  assert (Hrouter : ∃ r' pkts,
    pkts ≡ₚ filter (λ fq, Is_true (validate_subscribe_filter fq.1)) fs
              ≫= retained_matches (retained (router (broker v))) ∧
    (if negb (bool_decide (fs = []))
     then on_broker (E := SessionError) (broker_subscribe (rt_id (rt v)) (rt_message_tx (rt v)) fs)
     else mret ([], [])) v =
    (with_broker (with_router r' (broker v)) v, Ok (granted <$> fs, pkts)) ∧
    rep (foldl (table_subscribe (rt_id (rt v)) (rt_message_tx (rt v))) t fs) (data r') ∧
    mailboxes r' = mailboxes (router (broker v)) ∧ stored r' = stored (router (broker v))).
  { case_bool_decide as He; cbn [negb].
    - exists (router (broker v)), []. rewrite He. split; [done|]. split; [|done]. by destruct v as [? ? ? []].
    - destruct (subscribe_spec (E := SessionError) (rt_id (rt v)) (rt_message_tx (rt v)) fs
        (router (broker v)) t Hs Ht) as (r' & pkts & E1 & _ & H2 & H3 & _ & H5).
      destruct (subscribe_retained_spec (E := SessionError) (rt_id (rt v)) (rt_message_tx (rt v)) fs
        (router (broker v)) t Hs Ht) as (r2 & pkts2 & E2 & Hpkts).
      rewrite E1 in E2. injection E2 as <- <-. exists r', pkts. split; [exact Hpkts|].
      split; [|done]. unfold on_broker, broker_subscribe, on_router, zoom.
      by rewrite E1. }
  destruct Hrouter as (r' & pkts & Hpkts & E1 & H1 & H2 & H3). rewrite (bind_Ok _ _ _ _ _ E1).
  rewrite (Hmerge (granted <$> fs)) by apply length_fmap.
  pose proof (place_codes_answer z name (topic_filters p)) as Hplace. fold fs in Hplace.
  rewrite Hplace. cbn [or_panic]. rewrite bind_ret.
  set (v0 := with_broker _ v).
  destruct (send_connected (SubAck (mkSubAck (subscribe_id p) (answer z name <$> topic_filters p)))
    v0 Hc) as (w' & E2 & T2).
  exists w', r', pkts. split; [exact Hpkts|]. split; [exact T2|]. split; [exact H1|]. split; [exact H2|]. split; [exact H3|].
  destruct (send_all_to_self Publish pkts c (with_writer w' v0)) as [Hok Hfull];
    [cbn; by rewrite H2|]. split.
  - intros Hroom. destruct (Hok Hroom) as (c' & E3 & Q3 & _). exists c'.
    by rewrite (bind_Ok _ _ _ _ _ E2), (bind_Ok _ _ _ _ _ E3).
  - intros Hover Hne. destruct (Hfull Hover Hne) as (v' & E3). exists v'.
    by rewrite (bind_Ok _ _ _ _ _ E2), (bind_Pending _ _ _ _ E3).
Qed.
End SessionProps.

(** * On the sample session *)

Abbreviation sample_take := (took (W := Outgoing)).

Lemma session_invariant_witness :
  let v := with_reader (mkIncoming (wire (Publish (sample_publish "a" ExactlyOnce (Some 7) false))) None)
             sample_env in
  ∃ v' o, run (BC := list_bytes) (E := Empty_set) [mkTurn OnDecode false 0 0] (InLoop 0) v = (v', o) ∧
    o = Ok (InLoop 0) ∧ size (rt_inbound_qos2 (rt v')) = 1%nat ∧ wf_env (2 ^ 32 - 1) v'.
Proof.
  intros v. destruct (run (BC := list_bytes) (E := Empty_set) [mkTurn OnDecode false 0 0] (InLoop 0) v)
    as [v' o] eqn:E1. exists v', o. split; [reflexivity|].
  pose proof (session_invariant (BC := list_bytes) (SL := memory_laws) _ _ _ v v' o sample_env_wf E1) as H.
  vm_compute in E1. injection E1 as <- <-. split; [reflexivity|]. split; [reflexivity|exact H].
Defined.

Lemma session_no_panic_witness :
  (on_packet (BC := list_bytes) 0 0
     (Subscribe (mkSubscribe 1 [("a/#", ExactlyOnce); ("#a", AtMostOnce)])) sample_env).2 ≠ Panic.
Proof.
  exact (proj1 (session_no_panic (BC := list_bytes) (SL := memory_laws) _ 0 0
    (Subscribe (mkSubscribe 1 [("a/#", ExactlyOnce); ("#a", AtMostOnce)]))
    (mkConnect "MQTT" 4 true 0 "c" false AtMostOnce false None None None None) sample_env sample_env_wf I ltac:(split; done))).
Defined.

Lemma qos2_exactly_once_witness :
  let p := sample_publish "a" ExactlyOnce (Some 7) false in
  let r' := (route (E := SessionError) 0 p (router (broker sample_env))).1 in
  ∃ w', receive (BC := list_bytes) 0 0
      [Publish p; Publish (with_dup true p); PubRel (mkPubRel 7); PubRel (mkPubRel 7)] sample_env =
    (with_broker (with_router r' (broker sample_env)) (with_writer w' sample_env), Ok tt) ∧
    sample_take (writer sample_env)
      [PubRec (mkPubRec 7); PubRec (mkPubRec 7); PubComp (mkPubComp 7); PubComp (mkPubComp 7)] w'.
Proof.
  intros p r'.
  refine (qos2_exactly_once (BC := list_bytes) 0 0 7 p [with_dup true p] 1
    sample_env r' _ _ _ _ _); try reflexivity.
  repeat constructor.
Defined.

Lemma packet_ids_distinct_witness :
  ∃ v' ids, allocate 3 (with_rt (set_next_packet_id 65534 (rt sample_env)) sample_env) = (v', Ok ids) ∧
    ids = [65534; 65535; 1] ∧ NoDup ids.
Proof.
  destruct (packet_ids_distinct 3 (with_rt (set_next_packet_id 65534 (rt sample_env)) sample_env))
    as (v' & ids & E1 & _ & H & _); [unfold valid_id; simpl; lia|lia|].
  exists v', ids. split; [exact E1|]. split; [|exact H]. vm_compute in E1. by injection E1 as <- <-.
Defined.

Lemma outbound_handshake_witness :
  let p := sample_publish "a" ExactlyOnce None false in
  ∃ v1 w', on_message (BC := list_bytes) 0 (Publish p) sample_env = (v1, Ok tt) ∧
    receive (BC := list_bytes) 0 0 [PubRec (mkPubRec 1); PubComp (mkPubComp 1)] v1 =
      (with_rt (set_next_packet_id 2 (rt sample_env)) (with_writer w' sample_env), Ok tt) ∧
    sample_take (writer sample_env)
      [Publish (with_packet_id (Some 1) p); PubRel (mkPubRel 1)] w'.
Proof.
  intros p. destruct (outbound_handshake (BC := list_bytes) 0 0 p sample_env)
    as (v1 & w' & E1 & _ & E2 & T); [reflexivity|discriminate|reflexivity|constructor|].
  exists v1, w'. split; [exact E1|]. split; [exact E2|exact T].
Defined.

Lemma retransmission_bounded_witness :
  let i := mkInflight (sample_publish "a" AtLeastOnce (Some 7) true) 0 0 None in
  let nows := [5000000000; 10000000000; 15000000000] in
  all_due 5000 0 nows ∧ resends 5000 2 nows i = Some (2%nat, None).
Proof.
  intros i nows. split; [vm_compute; repeat split; discriminate|].
  destruct (retransmission_bounded 5000 2 nows i ltac:(simpl; lia) ltac:(lia)) as (n & o & E1 & _).
  vm_compute in E1. by injection E1 as <- <-.
Defined.

(** The sample session with four messages in flight: two are sent again at 6 s, one
    is dropped and one is too young. *)
Definition sample_due : sample_env_type :=
  with_rt (set_inflight [mkInflight (sample_publish "a" AtLeastOnce (Some 7) true) 0 0 None;
                         mkInflight (sample_publish "b" ExactlyOnce (Some 8) true) 0 1 (Some AwaitingPubComp);
                         mkInflight (sample_publish "c" AtLeastOnce (Some 9) true) 0 10 None;
                         mkInflight (sample_publish "d" AtLeastOnce (Some 10) true) 5000000000 0 None]
             (rt sample_env)) sample_env.

Lemma retransmit_tick_witness :
  ∃ c' w', on_retransmit (BC := list_bytes) 6000000000 sample_due =
      (with_writer w' (enqueue_own c' (with_rt (set_inflight
         [mkInflight (sample_publish "a" AtLeastOnce (Some 7) true) 6000000000 1 None;
          mkInflight (sample_publish "b" ExactlyOnce (Some 8) true) 6000000000 2 (Some AwaitingPubComp);
          mkInflight (sample_publish "d" AtLeastOnce (Some 10) true) 5000000000 0 None]
         (rt sample_due)) sample_due)), Ok tt) ∧
    queued c' = [Publish (sample_publish "a" AtLeastOnce (Some 7) true)] ∧
    sample_take (writer sample_due) [PubRel (mkPubRel 8)] w'.
Proof.
  assert (Forall (λ i, is_u32 (retry_count i)) (rt_inflight_queue (rt sample_due))) as Hu
    by (repeat constructor; unfold is_u32; cbn; lia).
  destruct (proj1 (proj2 (proj2 (retransmit_tick (BC := list_bytes) (CN := outgoing_connection) 6000000000 sample_due
    (mpsc_channel 100) eq_refl eq_refl Hu))))
    as (c' & w' & E1 & Q & T); [..|exists c', w'; by split_and!].
  - refine (bool_decide_unpack _ _); vm_compute; exact I.
  - refine (bool_decide_unpack _ _); vm_compute; exact I.
  - vm_compute. lia.
Defined.

Lemma publish_received_witness :
  let p := sample_publish "a" AtLeastOnce (Some 7) true in
  ∃ w', on_packet (BC := list_bytes) 0 0 (Publish p) sample_env = (with_writer w' sample_env, Ok true) ∧
    sample_take (writer sample_env) [PubAck (mkPubAck 7)] w'.
Proof.
  intros p. destruct (publish_received (BC := list_bytes) 0 0 p sample_env)
    as (w' & T & H & _); [reflexivity|discriminate|eexists; reflexivity|].
  exists w'. split; [exact (H eq_refl)|exact T].
Defined.

(** The sample session on a router that keeps a retained message, with a mailbox. *)
Definition sample_retaining (mailbox : channel Packet) : sample_env_type :=
  with_broker (with_router (mkRouter internal_new
    (save_retained_message (mkPersistedRetained "a/x" [Byte.x00] SExactlyOnce 5) memory_new).1
    10 {[ 1%nat := mailbox ]}) (broker sample_env)) sample_env.

Lemma subscribe_answered_witness :
  let p := mkSubscribe 9 [("a/#", AtLeastOnce); ("#a", AtMostOnce); ("b", AtLeastOnce)] in
  let on mailbox := on_packet (BC := list_bytes) 0 0 (Subscribe p) (sample_retaining mailbox) in
  (∃ w' c', sample_take (mkOutgoing [] None) [SubAck (mkSubAck 9 [1; 128; 1])] w' ∧
     (on (mpsc_channel 100)).2 = Ok true ∧ mailboxes (router (broker (on (mpsc_channel 100)).1)) !! 1%nat = Some c' ∧
     queued c' = [Publish (mkPublish "a/x" None [Byte.x00] AtLeastOnce true false)]) ∧
  (on sample_full).2 = Pending.
Proof.
  intros p on.
  assert (H := λ mailbox, subscribe_answered (BC := list_bytes) (CN := outgoing_connection) (SL := memory_laws)
    (SR := memory_reliable) 0 0 p (sample_retaining mailbox) ∅ mailbox eq_refl
    (proj1 (save_retained_message_spec (StorageLaws := memory_laws) _ memory_new memory_inv_new)) rep_new eq_refl).
  split.
  - destruct (H (mpsc_channel 100)) as (w' & r' & pkts & Hp & T & _ & _ & _ & Hok & _).
    eexists w', _. split; [exact T|]. subst on. vm_compute. split; [reflexivity|]. split; reflexivity.
  - destruct (H sample_full) as (w' & r' & pkts & Hp & _ & _ & _ & _ & _ & Hfull).
    assert (pkts ≠ []) as Hne by (intros ->; apply Permutation_length in Hp; vm_compute in Hp; discriminate Hp).
    destruct (Hfull ltac:(rewrite sample_full_length; destruct pkts; [done|cbn; lia]) Hne) as (v' & E1).
    subst on. cbv beta. by rewrite E1.
Defined.
