(* ===== verification/Receiver.v ===== *)
(** The receiving side of a session against a reference: a machine that holds the
    messages of level 2 between PUBLISH and PUBREL and hands each on once, as
    MQTT 3.1.1 has it; a message of level 1 it hands on unless it comes with the
    dup flag, which is the program's own rule.  A session that is sent PUBLISH and PUBREL packets, in any order and
    however often, routes what the receiver hands on and answers as it does. *)

From S2P Require Import Prelude External Packet Codec CodecSim CodecBodies CodecFacts Topic Storage.
From S2P Require Import MemoryStorage Config Auth Router RouterFacts Broker Session SessionFacts Samples.

Local Open Scope Z_scope.

(** * The receiver *)

Abbreviation Held := (gmap Z ReceivedQos2Message).

(** What it hands on when a packet comes, and what it holds then. *)
Definition take_in (pk : Packet) (held : Held) : list PublishPacket * Held :=
  match pk with
  | Publish p =>
      match qos p, packet_id p with
      | AtMostOnce, _ => ([p], held)
      | AtLeastOnce, _ => (if dup p then [] else [p], held)
      | ExactlyOnce, Some i =>
          ([], match held !! i with Some _ => held | None => <[i := mkReceived p]> held end)
      | ExactlyOnce, None => ([], held)
      end
  | PubRel r =>
      (match held !! pubrel_id r with Some m => [received_packet m] | None => [] end,
       delete (pubrel_id r) held)
  | _ => ([], held)
  end.

Fixpoint take_all (ps : list Packet) (held : Held) : list PublishPacket * Held :=
  match ps with
  | [] => ([], held)
  | pk :: ps' =>
      let '(l, held1) := take_in pk held in
      let '(l', held2) := take_all ps' held1 in (l ++ l', held2)
  end.

(** Its answers. *)
Definition reply (pk : Packet) : list Packet :=
  match pk with
  | Publish p =>
      match qos p, packet_id p with
      | AtLeastOnce, Some i => [PubAck (mkPubAck i)]
      | ExactlyOnce, Some i => [PubRec (mkPubRec i)]
      | _, _ => []
      end
  | PubRel r => [PubComp (mkPubComp (pubrel_id r))]
  | _ => []
  end.

Definition replies (ps : list Packet) : list Packet := mjoin (reply <$> ps).

(** The packets of a client that sends messages. *)
Definition from_sender (pk : Packet) : bool :=
  match pk with Publish _ | PubRel _ => true | _ => false end.

Lemma take_all_app ps qs held :
  take_all (ps ++ qs) held =
    ((take_all ps held).1 ++ (take_all qs (take_all ps held).2).1, (take_all qs (take_all ps held).2).2).
Proof.
  revert held. induction ps as [|pk ps IH]; intros held; cbn [take_all app].
  { cbn. by destruct (take_all qs held). }
  destruct (take_in pk held) as [l h1]. rewrite IH.
  destruct (take_all ps h1) as [l1 h2]. cbn. destruct (take_all qs h2). cbn. by rewrite app_assoc.
Qed.

(** ** A message of level 2 is handed on once

    The packets that concern an identifier of level 2, and the messages sent
    under it. *)
Definition concerns (i : Z) (pk : Packet) : bool :=
  match pk with
  | Publish p => bool_decide (qos p = ExactlyOnce ∧ packet_id p = Some i)
  | PubRel r => pubrel_id r =? i
  | _ => false
  end.

Definition numbered_as (i : Z) (p : PublishPacket) : bool :=
  bool_decide (qos p = ExactlyOnce ∧ packet_id p = Some i).

(** What is held under an identifier is a message of level 2 with it. *)
Definition held_ok (held : Held) : Prop :=
  ∀ i m, held !! i = Some m → qos (received_packet m) = ExactlyOnce ∧ packet_id (received_packet m) = Some i.

Lemma take_in_held_ok pk held : held_ok held → held_ok (take_in pk held).2.
Proof.
  intros H. destruct pk as [| |p| | |r| | | | | | | |]; try exact H; cbn.
  - destruct (qos p) eqn:Eq, (packet_id p) as [i|] eqn:Ei; try exact H.
    cbn. destruct (held !! i); [exact H|]. intros j m [[<- <-]|[_ Hm]]%lookup_insert_Some; [done|by apply H].
  - intros j m [_ Hm]%lookup_delete_Some. by apply H.
Qed.

(** A packet that concerns the identifier, and one that does not. *)
Lemma take_in_concerned i pk held held' :
  held_ok held → held !! i = held' !! i → concerns i pk →
  filter (numbered_as i) (take_in pk held).1 = (take_in pk held').1 ∧
  (take_in pk held).2 !! i = (take_in pk held').2 !! i.
Proof.
  intros Hok E Hc. destruct pk as [| |p| | |r| | | | | | | |]; try done; cbn in Hc |- *.
  - apply bool_decide_unpack in Hc as [-> ->]. cbn. split; [done|]. rewrite <- E.
    destruct (held !! i) eqn:Ei; [by rewrite Ei, <- E|by rewrite !lookup_insert_eq].
  - apply Is_true_true, Z.eqb_eq in Hc. rewrite Hc, <- E, !lookup_delete_eq. split; [|done].
    destruct (held !! i) as [m|] eqn:Em; [|done].
    rewrite filter_cons_True, filter_nil; [done|]. apply bool_decide_pack. by apply Hok.
Qed.

Lemma filter_other i l : (∀ p, p ∈ l → ¬ numbered_as i p) → filter (numbered_as i) l = [].
Proof.
  induction l as [|p l IH]; intros H; [done|].
  rewrite filter_cons_False by (apply H; by left). apply IH. intros q Hq. apply H. by right.
Qed.

Lemma take_in_other i pk held :
  held_ok held → ¬ concerns i pk →
  filter (numbered_as i) (take_in pk held).1 = [] ∧ (take_in pk held).2 !! i = held !! i.
Proof.
  intros Hok Hc. split.
  - apply filter_other. intros q Hq Hi. apply bool_decide_unpack in Hi as [Hi1 Hi2].
    destruct pk as [| |p| | |r| | | | | | | |]; cbn in Hq; try by apply elem_of_nil in Hq.
    + assert (q = p) as -> by (destruct (qos p), (packet_id p), (dup p); set_solver).
      rewrite Hi1, Hi2 in Hq. set_solver.
    + destruct (held !! pubrel_id r) as [m|] eqn:Em; [|set_solver].
      apply list_elem_of_singleton in Hq as ->. destruct (Hok _ _ Em) as [_ E].
      apply Hc. cbn. apply Is_true_true, Z.eqb_eq. congruence.
  - destruct pk as [| |p| | |r| | | | | | | |]; try done; cbn in Hc |- *.
    + destruct (qos p) eqn:Eq, (packet_id p) as [j|] eqn:Ej; try done. cbn.
      destruct (held !! j); [done|]. apply lookup_insert_ne. intros ->. by apply Hc, bool_decide_pack.
    + apply lookup_delete_ne. intros E. apply Hc. by rewrite E, Z.eqb_refl.
Qed.

(** The exchanges of different identifiers do not touch each other. *)
Lemma take_all_concerned i ps held held' :
  held_ok held → held !! i = held' !! i →
  filter (numbered_as i) (take_all ps held).1 = (take_all (filter (concerns i) ps) held').1 ∧
  (take_all ps held).2 !! i = (take_all (filter (concerns i) ps) held').2 !! i.
Proof.
  revert held held'. induction ps as [|pk ps IH]; intros held held' Hok E; [done|].
  pose proof (take_in_held_ok pk held Hok) as Hok1. cbn [take_all].
  destruct (decide (concerns i pk)) as [Hc|Hc].
  - rewrite filter_cons_True by done. cbn [take_all].
    destruct (take_in_concerned i pk held held' Hok E Hc) as [E1 E2].
    destruct (take_in pk held) as [l h1], (take_in pk held') as [l' h1']. cbn [fst snd] in *.
    destruct (IH h1 h1' Hok1 E2) as [E3 E4].
    destruct (take_all ps h1), (take_all _ h1'). cbn in *. by rewrite filter_app, E1, E3.
  - rewrite filter_cons_False by done. destruct (take_in_other i pk held Hok Hc) as [E1 E2].
    destruct (take_in pk held) as [l h1]. cbn [fst snd] in *.
    destruct (IH h1 held' Hok1 (eq_trans E2 E)) as [E3 E4].
    destruct (take_all ps h1). cbn in *. by rewrite filter_app, E1, E3.
Qed.

(** One exchange: PUBLISH at least once, then PUBREL at least once. *)
Lemma take_exchange i p qs m held :
  held !! i = None → Forall (λ q, qos q = ExactlyOnce ∧ packet_id q = Some i) (p :: qs) →
  take_all ((Publish <$> p :: qs) ++ replicate (Datatypes.S m) (PubRel (mkPubRel i))) held =
    ([p], held).
Proof.
  intros Hn [[Hq Hi] Hqs]%Forall_cons. rewrite take_all_app. cbn [fmap list_fmap take_all take_in].
  rewrite Hq, Hi, Hn. set (h := <[i := mkReceived p]> held).
  assert (take_all (Publish <$> qs) h = ([], h)) as E1.
  { induction Hqs as [|q qs [Hq1 Hq2] _ IH]; [done|]. cbn [fmap list_fmap take_all take_in].
    rewrite Hq1, Hq2. unfold h at 1. rewrite lookup_insert_eq. fold h. by rewrite IH. }
  rewrite E1. cbn [fst snd app replicate take_all take_in pubrel_id]. unfold h.
  rewrite lookup_insert_eq, delete_insert_eq, delete_id by done.
  assert (take_all (replicate m (PubRel (mkPubRel i))) held = ([], held)) as ->; [|done].
  clear E1 h. induction m as [|m IH]; [done|]. cbn [replicate take_all take_in pubrel_id].
  rewrite Hn, delete_id by done. by rewrite IH.
Qed.

(** However often the PUBLISH and the PUBREL of a message come, and whatever
    comes in between under other identifiers: it is handed on once. *)
Lemma handed_on_once i p qs m ps held :
  held_ok held → held !! i = None →
  filter (concerns i) ps = (Publish <$> p :: qs) ++ replicate (Datatypes.S m) (PubRel (mkPubRel i)) →
  filter (numbered_as i) (take_all ps held).1 = [p] ∧ (take_all ps held).2 !! i = None.
Proof.
  intros Hok Hn Hps. destruct (take_all_concerned i ps held held Hok eq_refl) as [-> ->].
  rewrite Hps, take_exchange; [done..|].
  apply Forall_forall. intros q Hq.
  assert (Publish q ∈ filter (concerns i) ps) as [Hc _]%list_elem_of_filter.
  { rewrite Hps. apply elem_of_app. left. by apply list_elem_of_fmap_2. }
  by apply bool_decide_unpack in Hc.
Qed.

(** * A session as a receiver *)

Section Receiver.
Context {BC : BytesCrate} {BL : BytesLaws} {MP : Mpsc} {HO : HashOrder}.
Context {S : Type} {ST : Storage S} {R W : Type} {AR : AsyncRead R}
  {AW : AsyncWrite W} {AWL : AsyncWriteLaws W} {CN : Connection W}.
Context {Au Az : Type} {AU : Authenticator Au} {AZ : Authorizer Az}.

Abbreviation Env := (Env (S := S) (R := R) (W := W) (Au := Au) (Az := Az)).
Implicit Types v : Env.

Definition permitted (z : Az) (name : string) (p : PublishPacket) : bool :=
  match authorize_publish z name (topic p) with inl _ => true | inr _ => false end.

(** The messages its client may send are routed one after the other. *)
Definition route_permitted (z : Az) (name : string) (utc : DateTime) (l : list PublishPacket) :
    M (Router S) SessionError () :=
  for_each (filter (permitted z name) l) (route utc).

Lemma route_permitted_app z name utc l1 l2 r r' :
  route_permitted z name utc (l1 ++ l2) r = (r', Ok tt) →
  ∃ r1, route_permitted z name utc l1 r = (r1, Ok tt) ∧ route_permitted z name utc l2 r1 = (r', Ok tt).
Proof.
  unfold route_permitted. rewrite filter_app, for_each_app.
  intros (r1 & [] & E1 & E2)%bind_inv_Ok. by exists r1.
Qed.

Lemma authorize_and_route_permitted utc p r' v :
  route_permitted (authorizer (broker v)) (client_name (rt v)) utc [p] (router (broker v)) = (r', Ok tt) →
  authorize_and_route utc p v = (with_broker (with_router r' (broker v)) v, Ok true).
Proof.
  unfold route_permitted, authorize_and_route. rewrite bind_gets. unfold id. intros Hr.
  assert (permitted (authorizer (broker v)) (client_name (rt v)) p =
    match authorize_publish (authorizer (broker v)) (client_name (rt v)) (topic p) with
    | inl _ => true | inr _ => false end) as Hp by done.
  destruct (authorize_publish _ _ _) as [[]|e].
  - rewrite filter_cons_True in Hr by (rewrite Hp; exact I).
    apply bind_inv_Ok in Hr as (r1 & [] & E1 & [= <-]).
    erewrite bind_Ok; [done|]. unfold on_broker, broker_route, on_router, zoom. by rewrite E1.
  - rewrite filter_cons_False in Hr by (rewrite Hp; intros []). injection Hr as <-.
    by destruct v as [? ? ? []].
Qed.

(** One packet. *)
Lemma packet_taken_in now utc pk v r' :
  connected (writer v) → from_sender pk = true → wf_two_way pk →
  let x := take_in pk (rt_inbound_qos2 (rt v)) in
  route_permitted (authorizer (broker v)) (client_name (rt v)) utc x.1 (router (broker v)) = (r', Ok tt) →
  ∃ w', on_packet now utc pk v =
      (with_broker (with_router r' (broker v)) (with_writer w' (set_received x.2 v)), Ok true) ∧
    took (writer v) (reply pk) w'.
Proof.
  intros Hc Hs Hwf x Hr. subst x.
  destruct pk as [| |p| | |r| | | | | | | |]; try done; cbn [take_in reply] in *.
  - cbn [on_packet]. unfold on_publish. destruct Hwf as [_ Hid _]. destruct (qos p) eqn:Eq.
    + cbn [fst snd] in Hr |- *. exists (writer v). rewrite set_received_id, with_writer_id.
      split; [by apply authorize_and_route_permitted|by apply took_nil].
    + destruct (packet_id p) as [i|] eqn:Ei; [|done]. cbn [fst snd] in Hr |- *. rewrite set_received_id.
      unfold on_publish_qos1. rewrite Ei. destruct (send_connected (PubAck (mkPubAck i)) v Hc) as (w' & E1 & T).
      exists w'. split; [|exact T]. rewrite (bind_Ok _ _ _ _ _ E1). destruct (dup p).
      * injection Hr as <-. by destruct v as [? ? ? []].
      * by rewrite (authorize_and_route_permitted utc p r' (with_writer w' v)).
    + destruct (packet_id p) as [i|] eqn:Ei; [|done]. cbn [fst snd] in Hr |- *. injection Hr as <-.
      destruct (rt_inbound_qos2 (rt v) !! i) as [m|] eqn:Em.
      * destruct (publish_qos2_again now utc p i m v Hc Eq Ei Em) as (w' & E1 & T).
        exists w'. split; [|exact T]. cbn [on_packet] in E1. unfold on_publish in E1. rewrite Eq in E1.
        rewrite E1, set_received_id. by destruct v as [? ? ? []].
      * destruct (publish_qos2_first now utc p i v Hc Eq Ei Em) as (w' & E1 & T).
        exists w'. split; [|exact T]. cbn [on_packet] in E1. unfold on_publish in E1. rewrite Eq in E1.
        rewrite E1. by destruct v as [? ? ? []].
  - destruct r as [i]. cbn [pubrel_id fst snd] in *. cbn [on_packet]. unfold on_pubrel. cbn [pubrel_id].
    destruct (send_connected (PubComp (mkPubComp i)) v Hc) as (w' & E1 & T). exists w'. split; [|exact T].
    rewrite (bind_Ok _ _ _ _ _ E1), bind_gets. cbn [rt with_writer].
    destruct (rt_inbound_qos2 (rt v) !! i) as [m|] eqn:Em.
    + unfold on_runtime. rewrite bind_modify.
      by erewrite authorize_and_route_permitted; [|exact Hr].
    + injection Hr as <-. rewrite delete_id, set_received_id by done. by destruct v as [? ? ? []].
Qed.

(** A packet whose message finds no room: the session is left waiting. *)
Lemma authorize_and_route_waits utc p r' v :
  route_permitted (authorizer (broker v)) (client_name (rt v)) utc [p] (router (broker v)) = (r', Pending) →
  ∃ v', authorize_and_route utc p v = (v', Pending).
Proof.
  unfold route_permitted, authorize_and_route. rewrite bind_gets. unfold id. intros Hr.
  assert (permitted (authorizer (broker v)) (client_name (rt v)) p =
    match authorize_publish (authorizer (broker v)) (client_name (rt v)) (topic p) with
    | inl _ => true | inr _ => false end) as Hp by done.
  destruct (authorize_publish _ _ _) as [[]|e];
    [|by rewrite filter_cons_False in Hr by (rewrite Hp; intros [])].
  rewrite filter_cons_True in Hr by (rewrite Hp; exact I). cbn [filter list_filter for_each] in Hr.
  unfold mbind, M_bind in Hr. destruct (route utc p (router (broker v))) as [r1 [[]|e| |]] eqn:E1; try done.
  eexists. apply bind_Pending. unfold on_broker, broker_route, on_router, zoom. by rewrite E1.
Qed.

Lemma packet_waits now utc pk v r' :
  connected (writer v) → from_sender pk = true → wf_two_way pk →
  route_permitted (authorizer (broker v)) (client_name (rt v)) utc
    (take_in pk (rt_inbound_qos2 (rt v))).1 (router (broker v)) = (r', Pending) →
  ∃ v', on_packet now utc pk v = (v', Pending).
Proof.
  intros Hc Hs Hwf Hr. destruct pk as [| |p| | |r| | | | | | | |]; try done; cbn [take_in on_packet] in *.
  - unfold on_publish. destruct Hwf as [_ Hid _]. destruct (qos p) eqn:Eq.
    + by eapply authorize_and_route_waits.
    + destruct (packet_id p) as [i|] eqn:Ei; [|done]. cbn [fst] in Hr. unfold on_publish_qos1. rewrite Ei.
      destruct (send_connected (PubAck (mkPubAck i)) v Hc) as (w' & E1 & _).
      rewrite (bind_Ok _ _ _ _ _ E1). destruct (dup p); [done|]. by eapply authorize_and_route_waits.
    + by destruct (packet_id p).
  - unfold on_pubrel. destruct (send_connected (PubComp (mkPubComp (pubrel_id r))) v Hc) as (w' & E1 & _).
    rewrite (bind_Ok _ _ _ _ _ E1), bind_gets. cbn [rt with_writer].
    destruct (rt_inbound_qos2 (rt v) !! pubrel_id r) as [m|]; [|done].
    unfold on_runtime. rewrite bind_modify. by eapply authorize_and_route_waits.
Qed.

(** C10: a session receives as the reference does.  Sent any PUBLISH and PUBREL
    packets, at all levels, in any order and however often, it routes, of the
    messages the receiver hands on and in that order, those its client may send;
    it answers each packet, and it holds the messages of level 2 that wait for
    their PUBREL. *)
Theorem session_refines_receiver now utc ps v r' :
  connected (writer v) → Forall (λ pk, from_sender pk = true ∧ wf_two_way pk) ps →
  let x := take_all ps (rt_inbound_qos2 (rt v)) in
  route_permitted (authorizer (broker v)) (client_name (rt v)) utc x.1 (router (broker v)) = (r', Ok tt) →
  ∃ w', receive now utc ps v =
      (with_broker (with_router r' (broker v)) (with_writer w' (set_received x.2 v)), Ok tt) ∧
    took (writer v) (replies ps) w'.
Proof.
  intros Hc Hps. revert v Hc r'. induction Hps as [|pk ps [Hs Hwf] Hps IH]; intros v Hc r' x Hr; subst x.
  - injection Hr as <-. exists (writer v). split; [|by apply took_nil].
    by destruct v as [[] ? ? []].
  - cbn [take_all] in Hr |- *.
    destruct (take_in pk (rt_inbound_qos2 (rt v))) as [l h1] eqn:E1.
    destruct (take_all ps h1) as [l' h2] eqn:E2. cbn [fst snd] in Hr |- *.
    apply route_permitted_app in Hr as (r1 & Hr1 & Hr2).
    destruct (packet_taken_in now utc pk v r1 Hc Hs Hwf) as (w1 & P1 & T1); [by rewrite E1|].
    rewrite E1 in P1. cbn [snd] in P1.
    destruct (IH _ (proj1 T1 : connected (writer (with_broker (with_router r1 (broker v))
      (with_writer w1 (set_received h1 v))))) r') as (w2 & P2 & T2).
    { cbn. rewrite E2. exact Hr2. }
    exists w2. rewrite (receive_cons _ _ _ _ _ _ _ P1), P2. cbn. rewrite E2. split.
    + by destruct v as [[] ? ? []].
    + by apply (took_app _ (reply pk) w1).
Qed.
End Receiver.

(** * On the sample session *)

Lemma session_refines_receiver_witness :
  let p := sample_publish "a" ExactlyOnce (Some 7) false in
  let q := sample_publish "b" AtLeastOnce (Some 8) false in
  let ps := [Publish p; Publish q; Publish (with_dup true p); PubRel (mkPubRel 7); PubRel (mkPubRel 7)] in
  let r' := (for_each (E := SessionError) [q; p] (route 0) (router (broker sample_env))).1 in
  ∃ w', receive (BC := list_bytes) 0 0 ps sample_env =
      (with_broker (with_router r' (broker sample_env)) (with_writer w' (set_received ∅ sample_env)), Ok tt) ∧
    took (writer sample_env)
      [PubRec (mkPubRec 7); PubAck (mkPubAck 8); PubRec (mkPubRec 7); PubComp (mkPubComp 7); PubComp (mkPubComp 7)]
      w'.
Proof.
  intros p q ps r'.
  assert (connected (writer sample_env)) as Hc by reflexivity.
  assert (Forall (λ pk, from_sender pk = true ∧ wf_two_way pk) ps) as Hps
    by (repeat constructor; vm_compute; done).
  assert (take_all ps (rt_inbound_qos2 (rt sample_env)) = ([q; p], ∅)) as Hl by (vm_compute; reflexivity).
  assert (route_permitted (authorizer (broker sample_env)) (client_name (rt sample_env)) 0 [q; p]
    (router (broker sample_env)) = (r', Ok tt)) as Hr by (vm_compute; reflexivity).
  pose proof (session_refines_receiver (BC := list_bytes) 0 0 ps sample_env r' Hc Hps) as H.
  cbv zeta in H. rewrite Hl in H. exact (H Hr).
Defined.
