(* ===== verification/PersistProps.v ===== *)
(** What a persistent session carries across a disconnection: saving the state
    of a session and restoring it in another one. *)

From S2P Require Import Prelude Utf8 External Packet Codec Topic Storage.
From S2P Require Import MemoryStorage Config Auth Router RouterFacts.
From S2P Require Import Broker Session Lifecycle SessionInv SessionSafe.
From S2P Require Import SessionFacts Samples.

Local Open Scope Z_scope.

(** * Lists of entries as maps *)

Lemma foldl_insert_map {A B K} `{Countable K} (key : A → K) (val : A → B) l (m : gmap K B) :
  foldl (λ m x, <[key x := val x]> m) m l =
  list_to_map (reverse ((λ x, (key x, val x)) <$> l)) ∪ m.
Proof.
  revert m. induction l as [|x l IH]; intros m; [symmetry; apply map_empty_union|].
  cbn [foldl fmap list_fmap]. rewrite IH, reverse_cons, list_to_map_app.
  rewrite <- (assoc (∪)). f_equal. cbn. by rewrite <- insert_union_l, map_empty_union.
Qed.

(** What saving writes for the inbound messages, read back, is the map it was
    written from; only the dup flag is not kept. *)
Definition undup (m : ReceivedQos2Message) : ReceivedQos2Message :=
  mkReceived (with_dup false (received_packet m)).

Lemma restored_persisted_inbound cid now i m :
  wf_inbound i m → restored_inbound (persisted_inbound cid now (i, m)) = undup m.
Proof. intros [Hi Hq]. destruct m as [[]]. cbn in *. by subst. Qed.

Lemma restored_persisted_inflight cid utc now i :
  wf_inflight (2 ^ 32) i →
  restored_inflight now (persisted_inflight cid utc i) =
  mkInflight (if_packet i) now (retry_count i) (qos2_state i).
Proof.
  intros [(id & Hid & _) _ Hd _ _]. unfold restored_inflight, persisted_inflight. cbn.
  rewrite stored_qos_roundtrip, Hid. destruct i as [[] ? ? s]. cbn in *. subst.
  by destruct s as [[]|].
Qed.

Lemma restored_persisted_will w : restored_will (persisted_will w) = w.
Proof. destruct w. unfold restored_will, persisted_will. cbn. by rewrite stored_qos_roundtrip. Qed.

Lemma restored_persisted_subscription cid (fq : string * QoS) :
  (psub_topic_filter (persisted_subscription cid fq),
   qos_from_stored (psub_qos (persisted_subscription cid fq))) = fq.
Proof. destruct fq. cbn. by rewrite stored_qos_roundtrip. Qed.

Section PersistProps.
Context {BC : BytesCrate} {MP : Mpsc} {MPL : MpscLaws} {HO : HashOrder} {HOL : HashOrderLaws}.
Context {S : Type} {ST : Storage S} {SL : StorageLaws S} {SR : StorageReliable S}.
Context {R W : Type} {AR : AsyncRead R} {AW : AsyncWrite W}.
Context {Au Az : Type} {AU : Authenticator Au} {AZ : Authorizer Az}.

Abbreviation Env := (Env (S := S) (R := R) (W := W) (Au := Au) (Az := Az)).

Implicit Types v : Env.

(** * Calls on the storage of a session *)

Definition env_router v : Router S := router (broker v).
Definition put_router (r : Router S) v : Env := with_broker (with_router r (broker v)) v.

Lemma on_env_storage_Ok {E A} (m : M S StorageError A) R0 v :
  storage_call storage_inv storage_abs m R0 → storage_inv (storage (env_router v)) →
  is_Ok (m (storage (env_router v))).2 →
  ∃ s' a, on_env_storage (E := E) m v = (put_router (with_storage s' (env_router v)) v, Ok (inl a)) ∧
    storage_inv s' ∧ R0 (stored (env_router v)) (storage_abs s') a.
Proof.
  intros H Hs Ho. destruct (on_storage_Ok (E := E) m R0 (env_router v) H Hs Ho)
    as (s' & a & E1 & Hi & Ha). exists s', a. split; [|done].
  unfold on_env_storage, on_broker, on_broker_storage, on_router, zoom. fold (env_router v).
  by rewrite E1.
Qed.

Lemma load_or_empty_Ok {E A} (m : M S StorageError (list A)) (R0 : StoredData → list A → Prop) v :
  storage_call storage_inv storage_abs m (λ d d' a, d' = d ∧ R0 d a) →
  storage_inv (storage (env_router v)) → is_Ok (m (storage (env_router v))).2 →
  ∃ s' l, load_or_empty (E := E) m v = (put_router (with_storage s' (env_router v)) v, Ok l) ∧
    storage_inv s' ∧ storage_abs s' = stored (env_router v) ∧ R0 (stored (env_router v)) l.
Proof.
  intros H Hs Ho. destruct (on_env_storage_Ok (E := E) m _ v H Hs Ho) as (s' & l & E1 & Hi & Ha & HR).
  exists s', l. unfold load_or_empty. by rewrite (bind_Ok _ _ _ _ _ E1).
Qed.

(** * Saving *)

(** What is saved of a session: everything but its stream and its clocks. *)
Definition saved_state (cid : string) (utc : DateTime) (r : Runtime R W)
    (subs : list (string * QoS)) : SavedSession :=
  mkSaved
    (mkPersistedSession cid (rt_next_packet_id r) (rt_keep_alive r)
       (persisted_will <$> rt_will_message r) epoch utc)
    (persisted_subscription cid <$> subs)
    (persisted_inflight cid utc <$> rt_inflight_queue r)
    (persisted_inbound cid utc <$> map_iter (rt_inbound_qos2 r)).

(** The backend can hold the session and give it back. *)
Definition can_hold (cid : string) (utc : DateTime) (r : Runtime R W) : Prop :=
  (∀ subs, NoDup subs.*1 →
   storage_admits (mkPersistedSession cid (rt_next_packet_id r) (rt_keep_alive r)
       (persisted_will <$> rt_will_message r) utc utc)
     (persisted_subscription cid <$> subs) (persisted_inflight cid utc <$> rt_inflight_queue r)
     (persisted_inbound cid utc <$> map_iter (rt_inbound_qos2 r)) ∧
   storage_stores (mkPersistedSession cid (rt_next_packet_id r) (rt_keep_alive r)
       (persisted_will <$> rt_will_message r) utc utc)
     (persisted_subscription cid <$> subs) (persisted_inflight cid utc <$> rt_inflight_queue r)
     (persisted_inbound cid utc <$> map_iter (rt_inbound_qos2 r))) ∧
  storage_reads (persisted_inflight cid utc <$> rt_inflight_queue r).

Lemma save_spec {E} utc cid v t :
  storage_inv (storage (env_router v)) → rep t (data (env_router v)) →
  rt_client_id (rt v) = Some cid → can_hold cid utc (rt v) →
  ∃ s' subs, save_to_storage (E := E) utc v =
      (put_router (with_storage s' (env_router v)) v, Ok tt) ∧
    storage_inv s' ∧
    storage_abs s' = set_kept <[cid := saved_state cid utc (rt v) subs]> (stored (env_router v)) ∧
    NoDup subs.*1 ∧ ∀ f q, (f, q) ∈ subs ↔ ∃ mb, t !! (rt_id (rt v), f) = Some (mb, q).
Proof.
  intros Hs Ht Hcid [Hcan _]. unfold save_to_storage. rewrite bind_gets, Hcid. cbv zeta.
  destruct (get_subscriptions_spec (E := E) (rt_id (rt v)) (env_router v) t Ht)
    as (subs & E1 & Hnd & Hsub).
  assert (E2 : on_broker (E := E) (broker_get_subscriptions (rt_id (rt v))) v = (v, Ok subs)).
  { unfold on_broker, broker_get_subscriptions, on_router, zoom. fold (env_router v).
    rewrite E1. by destruct v as [? ? ? []]. }
  rewrite (bind_Ok _ _ _ _ _ E2). destruct (Hcan subs Hnd) as [Hadm Hst].
  destruct (on_env_storage_Ok (E := E) _ _ v (save_session_spec _ _ _ _ Hadm) Hs
    (save_session_Ok _ _ _ _ _ Hs Hst)) as (s' & a & E3 & Hi & Ha).
  exists s', subs. rewrite (bind_Ok _ _ _ _ _ E3). split_and!; [done|done| |done|done].
  by rewrite Ha.
Qed.

(** A well-formed session whose messages in flight have identifiers of their
    own, none retried too often, can be held by any backend. *)
Lemma wf_can_hold cid utc (r : Runtime R W) :
  wf_runtime (2 ^ 32) r → NoDup ((λ i, packet_id (if_packet i)) <$> rt_inflight_queue r) →
  Forall (λ i, retry_count i < 2 ^ 31) (rt_inflight_queue r) → can_hold cid utc r.
Proof.
  intros Hr Hnd Hretry. split; [intros subs Hsubs; split|].
  - by apply saveable_admits, (saveable_state (2 ^ 32)).
  - apply saveable_stores; [by apply (saveable_state (2 ^ 32))|].
    split; rewrite <- list_fmap_compose; [exact Hsubs| |apply NoDup_fst_map_iter].
    apply (NoDup_fmap_1 Some). rewrite <- list_fmap_compose.
    erewrite list_fmap_ext; [exact Hnd|]. intros k i Hi. cbn.
    assert (Hw : wf_inflight (2 ^ 32) i) by (eapply Forall_lookup_1; [apply Hr|exact Hi]).
    by destruct Hw as [(id & -> & _) _ _ _ _].
  - apply readable_reads. unfold readable_inflight. by rewrite Forall_fmap.
Qed.

(** * Restoring *)

(** The same message in flight, sent at another time. *)
Definition refresh (now : Instant) (i : InflightMessage) : InflightMessage :=
  mkInflight (if_packet i) now (retry_count i) (qos2_state i).

Lemma refresh_saved cid utc now l k :
  Forall (wf_inflight (2 ^ 32)) l → k ≡ₚ (persisted_inflight cid utc <$> l) →
  (restored_inflight now <$> k) ≡ₚ (refresh now <$> l).
Proof.
  intros Hl ->. rewrite <- list_fmap_compose. apply (reflexive_eq (R := (≡ₚ))).
  induction Hl as [|i l Hi _ IH]; [done|]. cbn [fmap list_fmap]. f_equal; [|exact IH].
  by apply restored_persisted_inflight.
Qed.

Lemma inbound_saved cid utc (m : gmap Z ReceivedQos2Message) k :
  map_Forall wf_inbound m → k ≡ₚ (persisted_inbound cid utc <$> map_iter m) →
  foldl (λ m msg, <[pq_packet_id msg := restored_inbound msg]> m) ∅ k = undup <$> m.
Proof.
  intros Hm Hk. rewrite foldl_insert_map, map_union_empty.
  assert (Hp : reverse ((λ x, (pq_packet_id x, restored_inbound x)) <$> k) ≡ₚ
    map_to_list (undup <$> m)).
  { rewrite reverse_Permutation, Hk, <- list_fmap_compose, map_iter_perm, map_to_list_fmap.
    apply (reflexive_eq (R := (≡ₚ))), list_fmap_ext. intros n [i x] Hx. cbn [compose].
    assert (Hi : m !! i = Some x) by (apply elem_of_map_to_list; by eapply list_elem_of_lookup_2).
    rewrite restored_persisted_inbound by (by apply Hm). done. }
  rewrite (list_to_map_proper _ (map_to_list (undup <$> m))).
  - apply list_to_map_to_list.
  - rewrite Hp. apply NoDup_fst_map_to_list.
  - exact Hp.
Qed.

Lemma subscriptions_saved cid (subs : list (string * QoS)) k :
  k ≡ₚ (persisted_subscription cid <$> subs) →
  ((λ s, (psub_topic_filter s, qos_from_stored (psub_qos s))) <$> k) ≡ₚ subs.
Proof.
  intros ->. rewrite <- list_fmap_compose. apply (reflexive_eq (R := (≡ₚ))).
  rewrite <- (list_fmap_id subs) at 2. apply list_fmap_ext. intros _ fq _.
  apply restored_persisted_subscription.
Qed.

(** The subscriptions of a restored session, entered again. *)
Lemma resubscribe {E} fs v t :
  storage_inv (storage (env_router v)) → rep t (data (env_router v)) →
  ∃ r', (if negb (bool_decide (fs = []))
         then on_broker (E := E) (broker_subscribe (rt_id (rt v)) (rt_message_tx (rt v)) fs);; mret tt
         else mret tt) v = (put_router r' v, Ok tt) ∧
    storage_inv (storage r') ∧ stored r' = stored (env_router v) ∧
    rep (foldl (table_subscribe (rt_id (rt v)) (rt_message_tx (rt v))) t fs) (data r').
Proof.
  intros Hs Ht. case_bool_decide as He; cbn [negb].
  - subst. exists (env_router v). split; [|done]. by destruct v as [? ? ? []].
  - destruct (subscribe_spec (E := E) (rt_id (rt v)) (rt_message_tx (rt v)) fs (env_router v) t Hs Ht)
      as (r' & pkts & E1 & H1 & H2 & H3 & _).
    exists r'. split; [|done]. erewrite bind_Ok; [done|].
    unfold on_broker, broker_subscribe, on_router, zoom. fold (env_router v). by rewrite E1.
Qed.

(** What restoring makes of the runtime of a new session. *)
Record restored_from (now : Instant) (r0 r r' : Runtime R W) : Prop := {
  res_next : rt_next_packet_id r' = rt_next_packet_id r0;
  res_keep : rt_keep_alive r' = rt_keep_alive r0;
  res_will : rt_will_message r' = rt_will_message r0;
  res_inflight : rt_inflight_queue r' ≡ₚ rt_inflight_queue r ++ (refresh now <$> rt_inflight_queue r0);
  res_inbound : rt_inbound_qos2 r = ∅ → rt_inbound_qos2 r' = undup <$> rt_inbound_qos2 r0;
  res_identity : rt_id r' = rt_id r ∧ rt_client_id r' = rt_client_id r ∧
    rt_message_tx r' = rt_message_tx r ∧ rt_clean_session r' = rt_clean_session r;
}.

(** One of the lists that are kept of a session, loaded. *)
Lemma load_kept {E A} (m : M S StorageError (list A)) (get : SavedSession → list A) cid x v :
  storage_call storage_inv storage_abs m
    (λ d d' l, d' = d ∧ l ≡ₚ default [] (get <$> kept d !! cid)) →
  storage_inv (storage (env_router v)) → is_Ok (m (storage (env_router v))).2 →
  kept (stored (env_router v)) !! cid = Some x →
  ∃ s' l, load_or_empty (E := E) m v = (put_router (with_storage s' (env_router v)) v, Ok l) ∧
    storage_inv s' ∧ storage_abs s' = stored (env_router v) ∧ l ≡ₚ get x ∧
    kept (storage_abs s') !! cid = Some x.
Proof.
  intros H Hs Ho Hk.
  destruct (load_or_empty_Ok (E := E) m (λ d l, l ≡ₚ default [] (get <$> kept d !! cid)) v H Hs Ho)
    as (s' & l & E1 & Hi & Ha & Hl).
  exists s', l. rewrite Hk in Hl. rewrite Ha. done.
Qed.

Lemma restore_spec {E} now cid utc r0 subs v t :
  storage_inv (storage (env_router v)) → rep t (data (env_router v)) → wf_runtime (2 ^ 32) r0 →
  can_hold cid utc r0 →
  kept (stored (env_router v)) !! cid = Some (saved_state cid utc r0 subs) →
  ∃ v' fs, restore_from_storage (E := E) now cid v = (v', Ok true) ∧
    restored_from now r0 (rt v) (rt v') ∧ fs ≡ₚ subs ∧
    rep (foldl (table_subscribe (rt_id (rt v)) (rt_message_tx (rt v))) t fs) (data (env_router v')) ∧
    stored (env_router v') = set_kept (delete cid) (stored (env_router v)) ∧
    reader v' = reader v ∧ writer v' = writer v.
Proof.
  intros Hs Ht Hr0 [_ Hreads] Hk. unfold restore_from_storage.
  destruct (on_env_storage_Ok (E := E) _ _ v (load_session_spec cid) Hs (load_session_Ok cid _ Hs))
    as (s1 & o & E1 & H1 & A1 & Ho).
  rewrite (bind_Ok _ _ _ _ _ E1). rewrite Hk in Ho.
  destruct o as [[c0 n0 k0 w0 d0 u0]|]; [|done]. cbn in Ho. injection Ho as -> -> -> -> ->.
  set (v1 := put_router _ v).
  destruct (load_kept (E := E) _ _ cid _ v1 (load_subscriptions_spec cid) H1
    (load_subscriptions_Ok cid _ H1) (eq_trans (f_equal (λ d, kept d !! cid) A1) Hk)) as (s2 & l2 & E2 & H2 & A2 & L2 & K2).
  rewrite (bind_Ok _ _ _ _ _ E2). set (v2 := put_router _ v1).
  destruct (load_kept (E := E) _ _ cid _ v2 (load_inflight_messages_spec cid) H2
    (load_inflight_messages_Ok cid _ H2 ltac:(by rewrite K2)) K2) as (s3 & l3 & E3 & H3 & A3 & L3 & K3).
  rewrite (bind_Ok _ _ _ _ _ E3). set (v3 := put_router _ v2).
  destruct (load_kept (E := E) _ _ cid _ v3 (load_inbound_qos2_messages_spec cid) H3
    (load_inbound_qos2_messages_Ok cid _ H3) K3) as (s4 & l4 & E4 & H4 & A4 & L4 & _).
  rewrite (bind_Ok _ _ _ _ _ E4). set (v4 := put_router _ v3).
  change (stored (env_router v1)) with (storage_abs s1) in *.
  change (stored (env_router v2)) with (storage_abs s2) in *.
  change (stored (env_router v3)) with (storage_abs s3) in *.
  rewrite A3, A2, A1 in *. cbn in L2, L3, L4.
  unfold on_runtime. rewrite bind_modify. cbv zeta. rewrite bind_gets.
  set (v5 := with_rt _ v4).
  destruct (resubscribe (E := E)
    ((λ s, (psub_topic_filter s, qos_from_stored (psub_qos s))) <$> l2) v5 t H4 Ht)
    as (r6 & E6 & H6 & A6 & T6).
  rewrite (bind_Ok _ _ _ _ _ E6), !bind_modify.
  match goal with |- context [mbind _ (on_env_storage _) ?v0] => set (v7 := v0) end.
  destruct (on_env_storage_Ok (E := E) _ _ v7 (delete_session_spec cid) H6 (delete_session_Ok cid _ H6))
    as (s8 & [] & E8 & H8 & A8).
  rewrite (bind_Ok _ _ _ _ _ E8). eexists _, _. split; [done|].
  split_and!; [|by eapply subscriptions_saved|exact T6| |done|done].
  - split; cbn; [done|done| | | |done].
    + destruct (rt_will_message r0); cbn; [by rewrite restored_persisted_will|done].
    + apply Permutation_app_head. by eapply refresh_saved; [apply Hr0|].
    + intros Hin. rewrite Hin. by eapply inbound_saved; [apply Hr0|].
  - change (storage_abs s8 = set_kept (delete cid) (stored (env_router v))). rewrite A8.
    change (stored (env_router v7)) with (stored r6). rewrite A6.
    change (stored (env_router v5)) with (storage_abs s4). by rewrite A4.
Qed.

(** What a persistent session is when its connection is lost is what it is
    when the client comes back: saving it and restoring it in a new session
    gives the same packet counter, keep-alive, Will, messages in flight (sent
    again with new clocks), inbound messages and subscriptions, the latter with
    the mailbox of the new session; what was saved is then deleted. *)
Theorem save_restore_roundtrip {E} utc now cid v1 t1 v2 t2 :
  storage_inv (storage (env_router v1)) → rep t1 (data (env_router v1)) → wf_runtime (2 ^ 32) (rt v1) →
  rt_client_id (rt v1) = Some cid → can_hold cid utc (rt v1) → rep t2 (data (env_router v2)) →
  storage (env_router v2) = storage (env_router (save_to_storage (E := E) utc v1).1) →
  ∃ v3 fs, restore_from_storage (E := E) now cid v2 = (v3, Ok true) ∧
    restored_from now (rt v1) (rt v2) (rt v3) ∧
    (NoDup fs.*1 ∧ ∀ f q, (f, q) ∈ fs ↔ ∃ mb, t1 !! (rt_id (rt v1), f) = Some (mb, q)) ∧
    rep (foldl (table_subscribe (rt_id (rt v2)) (rt_message_tx (rt v2))) t2 fs) (data (env_router v3)) ∧
    kept (stored (env_router v3)) = delete cid (kept (stored (env_router v1))).
Proof.
  intros Hs Ht1 Hwf Hcid Hcan Ht2 Hsame.
  destruct (save_spec (E := E) utc cid v1 t1 Hs Ht1 Hcid Hcan) as (s' & subs & E1 & H1 & A1 & N1 & M1).
  rewrite E1 in Hsame. change (storage (env_router v2) = s') in Hsame.
  destruct (restore_spec (E := E) now cid utc (rt v1) subs v2 t2)
    as (v3 & fs & E3 & R3 & P3 & T3 & A3 & _); [by rewrite Hsame|done|done|done| |].
  { unfold stored. rewrite Hsame, A1. apply lookup_insert_eq. }
  exists v3, fs. split_and!; [done|done| | |exact T3|].
  - by rewrite P3.
  - intros f q. by rewrite P3.
  - rewrite A3. unfold stored at 1. rewrite Hsame, A1. unfold set_kept. cbn [kept].
    apply delete_insert_eq.
Qed.
End PersistProps.

(** A persistent session with something of everything. *)
Definition sample_state : Runtime Incoming Outgoing :=
  set_will (Some (mkWill "gone" [Byte.x2a] AtLeastOnce true))
    (set_inflight [mkInflight (sample_publish "a" ExactlyOnce (Some 7) true) 0 1 (Some AwaitingPubRec)]
      (set_inbound {[ 3 := mkReceived (sample_publish "b" ExactlyOnce (Some 3) true) ]}
        (set_params false 60 (set_next_packet_id 8 (set_client_id (Some "c") (rt sample_env)))))).

Lemma sample_state_wf : wf_runtime (2 ^ 32) sample_state.
Proof.
  split.
  - by vm_compute.
  - unfold valid_id. simpl. lia.
  - apply Forall_singleton. split; simpl; try done.
    + exists 7. unfold valid_id. split; [done|lia].
  - apply map_Forall_singleton. by split.
Qed.

Lemma sample_state_held cid utc : can_hold (SL := memory_laws) cid utc sample_state.
Proof. by split. Qed.

Definition sample_persistent : sample_env_type :=
  (on_broker (E := Empty_set)
     (broker_subscribe (rt_id sample_state) (rt_message_tx sample_state) [("a/+", AtLeastOnce)])
     (with_rt sample_state sample_env)).1.

Lemma save_restore_roundtrip_witness :
  let v1 := sample_persistent in
  let s := storage (env_router (save_to_storage (E := Empty_set) 5 v1).1) in
  let v2 := put_router (mkRouter internal_new s 10 {[ 2%nat := mpsc_channel 100 ]})
              (with_rt (session_new "session-2" 2%nat 2%nat (sample_stream [])).2 sample_env) in
  ∃ v3, restore_from_storage (E := Empty_set) 9 "c" v2 = (v3, Ok true) ∧
    rt_next_packet_id (rt v3) = 8 ∧
    rt_inflight_queue (rt v3) =
      [mkInflight (sample_publish "a" ExactlyOnce (Some 7) true) 9 1 (Some AwaitingPubRec)].
Proof.
  intros v1 s v2.
  assert (Hsub : ∃ r' pkts, subscribe (E := Empty_set) "session-1" 1%nat [("a/+", AtLeastOnce)]
      (router (broker sample_env)) = (r', Ok (granted <$> [("a/+", AtLeastOnce)], pkts)) ∧
      storage_inv (storage r') ∧ stored r' = stored (router (broker sample_env)) ∧
      rep (foldl (table_subscribe "session-1" 1%nat) ∅ [("a/+", AtLeastOnce)]) (data r') ∧
      limit r' = limit (router (broker sample_env)) ∧
      mailboxes r' = mailboxes (router (broker sample_env)))
    by (apply subscribe_spec; [apply memory_inv_new|apply rep_new]).
  destruct Hsub as (r' & pkts & E1 & H1 & _ & H2 & _).
  assert (Hr : env_router v1 = r').
  { unfold v1, sample_persistent, on_broker, broker_subscribe, on_router, zoom, env_router.
    change (router (broker (with_rt ?x sample_env))) with (router (broker sample_env)).
    change (rt_id sample_state) with "session-1".
    change (rt_message_tx sample_state) with 1%nat. by rewrite E1. }
  assert (∀ x, storage (env_router (put_router (mkRouter internal_new x 10 {[ 2%nat := mpsc_channel 100 ]})
    (with_rt (session_new "session-2" 2%nat 2%nat (sample_stream [])).2 sample_env))) = x) as Hst
    by reflexivity.
  destruct (save_restore_roundtrip (E := Empty_set) 5 9 "c" v1
    (foldl (table_subscribe "session-1" 1%nat) ∅ [("a/+", AtLeastOnce)]) v2 ∅)
    as (v3 & fs & E3 & R3 & _).
  - by rewrite Hr.
  - by rewrite Hr.
  - exact sample_state_wf.
  - reflexivity.
  - apply sample_state_held.
  - apply rep_new.
  - exact (Hst s).
  - exists v3. split; [exact E3|]. vm_compute in E3. injection E3 as <-. split; reflexivity.
Defined.
