(* ===== verification/ConnectProps.v ===== *)
(** How a CONNECT is answered: refused with the return code of the first check
    that fails, accepted as a new session, resumed from the storage, or handed
    over to the session that has the name. *)

From S2P Require Import Prelude Utf8 External Packet Codec Topic Storage.
From S2P Require Import MemoryStorage Config Auth Router RouterFacts.
From S2P Require Import Broker Session Lifecycle SessionInv SessionSafe.
From S2P Require Import SessionFacts Samples PersistProps.

Local Open Scope Z_scope.

(** * Client identifiers *)

Definition alphanumeric (b : byte) : Prop :=
  48 ≤ byte.unsigned b ≤ 57 ∨ 65 ≤ byte.unsigned b ≤ 90 ∨ 97 ≤ byte.unsigned b ≤ 122.

(** One to 23 letters and digits; empty for a session that is not kept. *)
Definition acceptable_id (cid : string) (clean : bool) : Prop :=
  (cid = EmptyString ∧ clean = true) ∨
  (1 ≤ str_len cid ≤ 23 ∧ Forall alphanumeric (as_bytes cid)).

Lemma is_ascii_alphanumeric_spec b : is_ascii_alphanumeric b = true ↔ alphanumeric b.
Proof. unfold is_ascii_alphanumeric, alphanumeric. rewrite !orb_true_iff, !andb_true_iff, !Z.leb_le. tauto. Qed.

Lemma str_len_pos s : str_is_empty s = false → 1 ≤ str_len s.
Proof. destruct s; [done|]. unfold str_len, as_bytes, zlen. cbn. lia. Qed.

Lemma validate_client_id_spec cid clean :
  (acceptable_id cid clean → validate_client_id cid clean = inl tt) ∧
  (¬ acceptable_id cid clean →
   validate_client_id cid clean = inr connect_return_codes.IDENTIFIER_REJECTED).
Proof.
  unfold validate_client_id, acceptable_id.
  destruct (str_is_empty cid) eqn:He; cbn [negb].
  - destruct cid; [|done]. destruct clean; split; [done|tauto| |done].
    intros [[_ [=]]|[[H _] _]]; by vm_compute in H.
  - pose proof (str_len_pos cid He) as H1.
    destruct (23 <? str_len cid) eqn:Hl.
    { apply Z.ltb_lt in Hl. split; [|done]. intros [[-> _]|[? _]]; [done|lia]. }
    apply Z.ltb_ge in Hl.
    destruct (forallb is_ascii_alphanumeric (as_bytes cid)) eqn:Hf; cbn [negb]; split; [done| | |done].
    + intros []. right. split; [lia|]. rewrite forallb_forall in Hf.
      apply Forall_forall. intros b Hb. by apply is_ascii_alphanumeric_spec, Hf, list_elem_of_In.
    + intros [[-> _]|[_ H]]; [done|]. rewrite <- not_true_iff_false, forallb_forall in Hf.
      destruct Hf. intros b Hb. rewrite Forall_forall in H.
      by apply is_ascii_alphanumeric_spec, H, list_elem_of_In.
Qed.

(** * Who is refused *)

Section Refusal.
Context {Au : Type} {AU : Authenticator Au}.

Definition speaks_mqtt (c : ConnectPacket) : Prop :=
  protocol_name c = "MQTT" ∧ protocol_level c = 4.

Definition credentials_of (c : ConnectPacket) : Credentials :=
  mkCredentials (username c) (password c) (client_id c).

(** The client is refused with a return code. *)
Inductive refusal (au : Au) (c : ConnectPacket) : Z → Prop :=
| refuse_protocol : ¬ speaks_mqtt c → refusal au c 1
| refuse_id : speaks_mqtt c → ¬ acceptable_id (client_id c) (clean_session c) → refusal au c 2
| refuse_credentials :
    speaks_mqtt c → acceptable_id (client_id c) (clean_session c) →
    authenticate au (credentials_of c) = inr InvalidCredentials → refusal au c 4
| refuse_auth e :
    speaks_mqtt c → acceptable_id (client_id c) (clean_session c) →
    authenticate au (credentials_of c) = inr e → e ≠ InvalidCredentials → refusal au c 5.

Definition admitted (au : Au) (c : ConnectPacket) : Prop :=
  speaks_mqtt c ∧ acceptable_id (client_id c) (clean_session c) ∧
  authenticate au (credentials_of c) = inl tt.
End Refusal.

Lemma protocol_check c :
  negb (String.eqb (protocol_name c) PROTOCOL_NAME) || negb (protocol_level c =? PROTOCOL_LEVEL)
    = false ↔ speaks_mqtt c.
Proof.
  rewrite orb_false_iff, !negb_false_iff, Z.eqb_eq, String.eqb_eq. done.
Qed.

Section ConnectProps.
Context {BC : BytesCrate} {BL : BytesLaws} {MP : Mpsc} {MPL : MpscLaws}.
Context {HO : HashOrder} {HOL : HashOrderLaws}.
Context {S : Type} {ST : Storage S} {SL : StorageLaws S}.
Context {R W : Type} {AR : AsyncRead R} {AW : AsyncWrite W} {AWL : AsyncWriteLaws W}
  {CN : Connection W}.
Context {Au Az : Type} {AU : Authenticator Au} {AZ : Authorizer Az}.

Abbreviation Env := (Env (S := S) (R := R) (W := W) (Au := Au) (Az := Az)).

Implicit Types v : Env.

Lemma on_connect_admitted now c v :
  admitted (authenticator (broker v)) c → on_connect now c v = enter_session now c v.
Proof.
  intros (Hp & Hid & Ha). unfold on_connect. rewrite (proj2 (protocol_check c) Hp).
  rewrite (proj1 (validate_client_id_spec _ _) Hid).
  unfold mbind at 1, M_bind at 1, gets. unfold credentials_of in Ha. cbn [id]. by rewrite Ha.
Qed.

Lemma refuse_with code v :
  connected (writer v) →
  ∃ w', (send_connack_error code;; mret Cleanup) v = (with_writer w' v, Ok Cleanup) ∧
    took (writer v) [ConnAck (mkConnAck false code)] w'.
Proof.
  intros Hc. destruct (send_connected (ConnAck (mkConnAck false code)) v Hc) as (w' & E1 & T).
  exists w'. split; [|done]. unfold send_connack_error. by rewrite (bind_Ok _ _ _ _ _ E1).
Qed.

(** C13: a CONNECT is refused with the return code of the first check it fails:
    1 for another protocol, 2 for an identifier that is not 1 to 23 letters and
    digits (or empty with clean session), 4 for wrong credentials, 5 when
    authentication fails otherwise.  The session then ends, and nothing but the
    stream has changed.  The code is unique, and a CONNECT that passes all the
    checks has none. *)
Theorem connect_refused now c code v :
  connected (writer v) → refusal (authenticator (broker v)) c code →
  (∃ w', on_connect now c v = (with_writer w' v, Ok Cleanup) ∧
     took (writer v) [ConnAck (mkConnAck false code)] w') ∧
  ¬ admitted (authenticator (broker v)) c ∧
  ∀ code', refusal (authenticator (broker v)) c code' → code' = code.
Proof.
  intros Hc Hr. split; [|split].
  - unfold on_connect. destruct Hr as [Hp|Hp Hid|Hp Hid Ha|e Hp Hid Ha He].
    + rewrite <- protocol_check, not_false_iff_true in Hp. rewrite Hp. by apply refuse_with.
    + rewrite (proj2 (protocol_check c) Hp), (proj2 (validate_client_id_spec _ _) Hid).
      by apply refuse_with.
    + rewrite (proj2 (protocol_check c) Hp), (proj1 (validate_client_id_spec _ _) Hid), bind_gets.
      unfold credentials_of in Ha. cbn [id]. rewrite Ha. by apply refuse_with.
    + rewrite (proj2 (protocol_check c) Hp), (proj1 (validate_client_id_spec _ _) Hid), bind_gets.
      unfold credentials_of in Ha. cbn [id]. rewrite Ha. destruct e; [done|..]; by apply refuse_with.
  - intros (H1 & H2 & H3). destruct Hr; congruence || tauto.
  - intros code' Hr'. destruct Hr, Hr'; congruence || tauto.
Qed.

(** * Who is let in *)

(** The runtime of a client that has been let in. *)
Definition entered (c : ConnectPacket) (r : Runtime R W) : Runtime R W :=
  let r := set_params (clean_session c) (keep_alive c) r in
  let r := match stored_will c with Some w => set_will (Some w) r | None => r end in
  if str_is_empty (client_id c) then r else set_client_id (Some (client_id c)) r.

(** The client takes the name, when it has one. *)
Definition named (c : ConnectPacket) (r : Runtime R W) (b : Broker S R W Au Az) :
    Broker S R W Au Az :=
  if str_is_empty (client_id c) then b
  else with_named_clients (<[client_id c := rt_takeover r]> (named_clients b)) b.

Definition accepted (c : ConnectPacket) v : Env :=
  with_broker (named c (rt v) (broker v)) (with_rt (entered c (rt v)) v).

Lemma enter_no_collision now c v :
  client_id c = EmptyString ∨ named_clients (broker v) !! client_id c = None →
  enter_session now c v =
  (if str_is_empty (client_id c) then accept_connection false
   else if clean_session c then on_env_storage (delete_session (client_id c));; accept_connection false
   else session_present ← restore_from_storage now (client_id c); accept_connection session_present)
    (accepted c v).
Proof.
  intros Hn. unfold enter_session, on_runtime. rewrite !bind_modify. cbv zeta.
  unfold accepted, entered, named. destruct (str_is_empty (client_id c)) eqn:He; cbn [negb].
  - reflexivity.
  - destruct Hn as [Hn|Hn]; [by rewrite Hn in He|].
    rewrite bind_modify, bind_gets. unfold mbind at 1, M_bind at 1, on_broker at 1, zoom at 1.
    unfold has_collision. rewrite bind_gets. cbn [broker with_rt]. rewrite Hn, bind_modify.
    cbn [mret M_ret]. by destruct (stored_will c).
Qed.

Lemma accept_connection_Ok b v :
  connected (writer v) →
  ∃ w', accept_connection b v =
    (with_rt (set_stream (Some (reader v, w')) (rt v)) (with_writer w' v), Ok Processing) ∧
    took (writer v) [ConnAck (mkConnAck b 0)] w'.
Proof.
  intros Hc. destruct (send_connected (ConnAck (mkConnAck b 0)) v Hc) as (w' & E1 & T).
  exists w'. split; [|done]. unfold accept_connection. by rewrite (bind_Ok _ _ _ _ _ E1).
Qed.

Lemma named_router c r (b : Broker S R W Au Az) : router (named c r b) = router b.
Proof. unfold named. by destruct (str_is_empty _). Qed.

Lemma put_router_id v : put_router (env_router v) v = v.
Proof. by destruct v as [? ? ? []]. Qed.

Lemma nameless c : str_is_empty (client_id c) = true → client_id c = EmptyString.
Proof. by destruct (client_id c). Qed.

Lemma stay_nonempty c :
  acceptable_id (client_id c) (clean_session c) → clean_session c = false →
  str_is_empty (client_id c) = false.
Proof. intros [[_ ?]|[[H _] _]] ?; [congruence|]. by destruct (client_id c). Qed.

(** * The end of a session *)

(** The broker without a session. *)
Definition without_session (r : Runtime R W) (d : RouterInternal) (b : Broker S R W Au Az) :
    Broker S R W Au Az :=
  mkBroker (delete (rt_id r) (b_sessions b))
    (match rt_client_id r with Some cid => delete cid (named_clients b) | None => named_clients b end)
    (with_mailboxes (delete (rt_message_tx r) (mailboxes (router b))) (with_data d (router b)))
    (config b) (authenticator b) (authorizer b) (delete (rt_command_rx r) (commands b)).

Lemma session_end_spec {E} v t :
  rep t (data (env_router v)) →
  ∃ d, session_end (E := E) v = (with_broker (without_session (rt v) d (broker v)) v, Ok tt) ∧
    rep (table_unsubscribe_all (rt_id (rt v)) t) d.
Proof.
  intros Ht.
  destruct (unsubscribe_all_spec (E := E) (rt_id (rt v)) (env_router v) t Ht) as (d & E1 & H1 & _).
  exists d. split; [|done]. unfold session_end. rewrite bind_gets.
  unfold on_broker, zoom, remove_session, on_router, zoom, mbind, M_bind.
  fold (env_router v). rewrite E1. unfold without_session.
  by destruct v as [[? [cid|]] ? ? []].
Qed.

Lemma command_send_room {E} tx c ch (b : Broker S R W Au Az) :
  commands b !! tx = Some ch → (length (queued ch) < capacity ch)%nat →
  command_send (E := E) tx c b = (with_commands (<[tx := push c ch]> (commands b)) b, Ok (inl tt)).
Proof.
  intros Hch Hroom. unfold command_send. rewrite bind_gets, Hch.
  by rewrite (proj2 (Nat.ltb_lt _ _) Hroom).
Qed.

(** A client whose name a live session has is handed over: its stream goes
    to that session through the command channel, nothing is written, and the
    new session ends - but it has taken the Will of the CONNECT, which its end
    will publish, and its end takes the name away from the session that has
    it, so the next CONNECT with the name finds no collision. *)
Theorem connect_takes_over {E} now c v (tx : TakeoverAction) ch t :
  admitted (authenticator (broker v)) c → str_is_empty (client_id c) = false →
  named_clients (broker v) !! client_id c = Some tx →
  commands (broker v) !! tx = Some ch → (length (queued ch) < capacity ch)%nat →
  tx ≠ rt_command_rx (rt v) → rep t (data (env_router v)) →
  let ch' := push (Takeover (mkTakeover (reader v, writer v) (clean_session c) (keep_alive c))) ch in
  ∃ v', on_connect now c v = (v', Ok Cleanup) ∧
    writer v' = writer v ∧ rt v' = entered c (rt v) ∧
    broker v' = with_commands (<[tx := ch']> (commands (broker v))) (broker v) ∧
    ∃ v'', session_end (E := E) v' = (v'', Ok tt) ∧
      named_clients (broker v'') = delete (client_id c) (named_clients (broker v)) ∧
      commands (broker v'') !! tx = Some ch'.
Proof.
  intros Ha He Hn Hch Hroom Hne Ht ch'. rewrite on_connect_admitted by done.
  set (b' := with_commands (<[tx := ch']> (commands (broker v))) (broker v)).
  exists (with_broker b' (with_rt (entered c (rt v)) v)).
  assert (Ecid : rt_client_id (entered c (rt v)) = Some (client_id c)) by (unfold entered; by rewrite He).
  assert (Erx : rt_command_rx (entered c (rt v)) = rt_command_rx (rt v))
    by (unfold entered; by destruct (str_is_empty _), (stored_will c)).
  split; [|split_and!; [done|done|done|]].
  - unfold enter_session, on_runtime. rewrite !bind_modify. cbv zeta. rewrite He. cbn [negb].
    rewrite bind_modify, bind_gets. unfold mbind at 1, M_bind at 1, on_broker at 1, zoom at 1.
    unfold has_collision. rewrite bind_gets. cbn [broker with_rt]. rewrite Hn. cbn [mret M_ret].
    unfold call_takeover, on_broker, zoom, mbind, M_bind. cbn [broker with_rt with_broker id].
    rewrite (command_send_room _ _ ch) by done. unfold entered. rewrite He.
    by destruct (stored_will c).
  - destruct (session_end_spec (E := E) (with_broker b' (with_rt (entered c (rt v)) v)) t Ht)
      as (d & E1 & _).
    eexists. split; [exact E1|]. cbn. rewrite Ecid, Erx. split; [done|].
    by rewrite lookup_delete_ne, lookup_insert_eq.
Qed.

Context {SR : StorageReliable S}.

(** C14: a client that is admitted, whose name nobody has, and that asks for a
    clean session or has nothing saved, starts a new session: CONNACK 0 without
    session present, the runtime has the parameters and the Will of the
    CONNECT and keeps the stream, the name is the session's, and nothing is
    saved under the name any more. *)
Theorem connect_new now c v :
  connected (writer v) → admitted (authenticator (broker v)) c →
  client_id c = EmptyString ∨ named_clients (broker v) !! client_id c = None →
  clean_session c = true ∨ kept (stored (env_router v)) !! client_id c = None →
  storage_inv (storage (env_router v)) →
  ∃ w' s', on_connect now c v =
      (with_rt (set_stream (Some (reader v, w')) (entered c (rt v)))
         (with_writer w' (put_router (with_storage s' (env_router v)) (accepted c v))), Ok Processing) ∧
    took (writer v) [ConnAck (mkConnAck false 0)] w' ∧ storage_inv s' ∧
    storage_abs s' = (if str_is_empty (client_id c) then stored (env_router v)
                      else set_kept (delete (client_id c)) (stored (env_router v))).
Proof.
  intros Hc Ha Hn Hk Hs. rewrite on_connect_admitted, enter_no_collision by done.
  assert (Er : env_router (accepted c v) = env_router v) by apply named_router.
  destruct (str_is_empty (client_id c)) eqn:He.
  { destruct (accept_connection_Ok false (accepted c v) Hc) as (w' & E1 & T).
    exists w', (storage (env_router v)). split; [|done].
    rewrite with_storage_id, <- Er, put_router_id. exact E1. }
  assert (Hs' : storage_inv (storage (env_router (accepted c v)))) by by rewrite Er.
  destruct (clean_session c) eqn:Hcl.
  - destruct (on_env_storage_Ok (E := SessionError) _ _ (accepted c v)
      (delete_session_spec (client_id c)) Hs' (delete_session_Ok _ _ Hs')) as (s' & [] & E1 & H1 & A1).
    rewrite Er in E1, A1. rewrite (bind_Ok _ _ _ _ _ E1).
    match goal with |- context [accept_connection _ ?v0] =>
      destruct (accept_connection_Ok false v0 Hc) as (w' & E2 & T) end.
    by exists w', s'.
  - destruct Hk as [|Hk]; [done|].
    destruct (on_env_storage_Ok (E := SessionError) _ _ (accepted c v)
      (load_session_spec (client_id c)) Hs' (load_session_Ok _ _ Hs')) as (s' & o & E1 & H1 & A1 & Ho).
    rewrite Er in E1, A1, Ho. rewrite Hk in Ho. destruct o; [done|].
    rewrite (bind_Ok _ _ _ (put_router (with_storage s' (env_router v)) (accepted c v)) false)
      by (unfold restore_from_storage; by rewrite (bind_Ok _ _ _ _ _ E1)).
    match goal with |- context [accept_connection _ ?v0] =>
      destruct (accept_connection_Ok false v0 Hc) as (w' & E2 & T) end.
    exists w', s'. split_and!; [done|done|done|]. rewrite A1. unfold set_kept.
    rewrite delete_id by done. by destruct (stored _).
Qed.

(** A client that comes back without asking for a clean session, when
    nobody has its name, gets its saved session: CONNACK 0 with session present,
    and the counter, the messages in flight, the inbound messages and the
    subscriptions that were saved.  The Will and the keep-alive are the saved
    ones too: those of the new CONNECT are lost. *)
Theorem connect_resumed now utc c r0 subs v t :
  connected (writer v) → admitted (authenticator (broker v)) c →
  clean_session c = false → named_clients (broker v) !! client_id c = None →
  storage_inv (storage (env_router v)) → rep t (data (env_router v)) → wf_runtime (2 ^ 32) r0 →
  can_hold (client_id c) utc r0 →
  kept (stored (env_router v)) !! client_id c = Some (saved_state (client_id c) utc r0 subs) →
  ∃ v' w' fs, on_connect now c v = (v', Ok Processing) ∧
    took (writer v) [ConnAck (mkConnAck true 0)] w' ∧
    rt_stream (rt v') = Some (reader v, w') ∧
    restored_from now r0 (entered c (rt v)) (rt v') ∧ fs ≡ₚ subs ∧
    rep (foldl (table_subscribe (rt_id (rt v)) (rt_message_tx (rt v))) t fs) (data (env_router v')) ∧
    stored (env_router v') = set_kept (delete (client_id c)) (stored (env_router v)).
Proof.
  intros Hc Ha Hcl Hn Hs Ht Hr0 Hcan Hk.
  rewrite on_connect_admitted, enter_no_collision, (stay_nonempty c), Hcl by (auto; apply Ha).
  assert (Er : env_router (accepted c v) = env_router v) by apply named_router.
  destruct (restore_spec (E := SessionError) now (client_id c) utc r0 subs (accepted c v) t)
    as (v1 & fs & E1 & R1 & P1 & T1 & A1 & Hrd & Hwr); [by rewrite ?Er..|].
  assert (Eid : rt_id (rt (accepted c v)) = rt_id (rt v) ∧
                rt_message_tx (rt (accepted c v)) = rt_message_tx (rt v))
    by (cbn; unfold entered; by destruct (str_is_empty _), (stored_will c)).
  destruct Eid as [Eid Emb]. rewrite Eid, Emb in T1. rewrite Er in A1.
  rewrite (bind_Ok _ _ _ _ _ E1).
  destruct (accept_connection_Ok true v1) as (w' & E2 & T2); [by rewrite Hwr|].
  rewrite Hrd in E2. rewrite Hwr in T2.
  exists (with_rt (set_stream (Some (reader v, w')) (rt v1)) (with_writer w' v1)), w', fs.
  split_and!; [exact E2|exact T2|done|by destruct R1|done|exact T1|exact A1].
Qed.
End ConnectProps.

(** * On the sample session *)

Definition sample_connect (level : Z) (clean : bool) : ConnectPacket :=
  mkConnect "MQTT" level clean 30 "c" true AtMostOnce false (Some "w") (Some [Byte.x2a]) None None.

Lemma sample_admitted clean : admitted AllowAll (sample_connect 4 clean).
Proof.
  split; [done|]. split; [|done]. right. split; [by vm_compute|].
  apply Forall_singleton. right; right. by vm_compute.
Qed.

Lemma connect_refused_witness :
  ∃ w', on_connect (BC := list_bytes) 0 (sample_connect 3 true) sample_env =
    (with_writer w' sample_env, Ok Cleanup) ∧
    took (W := Outgoing) (writer sample_env) [ConnAck (mkConnAck false 1)] w'.
Proof.
  apply (connect_refused (CN := outgoing_connection) 0 (sample_connect 3 true) 1 sample_env);
    [reflexivity|].
  constructor 1. intros [_ H]. vm_compute in H. discriminate.
Defined.

Lemma connect_new_witness :
  ∃ v' w', on_connect (BC := list_bytes) 0 (sample_connect 4 false) sample_env = (v', Ok Processing) ∧
    took (W := Outgoing) (writer sample_env) [ConnAck (mkConnAck false 0)] w' ∧
    rt_will_message (rt v') = Some (mkWill "w" [Byte.x2a] AtMostOnce false).
Proof.
  destruct (connect_new (SL := memory_laws) (CN := outgoing_connection) 0 (sample_connect 4 false)
    sample_env eq_refl (sample_admitted false) (or_intror eq_refl)) as (w' & s' & E1 & T & _).
  - right. change (kept (memory_abs memory_new) !! "c" = None).
    by rewrite memory_abs_lookup.
  - apply memory_inv_new.
  - eexists _, w'. split; [exact E1|]. by split.
Defined.

Lemma connect_resumed_witness :
  let s := storage (env_router (save_to_storage (E := Empty_set) 5 (with_rt sample_state sample_env)).1) in
  let v := put_router (mkRouter internal_new s 10 {[ 2%nat := mpsc_channel 100 ]})
             (with_rt (session_new "session-2" 2%nat 2%nat (sample_stream [])).2 sample_env) in
  ∃ v' w', on_connect (BC := list_bytes) 9 (sample_connect 4 false) v = (v', Ok Processing) ∧
    took (W := Outgoing) (writer v) [ConnAck (mkConnAck true 0)] w' ∧
    rt_will_message (rt v') = Some (mkWill "gone" [Byte.x2a] AtLeastOnce true) ∧
    rt_keep_alive (rt v') = 60.
Proof.
  intros s v.
  destruct (save_spec (SL := memory_laws) (E := Empty_set) 5 "c" (with_rt sample_state sample_env) ∅
    memory_inv_new rep_new eq_refl (sample_state_held _ _)) as (s' & subs & E1 & H1 & A1 & _).
  assert (Es : s = s') by (unfold s; by rewrite E1).
  clearbody s. subst s.
  destruct (connect_resumed (SL := memory_laws) (CN := outgoing_connection) 9 5
    (sample_connect 4 false) sample_state subs v ∅)
    as (v' & w' & fs & E2 & T & _ & [Hn Hk Hw _ _ _] & _).
  - reflexivity.
  - exact (sample_admitted false).
  - reflexivity.
  - reflexivity.
  - exact H1.
  - apply rep_new.
  - exact sample_state_wf.
  - apply sample_state_held.
  - change (kept (storage_abs s') !! "c" = Some (saved_state "c" 5 sample_state subs)).
    rewrite A1. apply lookup_insert_eq.
  - exists v', w'. split; [exact E2|]. split; [exact T|]. split; [exact Hw|exact Hk].
Defined.

(** Session 2 of the sample broker has the name ["c"]. *)
Definition sample_named : sample_env_type :=
  with_broker (with_named_clients {[ "c" := 2%nat ]}
    (with_commands (<[2%nat := mpsc_channel 10]> (commands (broker sample_env))) (broker sample_env)))
    sample_env.

Lemma connect_takes_over_witness :
  ∃ v', on_connect (BC := list_bytes) 0 (sample_connect 4 true) sample_named = (v', Ok Cleanup) ∧
    rt_will_message (rt v') = Some (mkWill "w" [Byte.x2a] AtMostOnce false) ∧
    ∃ v'', session_end (E := Empty_set) v' = (v'', Ok tt) ∧ named_clients (broker v'') = ∅.
Proof.
  destruct (connect_takes_over (E := Empty_set) 0 (sample_connect 4 true) sample_named 2%nat
    (mpsc_channel 10) ∅ (sample_admitted true) eq_refl eq_refl eq_refl
    ltac:(vm_compute; lia) ltac:(discriminate) rep_new)
    as (v' & E1 & _ & Hr & _ & v'' & E2 & Hn & _).
  exists v'. split; [exact E1|]. split; [by rewrite Hr|]. exists v''. split; [exact E2|].
  rewrite Hn. reflexivity.
Defined.
