(* ===== verification/LifeProps.v ===== *)
(** The state machine of a session as a whole: the phases it can go through,
    what becomes of the Will, what a session that is taken over keeps, and what
    one session can do to another through their mailboxes. *)

From S2P Require Import Prelude Utf8 External Packet Codec CodecSim Topic Storage.
From S2P Require Import MemoryStorage Config Auth Router RouterFacts RouterProps.
From S2P Require Import Broker Session Lifecycle SessionInv SessionSafe.
From S2P Require Import SessionFacts Samples PersistProps ConnectProps.

Local Open Scope Z_scope.

(** * The phases *)

(** The transitions of [run]. *)
Inductive step_edge : Phase → Phase → Prop :=
| edge_connected : step_edge (Enter Waiting) (Enter Processing)
| edge_refused : step_edge (Enter Waiting) (Enter Cleanup)
| edge_loop k : step_edge (Enter Processing) (InLoop k)
| edge_turn k : step_edge (InLoop k) (InLoop k)
| edge_taken_over k : step_edge (InLoop k) (Enter Processing)
| edge_lost k : step_edge (InLoop k) (Enter PendingState)
| edge_closed k : step_edge (InLoop k) (Enter Cleanup)
| edge_saved : step_edge (Enter PendingState) AwaitCommand
| edge_resumed : step_edge AwaitCommand (Enter Processing)
| edge_resume_failed : step_edge AwaitCommand (Enter PendingState)
| edge_cancelled : step_edge AwaitCommand (Enter Cleanup)
| edge_done : step_edge (Enter Cleanup) Exited.

(** [m s] takes a run [H : (m ≫= k) s = (s', Ok b)] apart, going into the calls
    whose failure is a value. *)
Ltac attempt_inv H :=
  unfold attempt in H;
  match type of H with context [match ?m ?s with _ => _ end] =>
    let s' := fresh "s" in let E := fresh "E" in
    destruct (m s) as [s' [?|?| |]] eqn:E; simplify_eq
  end.

Section LifeProps.
Context {BC : BytesCrate} {BL : BytesLaws} {MP : Mpsc} {MPL : MpscLaws}.
Context {HO : HashOrder} {HOL : HashOrderLaws}.
Context {S : Type} {ST : Storage S} {SL : StorageLaws S}.
Context {R W : Type} {AR : AsyncRead R} {AW : AsyncWrite W} {AWL : AsyncWriteLaws W}
  {CN : Connection W}.
Context {Au Az : Type} {AU : Authenticator Au} {AZ : Authorizer Az}.

Abbreviation Env := (Env (S := S) (R := R) (W := W) (Au := Au) (Az := Az)).

Implicit Types v : Env.

(** A session that is about to process has a stream; one that is over has no
    Will left. *)
Definition phase_ok (ph : Phase) v : Prop :=
  (ph = Enter Processing → is_Some (rt_stream (rt v))) ∧
  (ph = Exited → rt_will_message (rt v) = None).

Lemma accept_connection_inv b v v' s :
  accept_connection b v = (v', Ok s) → s = Processing ∧ is_Some (rt_stream (rt v')).
Proof. unfold accept_connection. intros H. minv H. split; [done|]. by eexists. Qed.

Lemma on_connect_inv now c v v' s :
  on_connect now c v = (v', Ok s) →
  s = Cleanup ∨ s = Processing ∧ is_Some (rt_stream (rt v')).
Proof.
  unfold on_connect. intros H. destruct (negb _ || _); [minv H; by left|].
  destruct (validate_client_id _ _); [|minv H; by left]. rewrite bind_gets in H.
  destruct (authenticate _ _); [|minv H; by left].
  unfold enter_session, on_runtime in H. rewrite !bind_modify in H. cbv zeta in H.
  destruct (negb (str_is_empty _)); [|right; by eapply accept_connection_inv].
  rewrite bind_modify, bind_gets in H. minv H.
  match type of H with context [match ?o with Some _ => _ | None => _ end] => destruct o end;
    [minv H; by left|].
  destruct (clean_session c); minv H; right; by eapply accept_connection_inv.
Qed.

Lemma take_over_inv {E} params v v' :
  take_over (E := E) params v = (v', Ok (inl tt)) → is_Some (rt_stream (rt v')).
Proof.
  unfold take_over. intros H. rewrite bind_modify in H. minv H.
  match type of H with context [match ?o with inl _ => _ | inr _ => _ end] => destruct o end;
    minv H. by eexists.
Qed.

Lemma lost_connection_inv {E} v v' s :
  lost_connection (E := E) v = (v', Ok s) → s = PendingState ∨ s = Cleanup.
Proof. unfold lost_connection. intros H. minv H. destruct (negb _); auto. Qed.

(** What a turn of the loop of [do_processing] leads to. *)
Definition turn_ok v (o : option State) : Prop :=
  match o with
  | Some Processing => is_Some (rt_stream (rt v))
  | Some Waiting => False
  | _ => True
  end.

Lemma turn_lost {E} v v' o :
  (next_state ← lost_connection (E := E); mret (Some next_state)) v = (v', Ok o) → turn_ok v' o.
Proof.
  intros H. minv H. match goal with E : lost_connection _ = _ |- _ =>
    by destruct (lost_connection_inv _ _ _ E) as [-> | ->] end.
Qed.

Lemma processing_turn_inv {E} k t v v' o :
  processing_turn (E := E) k t v = (v', Ok o) → turn_ok v' o.
Proof.
  unfold processing_turn. intros H. destruct (branch t).
  - minv H. destruct (negb a0); [by eapply turn_lost|]. by minv H.
  - minv H. destruct a1; [by minv H|by eapply turn_lost].
  - minv H. destruct a0 as [params|]; minv H; [|done].
    destruct a1 as [[]|]; minv H; [by eapply take_over_inv|]. by destruct (negb _).
  - minv H. destruct (0 <? k); [by eapply turn_lost|by minv H].
  - minv H. destruct a0; [by minv H|by eapply turn_lost].
Qed.

Lemma on_broker_rt {E A} (m : M (Broker S R W Au Az) E A) v : rt (on_broker m v).1 = rt v.
Proof. unfold on_broker, zoom. by destruct (m (broker v)). Qed.

Lemma publish_will_inv {E} utc v v' :
  publish_will (E := E) utc v = (v', Ok tt) → rt_will_message (rt v') = None.
Proof.
  unfold publish_will, on_runtime. intros H. minv H.
  destruct (rt_will_message (rt v)) eqn:Hw; minv H; [|done].
  match type of H with on_broker ?m ?u = _ => pose proof (on_broker_rt m u) as Hr end.
  rewrite H in Hr. cbn in Hr. by rewrite Hr.
Qed.

Lemma run_step_inv {E} t ph v v' ph' :
  phase_ok ph v → run_step (E := E) t ph v = (v', Ok ph') → step_edge ph ph' ∧ phase_ok ph' v'.
Proof.
  unfold run_step. intros Hph. destruct ph as [[]|k| |]; intros H.
  - minv H. unfold do_waiting in E0. minv E0. destruct (negb a0); [minv E0; by repeat constructor|].
    destruct (branch t); [|minv E0; by repeat constructor..].
    minv E0. destruct a1 as [[]|]; minv E0; try by repeat constructor.
    attempt_inv E3; [|by repeat constructor].
    destruct (on_connect_inv _ _ _ _ _ E0) as [->|[-> ?]]; by repeat constructor.
  - unfold take_stream in H. destruct (proj1 Hph eq_refl) as [[rd wr] Hst].
    rewrite bind_assoc, bind_gets, Hst in H. minv H. minv E0. cbn [negb] in H. minv H. by repeat constructor.
  - minv H. by repeat constructor.
  - minv H. split; [constructor|]. split; [done|]. intros _. destruct a; by eapply publish_will_inv.
  - minv H. pose proof (processing_turn_inv _ _ _ _ _ E0) as Ho.
    destruct a as [[]|]; by repeat constructor.
  - minv H. unfold pending_command in E0. minv E0. destruct a0; minv E0; [|by repeat constructor].
    destruct a0 as [[]|]; [|by repeat constructor].
    split; [constructor|]. split; [|done]. intros _. by eapply take_over_inv.
  - done.
Qed.

Lemma run_inv {E} ts ph v v' ph' :
  phase_ok ph v → run (E := E) ts ph v = (v', Ok ph') →
  nsteps step_edge (length ts) ph ph' ∧ phase_ok ph' v'.
Proof.
  revert ph v. induction ts as [|t ts IH]; intros ph v Hph H; cbn [run length] in *.
  { minv H. by split; [constructor|]. }
  minv H. match goal with E : run_step _ _ _ = _ |- _ =>
    destruct (run_step_inv _ _ _ _ _ Hph E) as [H1 H2] end.
  destruct (IH _ _ H2 H) as [H3 H4]. split; [|done]. by econstructor.
Qed.

Lemma step_edge_not_waiting n ph ph' :
  nsteps step_edge n ph ph' → n ≠ 0%nat → ph' ≠ Enter Waiting.
Proof.
  destruct n as [|n]; [done|]. intros H _. apply nsteps_inv_r in H.
  destruct H as (y & _ & Hy). by destruct Hy.
Qed.

(** C7: the life of a session, from its start: each turn takes one of the
    transitions of [step_edge], so it never waits for a CONNECT again, and it
    is over only through the clean-up.  Whenever it is about to process it has a
    stream, so the error path of [do_processing] without one is never taken;
    and when it is over its Will has been taken. *)
Theorem session_lifecycle {E} ts v v' ph :
  run (E := E) ts (Enter Waiting) v = (v', Ok ph) →
  nsteps step_edge (length ts) (Enter Waiting) ph ∧
  (ph = Enter Waiting → ts = []) ∧
  (ph = Enter Processing → is_Some (rt_stream (rt v'))) ∧
  (ph = Exited → rt_will_message (rt v') = None ∧
     ∃ n, length ts = Datatypes.S n ∧ nsteps step_edge n (Enter Waiting) (Enter Cleanup)).
Proof.
  intros H. destruct (run_inv (E := E) ts (Enter Waiting) v v' ph) as [H1 [H2 H3]]; [by split|done|].
  split; [done|]. split.
  { intros ->. destruct ts as [|t ts]; [done|].
    by destruct (step_edge_not_waiting _ _ _ H1 ltac:(done) eq_refl). }
  split; [done|]. intros ->. split; [by apply H3|].
  destruct (length ts) as [|n]; [by inversion H1|]. exists n. split; [done|].
  apply nsteps_inv_r in H1. destruct H1 as (y & Hn & Hy). by inversion Hy; subst.
Qed.

(** * The Will *)

Lemma drop_decode_reader {E} b v :
  ∃ rd, drop_decode (E := E) b v = (with_reader rd v, Ok tt).
Proof.
  unfold drop_decode. rewrite bind_gets. cbn [id].
  assert (Hsame : v = with_reader (reader v) v) by by destruct v.
  destruct (decode (reader v)) as [rd [p|e| |]]; [eexists; by rewrite Hsame at 1..| | |];
    [eexists; by rewrite Hsame at 1..|].
  destruct b; [by exists rd|eexists; by rewrite Hsame at 1].
Qed.

(** The state a lost connection leads to. *)
Definition after_loss v : State := if rt_clean_session (rt v) then Cleanup else PendingState.

Lemma lost_connection_eq {E} v : lost_connection (E := E) v = (v, Ok (after_loss v)).
Proof. unfold lost_connection, after_loss. rewrite bind_gets. by destruct (rt_clean_session _). Qed.

(** The keep-alive timer runs out. *)
Lemma keep_alive_step {E} k t v :
  branch t = OnKeepAlive → 0 < k →
  ∃ rd, run_step (E := E) t (InLoop k) v = (with_reader rd v, Ok (Enter (after_loss v))).
Proof.
  intros Hb Hk. destruct (drop_decode_reader (E := E) (polled t) v) as (rd & E1). exists rd.
  unfold run_step, processing_turn. rewrite Hb, bind_assoc, (bind_Ok _ _ _ _ _ E1).
  rewrite (proj2 (Z.ltb_lt _ _) Hk), bind_assoc, (bind_Ok _ _ _ _ _ (lost_connection_eq _)). done.
Qed.

(** The client says DISCONNECT. *)
Lemma disconnect_step {E} k t v rd :
  branch t = OnDecode → decode (reader v) = (rd, Ok Disconnect) →
  run_step (E := E) t (InLoop k) v =
  (with_rt (set_will None (rt v)) (with_reader rd v), Ok (Enter (after_loss v))).
Proof.
  intros Hb Hd. unfold run_step, processing_turn. rewrite Hb.
  assert (E1 : decode_packet (E := E) v = (with_reader rd v, Ok (inl Disconnect)))
    by (unfold decode_packet, attempt, zoom; by rewrite Hd).
  rewrite bind_assoc, (bind_Ok _ _ _ _ _ E1). unfold after_loss.
  destruct v as [[? ? ? ? ? ? []] ? ? ?]; reflexivity.
Qed.

(** The message a Will becomes. *)
Definition will_packet (w : WillMessage) : PublishPacket :=
  mkPublish (wm_topic w) None (wm_payload w) AtMostOnce (wm_retain w) false.

(** What is left of the router when the session's Will, if it has one, is routed. *)
Definition will_routed {E} utc v : Router S * outcome E () :=
  match rt_will_message (rt v) with
  | Some w => route utc (will_packet w) (env_router v)
  | None => (env_router v, Ok tt)
  end.

Lemma publish_will_eq {E} utc v r' o :
  will_routed (E := E) utc v = (r', o) →
  publish_will (E := E) utc v = (put_router r' (with_rt (set_will None (rt v)) v), o).
Proof.
  unfold will_routed, publish_will, on_runtime. rewrite bind_gets.
  destruct (rt_will_message (rt v)) as [w|] eqn:Hw; intros H.
  - rewrite bind_modify. unfold on_broker, broker_route, on_router, zoom. cbn [broker with_rt].
    unfold env_router, will_packet in H. by rewrite H.
  - injection H as <- <-. destruct v as [[] ? ? []]. cbn in Hw. by subst.
Qed.

Lemma publish_will_none {E} utc v :
  rt_will_message (rt v) = None → publish_will (E := E) utc v = (v, Ok tt).
Proof. intros Hw. unfold publish_will. by rewrite bind_gets, Hw. Qed.

(** C24: a session with the clean-session flag whose client falls silent
    publishes its Will, at level 0 and with its retain flag, and is over; one
    whose client says DISCONNECT is over without publishing it. *)
Theorem will_published {E} k t t' w r' v :
  rt_clean_session (rt v) = true → rt_will_message (rt v) = Some w →
  route (E := E) (at_utc t')
    (mkPublish (wm_topic w) None (wm_payload w) AtMostOnce (wm_retain w) false)
    (env_router v) = (r', Ok tt) →
  (branch t = OnKeepAlive → 0 < k →
   ∃ v', run (E := E) [t; t'] (InLoop k) v = (v', Ok Exited) ∧
     env_router v' = r' ∧ rt v' = set_will None (rt v)) ∧
  (∀ rd, branch t = OnDecode → decode (reader v) = (rd, Ok Disconnect) →
   ∃ v', run (E := E) [t; t'] (InLoop k) v = (v', Ok Exited) ∧
     env_router v' = env_router v ∧ rt v' = set_will None (rt v)).
Proof.
  intros Hcl Hw Hr. split.
  - intros Hb Hk. destruct (keep_alive_step (E := E) k t v Hb Hk) as (rd & E1).
    unfold after_loss in E1. rewrite Hcl in E1.
    eexists. cbn [run]. rewrite (bind_Ok _ _ _ _ _ E1). cbn [run_step].
    rewrite bind_assoc. erewrite bind_Ok.
    2: { apply publish_will_eq. unfold will_routed. cbn [rt with_reader]. rewrite Hw. exact Hr. }
    split; [reflexivity|by split].
  - intros rd Hb Hd. pose proof (disconnect_step (E := E) k t v rd Hb Hd) as E1.
    unfold after_loss in E1. rewrite Hcl in E1.
    eexists. cbn [run]. rewrite (bind_Ok _ _ _ _ _ E1). cbn [run_step].
    rewrite bind_assoc. erewrite bind_Ok by by apply publish_will_none.
    split; [reflexivity|by split].
Qed.

Context {SR : StorageReliable S}.

(** A persistent session whose client falls silent is saved, with its Will,
    and waits: the Will is not published, no mailbox has changed, and the
    session still has it when it is resumed or cancelled. *)
Theorem will_withheld {E} k t t' cid v tb :
  rt_clean_session (rt v) = false → rt_client_id (rt v) = Some cid →
  branch t = OnKeepAlive → 0 < k → can_hold cid (at_utc t') (rt v) →
  storage_inv (storage (env_router v)) → rep tb (data (env_router v)) →
  ∃ v' subs, run (E := E) [t; t'] (InLoop k) v = (v', Ok AwaitCommand) ∧
    rt v' = rt v ∧ mailboxes (env_router v') = mailboxes (env_router v) ∧
    data (env_router v') = data (env_router v) ∧
    stored (env_router v') = set_kept <[cid := saved_state cid (at_utc t') (rt v) subs]>
                               (stored (env_router v)) ∧
    ∀ f q, (f, q) ∈ subs ↔ ∃ mb, tb !! (rt_id (rt v), f) = Some (mb, q).
Proof.
  intros Hcl Hcid Hb Hk Hcan Hs Ht. destruct (keep_alive_step (E := E) k t v Hb Hk) as (rd & E1).
  unfold after_loss in E1. rewrite Hcl in E1.
  destruct (save_spec (E := E) (at_utc t') cid (with_reader rd v) tb Hs Ht Hcid Hcan)
    as (s' & subs & E2 & _ & A2 & _ & Hsub).
  eexists _, subs. cbn [run]. rewrite (bind_Ok _ _ _ _ _ E1). cbn [run_step].
  rewrite bind_assoc, (bind_Ok _ _ _ _ _ E2). split; [reflexivity|]. done.
Qed.

(** * Being taken over *)

(** The runtime of a session that has been taken over. *)
Definition taken (clean : bool) (keep : Z) (r : Runtime R W) : Runtime R W :=
  if clean then set_inflight [] (set_params clean keep r) else set_params clean keep r.

(** What was saved is forgotten when the new client wants a clean session. *)
Definition forget (clean : bool) (cid : option string) (d : StoredData) : StoredData :=
  match cid with
  | Some cid => if clean then set_kept (delete cid) d else d
  | None => d
  end.

Lemma recv_command_head {E} c ch l v :
  commands (broker v) !! rt_command_rx (rt v) = Some ch → queued ch = c :: l →
  recv_command (E := E) v =
  (with_broker (with_commands (<[rt_command_rx (rt v) := pop ch]> (commands (broker v)))
     (broker v)) v, Ok c).
Proof. intros Hch Hq. unfold recv_command. rewrite bind_gets. cbn [id]. by rewrite Hch, Hq. Qed.

(** What a takeover leaves of the broker: the subscriptions and what is saved are
    the given ones, and the rest is as it was. *)
Record after_takeover (clean : bool) (cid : option string) (sid : string) (tb : Table)
    (b b' : Broker S R W Au Az) : Prop := {
  at_router : ∃ r', b' = with_router r' b;
  at_mailboxes : mailboxes (router b') = mailboxes (router b);
  at_rep : rep (if clean then table_unsubscribe_all sid tb else tb) (data (router b'));
  at_stored : stored (router b') = forget clean cid (stored (router b));
}.

Lemma on_takeover_spec clean keep v tb :
  connected (writer v) → storage_inv (storage (env_router v)) → rep tb (data (env_router v)) →
  ∃ v' w', on_takeover clean keep v = (v', Ok tt) ∧
    took (writer v) [ConnAck (mkConnAck (negb clean) 0)] w' ∧
    writer v' = w' ∧ reader v' = reader v ∧ rt v' = taken clean keep (rt v) ∧
    after_takeover clean (rt_client_id (rt v)) (rt_id (rt v)) tb (broker v) (broker v').
Proof.
  intros Hc Hs Ht. unfold on_takeover.
  destruct (send_connected (ConnAck (mkConnAck (negb clean) connect_return_codes.ACCEPTED)) v Hc)
    as (w' & E1 & T1).
  rewrite (bind_Ok _ _ _ _ _ E1). unfold on_runtime. rewrite bind_modify.
  destruct clean; [|eexists _, w'; split; [reflexivity|]; split_and!; try done;
    split; try done; [exists (router (broker v)); by destruct v as [? ? ? []]|by destruct (rt_client_id (rt v))]].
  rewrite bind_gets. set (v1 := with_rt _ _).
  destruct (unsubscribe_all_spec (E := SessionError) (rt_id (rt v1)) (env_router v1) tb Ht)
    as (d & E2 & Hd & _).
  assert (E3 : on_broker (E := SessionError) (broker_unsubscribe_all (rt_id (rt v1))) v1 =
    (put_router (with_data d (env_router v1)) v1, Ok tt)).
  { unfold on_broker, broker_unsubscribe_all, on_router, zoom. fold (env_router v1). by rewrite E2. }
  rewrite (bind_Ok _ _ _ _ _ E3). set (v2 := put_router _ v1).
  change (rt_client_id (rt v1)) with (rt_client_id (rt v)).
  destruct (rt_client_id (rt v)) as [cid|].
  2: { eexists _, w'. split; [reflexivity|]. split_and!; try done. split; try done. by eexists. }
  destruct (on_env_storage_Ok (E := SessionError) _ _ v2 (delete_session_spec cid) Hs
    (delete_session_Ok cid _ Hs)) as (s' & [] & E4 & _ & A4).
  rewrite bind_assoc, (bind_Ok _ _ _ _ _ E4). eexists _, w'. split; [reflexivity|].
  split_and!; try done. split; try done. by eexists.
Qed.

(** The stream of the new client becomes the session's. *)
Lemma take_over_spec {E} params v tb :
  connected (to_stream params).2 → storage_inv (storage (env_router v)) → rep tb (data (env_router v)) →
  let clean := to_clean_session params in
  ∃ v' w', take_over (E := E) params v = (v', Ok (inl tt)) ∧
    took (to_stream params).2 [ConnAck (mkConnAck (negb clean) 0)] w' ∧
    rt v' = set_stream (Some ((to_stream params).1, w')) (taken clean (to_keep_alive params) (rt v)) ∧
    after_takeover clean (rt_client_id (rt v)) (rt_id (rt v)) tb (broker v) (broker v').
Proof.
  intros Hn Hs Ht clean.
  destruct (on_takeover_spec clean (to_keep_alive params)
    (with_reader (to_stream params).1 (with_writer (to_stream params).2 v)) tb Hn Hs Ht)
    as (v2 & w2 & E3 & T3 & W3 & R3 & Hrt & Hb).
  eexists _, w2. split.
  { unfold take_over. rewrite bind_modify. fold clean.
    rewrite (bind_Ok _ _ _ v2 (inl tt)) by (unfold attempt; by rewrite E3). reflexivity. }
  split; [exact T3|]. split; [|exact Hb]. cbn [rt with_rt]. by rewrite Hrt, W3, R3.
Qed.

(** A session that has a client, or that is away and waits for it. *)
Definition takes_commands (t : Turn) (ph : Phase) v : Prop :=
  ph = AwaitCommand ∨ (∃ k, ph = InLoop k) ∧ branch t = OnCommand ∧ connected (writer v).

(** A session that is taken over, live or away, closes the connection it has,
    answers the new one with CONNACK 0, session present unless the client wants
    a clean session, and goes on processing on the new stream.  The Will stays
    the old client's, that of the new CONNECT is not there.  With a clean
    session the subscriptions, what was saved and the messages in flight are
    dropped; the packet counter and the inbound messages of the old client are
    kept. *)
Lemma taken_over {E} t ph params ch l v tb :
  takes_commands t ph v → commands (broker v) !! rt_command_rx (rt v) = Some ch →
  queued ch = Takeover params :: l → connected (to_stream params).2 →
  storage_inv (storage (env_router v)) → rep tb (data (env_router v)) →
  let clean := to_clean_session params in
  let b := with_commands (<[rt_command_rx (rt v) := pop ch]> (commands (broker v))) (broker v) in
  ∃ v' w', run_step (E := E) t ph v = (v', Ok (Enter Processing)) ∧
    took (to_stream params).2 [ConnAck (mkConnAck (negb clean) 0)] w' ∧
    rt v' = set_stream (Some ((to_stream params).1, w'))
              (taken clean (to_keep_alive params) (rt v)) ∧
    after_takeover clean (rt_client_id (rt v)) (rt_id (rt v)) tb b (broker v').
Proof.
  intros Hph Hch Hq Hn Hs Ht clean b. destruct Hph as [->|([k ->] & Hb & Hc)]; cbn [run_step].
  - unfold pending_command.
    rewrite bind_assoc, (bind_Ok _ _ _ _ _ (recv_command_head _ ch l v Hch Hq)), bind_assoc.
    destruct (take_over_spec (E := E) params (with_broker b v) tb Hn Hs Ht) as (v' & w' & E1 & H1).
    rewrite (bind_Ok _ _ _ _ _ E1). by eexists v', w'.
  - unfold processing_turn. rewrite Hb.
    destruct (drop_decode_reader (E := E) (polled t) v) as (rd & E1).
    rewrite bind_assoc, (bind_Ok _ _ _ _ _ E1).
    rewrite bind_assoc, (bind_Ok _ _ _ _ _ (recv_command_head _ ch l (with_reader rd v) Hch Hq)).
    set (v1 := with_broker _ _). destruct (send_connected Disconnect v1 Hc) as (w1 & E2 & _).
    rewrite bind_assoc, (bind_Ok _ _ _ (with_writer w1 v1) (inl tt)) by (unfold attempt; by rewrite E2).
    destruct (take_over_spec (E := E) params (with_writer w1 v1) tb Hn Hs Ht) as (v' & w' & E3 & H3).
    rewrite bind_assoc, (bind_Ok _ _ _ _ _ E3). by eexists v', w'.
Qed.

(** C30: a session that is cancelled while its client is connected is not saved,
    a persistent one neither, and the messages in flight go with the runtime: the
    saved sessions and the subscriptions are as they were.  Without a Will the
    session is over and the storage and the mailboxes are as they were too.
    With one, the Will is routed: the session is over when every mailbox has room
    for it, and waits in its clean-up when one has not; nothing else changes the
    router. *)
Theorem cancelled_not_saved {E} k t t' ch l v :
  branch t = OnCommand → commands (broker v) !! rt_command_rx (rt v) = Some ch →
  queued ch = Cancel :: l → storage_inv (storage (env_router v)) →
  let routed := will_routed (E := E) (at_utc t') v in
  let done := run (E := E) [t; t'] (InLoop k) v in
  env_router done.1 = routed.1 ∧ rt done.1 = set_will None (rt v) ∧
  kept (stored (env_router done.1)) = kept (stored (env_router v)) ∧
  data (env_router done.1) = data (env_router v) ∧
  (routed.2 = Ok tt ∧ done.2 = Ok Exited ∨ routed.2 = Pending ∧ done.2 = Pending) ∧
  (rt_will_message (rt v) = None →
   done.2 = Ok Exited ∧ rt done.1 = rt v ∧ env_router done.1 = env_router v).
Proof.
  intros Hb Hch Hq Hs routed done. destruct (drop_decode_reader (E := E) (polled t) v) as (rd & E1).
  assert (E2 : ∃ b, run_step (E := E) t (InLoop k) v =
    (with_broker b (with_reader rd v), Ok (Enter Cleanup)) ∧ router b = env_router v).
  { unfold run_step, processing_turn. rewrite Hb, bind_assoc, (bind_Ok _ _ _ _ _ E1).
    rewrite bind_assoc, (bind_Ok _ _ _ _ _ (recv_command_head _ ch l (with_reader rd v) Hch Hq)).
    by eexists. }
  destruct E2 as (b & E2 & Hr). set (u := with_broker b (with_reader rd v)) in E2.
  assert (Hu : will_routed (E := E) (at_utc t') u = routed)
    by (unfold routed, will_routed, env_router; cbn; by rewrite Hr).
  destruct routed as [r' o] eqn:Hro. subst routed.
  assert (Hd : done = (put_router r' (with_rt (set_will None (rt v)) u),
                       match o with
                       | Ok _ => Ok Exited | Err e => Err e | Panic => Panic | Pending => Pending
                       end)).
  { subst done. cbn [run]. rewrite (bind_Ok _ _ _ _ _ E2). cbn [run_step]. unfold mbind, M_bind.
    rewrite (publish_will_eq _ u r' o Hu). by destruct o. }
  clearbody done. subst done.
  assert (Hf : (o = Ok tt ∨ o = Pending) ∧ data r' = data (env_router v) ∧
               kept (stored r') = kept (stored (env_router v))).
  { unfold will_routed in Hro. destruct (rt_will_message (rt v)) as [w|].
    - destruct (route_frame (E := E) (at_utc t') (will_packet w) (env_router v) Hs)
        as (r2 & o2 & E3 & H3). rewrite E3 in Hro. by injection Hro as -> ->.
    - injection Hro as <- <-. by split; [left|]. }
  destruct Hf as (Ho & Hdata & Hk). split; [reflexivity|]. split; [reflexivity|].
  split; [exact Hk|]. split; [exact Hdata|].
  split; [by destruct Ho as [-> | ->]; [left|right]|]. intros Hw.
  unfold will_routed in Hro. rewrite Hw in Hro. injection Hro as <- <-. split; [done|].
  split; [|done]. cbn. destruct (rt v). cbn in Hw. by subst.
Qed.

(** * One session and another *)

(** A matching subscription gets a copy. *)
Lemma matching_copy p sid f mb q d tb :
  rep tb d → tb !! (sid, f) = Some (mb, q) → topic_matches (topic p) f = true →
  Publish (copy_for p q) ∈ for_mailbox mb (deliveries p (rows d)).
Proof.
  intros Ht Hsub Hm. unfold for_mailbox. apply list_elem_of_fmap_2.
  apply list_elem_of_fmap. exists (mb, copy_for p q). split; [done|].
  apply list_elem_of_filter. split; [done|]. unfold deliveries.
  apply list_elem_of_omap. exists ((sid, f), (mb, q)). split; [|by rewrite Hm].
  rewrite (rows_table _ _ Ht). by apply elem_of_map_to_list.
Qed.

Lemma route_full {E} utc p sid f mb q c (r : Router S) tb :
  storage_inv (storage r) → rep tb (data r) → validate_publish_topic (topic p) = true →
  topic_matches (topic p) f = true → tb !! (sid, f) = Some (mb, q) →
  mailboxes r !! mb = Some c → (capacity c ≤ length (queued c))%nat →
  ∃ r', route (E := E) utc p r = (r', Pending).
Proof.
  intros Hs Ht Hv Hm Hsub Hc Hfull.
  destruct (route_reaches_subscribers (E := E) utc p r Hs Hv) as (s' & _ & _ & ->).
  rewrite route_deliveries. set (r1 := with_storage s' r).
  pose proof (matching_copy p sid f mb q (data r1) tb Ht Hsub Hm) as Hin.
  destruct (send_all_cases (E := E) (deliveries p (rows (data r1))) r1)
    as [[Hroom _]|[_ (ms & E1)]]; [|by eexists].
  specialize (Hroom mb c Hc). destruct (for_mailbox mb _) as [|x l] eqn:Hl.
  - by apply elem_of_nil in Hin.
  - specialize (Hroom ltac:(done)). cbn [length] in Hroom. lia.
Qed.

(** What a session that is away does to the mailboxes: nothing. *)
Definition same_mailboxes (ms : gmap Mailbox (channel Packet)) v : Prop :=
  mailboxes (env_router v) = ms.

Lemma unsubscribe_all_mailboxes {E} sid (r : Router S) :
  mailboxes (unsubscribe_all (E := E) sid r).1 = mailboxes r.
Proof.
  unfold unsubscribe_all. rewrite bind_gets. destruct (sessions (data r) !! sid) as [fs|]; [|done].
  rewrite bind_modify. match goal with |- context [for_each ?l ?g ?r1] =>
    pose proof (drop_entries_loop (E := E) sid l r1) as Hl end.
  by rewrite Hl.
Qed.

Lemma away_send_packet ms p : keeps (same_mailboxes ms) (λ _, True) (send_packet p).
Proof.
  intros v Hv. unfold send_packet, map_err, zoom.
  by destruct (write_all _ (writer v)) as [w' [| | |]].
Qed.

Lemma away_storage {E A} ms (m : M S StorageError A) :
  keeps (same_mailboxes ms) (λ _, True) (on_env_storage (E := E) m).
Proof.
  intros v Hv. unfold on_env_storage, on_broker, on_broker_storage, on_router, zoom.
  unfold on_storage, attempt, zoom. by destruct (m _) as [s' [| | |]].
Qed.

Lemma away_on_takeover ms clean keep :
  keeps (same_mailboxes ms) (λ _, True) (on_takeover clean keep).
Proof.
  unfold on_takeover. eapply keeps_bind; [apply away_send_packet|intros _ _].
  eapply (keeps_bind _ (λ _, True)); [by intros v|intros _ _].
  destruct clean; [|by intros v].
  eapply (keeps_bind _ (λ _, True)); [by intros v|intros r _].
  eapply (keeps_bind _ (λ _, True)).
  { intros v Hv. unfold on_broker, broker_unsubscribe_all, on_router, zoom.
    pose proof (unsubscribe_all_mailboxes (E := SessionError) (rt_id r) (router (broker v))) as Hm.
    destruct (unsubscribe_all _ _) as [r' o]. split; [|by destruct o].
    unfold same_mailboxes, env_router in *. cbn in *. by rewrite Hm. }
  intros _ _. eapply (keeps_bind _ (λ _, True)); [|by intros _ _ v].
  destruct (rt_client_id r); [|by intros v].
  eapply keeps_bind; [apply away_storage|by intros _ _ v].
Qed.

Lemma away_pending_command {E} ms :
  keeps (same_mailboxes ms) (λ _, True) (pending_command (E := E)).
Proof.
  unfold pending_command. eapply (keeps_bind _ (λ _, True)).
  { intros v Hv. unfold recv_command. rewrite bind_gets. cbn [id].
    destruct (commands (broker v) !! _) as [ch|]; [|done]. by destruct (queued ch). }
  intros [params|] _; [|by intros v]. eapply (keeps_bind _ (λ _, True)); [|by intros [] _ v].
  unfold take_over. eapply (keeps_bind _ (λ _, True)); [by intros v|intros _ _].
  eapply (keeps_bind _ (λ _, True)); [|by intros [] _ v].
  intros v Hv. unfold attempt.
  destruct (away_on_takeover ms (to_clean_session params) (to_keep_alive params) v Hv) as [H1 _].
  by destruct (on_takeover _ _ v) as [v' [| | |]].
Qed.

(** A message the client may publish waits as soon as routing it does. *)
Lemma publication_waits utc p v r' :
  authorize_publish (authorizer (broker v)) (client_name (rt v)) (topic p) = inl tt →
  route (E := SessionError) utc p (env_router v) = (r', Pending) →
  authorize_and_route utc p v = (put_router r' v, Pending).
Proof.
  intros Ha Hr. unfold authorize_and_route. rewrite bind_gets. cbn [id]. rewrite Ha.
  erewrite bind_Pending; [done|].
  unfold on_broker, broker_route, on_router, zoom. fold (env_router v). by rewrite Hr.
Qed.

(** C29: a message for a subscriber whose mailbox is full leaves its publisher
    waiting, whoever else is subscribed: a PUBLISH of level 0 at once, one of
    level 1 that is not a repetition after its PUBACK, and one of level 2, which
    is held and answered with PUBREC, when its PUBREL has been answered with
    PUBCOMP.  And a session that is away, waiting to be resumed, takes nothing
    out of its mailbox, whatever command it gets.  So a persistent session that
    is away stops every publisher of a topic it is subscribed to once its
    mailbox is full. *)
Theorem full_mailbox_blocks now utc p sid f mb q c v tb :
  validate_publish_topic (topic p) = true → topic_matches (topic p) f = true →
  authorize_publish (authorizer (broker v)) (client_name (rt v)) (topic p) = inl tt →
  storage_inv (storage (env_router v)) → rep tb (data (env_router v)) →
  tb !! (sid, f) = Some (mb, q) → mailboxes (env_router v) !! mb = Some c →
  (capacity c ≤ length (queued c))%nat → connected (writer v) →
  match qos p with
  | AtMostOnce => ∃ v', on_packet now utc (Publish p) v = (v', Pending) ∧ writer v' = writer v
  | AtLeastOnce => ∀ i, packet_id p = Some i → dup p = false →
      ∃ v', on_packet now utc (Publish p) v = (v', Pending) ∧
        took (writer v) [PubAck (mkPubAck i)] (writer v')
  | ExactlyOnce => ∀ i, packet_id p = Some i → rt_inbound_qos2 (rt v) !! i = None →
      ∃ v1, on_packet now utc (Publish p) v = (v1, Ok true) ∧
        took (writer v) [PubRec (mkPubRec i)] (writer v1) ∧
        ∃ v2, on_packet now utc (PubRel (mkPubRel i)) v1 = (v2, Pending) ∧
          took (writer v1) [PubComp (mkPubComp i)] (writer v2)
  end ∧
  ∀ t u, mailboxes (env_router (run_step (E := SessionError) t AwaitCommand u).1) =
         mailboxes (env_router u).
Proof.
  intros Hv Hm Ha Hs Ht Hsub Hc Hfull Hw. split.
  2: { intros t u. cbn [run_step].
    destruct (away_pending_command (E := SessionError) (mailboxes (env_router u)) u eq_refl) as [H1 _].
    unfold mbind, M_bind. by destruct (pending_command u) as [u' []]. }
  destruct (route_full (E := SessionError) utc p sid f mb q c (env_router v) tb) as (r' & E1); [done..|].
  destruct (qos p) eqn:Hq.
  - exists (put_router r' v). split; [|done]. cbn [on_packet]. unfold on_publish. rewrite Hq.
    by apply publication_waits.
  - intros i Hi Hd. destruct (send_connected (PubAck (mkPubAck i)) v Hw) as (w' & E2 & T).
    exists (put_router r' (with_writer w' v)). split; [|exact T].
    cbn [on_packet]. unfold on_publish, on_publish_qos1. rewrite Hq, Hi, (bind_Ok _ _ _ _ _ E2), Hd.
    by apply publication_waits.
  - intros i Hi Hn. destruct (publish_qos2_first now utc p i v Hw Hq Hi Hn) as (w1 & E2 & T1).
    set (held := set_received _ v) in E2. exists (with_writer w1 held).
    split; [exact E2|]. split; [exact T1|].
    destruct (send_connected (PubComp (mkPubComp i)) (with_writer w1 held)) as (w2 & E3 & T2);
      [apply T1|].
    eexists. split.
    + cbn [on_packet]. unfold on_pubrel. cbn [pubrel_id]. rewrite (bind_Ok _ _ _ _ _ E3), bind_gets.
      change (rt_inbound_qos2 (rt (with_writer w2 (with_writer w1 held))))
        with (<[i := mkReceived p]> (rt_inbound_qos2 (rt v))).
      rewrite lookup_insert_eq. unfold on_runtime. rewrite bind_modify.
      by apply (publication_waits utc p _ r').
    + exact T2.
Qed.

Lemma recv_message_head {E} p c l v :
  mailboxes (env_router v) !! rt_message_tx (rt v) = Some c → queued c = p :: l →
  recv_message (E := E) v = (enqueue_own (pop c) v, Ok p).
Proof.
  intros Hc Hq. unfold recv_message. rewrite bind_gets. cbn [id]. unfold env_router in Hc.
  by rewrite Hc, Hq.
Qed.

Lemma send_packet_fails p v w' e :
  write_all (packet_bytes p) (writer v) = (w', Err e) →
  send_packet p v = (with_writer w' v, Err (IOError e)).
Proof.
  intros Hw. unfold send_packet, map_err, zoom. by rewrite encode_app, as_slice_new, app_nil_l, Hw.
Qed.

Lemma on_message_fails now p v w' e :
  qos p ≠ AtMostOnce → dup p = false →
  write_all (packet_bytes (Publish (with_packet_id (Some (rt_next_packet_id (rt v))) p))) (writer v)
    = (w', Err e) →
  on_message now (Publish p) v =
  (with_writer w' (with_rt (set_next_packet_id (succ_id (rt_next_packet_id (rt v))) (rt v)) v),
   Err (IOError e)).
Proof.
  intros Hq Hd Hw. cbn [on_message]. rewrite Hd. cbn [negb].
  destruct (qos p); [done|..]; rewrite (bind_Ok _ _ _ _ _ (next_packet_id_eq v)); cbv zeta;
    by rewrite (bind_Err _ _ _ _ _ (send_packet_fails _
      (with_rt (set_next_packet_id (succ_id (rt_next_packet_id (rt v))) (rt v)) v) w' e Hw)).
Qed.

(** C40: a message of level 1 or 2 whose first write fails is lost, for a
    persistent session too: the session goes to wait for its client, and the
    message has left the mailbox and is not among the messages in flight, which
    are as they were; the rest of the mailbox, and the other mailboxes, stay. *)
Theorem failed_send_forgets {E} k t p l c e w' v :
  branch t = OnMessage → rt_clean_session (rt v) = false →
  mailboxes (env_router v) !! rt_message_tx (rt v) = Some c → queued c = Publish p :: l →
  qos p ≠ AtMostOnce → dup p = false →
  write_all (packet_bytes (Publish (with_packet_id (Some (rt_next_packet_id (rt v))) p))) (writer v)
    = (w', Err e) →
  ∃ v' c', run_step (E := E) t (InLoop k) v = (v', Ok (Enter PendingState)) ∧
    rt_inflight_queue (rt v') = rt_inflight_queue (rt v) ∧
    mailboxes (env_router v') = <[rt_message_tx (rt v) := c']> (mailboxes (env_router v)) ∧
    queued c' = l.
Proof.
  intros Hb Hcl Hc Hq Hqos Hd Hw. unfold run_step, processing_turn. rewrite Hb.
  destruct (drop_decode_reader (E := E) (polled t) v) as (rd & E1).
  rewrite bind_assoc, (bind_Ok _ _ _ _ _ E1).
  rewrite bind_assoc, (bind_Ok _ _ _ _ _ (recv_message_head _ c l (with_reader rd v) Hc Hq)).
  set (v1 := enqueue_own _ _).
  pose proof (on_message_fails (at_instant t) p v1 w' e Hqos Hd Hw) as E2.
  rewrite bind_assoc. erewrite bind_Ok by (unfold attempt; by rewrite E2).
  cbv beta iota. rewrite bind_assoc, (bind_Ok _ _ _ _ _ (lost_connection_eq _)), bind_ret.
  eexists _, (pop c). unfold after_loss. cbn. rewrite Hcl. split; [done|].
  split; [done|]. split; [done|]. by rewrite queued_pop, Hq.
Qed.
End LifeProps.

(** * On the sample session *)

(** CONNECT of client ["c"], then DISCONNECT. *)
Definition sample_visit : Bytes :=
  [Byte.x10; Byte.x0d; Byte.x00; Byte.x04; Byte.x4d; Byte.x51; Byte.x54; Byte.x54; Byte.x04;
   Byte.x02; Byte.x00; Byte.x3c; Byte.x00; Byte.x01; Byte.x63; Byte.xe0; Byte.x00].

Lemma session_lifecycle_witness :
  let v := with_rt (set_stream (Some (sample_stream sample_visit)) (rt sample_env)) sample_env in
  let ts := replicate 4 (mkTurn OnDecode false 0 0) in
  ∃ v', run (BC := list_bytes) (E := Empty_set) ts (Enter Waiting) v = (v', Ok Exited) ∧
    nsteps step_edge 4 (Enter Waiting) Exited ∧ rt_will_message (rt v') = None.
Proof.
  intros v ts. destruct (run (BC := list_bytes) (E := Empty_set) ts (Enter Waiting) v) as [v' o] eqn:E1.
  exists v'. assert (Ho : o = Ok Exited) by (vm_compute in E1; by injection E1 as _ <-). subst o.
  destruct (session_lifecycle (E := Empty_set) ts v v' Exited E1) as (H1 & _ & _ & H2).
  split; [done|]. split; [exact H1|by apply H2].
Defined.

Definition sample_silent : Turn := mkTurn OnKeepAlive false 0 0.

Lemma will_published_witness :
  let w := mkWill "gone" [Byte.x2a] AtLeastOnce false in
  let v := with_rt (set_will (Some w) (rt sample_env)) sample_env in
  ∃ v', run (E := Empty_set) [sample_silent; sample_silent] (InLoop 60) v = (v', Ok Exited) ∧
    rt v' = rt sample_env.
Proof.
  intros w v.
  destruct (will_published (E := Empty_set) 60 sample_silent sample_silent w (env_router v) v)
    as [H _]; [reflexivity..|vm_compute; reflexivity|].
  destruct (H eq_refl ltac:(lia)) as (v' & E1 & _ & Hr).
  exists v'. split; [exact E1|exact Hr].
Defined.

Lemma will_withheld_witness :
  let v := with_rt sample_state sample_env in
  ∃ v', run (E := Empty_set) [sample_silent; sample_silent] (InLoop 60) v = (v', Ok AwaitCommand) ∧
    rt v' = sample_state.
Proof.
  intros v.
  destruct (will_withheld (SL := memory_laws) (E := Empty_set) 60 sample_silent sample_silent "c" v ∅
    eq_refl eq_refl eq_refl ltac:(lia) (sample_state_held _ _) memory_inv_new rep_new)
    as (v' & subs & E1 & Hr & _).
  exists v'. split; [exact E1|exact Hr].
Defined.

(** A session has subscribed to topic ["a"], and its mailbox has the channel [c]. *)
Definition subscriber_with (c : channel Packet) : Router (MP := queue_mpsc) InMemoryStorage :=
  mkRouter (insert_subscription "session-9" 9%nat "a" AtMostOnce internal_new) memory_new 10
    {[ 9%nat := c ]}.

Lemma full_mailbox_blocks_witness :
  let v := put_router (subscriber_with sample_full) sample_env in
  let on p := on_packet (BC := list_bytes) 0 0 p v in
  (∃ v', on (Publish (sample_publish "a" AtMostOnce None false)) = (v', Pending)) ∧
  (∃ v', on (Publish (sample_publish "a" AtLeastOnce (Some 7) false)) = (v', Pending)) ∧
  ∃ v1, on (Publish (sample_publish "a" ExactlyOnce (Some 7) false)) = (v1, Ok true) ∧
    ∃ v2, on_packet (BC := list_bytes) 0 0 (PubRel (mkPubRel 7)) v1 = (v2, Pending).
Proof.
  intros v on.
  assert (H : rep (<[("session-9", "a") := (9%nat, AtMostOnce)]> ∅) (data (env_router v)))
    by by apply rep_insert; [|apply rep_new].
  pose proof (λ p Hv Hm Ha, full_mailbox_blocks (SL := memory_laws) 0 0 p "session-9" "a" 9%nat
    AtMostOnce sample_full v _ Hv Hm Ha memory_inv_new H) as G.
  split_and!.
  - destruct (G (sample_publish "a" AtMostOnce None false)) as [(v' & E1 & _) _]; [reflexivity..|].
    exists v'. exact E1.
  - destruct (G (sample_publish "a" AtLeastOnce (Some 7) false)) as [G1 _]; [reflexivity..|].
    destruct (G1 7 eq_refl eq_refl) as (v' & E1 & _). exists v'. exact E1.
  - destruct (G (sample_publish "a" ExactlyOnce (Some 7) false)) as [G1 _]; [reflexivity..|].
    destruct (G1 7 eq_refl eq_refl) as (v1 & E1 & _ & v2 & E2 & _).
    exists v1. split; [exact E1|]. exists v2. exact E2.
Defined.

Lemma failed_send_forgets_witness :
  let p := sample_publish "a" AtLeastOnce None false in
  let v := with_writer (mkOutgoing [] (Some 0%nat))
             (enqueue_own (push (Publish p) (mpsc_channel 100))
                (with_rt (set_params false 60 (rt sample_env)) sample_env)) in
  ∃ v', run_step (BC := list_bytes) (E := Empty_set) (mkTurn OnMessage false 0 0) (InLoop 60) v =
      (v', Ok (Enter PendingState)) ∧ rt_inflight_queue (rt v') = [].
Proof.
  intros p v.
  destruct (failed_send_forgets (E := Empty_set) 60 (mkTurn OnMessage false 0 0) p []
    (push (Publish p) (mpsc_channel 100)) (OtherIo 104) (mkOutgoing [] (Some 0%nat)) v)
    as (v' & c' & E1 & Hi & _); try reflexivity; [discriminate|].
  exists v'. split; [exact E1|exact Hi].
Defined.

Lemma cancelled_not_saved_witness :
  let u := with_broker (with_commands {[ 1%nat := push Cancel (mpsc_channel 10) ]} (broker sample_env))
             (with_rt (set_will None sample_state) sample_env) in
  let willing c := put_router (subscriber_with c)
    (with_rt (set_will (Some (mkWill "a" [Byte.x2a] AtLeastOnce false)) sample_state) u) in
  let ended v := run (E := Empty_set) [mkTurn OnCommand false 0 0; mkTurn OnDecode false 0 0]
                   (InLoop 60) v in
  let over := ended (willing (mpsc_channel 100)) in
  (ended u).2 = Ok Exited ∧ storage (env_router (ended u).1) = memory_new ∧
  over.2 = Ok Exited ∧ kept (memory_abs (storage (env_router over.1))) = kept (memory_abs memory_new) ∧
  option_map (length ∘ queued) (mailboxes (env_router over.1) !! 9%nat) = Some 1%nat ∧
  (ended (willing sample_full)).2 = Pending.
Proof.
  intros u willing ended over.
  destruct (cancelled_not_saved (SL := memory_laws) (E := Empty_set) 60 (mkTurn OnCommand false 0 0)
    (mkTurn OnDecode false 0 0) (push Cancel (mpsc_channel 10)) [] u eq_refl eq_refl eq_refl
    memory_inv_new) as (_ & _ & _ & _ & _ & H1).
  destruct (H1 eq_refl) as (Ho & _ & Hr).
  split; [exact Ho|]. split; [exact (f_equal storage Hr)|].
  destruct (cancelled_not_saved (SL := memory_laws) (E := Empty_set) 60 (mkTurn OnCommand false 0 0)
    (mkTurn OnDecode false 0 0) (push Cancel (mpsc_channel 10)) [] (willing (mpsc_channel 100))
    eq_refl eq_refl eq_refl memory_inv_new) as (_ & _ & Hk & _).
  split_and!; [reflexivity|exact Hk|reflexivity..].
Defined.
