(* ===== verification/SessionFrame.v ===== *)
(** What a session can change of the state it shares: its own subscriptions, the
    contents of mailboxes and command channels, the storage, and one name.  This
    is what lets sessions be put together in [System.v]. *)

From S2P Require Import Prelude External Packet Codec Topic Storage Config Auth Router RouterFacts.
From S2P Require Import Broker Session Lifecycle SessionInv SessionSafe.

(** A channel with copies of messages added at its end. *)
Definition appended {MP : Mpsc} (c c' : channel Packet) : Prop :=
  capacity c' = capacity c ∧
  ∃ ds, queued c' = queued c ++ (Publish <$> ds) ∧ Forall (λ p, dup p = false) ds.

Section SessionFrame.
Context {BC : BytesCrate} {MP : Mpsc} {MPL : MpscLaws} {HO : HashOrder} {HOL : HashOrderLaws}.
Context {S : Type} {ST : Storage S} {SL : StorageLaws S}.
Context {R W : Type} {AR : AsyncRead R} {AW : AsyncWrite W}.
Context {Au Az : Type} {AU : Authenticator Au} {AZ : Authorizer Az}.

Abbreviation Env := (Env (S := S) (R := R) (W := W) (Au := Au) (Az := Az)).
Abbreviation Broker := (Broker S R W Au Az).

(** The session [id], whose channels are [cmd] and [mb], started on the broker
    [b0] with the client identifier [c0]. *)
Context (id : string) (cmd : CommandTx) (mb : Mailbox) (b0 : Broker) (c0 : option string).

Lemma appended_refl c : appended c c.
Proof. split; [done|]. exists []. by rewrite app_nil_r. Qed.

Lemma appended_push c1 c d : appended c1 c → dup d = false → appended c1 (push (Publish d) c).
Proof.
  intros [Hc (ds & Hq & Hd)] E. split; [by rewrite capacity_push|]. exists (ds ++ [d]).
  rewrite queued_push, Hq, fmap_app, app_assoc. split; [done|]. apply Forall_app. auto.
Qed.

(** The router: the table has changed in the rows of the session only, which
    lead to its mailbox, and other mailboxes have only got copies of messages. *)
Record frame_router (r : Router S) : Prop := {
  fr_storage : storage_inv (storage r);
  fr_rep : ∃ t, rep t (data r);
  fr_others sid f : sid ≠ id → sub (data r) sid f = sub (data (router b0)) sid f;
  fr_own f x : sub (data r) id f = Some x → x.1 = mb;
  fr_mailboxes m :
    match mailboxes (router b0) !! m with
    | Some c => ∃ c', mailboxes r !! m = Some c' ∧ (m = mb ∨ appended c c')
    | None => mailboxes r !! m = None
    end;
}.

Lemma frame_has_mailbox r m :
  frame_router r → is_Some (mailboxes r !! m) ↔ is_Some (mailboxes (router b0) !! m).
Proof.
  intros [_ _ _ _ H]. specialize (H m). destruct (mailboxes (router b0) !! m) as [c|].
  - destruct H as (c' & -> & _). by split; eexists.
  - by rewrite H.
Qed.

Record frame_broker (names : gmap string TakeoverAction) (b : Broker) : Prop := {
  fr_router : frame_router (router b);
  fr_commands tx : is_Some (commands b !! tx) ↔ is_Some (commands b0 !! tx);
  fr_sessions : b_sessions b = b_sessions b0;
  fr_names : named_clients b = names;
  fr_authorizer : authorizer b = authorizer b0;
}.

Record frame_env (v : Env) : Prop := {
  fr_id : rt_id (rt v) = id;
  fr_command_rx : rt_command_rx (rt v) = cmd;
  fr_takeover : rt_takeover (rt v) = cmd;
  fr_message_tx : rt_message_tx (rt v) = mb;
  fr_client : c0 = None ∨ rt_client_id (rt v) = c0;
  fr_named k a : named_clients (broker v) !! k = Some a →
    named_clients b0 !! k = Some a ∨ a = cmd ∧ rt_client_id (rt v) = Some k;
  fr_broker : frame_broker (named_clients (broker v)) (broker v);
}.

Abbreviation keeps_router := (keeps frame_router (λ _, True)).
Abbreviation keeps_broker m := (∀ names, keeps (frame_broker names) (λ _, True) m).
Abbreviation keeps_env := (keeps frame_env (λ _, True)).

(** * The router *)

Lemma frame_on_storage {E A} (m : M S StorageError A) R0 :
  storage_call storage_inv storage_abs m R0 → keeps_router (on_storage (E := E) m).
Proof.
  intros H r [Hs Ht Ho Hw Hm].
  destruct (on_storage_spec (E := E) m R0 r H Hs) as (s' & res & -> & Hi & _). by split.
Qed.

(** A mailbox put back, changed as it may. *)
Lemma frame_put_mailbox r tx c c' :
  frame_router r → mailboxes r !! tx = Some c →
  (tx = mb ∨ ∀ c1, appended c1 c → appended c1 c') →
  frame_router (with_mailboxes (<[tx := c']> (mailboxes r)) r).
Proof.
  intros [Hs Ht Ho Hw Hm] Hc Hc'. split; try done. intros m. specialize (Hm m). cbn.
  destruct (decide (tx = m)) as [->|Hne].
  - rewrite lookup_insert_eq. destruct (mailboxes (router b0) !! m) as [c1|]; [|congruence].
    destruct Hm as (c2 & E & H). exists c'. split; [done|]. rewrite Hc in E. injection E as <-.
    destruct H as [H|H]; [by left|]. destruct Hc' as [E|Hc']; [by left|by right; apply Hc'].
  - by rewrite lookup_insert_ne.
Qed.

(** A session sends any packet to itself, and copies of messages to others. *)
Lemma frame_mailbox_send {E} tx p :
  tx = mb ∨ (∃ d, p = Publish d ∧ dup d = false) → keeps_router (mailbox_send (E := E) tx p).
Proof.
  intros Hp r Hr. split; [|by destruct (mailbox_send _ _ _).2].
  destruct (mailbox_send_cases (E := E) tx p r)
    as [[_ ->]|[(c & Hc & _ & ->)|(c & _ & _ & ->)]]; [done| |done].
  apply (frame_put_mailbox r tx c); [done|done|]. destruct Hp as [->|(d & -> & Hd)]; [by left|right].
  intros c1 H. by apply appended_push.
Qed.

Lemma frame_handle_retained {E} now p : keeps_router (handle_retained_message (E := E) now p).
Proof.
  pose proof (λ t, frame_on_storage (E := E) _ _ (delete_retained_message_spec t)).
  pose proof (λ t, frame_on_storage (E := E) _ _ (load_retained_message_spec t)).
  pose proof (frame_on_storage (E := E) _ _ count_retained_messages_spec).
  pose proof (λ m, frame_on_storage (E := E) _ _ (save_retained_message_spec m)).
  unfold handle_retained_message. destruct (payload p); [solve_keeps|].
  do 2 (eapply keeps_bind; [done|intros ? _]). cbv zeta.
  eapply keeps_bind; [apply keeps_gets|intros lim _]. solve_keeps.
Qed.

Lemma frame_route {E} now p : keeps_router (route (E := E) now p).
Proof.
  unfold route. destruct (negb _); [apply keeps_ret|].
  eapply keeps_bind; [destruct (retain p); [apply frame_handle_retained|apply keeps_ret]|].
  intros _ _. unfold route_to_subscribers. eapply keeps_bind; [apply keeps_gets|intros d _].
  apply keeps_for_each. intros [f subs]. destruct (topic_matches _ _); [|apply keeps_ret].
  apply keeps_for_each. intros [sid [tx q]].
  eapply keeps_bind; [apply frame_mailbox_send|intros; apply keeps_ret].
  right. eexists. split; [done|]. by rewrite forward_packet_copy.
Qed.

(** The rows of the session, changed by what is done to the table. *)
Lemma frame_with_data (r r' : Router S) t' :
  frame_router r → storage_inv (storage r') → rep t' (data r') → mailboxes r' = mailboxes r →
  (∀ sid f, sid ≠ id → t' !! (sid, f) = sub (data r) sid f) →
  (∀ f x, t' !! (id, f) = Some x → x.1 = mb) → frame_router r'.
Proof.
  intros [Hs Ht Ho Hw Hm] Hs' Ht' Em H1 H2. split; [done|by eexists|..].
  - intros sid f Hne. by rewrite <- (rep_sub _ _ Ht'), H1, Ho.
  - intros f x. rewrite <- (rep_sub _ _ Ht'). apply H2.
  - by rewrite Em.
Qed.

Lemma table_subscribe_rows (fs : list (string * QoS)) (t : Table) (sid f : string) :
  foldl (table_subscribe id mb) t fs !! (sid, f) = t !! (sid, f) ∨
  sid = id ∧ ∃ x, foldl (table_subscribe id mb) t fs !! (sid, f) = Some x ∧ x.1 = mb.
Proof.
  revert t. induction fs as [|fq fs IH]; intros t; [by left|]. cbn [foldl].
  destruct (IH (table_subscribe id mb t fq)) as [->|H]; [|by right].
  unfold table_subscribe. destruct (validate_subscribe_filter _); [|by left].
  destruct (decide ((sid, f) = (id, fq.1))) as [[= -> ->]|Hne].
  - right. split; [done|]. rewrite lookup_insert_eq. by eexists.
  - left. by rewrite lookup_insert_ne.
Qed.

Lemma frame_subscribe {E} fs : keeps_router (subscribe (E := E) id mb fs).
Proof.
  intros r Hr. destruct Hr as [Hs [t Ht] Ho Hw Hm] eqn:Er. clear Er.
  destruct (subscribe_spec (E := E) id mb fs r t Hs Ht) as (r' & pkts & -> & H1 & _ & H3 & _ & H5).
  split; [|done]. eapply (frame_with_data r r'); [done|done|exact H3|done|..].
  - intros sid f Hne. destruct (table_subscribe_rows fs t sid f) as [->|[? _]]; [|done].
    apply Ht.
  - intros f x Hx. destruct (table_subscribe_rows fs t id f) as [E1|(_ & y & E1 & Hy)].
    + rewrite E1, (rep_sub _ _ Ht) in Hx. by eapply Hw.
    + by simplify_eq.
Qed.

Lemma table_unsubscribe_rows (fs : list string) (t : Table) (sid f : string) :
  foldl (table_unsubscribe id) t fs !! (sid, f) = t !! (sid, f) ∨
  sid = id ∧ foldl (table_unsubscribe id) t fs !! (sid, f) = None.
Proof.
  revert t. induction fs as [|g fs IH]; intros t; [by left|]. cbn [foldl].
  destruct (IH (table_unsubscribe id t g)) as [->|H]; [|by right]. unfold table_unsubscribe.
  destruct (decide ((sid, f) = (id, g))) as [[= -> ->]|Hne].
  - right. by rewrite lookup_delete_eq.
  - left. by rewrite lookup_delete_ne.
Qed.

Lemma frame_unsubscribe {E} fs : keeps_router (unsubscribe (E := E) id fs).
Proof.
  intros r Hr. destruct Hr as [Hs [t Ht] Ho Hw Hm] eqn:Er. clear Er.
  destruct (unsubscribe_spec (E := E) id fs r t Ht) as (d' & -> & H1).
  split; [|done]. eapply (frame_with_data r); [done|done|exact H1|done|..].
  - intros sid f Hne. destruct (table_unsubscribe_rows fs t sid f) as [->|[? _]]; [|done]. apply Ht.
  - intros f x Hx. destruct (table_unsubscribe_rows fs t id f) as [E1|(_ & E1)]; [|by simplify_eq].
    rewrite E1, (rep_sub _ _ Ht) in Hx. by eapply Hw.
Qed.

Lemma table_unsubscribe_all_rows (t : Table) (sid f : string) :
  table_unsubscribe_all id t !! (sid, f) = if decide (sid = id) then None else t !! (sid, f).
Proof.
  unfold table_unsubscribe_all. rewrite map_lookup_filter. destruct (t !! (sid, f)) as [x|]; cbn;
    [|by case_decide]. repeat case_guard || case_decide; naive_solver.
Qed.

Lemma frame_unsubscribe_all {E} : keeps_router (unsubscribe_all (E := E) id).
Proof.
  intros r Hr. destruct Hr as [Hs [t Ht] Ho Hw Hm] eqn:Er. clear Er.
  destruct (unsubscribe_all_spec (E := E) id r t Ht) as (d' & -> & H1 & _).
  split; [|done]. eapply (frame_with_data r); [done|done|exact H1|done|..].
  - intros sid f Hne. rewrite table_unsubscribe_all_rows, decide_False by done. apply Ht.
  - intros f x. by rewrite table_unsubscribe_all_rows, decide_True.
Qed.

(** * The broker *)

Lemma frame_on_router {E A} (m : M (Router S) E A) : keeps_router m → keeps_broker (on_router m).
Proof.
  intros Hm names. eapply keeps_zoom; [by intros b []| |exact Hm]. by intros b r [] Hr.
Qed.

Lemma frame_command_send {E} tx c : keeps_broker (command_send (E := E) tx c).
Proof.
  intros names b [Hr Hc Hs Hn]. unfold command_send. rewrite bind_gets.
  destruct (commands b !! tx) as [ch|] eqn:Hch; [|done]. destruct (_ <? _)%nat; [|done].
  rewrite bind_modify. split; [|done]. split; try done. cbn. intros tx'. rewrite <- Hc, lookup_insert_is_Some'.
  split; [intros [<-|?]; [by eexists|done]|by right].
Qed.

(** * The session *)

Lemma frame_on_broker {E A} (m : M Broker E A) : keeps_broker m → keeps_env (on_broker m).
Proof.
  intros Hm v [H1 H2 H3 H4 H5 H6 H7]. unfold on_broker, zoom.
  destruct (Hm _ (broker v) H7) as [Hb _]. destruct (m (broker v)) as [b o]. cbn in Hb.
  destruct (fr_names _ _ Hb). split; [split; try done|by destruct o].
Qed.

Lemma frame_on_broker_router {E A} (m : M (Router S) E A) :
  keeps_router m → keeps_env (on_broker (on_router m)).
Proof. intros Hm. by apply frame_on_broker, frame_on_router. Qed.

Lemma frame_on_env_storage {E A} (m : M S StorageError A) R0 :
  storage_call storage_inv storage_abs m R0 → keeps_env (on_env_storage (E := E) m).
Proof. intros H. by eapply frame_on_broker_router, frame_on_storage. Qed.

Lemma frame_on_runtime {E} f :
  (∀ r : Runtime R W, rt_id (f r) = rt_id r ∧ rt_command_rx (f r) = rt_command_rx r ∧
     rt_takeover (f r) = rt_takeover r ∧ rt_message_tx (f r) = rt_message_tx r ∧
     rt_client_id (f r) = rt_client_id r) →
  keeps_env (on_runtime (E := E) f).
Proof.
  intros Hf v [H1 H2 H3 H4 H5 H6 H7]. split; [|done].
  destruct (Hf (rt v)) as (E1 & E2 & E3 & E4 & E5). by split; cbn; rewrite ?E1, ?E2, ?E3, ?E4, ?E5.
Qed.

Lemma frame_send_packet p : keeps_env (send_packet p).
Proof.
  intros v Hv. unfold send_packet, map_err, zoom. destruct (write_all _ _) as [w o].
  destruct Hv as [H1 H2 H3 H4 H5 H6 [H7 H8 H9 H10 H11]]. by destruct o.
Qed.

(** Reads of the runtime. *)
Lemma frame_gets_rt {E} :
  keeps frame_env (λ r, rt_id r = id ∧ rt_message_tx r = mb ∧ rt_takeover r = cmd) (gets (E := E) rt).
Proof. intros v Hv. split; [done|]. destruct Hv. done. Qed.
Lemma frame_gets_env {E} :
  keeps frame_env (λ v, rt_id (rt v) = id ∧ rt_message_tx (rt v) = mb ∧ rt_takeover (rt v) = cmd)
    (gets (E := E) Datatypes.id).
Proof. intros v Hv. split; [done|]. destruct Hv. done. Qed.

Lemma frame_gets {E A} (f : Env → A) : keeps_env (gets (E := E) f).
Proof. eapply keeps_weaken, keeps_gets. Qed.

#[local] Hint Resolve frame_send_packet frame_gets : keeps.
#[local] Hint Extern 1 (keeps _ _ (on_runtime _)) =>
  apply frame_on_runtime; intros ?; repeat case_match; done : keeps.

(** Reads the runtime, or the whole, and keeps what is known of it. *)
Ltac read_with H :=
  let E1 := fresh in let E2 := fresh in let E3 := fresh in
  eapply keeps_bind; [apply H|intros ? (E1 & E2 & E3)]; cbv zeta; rewrite ?E1, ?E2, ?E3.
Ltac read_rt := read_with frame_gets_rt.
Ltac read_env := read_with frame_gets_env.

Lemma frame_broker_route {E} utc p : keeps_env (on_broker (broker_route (E := E) utc p)).
Proof. apply frame_on_broker_router, frame_route. Qed.

Lemma frame_send_to_self p : keeps_env (send_to_self p).
Proof.
  unfold send_to_self. eapply keeps_bind with (Q := λ tx, tx = mb); [by intros v []|].
  intros tx ->. eapply keeps_bind; [by apply frame_on_broker_router, frame_mailbox_send; left|solve_keeps].
Qed.

Lemma frame_delete_session {E} cid : keeps_env (on_env_storage (E := E) (delete_session cid)).
Proof. eapply frame_on_env_storage, delete_session_spec. Qed.

#[local] Hint Resolve frame_broker_route frame_send_to_self frame_delete_session : keeps.

Lemma frame_on_message now p : keeps_env (on_message now p).
Proof. unfold on_message, next_packet_id, track. solve_keeps. Qed.

Lemma frame_authorize_and_route utc p : keeps_env (authorize_and_route utc p).
Proof. unfold authorize_and_route. solve_keeps. Qed.

#[local] Hint Resolve frame_authorize_and_route : keeps.

Lemma frame_on_publish utc p : keeps_env (on_publish utc p).
Proof. unfold on_publish, on_publish_qos1, on_publish_qos2. solve_keeps. Qed.

Lemma frame_on_subscribe p : keeps_env (on_subscribe p).
Proof.
  unfold on_subscribe. read_env. destruct (split_authorized _ _ _ _) as [fs denied].
  eapply keeps_bind with (Q := λ _, True); [|solve_keeps].
  destruct (negb _); [|apply keeps_ret]. apply frame_on_broker_router, frame_subscribe.
Qed.

Lemma frame_on_unsubscribe p : keeps_env (on_unsubscribe p).
Proof.
  unfold on_unsubscribe. read_rt.
  eapply keeps_bind; [apply frame_on_broker_router, frame_unsubscribe|]. solve_keeps.
Qed.

#[local] Hint Resolve frame_on_publish frame_on_subscribe frame_on_unsubscribe : keeps.

Lemma frame_on_packet now utc p : keeps_env (on_packet now utc p).
Proof.
  unfold on_packet, on_puback, on_pubrec, on_pubrel, on_pubcomp, on_pingreq, on_disconnect.
  solve_keeps.
Qed.

Lemma frame_on_retransmit now : keeps_env (on_retransmit now).
Proof. unfold on_retransmit. solve_keeps. Qed.

(** ** The life of a session *)

Lemma frame_publish_will {E} utc : keeps_env (publish_will (E := E) utc).
Proof. unfold publish_will. solve_keeps. Qed.

(** What is saved is well formed, as the contract of the storage asks. *)
Lemma frame_save {E} now v :
  wf_runtime (2 ^ 32) (rt v) → frame_env v → frame_env (save_to_storage (E := E) now v).1.
Proof.
  intros Hw Hv. unfold save_to_storage. rewrite bind_gets. cbv zeta.
  destruct (rt_client_id (rt v)) as [cid|]; [|done].
  set (r := rt v) in *. clearbody r. revert v Hv.
  match goal with |- ∀ v, _ → frame_env (?m v).1 => cut (keeps_env m);
    [intros Hm v Hv; apply (Hm v Hv)|] end.
  eapply keeps_bind with (Q := λ _, True);
    [apply frame_on_broker_router; eapply keeps_weaken, keeps_gets|intros subs _].
  eapply keeps_bind; [|intros _ _; apply keeps_ret].
  eapply frame_on_env_storage, save_session_spec, saveable_admits. by apply (saveable_state (2 ^ 32)).
Qed.

Lemma frame_load_or_empty {E B} (m : M S StorageError (list B)) R0 :
  storage_call storage_inv storage_abs m R0 → keeps_env (load_or_empty (E := E) m).
Proof.
  intros H. unfold load_or_empty. eapply keeps_bind; [by eapply frame_on_env_storage|]. solve_keeps.
Qed.

Lemma frame_restore {E} now cid : keeps_env (restore_from_storage (E := E) now cid).
Proof.
  pose proof (frame_on_env_storage (E := E) _ _ (load_session_spec cid)).
  pose proof (frame_load_or_empty (E := E) _ _ (load_subscriptions_spec cid)).
  pose proof (frame_load_or_empty (E := E) _ _ (load_inflight_messages_spec cid)).
  pose proof (frame_load_or_empty (E := E) _ _ (load_inbound_qos2_messages_spec cid)).
  unfold restore_from_storage. eapply keeps_bind; [done|]. intros [[ps|]|e] _; [|apply keeps_ret..].
  do 3 (eapply keeps_bind; [done|intros ? _]).
  eapply keeps_bind; [by eauto with keeps|intros _ _]. cbv zeta. read_rt.
  eapply keeps_bind with (Q := λ _, True); [|solve_keeps].
  destruct (negb _); [|apply keeps_ret].
  eapply keeps_bind; [apply frame_on_broker_router, frame_subscribe|solve_keeps].
Qed.

#[local] Hint Resolve frame_restore frame_on_message frame_on_packet frame_on_retransmit : keeps.

Lemma frame_set_own_stream {E} :
  keeps_env (modify (E := E) (λ v, with_rt (set_stream (Some (reader v, writer v)) (rt v)) v)).
Proof. apply keeps_modify. intros v [H1 H2 H3 H4 H5 H6 [H7 H8 H9 H10 H11]]. by split. Qed.

#[local] Hint Resolve frame_set_own_stream : keeps.

(** Taking a name: the name is that of the client. *)
Lemma frame_has_collision {E} cid v :
  frame_env v → rt_client_id (rt v) = Some cid →
  frame_env (on_broker (E := E) (has_collision cid (rt_takeover (rt v))) v).1.
Proof.
  intros [H1 H2 H3 H4 H5 H6 [H7 H8 H9 H10 H11]] Hc. unfold on_broker, zoom, has_collision.
  rewrite bind_gets. destruct (named_clients (broker v) !! cid) as [a|] eqn:Hn; [by split|].
  rewrite bind_modify. split; try done. cbn. intros k a Hk.
  apply lookup_insert_Some in Hk as [[<- <-]|[_ Hk]]; [by right|by apply H6].
Qed.

(** A session has no name before it has connected. *)
Definition frame_new (v : Env) : Prop := frame_env v ∧ rt_client_id (rt v) = None.

Lemma frame_name {E} cid v :
  c0 = None → frame_new v → frame_env (on_runtime (E := E) (set_client_id (Some cid)) v).1.
Proof.
  intros Hc0 [[H1 H2 H3 H4 H5 H6 H7] Hn]. split; try done; cbn; [by left|].
  intros k a Hk. destruct (H6 k a Hk) as [?|[_ E1]]; [by left|congruence].
Qed.

Lemma frame_enter_session now c v :
  c0 = None → frame_new v → frame_env (enter_session now c v).1.
Proof.
  intros Hc0 Hv. unfold enter_session, on_runtime. rewrite !bind_modify.
  set (v1 := with_rt _ (with_rt _ v)).
  assert (frame_new v1) as Hv1.
  { destruct Hv as [[H1 H2 H3 H4 H5 H6 [H7 H8 H9 H10 H11]] H]. unfold v1.
    destruct (stored_will c); by split. }
  clearbody v1. clear v Hv.
  assert (∀ b, keeps_env (accept_connection b)) as Ha by (intros b; unfold accept_connection; solve_keeps).
  destruct (negb _); [|by apply (Ha false v1), Hv1].
  rewrite bind_modify, bind_gets. change (Datatypes.id ?x) with x.
  pose proof (frame_name (E := SessionError) (client_id c) v1 Hc0 Hv1) as H2. cbn in H2.
  set (v2 := with_rt _ v1) in *.
  pose proof (frame_has_collision (E := SessionError) (client_id c) v2 H2 eq_refl) as H3.
  unfold mbind at 1, M_bind at 1. destruct (on_broker _ v2) as [v3 [[o|]|e| |]]; cbn in H3; try done.
  - match goal with |- frame_env (?m v3).1 => cut (keeps_env m); [intros Hm; by apply Hm|] end.
    eapply keeps_bind with (Q := λ _, True); [|solve_keeps].
    apply frame_on_broker. intros names. unfold call_takeover.
    eapply keeps_bind; [apply frame_command_send|solve_keeps].
  - match goal with |- frame_env (?m v3).1 => cut (keeps_env m); [intros Hm; by apply Hm|] end.
    destruct (clean_session c); (eapply keeps_bind; [by eauto with keeps|intros; apply Ha]).
Qed.

Lemma frame_on_connect now c v :
  c0 = None → frame_new v → frame_env (on_connect now c v).1.
Proof.
  intros Hc0 Hv. unfold on_connect.
  assert (∀ code (s : State), keeps_env (send_connack_error code;; mret s)) as Hs
    by (intros; unfold send_connack_error; solve_keeps).
  destruct (_ || _); [by apply Hs, Hv|]. destruct (validate_client_id _ _); [|by apply Hs, Hv].
  rewrite bind_gets. destruct (authenticate _ _); [by apply frame_enter_session|by apply Hs, Hv].
Qed.

Lemma frame_on_takeover clean keep : keeps_env (on_takeover clean keep).
Proof.
  unfold on_takeover. cbv zeta. do 2 (eapply keeps_bind; [by eauto with keeps|intros _ _]).
  destruct clean; [|apply keeps_ret]. read_rt.
  eapply keeps_bind; [apply frame_on_broker_router, frame_unsubscribe_all|solve_keeps].
Qed.

#[local] Hint Resolve frame_on_takeover : keeps.

Lemma frame_take_over {E} params : keeps_env (take_over (E := E) params).
Proof.
  unfold take_over. eapply keeps_bind;
    [apply keeps_modify; intros v [H1 H2 H3 H4 H5 H6 [H7 H8 H9 H10 H11]]; by split|solve_keeps].
Qed.

Lemma frame_recv_command {E} : keeps_env (recv_command (E := E)).
Proof.
  intros v Hv. unfold recv_command. rewrite bind_gets. change (Datatypes.id ?x) with x.
  destruct (commands (broker v) !! rt_command_rx (rt v)) as [ch|] eqn:Hch; [|done].
  destruct (queued ch) as [|c l]; [done|]. split; [|done].
  destruct Hv as [H1 H2 H3 H4 H5 H6 [H7 H8 H9 H10 H11]]. split; try done. split; try done. cbn.
  intros tx. rewrite <- H8.
  change (is_Some (<[rt_command_rx (rt v) := pop ch]> (commands (broker v)) !! tx) ↔
    is_Some (commands (broker v) !! tx)).
  rewrite lookup_insert_is_Some'. split; [intros [<-|?]; [by eexists|done]|by right].
Qed.

Lemma frame_recv_message {E} : keeps_env (recv_message (E := E)).
Proof.
  intros v Hv. unfold recv_message. rewrite bind_gets. change (Datatypes.id ?x) with x. cbv zeta.
  destruct (mailboxes (router (broker v)) !! rt_message_tx (rt v)) as [ch|] eqn:Hch; [|done].
  destruct (queued ch) as [|p l]; [done|]. split; [|done].
  destruct Hv as [H1 H2 H3 H4 H5 H6 [H7 H8 H9 H10 H11]].
  split; try done. split; try done. apply (frame_put_mailbox _ _ ch); [done|done|by left].
Qed.

Lemma frame_reader {E} (f : R → R) : keeps_env (modify (E := E) (λ v, with_reader (f (reader v)) v)).
Proof. apply keeps_modify. intros v [H1 H2 H3 H4 H5 H6 [H7 H8 H9 H10 H11]]. by split. Qed.

Lemma frame_drop_decode {E} b : keeps_env (drop_decode (E := E) b).
Proof.
  intros v Hv. unfold drop_decode. rewrite bind_gets. change (Datatypes.id ?x) with x.
  destruct (decode (reader v)) as [r' [p|e| |]]; try done. destruct b; [|done].
  by apply (frame_reader (λ _, r') v).
Qed.

Lemma frame_new_decode {E} v : frame_new v → frame_new (decode_packet (E := E) v).1.
Proof.
  intros [[H1 H2 H3 H4 H5 H6 [H7 H8 H9 H10 H11]] H]. unfold decode_packet, attempt, zoom.
  destruct (decode (reader v)) as [r' [p|e| |]]; by split.
Qed.

Lemma frame_decode_packet {E} : keeps_env (decode_packet (E := E)).
Proof.
  intros v [H1 H2 H3 H4 H5 H6 [H7 H8 H9 H10 H11]]. unfold decode_packet, attempt, zoom.
  destruct (decode (reader v)) as [r' [p|e| |]]; by split.
Qed.

#[local] Hint Resolve frame_take_over frame_recv_command frame_recv_message frame_drop_decode
  frame_decode_packet frame_publish_will : keeps.

Lemma frame_processing_turn {E} k t : keeps_env (processing_turn (E := E) k t).
Proof. unfold processing_turn, lost_connection. solve_keeps. Qed.

Lemma frame_pending_command {E} : keeps_env (pending_command (E := E)).
Proof. unfold pending_command. solve_keeps. Qed.

Lemma frame_new_take_stream {E} v : frame_new v → frame_new (take_stream (E := E) v).1.
Proof.
  intros [[H1 H2 H3 H4 H5 H6 [H7 H8 H9 H10 H11]] H]. unfold take_stream. rewrite bind_gets.
  destruct (rt_stream (rt v)) as [[rd wr]|]; by split.
Qed.

Lemma frame_take_stream {E} : keeps_env (take_stream (E := E)).
Proof.
  intros v [H1 H2 H3 H4 H5 H6 [H7 H8 H9 H10 H11]]. unfold take_stream. rewrite bind_gets.
  destruct (rt_stream (rt v)) as [[rd wr]|]; by split.
Qed.

Lemma frame_do_waiting {E} t v :
  c0 = None → frame_new v → frame_env (do_waiting (E := E) t v).1.
Proof.
  intros Hc0 Hv. unfold do_waiting. unfold mbind at 1, M_bind at 1.
  pose proof (frame_new_take_stream (E := E) v Hv) as H1.
  destruct (take_stream v) as [v1 [has|e| |]]; cbn in H1; try apply H1.
  destruct (negb has); [apply H1|].
  assert (keeps_env (recv_command (E := E);; mret Cleanup)) as Hr by solve_keeps.
  destruct (branch t); try (by apply Hr, H1).
  unfold mbind at 1, M_bind at 1. pose proof (frame_new_decode (E := E) v1 H1) as H2.
  destruct (decode_packet v1) as [v2 [[p|e']|e| |]]; cbn in H2; try apply H2.
  destruct p as [c| | | | | | | | | | | | |]; try apply H2. unfold mbind at 1, M_bind at 1, attempt.
  pose proof (frame_on_connect (at_instant t) c v2 Hc0 H2) as H3.
  by destruct (on_connect _ _ v2) as [v3 [s|e| |]].
Qed.

(** A step of the state machine changes of the shared state what is the
    session's. *)
Lemma frame_run_step {E} t ph v :
  (ph = Enter Waiting → c0 = None ∧ rt_client_id (rt v) = None) → wf_runtime (2 ^ 32) (rt v) →
  frame_env v → frame_env (run_step (E := E) t ph v).1.
Proof.
  intros Hw Hr Hv. destruct ph as [[]|k| |]; cbn [run_step].
  - destruct (Hw eq_refl) as [Hc0 Hn]. pose proof (frame_do_waiting (E := E) t v Hc0 (conj Hv Hn)) as H.
    unfold mbind, M_bind. by destruct (do_waiting t v) as [v' [s|e| |]].
  - eapply (keeps_bind frame_env (λ _, True)); [apply frame_take_stream| |done]. solve_keeps.
  - pose proof (frame_save (E := E) (at_utc t) v Hr Hv) as H.
    unfold mbind, M_bind. by destruct (save_to_storage _ v) as [v' [s|e| |]].
  - eapply (keeps_bind frame_env (λ _, True)); [apply frame_publish_will| |done]. solve_keeps.
  - eapply (keeps_bind frame_env (λ _, True)); [apply frame_processing_turn| |done]. solve_keeps.
  - eapply (keeps_bind frame_env (λ _, True)); [apply frame_pending_command| |done]. solve_keeps.
  - done.
Qed.
End SessionFrame.
