(* ===== verification/System.v ===== *)
(** The broker and its sessions together: which sessions there are, where each
    of them is, and what happens next.  A session takes a step of its state
    machine ([Lifecycle.v]) against the broker the others have left; a step is
    taken when it does not have to wait, so what one method does is seen by the
    others as a whole.  What waiting sessions do to each other is [Serve.v]. *)

From S2P Require Import Prelude External Packet Codec CodecFacts Topic Storage Config Auth Router.
From S2P Require Import RouterFacts Broker Session Lifecycle SessionInv SessionSafe ConnectProps LifeProps SessionFrame.
From S2P Require Import PersistProps.

Section System.
Context {BC : BytesCrate} {MP : Mpsc} {HO : HashOrder}.
Context {S : Type} {ST : Storage S} {R W : Type} {AR : AsyncRead R} {AW : AsyncWrite W}.
Context {Au Az : Type} {AU : Authenticator Au} {AZ : Authorizer Az}.

Abbreviation Env := (Env (S := S) (R := R) (W := W) (Au := Au) (Az := Az)).
Abbreviation Broker := (Broker S R W Au Az).

(** A session future: its runtime, the stream it works on, and where it is. *)
Record Member := mkMember {
  m_rt : Runtime R W;
  m_reader : R;
  m_writer : W;
  m_phase : Phase;
}.

Record System := mkSystem {
  sys_broker : Broker;
  members : gmap string Member;
}.

(** What the methods of a session can reach, and a session put back after it. *)
Definition env_of (s : System) (m : Member) : Env :=
  mkEnv (m_rt m) (m_reader m) (m_writer m) (sys_broker s).

Definition member_of (v : Env) (ph : Phase) : Member := mkMember (rt v) (reader v) (writer v) ph.

(** What can happen: a connection is accepted, with an identifier and channels
    nobody has; a session takes a step; the future of one that is over
    completes; bytes arrive on a stream, or it breaks; the server shuts down. *)
Inductive Event :=
| Accept (id : string) (command_tx : CommandTx) (message_tx : Mailbox) (stream : R * W)
| Step (id : string) (t : Turn)
| Complete (id : string)
| Network (id : string) (stream : R * W)
| Shutdown.

Definition on_stream (stream : R * W) (m : Member) : Member :=
  mkMember (set_stream ((λ _, stream) <$> rt_stream (m_rt m)) (m_rt m)) stream.1 stream.2 (m_phase m).

Definition unused (id : string) (command_tx : CommandTx) (message_tx : Mailbox) (s : System) : bool :=
  let b := sys_broker s in
  bool_decide (members s !! id = None) && bool_decide (b_sessions b !! id = None) &&
  match commands b !! command_tx with None => true | Some _ => false end &&
  match mailboxes (router b) !! message_tx with None => true | Some _ => false end.

(** The system after an event; [None] when it cannot happen. *)
Definition exec (e : Event) (s : System) : option System :=
  match e with
  | Accept id command_tx message_tx stream =>
      if unused id command_tx message_tx s then
        match add_client (E := Empty_set) id command_tx message_tx stream (sys_broker s) with
        | (b, Ok r) =>
            Some (mkSystem b (<[id := mkMember r stream.1 stream.2 (Enter Waiting)]> (members s)))
        | _ => None
        end
      else None
  | Step id t =>
      m ← members s !! id;
      match run_step (E := Empty_set) t (m_phase m) (env_of s m) with
      | (v, Ok ph) => Some (mkSystem (broker v) (<[id := member_of v ph]> (members s)))
      | _ => None
      end
  | Complete id =>
      m ← members s !! id;
      match m_phase m with
      | Exited =>
          match session_end (E := Empty_set) (env_of s m) with
          | (v, Ok _) => Some (mkSystem (broker v) (delete id (members s)))
          | _ => None
          end
      | _ => None
      end
  | Network id stream =>
      m ← members s !! id;
      Some (mkSystem (sys_broker s) (<[id := on_stream stream m]> (members s)))
  | Shutdown =>
      match cancel_all_sessions (E := Empty_set) (sys_broker s) with
      | (b, Ok _) => Some (mkSystem b (members s))
      | _ => None
      end
  end.

Fixpoint exec_all (es : list Event) (s : System) : option System :=
  match es with
  | [] => Some s
  | e :: es' => s' ← exec e s; exec_all es' s'
  end.

Lemma exec_all_app es es' s : exec_all (es ++ es') s = exec_all es s ≫= exec_all es'.
Proof.
  revert s. induction es as [|e es IH]; intros s; [done|]. cbn [exec_all app].
  destruct (exec e s) as [s'|]; cbn; [apply IH|done].
Qed.
End System.

Arguments mkMember {R W} _ _ _ _.
Arguments m_rt {R W} _.
Arguments m_reader {R W} _.
Arguments m_writer {R W} _.
Arguments m_phase {R W} _.
Arguments Member : clear implicits.
Arguments Event : clear implicits.

(** * What every system keeps true *)
Section Invariant.
Context {BC : BytesCrate} {BL : BytesLaws} {MP : Mpsc} {MPL : MpscLaws}.
Context {HO : HashOrder} {HOL : HashOrderLaws} {S : Type} {ST : Storage S} {SL : StorageLaws S}.
Context {R W : Type} {AR : AsyncRead R} {ARL : AsyncReadLaws R} {AW : AsyncWrite W} {AWL : AsyncWriteLaws W}
  {CN : Connection W}.
Context {Au Az : Type} {AU : Authenticator Au} {AZ : Authorizer Az}.

Abbreviation Broker := (Broker S R W Au Az).
Abbreviation System := (System (S := S) (R := R) (W := W) (Au := Au) (Az := Az)).
Implicit Types (s : System) (m : Member R W) (b : Broker).

Record member_ok b (id : string) m : Prop := {
  mo_wf : wf_runtime (2 ^ 32) (m_rt m);
  mo_id : rt_id (m_rt m) = id;
  mo_takeover : rt_takeover (m_rt m) = rt_command_rx (m_rt m);
  mo_command : is_Some (commands b !! rt_command_rx (m_rt m));
  mo_mailbox : is_Some (mailboxes (router b) !! rt_message_tx (m_rt m));
  mo_phase : phase_ok (m_phase m) (mkEnv (m_rt m) (m_reader m) (m_writer m) b);
  mo_new : m_phase m = Enter Waiting → rt_client_id (m_rt m) = None;
}.

Record system_ok s : Prop := {
  so_broker : wf_broker (2 ^ 32) (sys_broker s);
  so_members : map_Forall (member_ok (sys_broker s)) (members s);
  so_commands id1 id2 m1 m2 :
    members s !! id1 = Some m1 → members s !! id2 = Some m2 →
    rt_command_rx (m_rt m1) = rt_command_rx (m_rt m2) → id1 = id2;
  so_mailboxes id1 id2 m1 m2 :
    members s !! id1 = Some m1 → members s !! id2 = Some m2 →
    rt_message_tx (m_rt m1) = rt_message_tx (m_rt m2) → id1 = id2;
  so_subs id f x : sub (data (router (sys_broker s))) id f = Some x →
    ∃ m, members s !! id = Some m ∧ x.1 = rt_message_tx (m_rt m);
  so_named k a : named_clients (sys_broker s) !! k = Some a →
    ∃ id m, members s !! id = Some m ∧ rt_command_rx (m_rt m) = a ∧ rt_client_id (m_rt m) = Some k;
  so_handles id h : b_sessions (sys_broker s) !! id = Some h →
    ∃ m, members s !! id = Some m ∧ session_command_tx h = rt_command_rx (m_rt m);
}.

(** ** Each event keeps it *)

Lemma system_ok_start b :
  wf_broker (2 ^ 32) b → named_clients b = ∅ → b_sessions b = ∅ → data (router b) = internal_new →
  system_ok (mkSystem b ∅).
Proof.
  intros Hb Hn Hs Hd. split; cbn; try done.
  - intros id f x. by rewrite Hd.
  - intros k a. by rewrite Hn, lookup_empty.
  - intros id h. by rewrite Hs, lookup_empty.
Qed.

(** What a member is asked of the broker is there, for one that has as many
    channels. *)
Lemma member_ok_broker b b' id m :
  (∀ tx, tx = rt_command_rx (m_rt m) → is_Some (commands b !! tx) → is_Some (commands b' !! tx)) →
  (∀ tx, tx = rt_message_tx (m_rt m) →
     is_Some (mailboxes (router b) !! tx) → is_Some (mailboxes (router b') !! tx)) →
  member_ok b id m → member_ok b' id m.
Proof. intros Hc Hm [H1 H2 H3 H4 H5 H6 H7]. split; auto. Qed.

(** A member that is put in place of another with the same channels. *)
Lemma replaced_channels s id m m' i x :
  members s !! id = Some m → rt_command_rx (m_rt m') = rt_command_rx (m_rt m) →
  rt_message_tx (m_rt m') = rt_message_tx (m_rt m) → <[id := m']> (members s) !! i = Some x →
  ∃ y, members s !! i = Some y ∧ rt_command_rx (m_rt x) = rt_command_rx (m_rt y) ∧
    rt_message_tx (m_rt x) = rt_message_tx (m_rt y).
Proof. intros Hm E1 E2 [[<- <-]|[_ Hx]]%lookup_insert_Some; [by exists m|by exists x]. Qed.

Lemma system_ok_replace s b' id m m' :
  system_ok s → members s !! id = Some m →
  rt_command_rx (m_rt m') = rt_command_rx (m_rt m) →
  rt_message_tx (m_rt m') = rt_message_tx (m_rt m) →
  wf_broker (2 ^ 32) b' → member_ok b' id m' →
  (∀ tx, is_Some (commands b' !! tx) ↔ is_Some (commands (sys_broker s) !! tx)) →
  (∀ tx, is_Some (mailboxes (router b') !! tx) ↔ is_Some (mailboxes (router (sys_broker s)) !! tx)) →
  (∀ i f, i ≠ id → sub (data (router b')) i f = sub (data (router (sys_broker s))) i f) →
  (∀ f x, sub (data (router b')) id f = Some x → x.1 = rt_message_tx (m_rt m)) →
  b_sessions b' = b_sessions (sys_broker s) →
  (∀ k a, named_clients b' !! k = Some a →
     (∃ i y, i ≠ id ∧ members s !! i = Some y ∧ rt_command_rx (m_rt y) = a ∧
        rt_client_id (m_rt y) = Some k) ∨
     a = rt_command_rx (m_rt m') ∧ rt_client_id (m_rt m') = Some k) →
  system_ok (mkSystem b' (<[id := m']> (members s))).
Proof.
  intros [Hb Hms Hc Hq Hs Hn Hh] Hm E1 E2 Hb' Hok Hcs Hqs Hoth Hown Hss Hnm.
  split; cbn [sys_broker members]; [done|..].
  - apply map_Forall_insert_2; [done|]. intros i y Hy.
    eapply member_ok_broker; [| |by apply Hms]; intros tx _; [apply Hcs|apply Hqs].
  - intros i1 i2 x1 x2 Hx1 Hx2 E.
    destruct (replaced_channels s id m m' i1 x1 Hm E1 E2 Hx1) as (y1 & Hy1 & F1 & _).
    destruct (replaced_channels s id m m' i2 x2 Hm E1 E2 Hx2) as (y2 & Hy2 & F2 & _).
    apply (Hc i1 i2 y1 y2); congruence.
  - intros i1 i2 x1 x2 Hx1 Hx2 E.
    destruct (replaced_channels s id m m' i1 x1 Hm E1 E2 Hx1) as (y1 & Hy1 & _ & F1).
    destruct (replaced_channels s id m m' i2 x2 Hm E1 E2 Hx2) as (y2 & Hy2 & _ & F2).
    apply (Hq i1 i2 y1 y2); congruence.
  - intros i f x Hx. destruct (decide (i = id)) as [->|Hne].
    + exists m'. rewrite lookup_insert_eq, E2. split; [done|by eapply Hown].
    + rewrite lookup_insert_ne by done. rewrite Hoth in Hx by done. by eapply Hs.
  - intros k a Ha. destruct (Hnm k a Ha) as [(i & y & Hne & Hy & F1 & F2)|[-> F]].
    + exists i, y. by rewrite lookup_insert_ne.
    + exists id, m'. by rewrite lookup_insert_eq.
  - intros i h Hih. rewrite Hss in Hih. destruct (Hh i h Hih) as (y & Hy & E).
    destruct (decide (i = id)) as [->|Hne].
    + exists m'. rewrite lookup_insert_eq. split; [done|]. congruence.
    + exists y. by rewrite lookup_insert_ne.
Qed.

(** What a step of a session changes of the broker. *)
Lemma step_frame s id m t v ph :
  system_ok s → members s !! id = Some m →
  run_step (E := Empty_set) t (m_phase m) (env_of s m) = (v, Ok ph) →
  frame_env id (rt_command_rx (m_rt m)) (rt_message_tx (m_rt m)) (sys_broker s) (rt_client_id (m_rt m)) v.
Proof.
  intros Hok Hm Er. destruct (so_members s Hok id m Hm) as [M1 M2 M3 M4 M5 M6 M7].
  destruct (so_broker s Hok) as [(Ht & Hst & _) _].
  pose proof (frame_run_step id (rt_command_rx (m_rt m)) (rt_message_tx (m_rt m)) (sys_broker s)
    (rt_client_id (m_rt m)) (E := Empty_set) t (m_phase m) (env_of s m)) as H.
  rewrite Er in H. apply H; [intros E; by auto|done|].
  split; cbn; auto. split; [|done..]. split; try done.
  - intros f x Hx. destruct (so_subs s Hok id f x Hx) as (m2 & Hm2 & ->). congruence.
  - intros tx. destruct (mailboxes (router (sys_broker s)) !! tx) as [c|]; [|done].
    exists c. split; [done|]. right. apply appended_refl.
Qed.

Lemma system_ok_step s id t s' : system_ok s → exec (Step id t) s = Some s' → system_ok s'.
Proof.
  intros Hok H. cbn [exec] in H. destruct (members s !! id) as [m|] eqn:Hm; [|done]. cbn in H.
  destruct (run_step t (m_phase m) (env_of s m)) as [v [ph|e| |]] eqn:Er; simplify_eq.
  destruct (so_members s Hok id m Hm) as [M1 M2 M3 M4 M5 M6 M7].
  assert (wf_env (2 ^ 32) v) as [Hrt' Hb'].
  { pose proof (keeps_run_step (E := Empty_set) (2 ^ 32) eq_refl t (m_phase m) (env_of s m)
      (conj M1 (so_broker s Hok))) as [H _]. by rewrite Er in H. }
  destruct (run_step_inv t (m_phase m) (env_of s m) v ph M6 Er) as [Hedge Hph].
  destruct (step_frame s id m t v ph Hok Hm Er) as [F1 F2 F3 F4 F5 F6 [F7 F8 F9 F10 F11]].
  pose proof (λ tx, frame_has_mailbox _ _ _ _ tx F7) as G5. destruct F7 as [G1 G2 G3 G4 _].
  eapply (system_ok_replace s (broker v) id m); try done; cbn [m_rt member_of].
  - split; cbn; [done|done|by rewrite F3, F2|rewrite F2; by apply F8|rewrite F4; by apply G5| |].
    + destruct v. exact Hph.
    + intros ->. inversion Hedge.
  - intros k a Hk. rewrite F2. destruct (F6 k a Hk) as [Hk0|[-> E]]; [|by right].
    destruct (so_named s Hok k a Hk0) as (i & y & Hy & Ea & Ec).
    destruct (decide (i = id)) as [->|Hne]; [|left; by exists i, y]. right.
    assert (y = m) as -> by congruence. split; [done|]. destruct F5 as [F5|F5]; congruence.
Qed.

Lemma system_ok_network s id stream s' :
  system_ok s → exec (Network id stream) s = Some s' → system_ok s'.
Proof.
  intros Hok H. cbn [exec] in H. destruct (members s !! id) as [m|] eqn:Hm; [|done]. cbn in H.
  simplify_eq. destruct (so_members s Hok id m Hm) as [[W1 W2 W3 W4] M2 M3 M4 M5 [M6 M6'] M7].
  eapply (system_ok_replace s (sys_broker s) id m); try done; [apply Hok| | |].
  - split; cbn; try done. split; cbn; [|done]. intros E. destruct (M6 E) as [x Hx].
    cbn in Hx. rewrite Hx. by eexists.
  - intros f x Hx. destruct (so_subs s Hok id f x Hx) as (y & Hy & ->). congruence.
  - intros k a Hk. destruct (so_named s Hok k a Hk) as (i & y & Hy & Ea & Ec).
    destruct (decide (i = id)) as [->|Hne]; [right|left; by exists i, y].
    assert (y = m) as -> by congruence. done.
Qed.

Lemma system_ok_accept s id ctx mtx stream s' :
  system_ok s → exec (Accept id ctx mtx stream) s = Some s' → system_ok s'.
Proof.
  intros Hok H. cbn [exec] in H. unfold unused in H.
  destruct (bool_decide_reflect (members s !! id = None)) as [Hid|]; [|done].
  destruct (bool_decide_reflect (b_sessions (sys_broker s) !! id = None)) as [Hbs|]; [|done].
  destruct (commands (sys_broker s) !! ctx) as [?|] eqn:Hctx; [done|].
  destruct (mailboxes (router (sys_broker s)) !! mtx) as [?|] eqn:Hmtx; [done|].
  cbn in H. injection H as <-.
  destruct Hok as [[Hr [Hcmd Hlim]] Hms Hc Hq Hs Hn Hh].
  assert (∀ i y, members s !! i = Some y →
    rt_command_rx (m_rt y) ≠ ctx ∧ rt_message_tx (m_rt y) ≠ mtx ∧ i ≠ id) as Hold.
  { intros i y Hy. destruct (Hms i y Hy) as [_ _ _ [? E1] [? E2] _ _]. split_and!; congruence. }
  split; cbn [sys_broker members].
  - split; [exact Hr|]. split; [|exact Hlim]. apply map_Forall_insert_2; [by rewrite queued_new|done].
  - apply map_Forall_insert_2.
    + split; cbn; try done; try (rewrite lookup_insert_eq; by eexists).
    + intros i y Hy. eapply member_ok_broker; [| |by apply Hms]; intros tx _; cbn;
        rewrite lookup_insert_is_Some'; by right.
  - intros i1 i2 x1 x2 [[<- <-]|[? H1]]%lookup_insert_Some [[<- <-]|[? H2]]%lookup_insert_Some E;
      cbn in E; [done| | |by eapply Hc]; exfalso.
    + destruct (Hold _ _ H2) as (? & ? & ?). congruence.
    + destruct (Hold _ _ H1) as (? & ? & ?). congruence.
  - intros i1 i2 x1 x2 [[<- <-]|[? H1]]%lookup_insert_Some [[<- <-]|[? H2]]%lookup_insert_Some E;
      cbn in E; [done| | |by eapply Hq]; exfalso.
    + destruct (Hold _ _ H2) as (? & ? & ?). congruence.
    + destruct (Hold _ _ H1) as (? & ? & ?). congruence.
  - intros i f x Hx. destruct (Hs i f x Hx) as (y & Hy & E). exists y.
    by rewrite lookup_insert_ne by (intros ->; by apply (Hold _ _ Hy)).
  - intros k a Hk. destruct (Hn k a Hk) as (i & y & Hy & E). exists i, y.
    by rewrite lookup_insert_ne by (intros ->; by apply (Hold _ _ Hy)).
  - intros i h Hi. cbn in Hi. apply lookup_insert_Some in Hi as [[<- <-]|[? Hi]].
    + eexists. rewrite lookup_insert_eq. split; [done|done].
    + destruct (Hh i h Hi) as (y & Hy & E). exists y. by rewrite lookup_insert_ne.
Qed.

Lemma sub_table_unsubscribe_all t d d' id i f x :
  rep t d → rep (table_unsubscribe_all id t) d' → sub d' i f = Some x →
  i ≠ id ∧ sub d i f = Some x.
Proof.
  intros Ht Ht' Hx. rewrite <- (rep_sub _ _ Ht'), table_unsubscribe_all_rows in Hx.
  case_decide; [done|]. by rewrite <- (rep_sub _ _ Ht).
Qed.

Lemma system_ok_complete s id s' : system_ok s → exec (Complete id) s = Some s' → system_ok s'.
Proof.
  intros Hok H. cbn [exec] in H. destruct (members s !! id) as [m|] eqn:Hm; [|done]. cbn in H.
  destruct (m_phase m); try done.
  destruct Hok as [[([t Ht] & Hst & Hsd) [Hcmd Hlim]] Hms Hc Hq Hs Hn Hh].
  destruct (session_end_spec (E := Empty_set) (env_of s m) t Ht) as (d & E1 & Ht').
  rewrite E1 in H. injection H as <-. cbn [broker with_broker env_of rt] in *.
  destruct (Hms id m Hm) as [_ Eid _ _ _ _ _]. rewrite Eid in Ht'.
  unfold without_session. rewrite Eid.
  assert (∀ i y, delete id (members s) !! i = Some y →
    members s !! i = Some y ∧ i ≠ id ∧ rt_command_rx (m_rt y) ≠ rt_command_rx (m_rt m) ∧
    rt_message_tx (m_rt y) ≠ rt_message_tx (m_rt m)) as Hleft.
  { intros i y [Hne Hy]%lookup_delete_Some. split_and!; [done|done|..]; intros E; apply Hne; eauto. }
  assert (∀ i y, members s !! i = Some y → i ≠ id → delete id (members s) !! i = Some y) as Hkeep
    by (intros; by rewrite lookup_delete_ne).
  split; cbn [sys_broker members].
  - split; [split_and!; cbn; [by eexists|done|done]|]. split; [by apply map_Forall_delete|exact Hlim].
  - intros i y Hy. destruct (Hleft i y Hy) as (Hy' & Hne & N1 & N2).
    eapply member_ok_broker; [| |by apply Hms]; intros tx ->; cbn; by rewrite lookup_delete_ne.
  - intros i1 i2 x1 x2 H1%Hleft H2%Hleft. by apply Hc; [apply H1|apply H2].
  - intros i1 i2 x1 x2 H1%Hleft H2%Hleft. by apply Hq; [apply H1|apply H2].
  - intros i f x Hx. destruct (sub_table_unsubscribe_all _ _ _ _ _ _ _ Ht Ht' Hx) as [Hne Hx'].
    destruct (Hs i f x Hx') as (y & Hy & E). exists y. split; [by apply Hkeep|done].
  - intros k a Hk. cbn in Hk.
    assert (named_clients (sys_broker s) !! k = Some a ∧ rt_client_id (m_rt m) ≠ Some k) as [Hk' Hnk].
    { destruct (rt_client_id (m_rt m)) as [cid|]; [|done].
      apply lookup_delete_Some in Hk as [Hne Hk]. split; [done|congruence]. }
    destruct (Hn k a Hk') as (i & y & Hy & Ea & Ec). exists i, y. split; [|done].
    apply Hkeep; [done|]. intros ->. congruence.
  - intros i h Hih. cbn in Hih. apply lookup_delete_Some in Hih as [Hne Hih]. destruct (Hh i h Hih) as (y & Hy & E).
    exists y. split; [by apply Hkeep|done].
Qed.

(** The shutdown changes command channels and forgets handles and names. *)
Definition shut b b' : Prop :=
  router b' = router b ∧ authorizer b' = authorizer b ∧ typed_commands b' ∧
  (∀ tx, is_Some (commands b' !! tx) ↔ is_Some (commands b !! tx)) ∧
  b_sessions b' = ∅.

Lemma cancel_shut {E} h b b' :
  typed_commands b → b_sessions b = ∅ → cancel (E := E) h b = (b', Ok tt) → shut b b'.
Proof.
  intros Hb Hs H. unfold cancel, command_send in H. rewrite bind_assoc, bind_gets in H.
  destruct (commands b !! session_command_tx h) as [ch|] eqn:Hch; [|by injection H as <-].
  destruct (_ <? _)%nat; [|done]. injection H as <-. split_and!; [done|done| | |done].
  - apply map_Forall_insert_2; [|done]. rewrite queued_push. apply Forall_app.
    split; [exact (Hb _ _ Hch)|by constructor].
  - intros tx. cbn. rewrite lookup_insert_is_Some'. split; [intros [<-|?]; [by eexists|done]|by right].
Qed.

Lemma for_each_cancel {E} l b b' :
  typed_commands b → b_sessions b = ∅ → for_each (E := E) l cancel b = (b', Ok tt) → shut b b'.
Proof.
  revert b. induction l as [|h l IH]; intros b Hb Hs H; cbn [for_each] in H.
  { injection H as <-. by repeat split. }
  unfold mbind, M_bind in H. destruct (cancel h b) as [b1 [[]|e| |]] eqn:E1; try done.
  apply cancel_shut in E1 as (H1 & H0 & H2 & H3 & H4); [|done..].
  apply IH in H as (G1 & G0 & G2 & G3 & G4); [|done..].
  split_and!; [congruence|congruence|done| |done]. intros tx. by rewrite G3.
Qed.

Lemma system_ok_shutdown s s' : system_ok s → exec Shutdown s = Some s' → system_ok s'.
Proof.
  intros [[Hr [Hcmd _]] Hms Hc Hq Hs Hn Hh] H. cbn [exec] in H. unfold cancel_all_sessions in H.
  rewrite bind_gets, bind_modify in H. unfold mbind, M_bind in H.
  destruct (for_each _ cancel _) as [b1 [[]|e| |]] eqn:E1; try done. cbn in H. injection H as <-.
  apply for_each_cancel in E1 as (F1 & _ & F2 & F3 & F4); [|done|done]. cbn in F1, F3.
  split; cbn [sys_broker members]; cbn; rewrite ?F1; try done.
  - split; [cbn; by rewrite F1|]. split; [exact F2|apply retry_bound_range].
  - intros i y Hy. eapply member_ok_broker; [| |by apply Hms]; intros tx _; cbn;
      [apply F3|by rewrite F1].
  - by rewrite F4.
Qed.

(** ** What an event of one session leaves another *)

Definition session_of (e : Event R W) : option string :=
  match e with
  | Accept id _ _ _ | Step id _ | Complete id | Network id _ => Some id
  | Shutdown => None
  end.

(** It keeps its subscriptions, and copies of messages may get into its mailbox. *)
Record undisturbed (id : string) m s s' : Prop := {
  un_member : members s' !! id = Some m;
  un_authorizer : authorizer (sys_broker s') = authorizer (sys_broker s);
  un_rows f : sub (data (router (sys_broker s'))) id f = sub (data (router (sys_broker s))) id f;
  un_mailbox c : mailboxes (router (sys_broker s)) !! rt_message_tx (m_rt m) = Some c →
    ∃ c', mailboxes (router (sys_broker s')) !! rt_message_tx (m_rt m) = Some c' ∧ appended c c';
}.

Lemma undisturbed_step s i t s' id m :
  system_ok s → exec (Step i t) s = Some s' → i ≠ id → members s !! id = Some m → undisturbed id m s s'.
Proof.
  intros Hok H Hne Hm. cbn [exec] in H. destruct (members s !! i) as [mi|] eqn:Hi; [|done]. cbn in H.
  destruct (run_step t (m_phase mi) (env_of s mi)) as [v [ph|e| |]] eqn:Er; simplify_eq.
  destruct (step_frame s i mi t v ph Hok Hi Er) as [_ _ _ _ _ _ [[_ _ F3 _ F5] _ _ _ F11]].
  split; cbn; [by rewrite lookup_insert_ne|done|by intros f; apply F3|].
  intros c Hc. specialize (F5 (rt_message_tx (m_rt m))). rewrite Hc in F5.
  destruct F5 as (c' & E1 & [E2|E2]); [|by exists c'].
  destruct Hne. by apply (so_mailboxes s Hok i id mi m).
Qed.

Lemma undisturbed_accept s i ctx mtx stream s' id m :
  exec (Accept i ctx mtx stream) s = Some s' → i ≠ id → members s !! id = Some m → undisturbed id m s s'.
Proof.
  intros H Hne Hm. cbn [exec] in H. unfold unused in H.
  destruct (bool_decide _); [|done]. destruct (bool_decide _); [|done].
  destruct (commands (sys_broker s) !! ctx); [done|].
  destruct (mailboxes (router (sys_broker s)) !! mtx) as [?|] eqn:Hmtx; [done|].
  cbn in H. injection H as <-. split; cbn; [by rewrite lookup_insert_ne|done|done|].
  intros c Hc. exists c. rewrite lookup_insert_ne by congruence. split; [done|apply appended_refl].
Qed.

Lemma undisturbed_complete s i s' id m :
  system_ok s → exec (Complete i) s = Some s' → i ≠ id → members s !! id = Some m → undisturbed id m s s'.
Proof.
  intros Hok H Hne Hm. cbn [exec] in H. destruct (members s !! i) as [mi|] eqn:Hi; [|done]. cbn in H.
  destruct (m_phase mi); try done. destruct (so_broker s Hok) as [([t Ht] & _ & _) _].
  destruct (session_end_spec (E := Empty_set) (env_of s mi) t Ht) as (d & E1 & Ht').
  rewrite E1 in H. injection H as <-. cbn [broker with_broker env_of rt] in *.
  destruct (so_members s Hok i mi Hi) as [_ Eid _ _ _ _ _]. rewrite Eid in Ht'.
  split; cbn; [by rewrite lookup_delete_ne|done| |].
  - intros f. rewrite <- (rep_sub _ _ Ht'), <- (rep_sub _ _ Ht), table_unsubscribe_all_rows.
    by rewrite decide_False.
  - intros c Hc. exists c. split; [|apply appended_refl]. rewrite lookup_delete_ne; [done|].
    intros E. apply Hne. by apply (so_mailboxes s Hok i id mi m).
Qed.

Lemma undisturbed_shutdown s s' id m :
  system_ok s → exec Shutdown s = Some s' → members s !! id = Some m → undisturbed id m s s'.
Proof.
  intros [[Hr [Hcmd _]] _ _ _ _ _ _] H Hm. cbn [exec] in H. unfold cancel_all_sessions in H.
  rewrite bind_gets, bind_modify in H. unfold mbind, M_bind in H.
  destruct (for_each _ cancel _) as [b1 [[]|e| |]] eqn:E1; try done. cbn in H. injection H as <-.
  apply for_each_cancel in E1 as (F1 & F2 & _); [|done|done]. cbn in F1, F2.
  split; cbn; rewrite ?F1; try done. intros c Hc. exists c. split; [done|apply appended_refl].
Qed.

Lemma undisturbed_exec s e s' id m :
  system_ok s → exec e s = Some s' → session_of e ≠ Some id → members s !! id = Some m →
  undisturbed id m s s'.
Proof.
  intros Hok H Hne Hm. destruct e as [i ctx mtx st|i t|i|i st|]; cbn in Hne.
  - by eapply undisturbed_accept; [exact H|congruence|].
  - by eapply undisturbed_step; [|exact H|congruence|].
  - by eapply undisturbed_complete; [|exact H|congruence|].
  - cbn [exec] in H. destruct (members s !! i) as [mi|]; [|done]. cbn in H. injection H as <-.
    split; cbn; [rewrite lookup_insert_ne by congruence; done|done|done|].
    intros c Hc. exists c. split; [done|apply appended_refl].
  - by eapply undisturbed_shutdown.
Qed.

Lemma system_ok_exec s e s' : system_ok s → exec e s = Some s' → system_ok s'.
Proof.
  destruct e; eauto using system_ok_accept, system_ok_step, system_ok_complete, system_ok_network,
    system_ok_shutdown.
Qed.

Lemma system_ok_all s es s' : system_ok s → exec_all es s = Some s' → system_ok s'.
Proof.
  revert s. induction es as [|e es IH]; intros s Hok H; [by simplify_eq/=|]. cbn [exec_all] in H.
  destruct (exec e s) as [s1|] eqn:E; [|done]. cbn in H. eauto using system_ok_exec.
Qed.
End Invariant.
