(* ===== verification/SystemProps.v ===== *)
(** What the broker and its sessions promise together: what holds in every
    system, that a message gets from one client to another, and that a client
    can have two sessions. *)

From S2P Require Import Prelude External Packet Codec CodecSim CodecFacts Topic Storage MemoryStorage Config Auth.
From S2P Require Import Router RouterFacts RouterProps Broker Session Lifecycle SessionInv SessionSafe.
From S2P Require Import SessionFacts Samples Receiver PersistProps ConnectProps LifeProps SessionFrame System.

Local Open Scope Z_scope.

Section SystemProps.
Context {BC : BytesCrate} {BL : BytesLaws} {MP : Mpsc} {MPL : MpscLaws}.
Context {HO : HashOrder} {HOL : HashOrderLaws} {S : Type} {ST : Storage S} {SL : StorageLaws S}.
Context {R W : Type} {AR : AsyncRead R} {ARL : AsyncReadLaws R} {AW : AsyncWrite W} {AWL : AsyncWriteLaws W}
  {CN : Connection W}.
Context {Au Az : Type} {AU : Authenticator Au} {AZ : Authorizer Az}.

Abbreviation Env := (Env (S := S) (R := R) (W := W) (Au := Au) (Az := Az)).
Abbreviation Broker := (Broker S R W Au Az).
Abbreviation System := (System (S := S) (R := R) (W := W) (Au := Au) (Az := Az)).
Implicit Types (s : System) (m : Member R W) (b : Broker) (v : Env).

(** * Every system *)

(** C2: whatever happens, in whatever order, to a broker and the sessions it
    accepts: every session keeps its identifiers and queues well formed and its
    two channels open and to itself; every subscription belongs to a session
    there is and leads to that session's mailbox, so no message is routed to a
    session that is over; and every name belongs to a session there is, that has
    it, so a takeover is always sent to one. *)
Theorem system_invariant config (st : S) (au : Au) (az : Az) es s :
  storage_inv st → wf_stored (2 ^ 32) (storage_abs st) →
  exec_all es (mkSystem (broker_new config st au az) ∅) = Some s →
  let b := sys_broker s in
  (∀ id m, members s !! id = Some m → wf_runtime (2 ^ 32) (m_rt m) ∧ rt_id (m_rt m) = id ∧
     is_Some (commands b !! rt_command_rx (m_rt m)) ∧
     is_Some (mailboxes (router b) !! rt_message_tx (m_rt m)) ∧
     ∀ id' m', members s !! id' = Some m' → id' ≠ id →
       rt_command_rx (m_rt m') ≠ rt_command_rx (m_rt m) ∧
       rt_message_tx (m_rt m') ≠ rt_message_tx (m_rt m)) ∧
  (∃ t, rep t (data (router b)) ∧ ∀ id f mb q, t !! (id, f) = Some (mb, q) →
     ∃ m, members s !! id = Some m ∧ mb = rt_message_tx (m_rt m)) ∧
  (∀ k a, named_clients b !! k = Some a →
     ∃ id m, members s !! id = Some m ∧ a = rt_command_rx (m_rt m) ∧ rt_client_id (m_rt m) = Some k).
Proof.
  intros Hst Hw E b.
  assert (system_ok s) as Hok.
  { eapply system_ok_all; [|exact E]. apply system_ok_start; try done.
    split; [|split; [apply map_Forall_empty|apply retry_bound_range]]. split; [exists ∅; apply rep_new|done]. }
  split_and!.
  - intros id m Hm. destruct (so_members s Hok id m Hm). split_and!; try done.
    intros id' m' Hm' Hne. split; intros Ec; apply Hne;
      [by eapply so_commands|by eapply so_mailboxes].
  - destruct (so_broker s Hok) as [([t Ht] & _) _]. exists t. split; [exact Ht|].
    intros id f mb q Hx. rewrite (rep_sub _ _ Ht) in Hx. by apply (so_subs s Hok id f (mb, q)).
  - intros k a Hk. destruct (so_named s Hok k a Hk) as (id & m & H1 & H2 & H3). by exists id, m.
Qed.

(** * A message from one client to another *)

(** A turn in which a session decodes a packet it stays connected after. *)
Lemma step_decode t k p rd v v' :
  branch t = OnDecode → decode (reader v) = (rd, Ok p) →
  on_packet (at_instant t) (at_utc t) p (with_reader rd v) = (v', Ok true) →
  run_step (E := Empty_set) t (InLoop k) v = (v', Ok (InLoop k)).
Proof.
  intros Hb Hd Hp. cbn [run_step]. unfold processing_turn. rewrite Hb.
  unfold decode_packet, attempt, zoom, mbind, M_bind. rewrite Hd, Hp. done.
Qed.

(** A turn in which it decodes a packet it cannot finish with. *)
Lemma step_decode_waits t k p rd v v' :
  branch t = OnDecode → decode (reader v) = (rd, Ok p) →
  on_packet (at_instant t) (at_utc t) p (with_reader rd v) = (v', Pending) →
  ∃ v2, run_step (E := Empty_set) t (InLoop k) v = (v2, Pending).
Proof.
  intros Hb Hd Hp. cbn [run_step]. unfold processing_turn. rewrite Hb. exists v'.
  unfold decode_packet, attempt, zoom, mbind, M_bind. by rewrite Hd, Hp.
Qed.

(** A turn in which it takes a message out of its mailbox and sends it. *)
Lemma step_message t k p c l v :
  branch t = OnMessage → polled t = false → connected (writer v) → dup p = false →
  mailboxes (router (broker v)) !! rt_message_tx (rt v) = Some c → queued c = Publish p :: l →
  let sent := match qos p with
              | AtMostOnce => p
              | _ => with_packet_id (Some (rt_next_packet_id (rt v))) p
              end in
  ∃ w' r', run_step (E := Empty_set) t (InLoop k) v =
      (with_rt r' (with_writer w' (enqueue_own (pop c) v)), Ok (InLoop k)) ∧
    took (writer v) [Publish sent] w' ∧ rt_message_tx r' = rt_message_tx (rt v) ∧
    rt_next_packet_id r' =
      match qos p with AtMostOnce => rt_next_packet_id (rt v) | _ => succ_id (rt_next_packet_id (rt v)) end.
Proof.
  intros Hb Hpl Hw Hd Hc Hq sent. cbn [run_step]. unfold processing_turn. rewrite Hb, Hpl.
  assert (drop_decode (E := Empty_set) false v = (v, Ok tt)) as Hdrop.
  { unfold drop_decode. rewrite bind_gets. cbn [id]. by destruct (decode (reader v)) as [? []]. }
  rewrite !bind_assoc, (bind_Ok _ _ _ _ _ Hdrop), bind_assoc.
  rewrite (bind_Ok _ _ _ _ _ (recv_message_head (E := Empty_set) _ c l v Hc Hq)).
  set (v1 := enqueue_own (pop c) v). rewrite bind_assoc.
  destruct (decide (qos p = AtMostOnce)) as [E|E].
  - destruct (on_message_level0 (at_instant t) p v1 Hw E) as (w' & E1 & T1).
    exists w', (rt v). split_and!; [|unfold sent; rewrite E; exact T1|done|by rewrite E].
    unfold attempt, mbind at 1, M_bind at 1. rewrite E1. done.
  - destruct (on_message_tracked (at_instant t) p v1 Hw E Hd) as (w' & E1 & T1).
    exists w', (tracked (at_instant t) p (initial_state (qos p)) (rt v)).
    unfold attempt, mbind at 1, M_bind at 1. rewrite E1. split_and!; [done| |done|].
    + unfold sent. destruct (qos p); [done|exact T1..].
    + by destruct (qos p).
Qed.

(** A step of a session, and the session after it. *)
Lemma exec_step id t m s v ph :
  members s !! id = Some m → run_step (E := Empty_set) t (m_phase m) (env_of s m) = (v, Ok ph) →
  exec (Step id t) s = Some (mkSystem (broker v) (<[id := member_of v ph]> (members s))).
Proof. intros Hm E. cbn [exec]. rewrite Hm. cbn [mbind option_bind]. by rewrite E. Qed.

Lemma env_of_member v ph ms : env_of (mkSystem (broker v) ms) (member_of v ph) = v.
Proof. by destruct v. Qed.

(** The messages of a mailbox as they are sent, with the identifiers the session
    gives them. *)
Fixpoint numbered (next : Z) (ds : list PublishPacket) : list PublishPacket :=
  match ds with
  | [] => []
  | p :: ds =>
      match qos p with
      | AtMostOnce => p :: numbered next ds
      | _ => with_packet_id (Some next) p :: numbered (succ_id next) ds
      end
  end.

(** A session empties its mailbox. *)
Lemma drain_mailbox ds t k id c s m :
  branch t = OnMessage → polled t = false →
  members s !! id = Some m → m_phase m = InLoop k → connected (m_writer m) →
  mailboxes (router (sys_broker s)) !! rt_message_tx (m_rt m) = Some c →
  queued c = Publish <$> ds → Forall (λ p, dup p = false) ds →
  ∃ s' m', exec_all (replicate (length ds) (Step id t)) s = Some s' ∧
    members s' !! id = Some m' ∧ m_phase m' = InLoop k ∧
    took (m_writer m) (Publish <$> numbered (rt_next_packet_id (m_rt m)) ds) (m_writer m').
Proof.
  intros Hb Hpl Hm Hk Hw Hc Hq Hds. revert c s m Hm Hk Hw Hc Hq.
  induction Hds as [|p ds Hp Hds IH]; intros c s m Hm Hk Hw Hc Hq; cbn [length replicate exec_all numbered].
  { exists s, m. split_and!; [done..|]. by apply took_nil. }
  destruct (step_message t k p c (fmap (M := list) Publish ds) (env_of s m) Hb Hpl Hw Hp Hc Hq)
    as (w' & r' & E1 & T1 & Htx & Hn).
  rewrite <- Hk in E1. rewrite (exec_step _ _ _ _ _ _ Hm E1), Hk. cbn [mbind option_bind].
  set (m1 := member_of _ _). set (s1 := mkSystem _ _).
  destruct (IH (pop c) s1 m1) as (s' & m' & E2 & Hm' & Hk' & T2).
  - apply lookup_insert_eq.
  - done.
  - apply T1.
  - cbn. rewrite Htx. apply lookup_insert_eq.
  - by rewrite queued_pop, Hq.
  - exists s', m'. split; [exact E2|]. split_and!; [done..|].
    cbn [m_rt m1 member_of rt with_rt] in T2. rewrite Hn in T2. cbn [env_of rt writer] in T1, T2.
    by destruct (qos p); eapply (took_app _ [_]); eauto.
Qed.

(** The copies of a message that the subscriptions of a session ask for. *)
Definition copies_for (p : PublishPacket) (id : string) (t : Table) : list PublishPacket :=
  omap (λ '((sid, f), (_, q)),
    if bool_decide (sid = id) && topic_matches (topic p) f then Some (copy_for p q) else None)
    (map_to_list t).

(** They are what goes to its mailbox, which it shares with nobody. *)
Lemma copies_for_mailbox p id mb (l : list (string * string * (Mailbox * QoS))) :
  (∀ x, x ∈ l → x.2.1 = mb ↔ x.1.1 = id) →
  for_mailbox mb (deliveries p l) = Publish <$>
    omap (λ '((sid, f), (_, q)),
      if bool_decide (sid = id) && topic_matches (topic p) f then Some (copy_for p q) else None) l.
Proof.
  unfold for_mailbox, deliveries. induction l as [|[[sid f] [mb' q]] l IH]; intros Hl; [done|].
  pose proof (Hl _ ltac:(by left)) as H. cbn in H. specialize (IH (λ x Hx, Hl x ltac:(by right))).
  cbn [omap list_omap]. destruct (topic_matches (topic p) f); cbn [andb].
  - rewrite andb_true_r. destruct (decide (mb' = mb)) as [E|E].
    + rewrite filter_cons_True by done. rewrite bool_decide_true by tauto. cbn. by rewrite IH.
    + rewrite filter_cons_False by done. rewrite bool_decide_false by tauto. exact IH.
  - rewrite andb_false_r. exact IH.
Qed.

Lemma own_mailbox s t id m x :
  system_ok s → rep t (data (router (sys_broker s))) → members s !! id = Some m →
  x ∈ map_to_list t → x.2.1 = rt_message_tx (m_rt m) ↔ x.1.1 = id.
Proof.
  intros Hok Ht Hm Hx. destruct x as [[sid f] [mb q]]. apply elem_of_map_to_list in Hx.
  rewrite (rep_sub _ _ Ht) in Hx. destruct (so_subs s Hok sid f (mb, q) Hx) as (m' & Hm' & E).
  cbn in *. subst mb. split; [intros E|intros ->; congruence].
  by apply (so_mailboxes s Hok sid id m' m).
Qed.

(** They do not depend on the subscriptions of others. *)
Lemma copies_for_unsubscribed p id x t :
  id ≠ x → copies_for p id (table_unsubscribe_all x t) ≡ₚ copies_for p id t.
Proof.
  intros Hne. unfold copies_for. rewrite (unsubscribed_rows x t). rewrite omap_filter; [done|].
  intros [[sid f] [mb q]] Hx. rewrite bool_decide_false; [done|].
  intros ->. by apply Hx.
Qed.

Lemma copies_not_dup p id t ds : ds ≡ₚ copies_for p id t → Forall (λ p, dup p = false) ds.
Proof.
  intros ->. apply Forall_forall. intros x Hx. unfold copies_for in Hx.
  apply list_elem_of_omap in Hx as ([[sid f] [mx q]] & _ & Hx).
  destruct (_ && _); [by simplify_eq|done].
Qed.

(** ** What a session receives, in the mailboxes of the others *)

(** The messages of a client that go through: the client may send them, and the
    topic has no wildcard. *)
Definition passes (z : Az) (name : string) (p : PublishPacket) : bool :=
  permitted z name p && validate_publish_topic (topic p).

Definition passed (b : Broker) (name : string) (l : list PublishPacket) : list PublishPacket :=
  filter (passes (authorizer b) name) l.

Lemma passed_app b name l1 l2 : passed b name (l1 ++ l2) = passed b name l1 ++ passed b name l2.
Proof. apply filter_app. Qed.

Lemma passed_valid b name l : Forall (λ p, validate_publish_topic (topic p) = true) (passed b name l).
Proof.
  apply Forall_forall. intros p [Hp _]%list_elem_of_filter. by apply andb_True in Hp as [_ H%Is_true_true].
Qed.

(** A message with an invalid topic is dropped. *)
Lemma route_passed b name utc l r :
  route_permitted (authorizer b) name utc l r =
  for_each (E := SessionError) (passed b name l) (route utc) r.
Proof.
  unfold route_permitted, passed. revert r. induction l as [|p l IH]; intros r; [done|].
  destruct (permitted (authorizer b) name p) eqn:Ep.
  - rewrite filter_cons_True by (rewrite Ep; exact I). destruct (validate_publish_topic (topic p)) eqn:Ev.
    + rewrite filter_cons_True by (unfold passes; rewrite Ep, Ev; exact I). cbn [for_each].
      unfold mbind, M_bind. destruct (route utc p r) as [r1 [[]|e| |]]; [apply IH|done..].
    + rewrite filter_cons_False by (unfold passes; rewrite Ep, Ev; intros []). cbn [for_each].
      assert (route (E := SessionError) utc p r = (r, Ok tt)) as E1 by (unfold route; by rewrite Ev).
      rewrite (bind_Ok _ _ _ _ _ E1). apply IH.
  - rewrite !filter_cons_False by (unfold passes; rewrite Ep; intros []). apply IH.
Qed.

(** A session with messages held, a stream and a writer of its own. *)
Definition receiving (held : Held) (rd : R) (w : W) m : Member R W :=
  mkMember (set_inbound held (m_rt m)) rd w (m_phase m).

(** One packet, whose messages are routed. *)
Lemma packet_routed s id m k rd pk ts r' :
  members s !! id = Some m → m_phase m = InLoop k → connected (m_writer m) →
  branch ts = OnDecode → decode (m_reader m) = (rd, Ok pk) → from_sender pk = true → wf_two_way pk →
  let x := take_in pk (rt_inbound_qos2 (m_rt m)) in
  for_each (E := SessionError) (passed (sys_broker s) (client_name (m_rt m)) x.1) (route (at_utc ts))
    (router (sys_broker s)) = (r', Ok tt) →
  ∃ w', exec (Step id ts) s =
      Some (mkSystem (with_router r' (sys_broker s)) (<[id := receiving x.2 rd w' m]> (members s))) ∧
    took (m_writer m) (reply pk) w'.
Proof.
  intros Hm Hk Hw Hb Hd Hs Hwf x Er. unfold x in Er. rewrite <- route_passed in Er.
  destruct (packet_taken_in (at_instant ts) (at_utc ts) pk (with_reader rd (env_of s m)) r' Hw Hs Hwf Er)
    as (w' & Ep & T).
  pose proof (step_decode ts k pk rd (env_of s m) _ Hb Hd Ep) as E1. rewrite <- Hk in E1.
  exists w'. split; [|exact T]. rewrite (exec_step _ _ _ _ _ _ Hm E1). done.
Qed.

Lemma packet_step s id m k rd pk ts t :
  system_ok s → members s !! id = Some m → m_phase m = InLoop k → connected (m_writer m) →
  branch ts = OnDecode → decode (m_reader m) = (rd, Ok pk) → from_sender pk = true → wf_two_way pk →
  rep t (data (router (sys_broker s))) →
  let x := take_in pk (rt_inbound_qos2 (m_rt m)) in
  let l := passed (sys_broker s) (client_name (m_rt m)) x.1 in
  room_for (all_deliveries l t) (router (sys_broker s)) →
  ∃ r' w', exec (Step id ts) s =
      Some (mkSystem (with_router r' (sys_broker s)) (<[id := receiving x.2 rd w' m]> (members s))) ∧
    took (m_writer m) (reply pk) w' ∧ delivered t l (router (sys_broker s)) r'.
Proof.
  intros Hok Hm Hk Hw Hb Hd Hs Hwf Ht x l Hroom.
  destruct (so_broker s Hok) as [(_ & Hst & _) _].
  destruct (route_all (E := SessionError) (at_utc ts) l _ t Hst Ht (passed_valid _ _ _) Hroom)
    as (r' & Er & D).
  destruct (packet_routed s id m k rd pk ts r' Hm Hk Hw Hb Hd Hs Hwf Er) as (w' & H & T).
  exists r', w'. by split_and!.
Qed.

(** When the session has taken the packet, its messages have been delivered:
    without room it would wait. *)
Lemma packet_step_inv s id m k rd pk ts t s' :
  system_ok s → members s !! id = Some m → m_phase m = InLoop k → connected (m_writer m) →
  branch ts = OnDecode → decode (m_reader m) = (rd, Ok pk) → from_sender pk = true → wf_two_way pk →
  rep t (data (router (sys_broker s))) → exec (Step id ts) s = Some s' →
  let x := take_in pk (rt_inbound_qos2 (m_rt m)) in
  ∃ r' w', s' = mkSystem (with_router r' (sys_broker s)) (<[id := receiving x.2 rd w' m]> (members s)) ∧
    took (m_writer m) (reply pk) w' ∧
    delivered t (passed (sys_broker s) (client_name (m_rt m)) x.1) (router (sys_broker s)) r'.
Proof.
  intros Hok Hm Hk Hw Hb Hd Hs Hwf Ht Hx x.
  destruct (so_broker s Hok) as [(_ & Hst & _) _].
  destruct (route_all_cases (E := SessionError) (at_utc ts)
    (passed (sys_broker s) (client_name (m_rt m)) x.1) _ t Hst Ht (passed_valid _ _ _))
    as [(r' & Er & D)|(r' & Er)].
  - destruct (packet_routed s id m k rd pk ts r' Hm Hk Hw Hb Hd Hs Hwf Er) as (w' & H & T).
    rewrite H in Hx. injection Hx as <-. by exists r', w'.
  - unfold x in Er. rewrite <- route_passed in Er.
    destruct (packet_waits (at_instant ts) (at_utc ts) pk (with_reader rd (env_of s m)) r' Hw Hs Hwf Er)
      as (v' & Ep).
    destruct (step_decode_waits ts k pk rd (env_of s m) v' Hb Hd Ep) as (v2 & E1).
    cbn [exec] in Hx. rewrite Hm in Hx. cbn [mbind option_bind] in Hx. by rewrite Hk, E1 in Hx.
Qed.

(** What a stream yields, packet by packet. *)
Fixpoint reads (rd : R) (ps : list Packet) (rd' : R) : Prop :=
  match ps with
  | [] => rd' = rd
  | pk :: ps' => ∃ rd1, decode rd = (rd1, Ok pk) ∧ reads rd1 ps' rd'
  end.

Lemma reads_bytes ps rest rd :
  Forall wf_two_way ps → arrived (incoming rd) = packets_bytes ps ++ rest →
  ∃ rd', reads rd ps rd' ∧ arrived (incoming rd') = rest.
Proof.
  intros Hps. revert rd. induction Hps as [|pk ps Hwf _ IH]; intros rd Hr; [by exists rd|].
  unfold packets_bytes in Hr. cbn [fmap list_fmap mjoin list_join] in Hr. rewrite <- app_assoc in Hr.
  destruct (decode_from pk rd _ Hwf Hr) as (rd1 & E1 & Hr1).
  destruct (IH rd1) as (rd' & E2 & H2); [by rewrite Hr1|]. exists rd'. split; [by exists rd1|done].
Qed.

(** Packets one after the other: the session routes what goes through of what the
    receiver hands on, and answers each. *)
Lemma packets_step ps ts s id m k rd rd' t :
  system_ok s → members s !! id = Some m → m_phase m = InLoop k → connected (m_writer m) →
  Forall2 (λ tu pk, branch tu = OnDecode ∧ from_sender pk = true ∧ wf_two_way pk) ts ps →
  m_reader m = rd → reads rd ps rd' → rep t (data (router (sys_broker s))) →
  let x := take_all ps (rt_inbound_qos2 (m_rt m)) in
  let l := passed (sys_broker s) (client_name (m_rt m)) x.1 in
  room_for (all_deliveries l t) (router (sys_broker s)) →
  ∃ r' w', exec_all (Step id <$> ts) s =
      Some (mkSystem (with_router r' (sys_broker s)) (<[id := receiving x.2 rd' w' m]> (members s))) ∧
    took (m_writer m) (replies ps) w' ∧ delivered t l (router (sys_broker s)) r'.
Proof.
  intros Hok Hm Hk Hw Hps. revert s m rd Hok Hm Hk Hw.
  induction Hps as [|tu pk ts ps (Hb & Hs & Hwf) _ IH]; intros s m rd Hok Hm Hk Hw Hrd Hr Ht x l Hroom.
  - cbn in Hr. exists (router (sys_broker s)), (m_writer m). subst rd rd'.
    split; [|split; [by apply took_nil|apply delivered_nil]]. cbn [fmap list_fmap exec_all]. f_equal.
    destruct s as [[] ms], m as [[] rd w ph]. cbn in *. unfold receiving. cbn. by rewrite insert_id.
  - destruct Hr as (rd1 & Hd & Hr). cbn [take_all] in x. subst x.
    destruct (take_in pk (rt_inbound_qos2 (m_rt m))) as [l1 h1] eqn:E1.
    destruct (take_all ps h1) as [l2 h2] eqn:E2. cbn [fst snd] in *. unfold l in *.
    rewrite passed_app in Hroom |- *.
    destruct (packet_step s id m k rd1 pk tu t) as (r1 & w1 & S1 & T1 & D1); try done.
    { by rewrite Hrd. }
    { rewrite E1. exact (proj1 (room_for_app _ _ _ _ (router (sys_broker s)) Hroom)). }
    rewrite E1 in S1, D1. cbn [fst snd] in S1, D1.
    cbn [fmap list_fmap exec_all]. rewrite S1. cbn [mbind option_bind].
    set (m1 := receiving h1 rd1 w1 m) in *. set (s1 := mkSystem _ _).
    destruct (IH s1 m1 rd1) as (r2 & w2 & S2 & T2 & D2); try done.
    { by eapply system_ok_step. }
    { apply lookup_insert_eq. }
    { apply T1. }
    { cbn. by rewrite (dl_data _ _ _ _ D1). }
    { cbn. rewrite E2. exact (proj2 (room_for_app _ _ _ _ _ Hroom) D1). }
    cbn in S2, T2, D2. rewrite E2 in S2, D2. exists r2, w2. split; [|split].
    + rewrite S2, insert_insert_eq. done.
    + by apply (took_app _ (reply pk) w1).
    + by apply (delivered_app _ _ _ _ r1).
Qed.

Lemma packets_arrive ps rest ts s id m k t :
  system_ok s → members s !! id = Some m → m_phase m = InLoop k → connected (m_writer m) →
  Forall2 (λ tu pk, branch tu = OnDecode ∧ from_sender pk = true ∧ wf_two_way pk) ts ps →
  arrived (incoming (m_reader m)) = packets_bytes ps ++ rest → rep t (data (router (sys_broker s))) →
  let x := take_all ps (rt_inbound_qos2 (m_rt m)) in
  let l := passed (sys_broker s) (client_name (m_rt m)) x.1 in
  room_for (all_deliveries l t) (router (sys_broker s)) →
  ∃ r' w' rd', exec_all (Step id <$> ts) s =
      Some (mkSystem (with_router r' (sys_broker s)) (<[id := receiving x.2 rd' w' m]> (members s))) ∧
    took (m_writer m) (replies ps) w' ∧ delivered t l (router (sys_broker s)) r' ∧
    arrived (incoming rd') = rest.
Proof.
  intros Hok Hm Hk Hw Hps Hr Ht x l Hroom.
  destruct (reads_bytes ps rest (m_reader m)) as (rd' & Hrd & Hrest); [|exact Hr|].
  { clear -Hps. induction Hps as [|? ? ? ? (_ & _ & ?)]; by constructor. }
  destruct (packets_step ps ts s id m k _ rd' t Hok Hm Hk Hw Hps eq_refl Hrd Ht Hroom)
    as (r' & w' & H). exists r', w', rd'. tauto.
Qed.

(** What is in the mailbox of a session then. *)
Lemma delivered_copies t l s r' id m c :
  system_ok s → rep t (data (router (sys_broker s))) → members s !! id = Some m →
  delivered t l (router (sys_broker s)) r' →
  mailboxes (router (sys_broker s)) !! rt_message_tx (m_rt m) = Some c →
  ∃ c' dss, mailboxes r' !! rt_message_tx (m_rt m) = Some c' ∧
    queued c' = queued c ++ (Publish <$> mjoin dss) ∧
    Forall2 (λ p ds, ds ≡ₚ copies_for p id t) l dss.
Proof.
  intros Hok Ht Hm [_ D] Hc. specialize (D (rt_message_tx (m_rt m))). rewrite Hc in D.
  destruct D as (c' & dss & E1 & _ & Q & P). exists c'.
  enough (∃ dss', mjoin dss = Publish <$> mjoin dss' ∧
    Forall2 (λ p ds, ds ≡ₚ copies_for p id t) l dss') as (dss' & Ed & Hd).
  { exists dss'. rewrite Q, Ed. by split. }
  clear Q. induction P as [|p ds l dss Hp _ (dss' & Ed & Hd)]; [by exists []|].
  rewrite (copies_for_mailbox p id) in Hp by (intros x; by apply (own_mailbox s t id m)).
  apply Permutation_fmap_inv in Hp as (ds' & -> & Hp).
  exists (ds' :: dss'). split; [|by constructor].
  change (mjoin (ds' :: dss')) with (ds' ++ mjoin dss'). rewrite fmap_app.
  exact (f_equal (app _) Ed).
Qed.

Lemma all_copies_not_dup l id t dss :
  Forall2 (λ p ds, ds ≡ₚ copies_for p id t) l dss → Forall (λ p, dup p = false) (mjoin dss).
Proof.
  induction 1 as [|p ds l dss Hp _ IH]; [constructor|]. cbn. apply Forall_app. split; [|exact IH].
  by eapply copies_not_dup.
Qed.

(** C3: messages get from one client to another, each as often as its level
    promises and in their order.  A connected session is sent PUBLISH and PUBREL
    packets, of all levels, in any order and however often; every mailbox has room
    for what comes of them.  The session reads them from its stream and answers
    each.  Then a connected session that works off its mailbox has written, for
    each message that the receiver of [Receiver.v] hands on, that the client may send and
    whose topic is valid, one after the other in this order: once for each of its
    subscriptions whose filter matches, a PUBLISH with the topic and the payload,
    at the lower of the two levels, with an identifier of its own above level 0. *)
Theorem messages_arrive s ida idb ma mb ka kb ps rest ts tb c t :
  system_ok s → ida ≠ idb →
  members s !! ida = Some ma → m_phase ma = InLoop ka → connected (m_writer ma) →
  Forall2 (λ tu pk, branch tu = OnDecode ∧ from_sender pk = true ∧ wf_two_way pk) ts ps →
  arrived (incoming (m_reader ma)) = packets_bytes ps ++ rest →
  rep t (data (router (sys_broker s))) →
  let l := passed (sys_broker s) (client_name (m_rt ma)) (take_all ps (rt_inbound_qos2 (m_rt ma))).1 in
  room_for (all_deliveries l t) (router (sys_broker s)) →
  members s !! idb = Some mb → m_phase mb = InLoop kb → connected (m_writer mb) →
  branch tb = OnMessage → polled tb = false →
  mailboxes (router (sys_broker s)) !! rt_message_tx (m_rt mb) = Some c → queued c = [] →
  ∃ s1 s2 ma' mb' dss,
    exec_all (Step ida <$> ts) s = Some s1 ∧
    members s1 !! ida = Some ma' ∧ took (m_writer ma) (replies ps) (m_writer ma') ∧
    arrived (incoming (m_reader ma')) = rest ∧
    exec_all (replicate (length (mjoin dss)) (Step idb tb)) s1 = Some s2 ∧
    members s2 !! idb = Some mb' ∧ Forall2 (λ p ds, ds ≡ₚ copies_for p idb t) l dss ∧
    took (m_writer mb) (Publish <$> numbered (rt_next_packet_id (m_rt mb)) (mjoin dss)) (m_writer mb').
Proof.
  intros Hok Hne Hma Hka Hwa Hps Hr Ht l Hroom Hmb Hkb Hwb Hbb Hpl Hc Hqc.
  destruct (packets_arrive ps rest ts s ida ma ka t) as (r' & w' & rd' & E1 & T1 & D & Hrest); [done..|].
  destruct (delivered_copies t l s r' idb mb c Hok Ht Hmb D Hc) as (c' & dss & Hc' & Hq & Hdss).
  rewrite Hqc, app_nil_l in Hq. set (s1 := mkSystem _ _) in E1.
  destruct (drain_mailbox (mjoin dss) tb kb idb c' s1 mb Hbb Hpl) as (s2 & mb' & E2 & Hmb' & _ & T2);
    [cbn; by rewrite lookup_insert_ne|done|done|exact Hc'|exact Hq|by eapply all_copies_not_dup|].
  exists s1, s2. eexists _, mb', dss. split; [exact E1|]. split; [apply lookup_insert_eq|]. by split_and!.
Qed.
End SystemProps.

(** * Concrete systems *)

Abbreviation sample_system_type :=
  (System (MP := queue_mpsc) (S := InMemoryStorage) (R := Incoming) (W := Outgoing)
     (Au := AllowAllAuthenticator) (Az := AllowAllAuthenticator)).

(** Bytes on the wire. *)
Definition wire_bytes (l : list Z) : Bytes := byte.of_Z <$> l.

(** CONNECT with the flags of a clean session or none, of a client whose name is
    one letter. *)
Definition connect_as (clean : bool) (name : Z) : Incoming * Outgoing :=
  sample_stream (wire_bytes
    [0x10; 13; 0; 4; 77; 81; 84; 84; 4; if clean then 2 else 0; 0; 60; 0; 1; name]).

Definition turn (br : Branch) : Turn := mkTurn br false 0 epoch.

(** A connection is accepted and its CONNECT handled. *)
Definition arrives (id : string) (channels : nat) (clean : bool) (name : Z) :
    list (Event Incoming Outgoing) :=
  [Accept id channels channels (connect_as clean name); Step id (turn OnDecode); Step id (turn OnDecode)].

(** Bytes arrive on a session's stream, and it decodes them. *)
Definition receives (id : string) (l : list Z) : list (Event Incoming Outgoing) :=
  [Network id (sample_stream (wire_bytes l)); Step id (turn OnDecode)].

Definition sample_start : sample_system_type := mkSystem sample_broker ∅.

(** Where some events lead. *)
Definition reached (es : list (Event Incoming Outgoing)) : sample_system_type :=
  default sample_start (exec_all es sample_start).

Definition happens (es : list (Event Incoming Outgoing)) : bool :=
  match exec_all es sample_start with Some _ => true | None => false end.

Lemma happens_reached es : happens es = true → exec_all es sample_start = Some (reached es).
Proof. unfold happens, reached. by destruct (exec_all es sample_start). Qed.

Lemma sample_start_ok : system_ok (SL := memory_laws) sample_start.
Proof. by apply system_ok_start; [by apply sample_broker_wf|..]. Qed.

Lemma reached_ok es : happens es = true → system_ok (SL := memory_laws) (reached es).
Proof. intros H. exact (system_ok_all _ _ _ sample_start_ok (happens_reached es H)). Qed.

(** A session of the system, or nobody's. *)
Definition member_at (es : list (Event Incoming Outgoing)) (id : string) : Member Incoming Outgoing :=
  default (mkMember (session_new "nobody" 0%nat 0%nat (sample_stream [])).2 (mkIncoming [] None)
    (mkOutgoing [] None) Exited) (members (reached es) !! id).

(** What is so after some events, computed. *)
Ltac computed := solve [vm_compute; reflexivity].

(** The client [c] connects three times. *)
Definition three_times : list (Event Incoming Outgoing) :=
  arrives "first" 1 true 99 ++
  [Accept "second" 2%nat 2%nat (connect_as true 99); Step "second" (turn OnDecode); Step "second" (turn OnDecode);
   Complete "second"; Step "first" (turn OnCommand); Step "first" (turn OnDecode)] ++
  arrives "third" 3 true 99.

(** A client can have two sessions at once.  It connects; it connects again,
    and the session of the second connection hands its stream to the first and
    ends, taking the name with it; it connects a third time, and the name is
    free.  Two sessions serve the client, each with a stream of its own. *)
Lemma two_sessions_one_name :
  let live id := (λ m, (m_phase m, rt_client_id (m_rt m))) <$> members (reached three_times) !! id in
  happens three_times = true ∧
  live "first" = Some (InLoop 60, Some "c") ∧ live "third" = Some (InLoop 60, Some "c").
Proof. intros live. split_and!; computed. Qed.

(** From [alice] arrive a message to [t] of level 1, one of level 2, that again,
    and its PUBREL. *)
Definition alice_writes : Event Incoming Outgoing :=
  Network "alice" (sample_stream (wire_bytes
    ([0x32; 6; 0; 1; 0x74; 0; 9; 42] ++ [0x34; 6; 0; 1; 0x74; 0; 7; 43] ++
     [0x3c; 6; 0; 1; 0x74; 0; 7; 43] ++ [0x62; 2; 0; 7]))).

(** A client that listens and a client that sends: [bob] subscribes to [t] at
    level 1, and [alice] writes. *)
Definition letter_events : list (Event Incoming Outgoing) :=
  arrives "alice" 1 true 97 ++ arrives "bob" 2 true 98 ++ receives "bob" [0x82; 6; 0; 1; 0; 1; 0x74; 1] ++
  [alice_writes].

Definition letters : sample_system_type := reached letter_events.

Definition letter : PublishPacket := sample_publish "t" AtLeastOnce (Some 9) false.

Definition secret (again : bool) : PublishPacket :=
  mkPublish "t" (Some 7) [Byte.x2b] ExactlyOnce false again.

Definition letter_packets : list Packet :=
  [Publish letter; Publish (secret false); Publish (secret true); PubRel (mkPubRel 7)].

Lemma letter_packets_wf :
  Forall2 (λ tu pk, branch tu = OnDecode ∧ from_sender pk = true ∧ wf_two_way pk)
    (replicate 4 (turn OnDecode)) letter_packets.
Proof. repeat constructor; vm_compute; done. Qed.

Definition letter_table : Table := {[ ("bob", "t") := (2%nat, AtLeastOnce) ]}.

(** The copies [bob] asks for. *)
Lemma letter_copies dss :
  Forall2 (λ p ds, ds ≡ₚ copies_for p "bob" letter_table) [letter; secret false] dss →
  mjoin dss = [mkPublish "t" None [Byte.x2a] AtLeastOnce false false;
               mkPublish "t" None [Byte.x2b] AtLeastOnce false false].
Proof.
  intros H. apply Forall2_cons_inv_l in H as (d1 & r1 & H1 & H & ->).
  apply Forall2_cons_inv_l in H as (d2 & r2 & H2 & H & ->). apply Forall2_nil_inv_l in H as ->.
  assert (copies_for letter "bob" letter_table = [mkPublish "t" None [Byte.x2a] AtLeastOnce false false])
    as E1 by (vm_compute; reflexivity).
  assert (copies_for (secret false) "bob" letter_table = [mkPublish "t" None [Byte.x2b] AtLeastOnce false false])
    as E2 by (vm_compute; reflexivity).
  rewrite E1 in H1. rewrite E2 in H2.
  apply Permutation_singleton_r in H1 as ->. by apply Permutation_singleton_r in H2 as ->.
Qed.

Lemma letters_happen : happens letter_events = true.
Proof. computed. Qed.

(** The router's maps after [bob]'s SUBSCRIBE. *)
Definition bob_listens : RouterInternal :=
  data (for_each (E := Empty_set) [CallSubscribe "bob" 2%nat [("t", AtLeastOnce)]] perform
    (mkRouter (MP := queue_mpsc) internal_new memory_new 2 ∅)).1.

Lemma bob_listens_rep : rep letter_table bob_listens.
Proof.
  destruct (perform_all (E := Empty_set) (SL := memory_laws) (MP := queue_mpsc)
    [CallSubscribe "bob" 2%nat [("t", AtLeastOnce)]]
    (mkRouter internal_new memory_new 2 ∅) ∅ memory_inv_new rep_new) as (r & E1 & H1).
  unfold bob_listens. rewrite E1. exact H1.
Qed.

Lemma letters_rep : rep letter_table (data (router (sys_broker letters))).
Proof.
  assert (data (router (sys_broker letters)) = bob_listens) as -> by computed. apply bob_listens_rep.
Qed.

(** Mailboxes with as much room as a computation finds have room. *)
Lemma room_for_forallb (l : list (Mailbox * PublishPacket)) (r : Router (MP := queue_mpsc) InMemoryStorage) :
  forallb (λ '(mb, c), bool_decide (length (queued c) + length (for_mailbox mb l) ≤ capacity c)%nat)
    (map_to_list (mailboxes r)) = true →
  room_for l r.
Proof.
  rewrite forallb_forall. intros H mb c Hc _. apply elem_of_map_to_list, list_elem_of_In in Hc.
  specialize (H (mb, c) Hc). by apply bool_decide_eq_true in H.
Qed.

Lemma system_invariant_witness :
  exec_all letter_events sample_start = Some letters ∧
  ∃ t m, rep t (data (router (sys_broker letters))) ∧ members letters !! "bob" = Some m ∧
    is_Some (mailboxes (router (sys_broker letters)) !! rt_message_tx (m_rt m)).
Proof.
  pose proof (happens_reached _ letters_happen) as H. split; [exact H|].
  destruct (system_invariant (SL := memory_laws) default_config memory_new AllowAll AllowAll letter_events
    letters memory_inv_new (memory_new_wf _) H) as (Hm & (t & Ht & _) & _).
  assert (members letters !! "bob" = Some (member_at letter_events "bob")) as Hb by computed.
  exists t, (member_at letter_events "bob"). split_and!; [exact Ht|exact Hb|].
  apply (Hm "bob" _ Hb).
Defined.

Lemma messages_arrive_witness :
  let alice := member_at letter_events "alice" in
  let bob := member_at letter_events "bob" in
  let copy i b := Publish (mkPublish "t" (Some i) [b] AtLeastOnce false false) in
  ∃ s1 s2 alice' bob', exec_all (replicate 4 (Step "alice" (turn OnDecode))) letters = Some s1 ∧
    members s1 !! "alice" = Some alice' ∧
    took (m_writer alice) [PubAck (mkPubAck 9); PubRec (mkPubRec 7); PubRec (mkPubRec 7); PubComp (mkPubComp 7)]
      (m_writer alice') ∧
    exec_all (replicate 2 (Step "bob" (turn OnMessage))) s1 = Some s2 ∧
    members s2 !! "bob" = Some bob' ∧
    took (m_writer bob) [copy 1 Byte.x2a; copy 2 Byte.x2b] (m_writer bob').
Proof.
  intros alice bob copy.
  assert (members letters !! "alice" = Some alice) as Ha by computed.
  assert (m_phase alice = InLoop 60) as Pa by computed.
  assert (connected (m_writer alice)) as Wa by computed.
  assert (arrived (incoming (m_reader alice)) = packets_bytes letter_packets ++ []) as Ra by computed.
  assert (passed (sys_broker letters) (client_name (m_rt alice))
    (take_all letter_packets (rt_inbound_qos2 (m_rt alice))).1 = [letter; secret false]) as Hl by computed.
  assert (room_for (all_deliveries [letter; secret false] letter_table) (router (sys_broker letters))) as Hroom
    by (apply room_for_forallb; computed).
  assert (members letters !! "bob" = Some bob) as Hb by computed.
  assert (m_phase bob = InLoop 60) as Pb by computed.
  assert (connected (m_writer bob)) as Wb by computed.
  assert (mailboxes (router (sys_broker letters)) !! rt_message_tx (m_rt bob) = Some (mpsc_channel 100))
    as Cb by computed.
  rewrite <- Hl in Hroom.
  destruct (messages_arrive (SL := memory_laws) letters "alice" "bob" alice bob 60 60 letter_packets []
    _ (turn OnMessage) _ letter_table (reached_ok _ letters_happen) ltac:(done)
    Ha Pa Wa letter_packets_wf Ra letters_rep Hroom Hb Pb Wb eq_refl eq_refl Cb eq_refl)
    as (s1 & s2 & alice' & bob' & dss & H1 & H2 & H3 & _ & H4 & H5 & H6 & H7).
  rewrite Hl in H6. apply letter_copies in H6. rewrite H6 in H4, H7.
  assert (rt_next_packet_id (m_rt bob) = 1) as Hn by computed. rewrite Hn in H7.
  exists s1, s2, alice', bob'. split; [exact H1|]. split; [exact H2|]. split; [exact H3|].
  split; [exact H4|]. split; [exact H5|exact H7].
Defined.
