(* ===== verification/SystemLife.v ===== *)
(** Clients that come back: a client whose session is live or away connects
    again, and the session goes on with the new stream, through the steps of
    both sessions; and what was published while it was away arrives. *)

From S2P Require Import Prelude External Packet Codec CodecSim CodecFacts Topic Storage MemoryStorage Config Auth.
From S2P Require Import Router RouterFacts RouterProps Broker Session Lifecycle SessionInv SessionSafe.
From S2P Require Import SessionFacts Samples Receiver PersistProps ConnectProps LifeProps SessionFrame System SystemProps.

Local Open Scope Z_scope.

Section SystemLife.
Context {BC : BytesCrate} {BL : BytesLaws} {MP : Mpsc} {MPL : MpscLaws}.
Context {HO : HashOrder} {HOL : HashOrderLaws} {S : Type} {ST : Storage S} {SL : StorageLaws S}.
Context {R W : Type} {AR : AsyncRead R} {ARL : AsyncReadLaws R} {AW : AsyncWrite W} {AWL : AsyncWriteLaws W}
  {CN : Connection W}.
Context {Au Az : Type} {AU : Authenticator Au} {AZ : Authorizer Az} {SR : StorageReliable S}.

Abbreviation Env := (Env (S := S) (R := R) (W := W) (Au := Au) (Az := Az)).
Abbreviation Broker := (Broker S R W Au Az).
Abbreviation System := (System (S := S) (R := R) (W := W) (Au := Au) (Az := Az)).
Implicit Types (s : System) (m : Member R W) (b : Broker) (v : Env).

(** A session that has just been accepted, on its stream. *)
Definition newcomer (id : string) (ctx : CommandTx) (mtx : Mailbox) (stream : R * W) : Member R W :=
  mkMember (session_new id ctx mtx stream).2 stream.1 stream.2 (Enter Waiting).

(** Its runtime once it has taken the stream and let the client in. *)
Definition let_in (id : string) (ctx : CommandTx) (mtx : Mailbox) (c : ConnectPacket) : Runtime R W :=
  entered c (mkRuntime id None (make_takeover ctx) ctx mtx None true 0 None 1 [] ∅).

Lemma let_in_fields id ctx mtx c :
  str_is_empty (client_id c) = false →
  rt_id (let_in id ctx mtx c) = id ∧ rt_command_rx (let_in id ctx mtx c) = ctx ∧
  rt_message_tx (let_in id ctx mtx c) = mtx ∧
  rt_client_id (let_in id ctx mtx c) = Some (client_id c).
Proof. intros He. unfold let_in, entered. rewrite He. by destruct (stored_will c). Qed.

(** The CONNECT of a client whose name a session has: its session hands the
    stream over and has nothing left to do. *)
Lemma hand_over s id ctx mtx rd w rd' c t tx ch tb :
  members s !! id = Some (newcomer id ctx mtx (rd, w)) →
  branch t = OnDecode → decode rd = (rd', Ok (Connect c)) →
  admitted (authenticator (sys_broker s)) c → str_is_empty (client_id c) = false →
  stored_will c = None → named_clients (sys_broker s) !! client_id c = Some tx →
  commands (sys_broker s) !! tx = Some ch → (length (queued ch) < capacity ch)%nat → tx ≠ ctx →
  rep tb (data (router (sys_broker s))) →
  let ch' := push (Takeover (mkTakeover (rd', w) (clean_session c) (keep_alive c))) ch in
  ∃ d, exec_all [Step id t; Step id t; Complete id] s =
      Some (mkSystem (without_session (let_in id ctx mtx c) d
              (with_commands (<[tx := ch']> (commands (sys_broker s))) (sys_broker s)))
              (delete id (members s))) ∧
    rep (table_unsubscribe_all id tb) d.
Proof.
  intros Hm Hb Hd Ha He Hw Hn Hch Hroom Hne Ht ch'.
  set (v0 := mkEnv (set_stream None (session_new id ctx mtx (rd, w)).2) rd' w (sys_broker s)).
  destruct (connect_takes_over (E := Empty_set) (at_instant t) c v0 tx ch tb Ha He Hn Hch Hroom Hne Ht)
    as (v1 & E1 & _ & Hrt & Hbr & _). change (rt v1 = let_in id ctx mtx c) in Hrt.
  assert (run_step (E := Empty_set) t (Enter Waiting) (env_of s (newcomer id ctx mtx (rd, w))) =
    (v1, Ok (Enter Cleanup))) as S1.
  { cbn [run_step]. unfold do_waiting, take_stream. rewrite !bind_assoc, bind_gets. cbn.
    rewrite Hb. unfold decode_packet, attempt, zoom, mbind, M_bind. cbn. rewrite Hd.  change (with_reader _ _) with v0. by rewrite E1. }
  assert (rt_will_message (rt v1) = None) as Hwill.
  { rewrite Hrt. unfold let_in, entered. by rewrite He, Hw. }
  assert (run_step (E := Empty_set) t (Enter Cleanup) v1 = (v1, Ok Exited)) as S2.
  { cbn [run_step]. by rewrite (bind_Ok _ _ _ _ _ (publish_will_none _ _ Hwill)). }
  destruct (session_end_spec (E := Empty_set) v1 tb) as (d & S3 & Hd'); [unfold env_router; by rewrite Hbr|].
  exists d. cbn [exec_all].
  rewrite (exec_step _ _ _ _ _ _ Hm S1). cbn [mbind option_bind].
  erewrite exec_step; [|apply lookup_insert_eq|rewrite env_of_member; exact S2].
  cbn [mbind option_bind members]. rewrite insert_insert_eq. cbn [exec members].
  rewrite lookup_insert_eq. cbn [mbind option_bind m_phase member_of]. rewrite env_of_member, S3.
  cbn [mbind option_bind]. rewrite delete_insert_eq. cbn [broker with_broker].
  rewrite Hrt, Hbr. rewrite Hrt in Hd'. destruct (let_in_fields id ctx mtx c He) as [Hid _].
  rewrite Hid in Hd'. by split.
Qed.
(** The session that has the name, from the command to its loop. *)
Definition resumed (clean : bool) (keep : Z) (stream : R * W) (m : Member R W) : Member R W :=
  mkMember (set_stream None (taken clean keep (m_rt m))) stream.1 stream.2 (InLoop keep).

Lemma take_up s id m params ch l t tb :
  members s !! id = Some m → takes_commands t (m_phase m) (env_of s m) →
  commands (sys_broker s) !! rt_command_rx (m_rt m) = Some ch → queued ch = Takeover params :: l →
  connected (to_stream params).2 → storage_inv (storage (router (sys_broker s))) →
  rep tb (data (router (sys_broker s))) →
  let clean := to_clean_session params in
  let b := with_commands (<[rt_command_rx (m_rt m) := pop ch]> (commands (sys_broker s))) (sys_broker s) in
  ∃ b' w', exec_all [Step id t; Step id t] s =
      Some (mkSystem b' (<[id := resumed clean (to_keep_alive params) ((to_stream params).1, w') m]> (members s))) ∧
    took (to_stream params).2 [ConnAck (mkConnAck (negb clean) 0)] w' ∧
    after_takeover clean (rt_client_id (m_rt m)) (rt_id (m_rt m)) tb b b'.
Proof.
  intros Hm Hph Hch Hq Hn Hs Ht clean b.
  destruct (taken_over (E := Empty_set) t (m_phase m) params ch l (env_of s m) tb Hph Hch Hq Hn Hs Ht)
    as (v1 & w' & S1 & T1 & Hrt & Hb). fold clean in T1, Hrt, Hb.
  assert (run_step (E := Empty_set) t (Enter Processing) v1 =
    (mkEnv (set_stream None (rt v1)) (to_stream params).1 w' (broker v1),
     Ok (InLoop (to_keep_alive params)))) as S2.
  { cbn [run_step]. unfold take_stream. rewrite bind_assoc, bind_gets, Hrt. cbn.
    unfold modify, gets, mbind, M_bind, mret, M_ret. cbn. rewrite Hrt. by destruct clean. }
  exists (broker v1), w'. split; [|by split]. cbn [exec_all].
  rewrite (exec_step _ _ _ _ _ _ Hm S1). cbn [mbind option_bind].
  erewrite exec_step; [|apply lookup_insert_eq|rewrite env_of_member; exact S2].
  cbn [mbind option_bind members]. rewrite insert_insert_eq. by rewrite Hrt.
Qed.

(** The session that has a name is the member with its command channel. *)
Lemma named_member s id m k :
  system_ok s → members s !! id = Some m →
  named_clients (sys_broker s) !! k = Some (rt_command_rx (m_rt m)) → rt_client_id (m_rt m) = Some k.
Proof.
  intros Hok Hm Hk. destruct (so_named s Hok k _ Hk) as (id' & m' & Hm' & E & Hid).
  assert (id' = id) as -> by by apply (so_commands s Hok id' id m' m). congruence.
Qed.

(** A client connects again: its name leads to the session [m], which has no
    command waiting and room for one, and the session of the new connection finds
    its CONNECT on the stream.  The CONNECT carries no Will: the session that hands
    the stream over takes the Will of the CONNECT with it and routes it in its
    clean-up, so that with one, copies of it would be in the mailboxes. *)
Record reconnects s (id : string) m (id' : string) (ctx : CommandTx) (mtx : Mailbox)
    (rd : R) (w : W) (rd' : R) (c : ConnectPacket) : Prop := {
  rc_member : members s !! id = Some m;
  rc_newcomer : members s !! id' = Some (newcomer id' ctx mtx (rd, w));
  rc_connected : connected w;
  rc_connect : decode rd = (rd', Ok (Connect c));
  rc_admitted : admitted (authenticator (sys_broker s)) c;
  rc_name : str_is_empty (client_id c) = false;
  rc_will : stored_will c = None;
  rc_named : named_clients (sys_broker s) !! client_id c = Some (rt_command_rx (m_rt m));
  rc_room : ∃ ch, commands (sys_broker s) !! rt_command_rx (m_rt m) = Some ch ∧ queued ch = [] ∧
              (0 < capacity ch)%nat;
}.

(** It is another session, with channels of its own. *)
Lemma reconnects_other s id m id' ctx mtx rd w rd' c t :
  system_ok s → reconnects s id m id' ctx mtx rd w rd' c → takes_commands t (m_phase m) (env_of s m) →
  id ≠ id' ∧ rt_command_rx (m_rt m) ≠ ctx ∧ rt_message_tx (m_rt m) ≠ mtx.
Proof.
  intros Hok [Hm Hm' _ _ _ _ _ _ _] Hph.
  assert (id ≠ id') as Hid by (intros ->; rewrite Hm in Hm'; simplify_eq; by destruct Hph as [[=]|([? [=]] & _)]).
  split; [done|]. split; intros E; apply Hid;
    [by apply (so_commands s Hok id id' m _ Hm Hm')|by apply (so_mailboxes s Hok id id' m _ Hm Hm')].
Qed.

(** What other sessions do, or its own session receives, does not matter. *)
Lemma reconnects_after s id m id' ctx mtx rd w rd' c r x y m1 :
  reconnects s id m id' ctx mtx rd w rd' c → x ≠ id' →
  <[x := y]> (members s) !! id = Some m1 → rt_command_rx (m_rt m1) = rt_command_rx (m_rt m) →
  reconnects (mkSystem (with_router r (sys_broker s)) (<[x := y]> (members s))) id m1 id' ctx mtx rd w rd' c.
Proof.
  intros [H1 H2 H3 H4 H5 H6 H7 H8 H9] Hx Hm1 E. split; cbn; rewrite ?E; try done.
  by rewrite lookup_insert_ne.
Qed.

(** The subscriptions once it has come back. *)
Definition subscriptions_after (clean : bool) (id id' : string) (t : Table) : Table :=
  let left := table_unsubscribe_all id' t in if clean then table_unsubscribe_all id left else left.

(** The events of both sessions. *)
Definition coming_back (id id' : string) (t t' : Turn) : list (Event R W) :=
  [Step id' t'; Step id' t'; Complete id'] ++ [Step id t; Step id t].

Lemma comes_back s id id' m ctx mtx rd w rd' c t t' tb :
  system_ok s → reconnects s id m id' ctx mtx rd w rd' c →
  takes_commands t (m_phase m) (env_of s m) → branch t' = OnDecode →
  rep tb (data (router (sys_broker s))) →
  ∃ b' w', exec_all (coming_back id id' t t') s =
      Some (mkSystem b' (<[id := resumed (clean_session c) (keep_alive c) (rd', w') m]>
        (delete id' (members s)))) ∧
    took w [ConnAck (mkConnAck (negb (clean_session c)) 0)] w' ∧
    mailboxes (router b') = delete mtx (mailboxes (router (sys_broker s))) ∧
    rep (subscriptions_after (clean_session c) id id' tb) (data (router b')) ∧
    named_clients b' = delete (client_id c) (named_clients (sys_broker s)) ∧
    authorizer b' = authorizer (sys_broker s).
Proof.
  intros Hok Hrc Hph Hb Ht.
  destruct (reconnects_other s id m id' ctx mtx rd w rd' c t Hok Hrc Hph) as (Hid & Hctx & _).
  destruct Hrc as [Hm Hm' Hw Hd Ha He Hwill Hn (ch & Hch & Hq & Hcap)].
  destruct (hand_over s id' ctx mtx rd w rd' c t' _ ch tb Hm' Hb Hd Ha He Hwill Hn Hch)
    as (d & E1 & Hd'); [by rewrite Hq|done|done|].
  set (params := mkTakeover (rd', w) (clean_session c) (keep_alive c)) in E1.
  destruct (let_in_fields id' ctx mtx c He) as (Fi & Fc & Fm & Fn).
  set (s1 := mkSystem _ _) in E1.
  destruct (take_up s1 id m params (push (Takeover params) ch) [] t (table_unsubscribe_all id' tb))
    as (b' & w' & E2 & T & A).
  { unfold s1. cbn. by rewrite lookup_delete_ne. }
  { exact Hph. }
  { unfold s1, without_session. cbn. rewrite Fc, lookup_delete_ne by done. apply lookup_insert_eq. }
  { by rewrite queued_push, Hq. }
  { exact Hw. }
  { apply (so_broker s Hok). }
  { exact Hd'. }
  exists b', w'. unfold coming_back.
  rewrite exec_all_app, E1. cbn [mbind option_bind]. split; [exact E2|].
  split; [exact T|]. destruct A as [[r' ->] A2 A3 A4].
  rewrite A2. unfold s1. cbn. rewrite Fn, Fm. split_and!; try done.
  pose proof (so_members s Hok id m Hm) as [_ M2 _ _ _ _ _]. rewrite <- M2 at 1. exact A3.
Qed.

(** C16: a client that connects again goes on with its session.  Its name leads to
    a session there is, live or away.  The session of the new connection decodes
    the CONNECT, hands its stream over and ends; the other takes the stream up:
    it answers CONNACK 0, with session present unless the client wants a clean
    session, and is in its loop with the keep-alive of the CONNECT.  It keeps its
    packet counter, its inbound messages, its Will and its mailbox, and unless
    the client wants a clean session its subscriptions and the messages in
    flight.  No other session has changed, but none has the name any more: the
    next CONNECT with it finds no session.  This is for a CONNECT without a Will,
    and a session that has no other command waiting ([reconnects]); a Will would be
    published by the session that ends, into the mailboxes that are said here to
    be kept. *)
Theorem client_comes_back s id id' m ctx mtx rd w rd' c t t' tb :
  system_ok s → reconnects s id m id' ctx mtx rd w rd' c →
  takes_commands t (m_phase m) (env_of s m) → branch t' = OnDecode →
  rep tb (data (router (sys_broker s))) →
  ∃ s' m', exec_all (coming_back id id' t t') s = Some s' ∧
    members s' = <[id := m']> (delete id' (members s)) ∧
    m_phase m' = InLoop (keep_alive c) ∧ m_reader m' = rd' ∧
    took w [ConnAck (mkConnAck (negb (clean_session c)) 0)] (m_writer m') ∧
    rt_clean_session (m_rt m') = clean_session c ∧
    rt_next_packet_id (m_rt m') = rt_next_packet_id (m_rt m) ∧
    rt_inbound_qos2 (m_rt m') = rt_inbound_qos2 (m_rt m) ∧
    rt_will_message (m_rt m') = rt_will_message (m_rt m) ∧
    rt_inflight_queue (m_rt m') = (if clean_session c then [] else rt_inflight_queue (m_rt m)) ∧
    (∀ mb, mb ≠ mtx → mailboxes (router (sys_broker s')) !! mb = mailboxes (router (sys_broker s)) !! mb) ∧
    (∀ sid f, sid ≠ id' → sub (data (router (sys_broker s'))) sid f =
       if clean_session c && bool_decide (sid = id) then None
       else sub (data (router (sys_broker s))) sid f) ∧
    named_clients (sys_broker s') !! client_id c = None.
Proof.
  intros. destruct (comes_back s id id' m ctx mtx rd w rd' c t t' tb)
    as (b' & w' & E1 & T & Hmb & Ht & Hn & _); [done..|].
  eexists _, _. split; [exact E1|]. split; [done|]. split; [done|]. split; [done|].
  split; [exact T|]. cbn. rewrite Hmb, Hn, lookup_delete_eq.
  split_and!; [by destruct (clean_session c)..| | |done].
  - intros mb Hne. by rewrite lookup_delete_ne.
  - intros sid f Hne. rewrite <- (rep_sub _ _ Ht), <- (rep_sub tb) by done. unfold subscriptions_after.
    destruct (clean_session c); cbn [andb]; rewrite !table_unsubscribe_all_rows;
      rewrite (decide_False (P := sid = id')) by done; [|done].
    by destruct (decide (sid = id)) as [Hd|Hd]; [rewrite bool_decide_true|rewrite bool_decide_false].
Qed.

(** C17: messages published while a client is away are there when it comes back.
    A connected session is sent PUBLISH and PUBREL packets; the subscriber's
    session is away, its mailbox empty; every mailbox has room.  Then the
    subscriber connects again, keeping its session, with a CONNECT that carries no
    Will and no other command waiting ([reconnects]), and its session works off its
    mailbox: on the new stream are CONNACK with session present and the messages
    that a receiver hands on and that go through, in their order, once for each
    subscription whose filter matches, at the lower of the two levels, numbered
    from where the session was. *)
Theorem absent_client_gets s ida ma ka ps rest ts id m id' ctx mtx rd w rd' c q t t' tm tb :
  system_ok s → ida ≠ id → members s !! ida = Some ma → m_phase ma = InLoop ka → connected (m_writer ma) →
  Forall2 (λ tu pk, branch tu = OnDecode ∧ from_sender pk = true ∧ wf_two_way pk) ts ps →
  arrived (incoming (m_reader ma)) = packets_bytes ps ++ rest →
  rep tb (data (router (sys_broker s))) →
  let l := passed (sys_broker s) (client_name (m_rt ma)) (take_all ps (rt_inbound_qos2 (m_rt ma))).1 in
  room_for (all_deliveries l tb) (router (sys_broker s)) →
  m_phase m = AwaitCommand →
  mailboxes (router (sys_broker s)) !! rt_message_tx (m_rt m) = Some q → queued q = [] →
  reconnects s id m id' ctx mtx rd w rd' c → clean_session c = false → branch t' = OnDecode →
  branch tm = OnMessage → polled tm = false →
  ∃ s1 s2 s3 m' dss,
    exec_all (Step ida <$> ts) s = Some s1 ∧
    exec_all (coming_back id id' t t') s1 = Some s2 ∧
    exec_all (replicate (length (mjoin dss)) (Step id tm)) s2 = Some s3 ∧
    members s3 !! id = Some m' ∧ Forall2 (λ p ds, ds ≡ₚ copies_for p id tb) l dss ∧
    took w (ConnAck (mkConnAck true 0) :: (Publish <$> numbered (rt_next_packet_id (m_rt m)) (mjoin dss)))
      (m_writer m').
Proof.
  intros Hok Hne Hma Hka Hwa Hps Hr Ht l Hroom Haway Hq Hq0 Hrc Hcl Hb Hbm Hpl.
  assert (takes_commands t (m_phase m) (env_of s m)) as Hph by by left.
  destruct (reconnects_other _ _ _ _ _ _ _ _ _ _ t Hok Hrc Hph) as (Hid & _ & Hmtx).
  pose proof (rc_member _ _ _ _ _ _ _ _ _ _ Hrc) as Hm.
  assert (ida ≠ id') as Hne'.
  { intros ->. pose proof (rc_newcomer _ _ _ _ _ _ _ _ _ _ Hrc). rewrite Hma in H. by simplify_eq/=. }
  destruct (packets_arrive ps rest ts s ida ma ka tb) as (r' & w1 & rd1 & E1 & _ & D & _); [done..|].
  destruct (delivered_copies tb l s r' id m q Hok Ht Hm D Hq) as (q' & dss & Hq' & Hqds & Hdss).
  rewrite Hq0, app_nil_l in Hqds. set (s1 := mkSystem _ _) in E1.
  assert (members s1 !! id = Some m) as Hm1 by (unfold s1; cbn; by rewrite lookup_insert_ne).
  destruct (comes_back s1 id id' m ctx mtx rd w rd' c t t' tb)
    as (b' & w' & E2 & T2 & Hmb & _); [by eapply system_ok_all|by eapply reconnects_after|done|done| |].
  { unfold s1. cbn. by rewrite (dl_data _ _ _ _ D). }
  rewrite Hcl in E2, T2. set (m2 := resumed _ _ _ _) in E2. set (s2 := mkSystem _ _) in E2.
  destruct (drain_mailbox (mjoin dss) tm (keep_alive c) id q' s2 m2 Hbm Hpl) as (s3 & m3 & E3 & Hm3 & _ & T3);
    [apply lookup_insert_eq|done|apply T2| |exact Hqds|by eapply all_copies_not_dup|].
  { unfold s2. cbn. by rewrite Hmb, lookup_delete_ne. }
  exists s1, s2, s3, m3, dss. split_and!; [done..|]. by eapply (took_app _ [_]).
Qed.

Lemma copies_for_after p idb clean id id' t :
  idb ≠ id → idb ≠ id' → copies_for p idb (subscriptions_after clean id id' t) ≡ₚ copies_for p idb t.
Proof.
  intros H1 H2. unfold subscriptions_after. destruct clean; rewrite ?copies_for_unsubscribed by done; done.
Qed.

Lemma room_for_after l clean id id' t (r r' : Router S) mtx :
  mailboxes r' = delete mtx (mailboxes r) → room_for (all_deliveries l t) r →
  room_for (all_deliveries l (subscriptions_after clean id id' t)) r'.
Proof.
  intros Hmb H. apply (room_for_fewer _ (all_deliveries l t)).
  - unfold subscriptions_after. destruct clean; [|apply all_deliveries_unsubscribed].
    etrans; apply all_deliveries_unsubscribed.
  - intros mb c Hc. rewrite Hmb in Hc. apply lookup_delete_Some in Hc as [_ Hc]. by apply H.
Qed.

(** A message that goes through does so once if it is handed on once. *)
Lemma passed_once b name i p l :
  filter (numbered_as i) l = [p] → passes (authorizer b) name p = true →
  filter (numbered_as i) (passed b name l) = [p].
Proof.
  intros H Hp. transitivity (filter (passes (authorizer b) name) (filter (numbered_as i) l)).
  - unfold passed. rewrite !list_filter_filter. apply list_filter_iff. intros x. tauto.
  - by rewrite H, filter_cons_True by (rewrite Hp; exact I).
Qed.

(** A client sends, connects again and goes on sending: what goes through is what
    one receiver hands on that is sent everything. *)
Lemma sends_across s id m k ps1 rest1 ts1 id' ctx mtx rd w rd' c t t' ps2 rest2 ts2 tb :
  system_ok s → m_phase m = InLoop k → connected (m_writer m) →
  Forall2 (λ tu pk, branch tu = OnDecode ∧ from_sender pk = true ∧ wf_two_way pk) ts1 ps1 →
  arrived (incoming (m_reader m)) = packets_bytes ps1 ++ rest1 →
  reconnects s id m id' ctx mtx rd w rd' c → branch t = OnCommand → branch t' = OnDecode →
  Forall2 (λ tu pk, branch tu = OnDecode ∧ from_sender pk = true ∧ wf_two_way pk) ts2 ps2 →
  arrived (incoming rd') = packets_bytes ps2 ++ rest2 →
  rep tb (data (router (sys_broker s))) →
  let l ps held := passed (sys_broker s) (client_name (m_rt m)) (take_all ps held).1 in
  let held := rt_inbound_qos2 (m_rt m) in
  let held' := (take_all ps1 held).2 in
  room_for (all_deliveries (l ps1 held ++ l ps2 held') tb) (router (sys_broker s)) →
  let tb' := subscriptions_after (clean_session c) id id' tb in
  ∃ s1 s2 s3 m3,
    exec_all (Step id <$> ts1) s = Some s1 ∧ exec_all (coming_back id id' t t') s1 = Some s2 ∧
    exec_all (Step id <$> ts2) s2 = Some s3 ∧
    delivered tb (l ps1 held) (router (sys_broker s)) (router (sys_broker s1)) ∧
    mailboxes (router (sys_broker s2)) = delete mtx (mailboxes (router (sys_broker s1))) ∧
    system_ok s2 ∧ rep tb' (data (router (sys_broker s2))) ∧
    delivered tb' (l ps2 held') (router (sys_broker s2)) (router (sys_broker s3)) ∧
    (∀ x, x ≠ id → members s2 !! x = delete id' (members s) !! x) ∧
    members s3 = <[id := m3]> (delete id' (members s)) ∧
    took w (ConnAck (mkConnAck (negb (clean_session c)) 0) :: replies ps2) (m_writer m3).
Proof.
  intros Hok Hk Hw1 Hps1 Hr1 Hrc Hbt Hb Hps2 Hr2 Ht l held held' Hroom tb'.
  destruct (room_for_app (l ps1 held) (l ps2 held') tb _ (router (sys_broker s)) Hroom) as [Hroom1 _].
  pose proof (rc_member _ _ _ _ _ _ _ _ _ _ Hrc) as Hm.
  destruct (reconnects_other _ _ _ _ _ _ _ _ _ _ t Hok Hrc) as (Hid & _).
  { right. by split; [exists k|]. }
  destruct (packets_arrive ps1 rest1 ts1 s id m k tb) as (r1 & w1 & rd1 & E1 & T1 & D1 & _); [done..|].
  set (m1 := receiving _ _ _ _) in E1. set (s1 := mkSystem _ _) in E1.
  destruct (comes_back s1 id id' m1 ctx mtx rd w rd' c t t' tb)
    as (b2 & w2 & E2 & T2 & Hmb & Ht2 & _ & Haz).
  { by eapply system_ok_all. }
  { eapply reconnects_after; [done..| |]; [apply lookup_insert_eq|done]. }
  { right. split; [by exists k|]. split; [done|]. apply T1. }
  { done. }
  { unfold s1. cbn. by rewrite (dl_data _ _ _ _ D1). }
  set (m2 := resumed _ _ _ _) in E2. set (s2 := mkSystem b2 _) in E2.
  assert (system_ok s2) as Hok2 by (eapply system_ok_all; [|exact E2]; by eapply system_ok_all).
  assert (rt_inbound_qos2 (m_rt m2) = held') as Hheld by by (unfold m2; cbn; destruct (clean_session c)).
  assert (client_name (m_rt m2) = client_name (m_rt m)) as Hname
    by by (unfold m2; cbn; destruct (clean_session c)).
  assert (passed b2 (client_name (m_rt m2)) (take_all ps2 (rt_inbound_qos2 (m_rt m2))).1 = l ps2 held') as Hl2.
  { unfold passed. by rewrite Haz, Hheld, Hname. }
  destruct (packets_arrive ps2 rest2 ts2 s2 id m2 (keep_alive c) tb') as (r3 & w3 & rd3 & E3 & T3 & D3 & _);
    [done|apply lookup_insert_eq|done|apply T2|done|exact Hr2|done| |].
  { cbn [sys_broker s2]. rewrite Hl2. eapply room_for_after; [exact Hmb|].
    exact (proj2 (room_for_app _ _ _ _ _ Hroom) D1). }
  cbn [sys_broker s2] in D3. rewrite Hl2 in D3.
  exists s1, s2. eexists _, _. split; [exact E1|]. split; [exact E2|]. split; [exact E3|].
  split; [exact D1|]. split; [exact Hmb|]. split; [done|]. split; [done|]. split; [exact D3|].
  assert (delete id' (members s1) = <[id := m1]> (delete id' (members s))) as Ems.
  { unfold s1. cbn. by rewrite delete_insert_ne. }
  unfold s2. cbn [members]. rewrite Ems, !insert_insert_eq.
  split; [intros x Hx; by rewrite lookup_insert_ne|]. split; [done|]. by apply (took_app _ [_] w2).
Qed.

(** C4: a message of level 2 arrives once, across connections.  A client sends
    PUBLISH and PUBREL packets; it connects again, in the middle of what it likes,
    while its session is in its loop, with a CONNECT that carries no Will and no
    other command waiting ([reconnects]), and goes on sending.  Those of the packets,
    on both connections, that carry one identifier are a PUBLISH, the same again
    any number of times, and PUBRELs.  Then among the messages that go through
    there is one of level 2 with the identifier, the first; and what a connected
    session has written that works off its mailbox are the copies of these
    messages, in their order, once for each subscription whose filter matches. *)
Theorem exactly_once_delivered s ida ma ka ps1 rest1 ts1 id' ctx mtx rd w rd' c t t' ps2 rest2 ts2
    i p qs n idb mb kb q tb tbl :
  system_ok s → m_phase ma = InLoop ka → connected (m_writer ma) →
  Forall2 (λ tu pk, branch tu = OnDecode ∧ from_sender pk = true ∧ wf_two_way pk) ts1 ps1 →
  arrived (incoming (m_reader ma)) = packets_bytes ps1 ++ rest1 →
  reconnects s ida ma id' ctx mtx rd w rd' c → branch t = OnCommand → branch t' = OnDecode →
  Forall2 (λ tu pk, branch tu = OnDecode ∧ from_sender pk = true ∧ wf_two_way pk) ts2 ps2 →
  arrived (incoming rd') = packets_bytes ps2 ++ rest2 →
  rt_inbound_qos2 (m_rt ma) !! i = None →
  filter (concerns i) (ps1 ++ ps2) =
    (Publish <$> p :: qs) ++ replicate (Datatypes.S n) (PubRel (mkPubRel i)) →
  passes (authorizer (sys_broker s)) (client_name (m_rt ma)) p = true →
  rep tbl (data (router (sys_broker s))) →
  let l := passed (sys_broker s) (client_name (m_rt ma)) (take_all (ps1 ++ ps2) (rt_inbound_qos2 (m_rt ma))).1 in
  room_for (all_deliveries l tbl) (router (sys_broker s)) →
  idb ≠ ida → members s !! idb = Some mb → m_phase mb = InLoop kb → connected (m_writer mb) →
  branch tb = OnMessage → polled tb = false →
  mailboxes (router (sys_broker s)) !! rt_message_tx (m_rt mb) = Some q → queued q = [] →
  filter (numbered_as i) l = [p] ∧
  ∃ s1 s2 s3 s4 mb' dss,
    exec_all (Step ida <$> ts1) s = Some s1 ∧ exec_all (coming_back ida id' t t') s1 = Some s2 ∧
    exec_all (Step ida <$> ts2) s2 = Some s3 ∧
    exec_all (replicate (length (mjoin dss)) (Step idb tb)) s3 = Some s4 ∧
    members s4 !! idb = Some mb' ∧ Forall2 (λ p ds, ds ≡ₚ copies_for p idb tbl) l dss ∧
    took (m_writer mb) (Publish <$> numbered (rt_next_packet_id (m_rt mb)) (mjoin dss)) (m_writer mb').
Proof.
  intros Hok Hka Hwa Hps1 Hr1 Hrc Hbt Hb Hps2 Hr2 Hi Hex Hpass Ht l Hroom Hne Hmb Hkb Hwb Hbm Hpl Hq Hq0.
  split.
  { pose proof (rc_member _ _ _ _ _ _ _ _ _ _ Hrc) as Hma.
    destruct (so_members s Hok ida ma Hma) as [[_ _ _ Hin] _ _ _ _ _ _].
    destruct (handed_on_once i p qs n (ps1 ++ ps2) (rt_inbound_qos2 (m_rt ma))) as [Hone _]; [|done|done|].
    { intros j x Hx. destruct (Hin j x Hx). by split. }
    by apply passed_once. }
  assert (idb ≠ id') as Hne'.
  { intros ->. pose proof (rc_newcomer _ _ _ _ _ _ _ _ _ _ Hrc). rewrite Hmb in H. by simplify_eq/=. }
  assert (rt_message_tx (m_rt mb) ≠ mtx) as Hmtx.
  { intros E. apply Hne'. by apply (so_mailboxes s Hok idb id' mb _ Hmb (rc_newcomer _ _ _ _ _ _ _ _ _ _ Hrc)). }
  unfold l in Hroom. rewrite take_all_app in Hroom. cbn [fst] in Hroom. rewrite passed_app in Hroom.
  destruct (sends_across s ida ma ka ps1 rest1 ts1 id' ctx mtx rd w rd' c t t' ps2 rest2 ts2 tbl)
    as (s1 & s2 & s3 & m3 & E1 & E2 & E3 & D1 & Hboxes & Hok2 & Ht2 & D2 & Hms2 & Hms3 & _); [done..|].
  destruct (delivered_copies _ _ _ _ _ _ _ Hok Ht Hmb D1 Hq) as (q1 & dss1 & Hq1 & Hqs1 & Hd1).
  assert (members s2 !! idb = Some mb) as Hmb2 by by rewrite Hms2, lookup_delete_ne.
  assert (mailboxes (router (sys_broker s2)) !! rt_message_tx (m_rt mb) = Some q1) as Hq2
    by by rewrite Hboxes, lookup_delete_ne.
  destruct (delivered_copies _ _ _ _ _ _ _ Hok2 Ht2 Hmb2 D2 Hq2) as (q3 & dss2 & Hq3 & Hqs3 & Hd2).
  rewrite Hqs1, Hq0, app_nil_l, <- fmap_app, <- join_app in Hqs3.
  assert (Forall2 (λ p ds, ds ≡ₚ copies_for p idb tbl) l (dss1 ++ dss2)) as Hd.
  { unfold l. rewrite take_all_app. cbn [fst]. rewrite passed_app. apply Forall2_app; [exact Hd1|].
    eapply Forall2_impl; [exact Hd2|]. intros x ds ->. by apply copies_for_after. }
  destruct (drain_mailbox (mjoin (dss1 ++ dss2)) tb kb idb q3 s3 mb Hbm Hpl)
    as (s4 & mb' & E4 & Hmb' & _ & T4);
    [by rewrite Hms3, lookup_insert_ne, lookup_delete_ne|done|done|exact Hq3|exact Hqs3|
     by eapply all_copies_not_dup|].
  by exists s1, s2, s3, s4, mb', (dss1 ++ dss2).
Qed.
End SystemLife.

(** * Concrete systems *)

(** What the CONNECT of a client is read as. *)
Definition connect_packet (clean : bool) (name : string) : ConnectPacket :=
  mkConnect "MQTT" 4 clean 60 name false AtMostOnce false None None None None.

Lemma connect_admitted (au : AllowAllAuthenticator) clean name :
  validate_client_id name clean = inl tt → admitted au (connect_packet clean name).
Proof.
  intros H. split; [by split|]. split; [|done].
  assert (¬ ¬ acceptable_id name clean) as Hn.
  { intros Hn. apply (proj2 (validate_client_id_spec name clean)) in Hn. congruence. }
  destruct (decide (acceptable_id name clean)); [done|]. by destruct Hn.
Qed.

(** A command channel as [add_client] makes it. *)
Lemma room_of_ten (o : option (channel (Command Incoming Outgoing))) :
  o = Some (mpsc_channel 10) → ∃ ch, o = Some ch ∧ queued ch = [] ∧ (0 < capacity ch)%nat.
Proof. intros ->. exists (mpsc_channel 10). split; [done|]. split; [done|]. vm_compute. lia. Qed.

Abbreviation sample_newcomer id channels clean name :=
  (newcomer id channels channels (connect_as clean name)).

(** The client [c] is connected and connects again. *)
Definition connects_again : list (Event Incoming Outgoing) :=
  arrives "first" 1 true 99 ++ [Accept "second" 2%nat 2%nat (connect_as true 99)].

Lemma client_comes_back_witness :
  ∃ s' m', exec_all [Step "second" (turn OnDecode); Step "second" (turn OnDecode); Complete "second";
      Step "first" (turn OnCommand); Step "first" (turn OnCommand)] (reached connects_again) = Some s' ∧
    members s' !! "first" = Some m' ∧ m_phase m' = InLoop 60 ∧
    took (mkOutgoing [] None) [ConnAck (mkConnAck false 0)] (m_writer m') ∧
    named_clients (sys_broker s') !! "c" = None.
Proof.
  set (m := member_at connects_again "first"). set (s := reached connects_again).
  assert (happens connects_again = true) as Hh by computed.
  assert (members s !! "first" = Some m) as Hm by computed.
  assert (takes_commands (turn OnCommand) (m_phase m) (env_of s m)) as Hph.
  { right. split; [exists 60; computed|]. split; [done|]. computed. }
  assert (members s !! "second" = Some (sample_newcomer "second" 2%nat true 99)) as Hm' by computed.
  assert (decode (connect_as true 99).1 = (mkIncoming [] None, Ok (Connect (connect_packet true "c"))))
    as Hd by computed.
  assert (named_clients (sys_broker s) !! "c" = Some (rt_command_rx (m_rt m))) as Hn by computed.
  assert (commands (sys_broker s) !! rt_command_rx (m_rt m) = Some (mpsc_channel 10)) as Hc by computed.
  pose proof (Build_reconnects s "first" m "second" 2%nat 2%nat _ _ _ _ Hm Hm' eq_refl Hd
    (connect_admitted _ true "c" eq_refl) eq_refl eq_refl Hn (room_of_ten _ Hc)) as Hrc.
  assert (rep ∅ (data (router (sys_broker s)))) as Ht.
  { assert (data (router (sys_broker s)) = internal_new) as -> by computed. apply rep_new. }
  destruct (client_comes_back (SL := memory_laws) (SR := memory_reliable) s "first" "second" m 2%nat 2%nat
    _ _ _ _ (turn OnCommand) (turn OnDecode) ∅ (reached_ok _ Hh) Hrc Hph eq_refl Ht)
    as (s' & m' & E1 & Hms & Hp & _ & T & H).
  exists s', m'. split; [exact E1|]. split; [rewrite Hms; apply lookup_insert_eq|].
  split; [exact Hp|]. split; [exact T|]. apply H.
Defined.

(** [bob] subscribes to [t] at level 1 and goes away, keeping his session; he has
    just connected again when [alice] writes. *)
Definition away_events : list (Event Incoming Outgoing) :=
  arrives "alice" 1 true 97 ++ arrives "bob" 2 false 98 ++ receives "bob" [0x82; 6; 0; 1; 0; 1; 0x74; 1] ++
  [Network "bob" (mkIncoming [] (Some UnexpectedEof), mkOutgoing [] None);
   Step "bob" (turn OnDecode); Step "bob" (turn OnDecode);
   Accept "again" 3%nat 3%nat (connect_as false 98);
   alice_writes].

Lemma absent_client_gets_witness :
  let copy i b := Publish (mkPublish "t" (Some i) [b] AtLeastOnce false false) in
  ∃ s1 s2 s3 bob', exec_all (replicate 4 (Step "alice" (turn OnDecode))) (reached away_events) = Some s1 ∧
    exec_all [Step "again" (turn OnDecode); Step "again" (turn OnDecode); Complete "again";
      Step "bob" (turn OnCommand); Step "bob" (turn OnCommand)] s1 = Some s2 ∧
    exec_all (replicate 2 (Step "bob" (turn OnMessage))) s2 = Some s3 ∧ members s3 !! "bob" = Some bob' ∧
    took (mkOutgoing [] None) [ConnAck (mkConnAck true 0); copy 1 Byte.x2a; copy 2 Byte.x2b] (m_writer bob').
Proof.
  set (s := reached away_events). set (alice := member_at away_events "alice").
  set (bob := member_at away_events "bob"). intros copy.
  assert (happens away_events = true) as Hh by computed.
  assert (members s !! "alice" = Some alice) as Ha by computed.
  assert (m_phase alice = InLoop 60) as Pa by computed.
  assert (connected (m_writer alice)) as Wa by computed.
  assert (arrived (incoming (m_reader alice)) = packets_bytes letter_packets ++ []) as Ra by computed.
  assert (passed (sys_broker s) (client_name (m_rt alice))
    (take_all letter_packets (rt_inbound_qos2 (m_rt alice))).1 = [letter; secret false]) as Hl by computed.
  assert (data (router (sys_broker s)) = bob_listens) as Hd by computed.
  assert (rep letter_table (data (router (sys_broker s)))) as Ht by (rewrite Hd; apply bob_listens_rep).
  assert (room_for (all_deliveries [letter; secret false] letter_table) (router (sys_broker s))) as Hroom
    by (apply room_for_forallb; computed).
  assert (members s !! "bob" = Some bob) as Hb by computed.
  assert (m_phase bob = AwaitCommand) as Pb by computed.
  assert (mailboxes (router (sys_broker s)) !! rt_message_tx (m_rt bob) = Some (mpsc_channel 100))
    as Cb by computed.
  assert (members s !! "again" = Some (sample_newcomer "again" 3%nat false 98)) as Hn by computed.
  assert (decode (connect_as false 98).1 = (mkIncoming [] None, Ok (Connect (connect_packet false "b"))))
    as Dn by computed.
  assert (named_clients (sys_broker s) !! "b" = Some (rt_command_rx (m_rt bob))) as Nb by computed.
  assert (commands (sys_broker s) !! rt_command_rx (m_rt bob) = Some (mpsc_channel 10)) as Kb by computed.
  pose proof (Build_reconnects s "bob" bob "again" 3%nat 3%nat _ _ _ _ Hb Hn eq_refl Dn
    (connect_admitted _ false "b" eq_refl) eq_refl eq_refl Nb (room_of_ten _ Kb)) as Hrc.
  rewrite <- Hl in Hroom.
  destruct (absent_client_gets (SL := memory_laws) (SR := memory_reliable) s "alice" alice 60 letter_packets []
    _ "bob" bob "again" 3%nat 3%nat _ _ _ _ _ (turn OnCommand) (turn OnDecode) (turn OnMessage) letter_table
    (reached_ok _ Hh) ltac:(done) Ha Pa Wa letter_packets_wf Ra Ht Hroom Pb Cb eq_refl Hrc
    eq_refl eq_refl eq_refl eq_refl)
    as (s1 & s2 & s3 & bob' & dss & H1 & H2 & H3 & H4 & H5 & H6).
  rewrite Hl in H5. apply letter_copies in H5. rewrite H5 in H3, H6.
  assert (rt_next_packet_id (m_rt bob) = 1) as Hi by computed. rewrite Hi in H6.
  exists s1, s2, s3, bob'. split; [exact H1|]. split; [exact H2|]. split; [exact H3|].
  split; [exact H4|exact H6].
Defined.

(** [alice] writes a message of level 1 and one of level 2; she connects again, and
    on the new stream are the message of level 2 again and two PUBRELs. *)
Definition again_stream : Incoming * Outgoing :=
  sample_stream (arrived (connect_as false 97).1 ++
    wire_bytes ([0x3c; 6; 0; 1; 0x74; 0; 7; 43] ++ [0x62; 2; 0; 7] ++ [0x62; 2; 0; 7])).

Definition across_events : list (Event Incoming Outgoing) :=
  arrives "alice" 1 true 97 ++ arrives "bob" 2 true 98 ++ receives "bob" [0x82; 6; 0; 1; 0; 1; 0x74; 1] ++
  [Network "alice" (sample_stream (wire_bytes
     ([0x32; 6; 0; 1; 0x74; 0; 9; 42] ++ [0x34; 6; 0; 1; 0x74; 0; 7; 43])));
   Accept "again" 3%nat 3%nat again_stream].

Definition before_packets : list Packet := [Publish letter; Publish (secret false)].
Definition after_packets : list Packet := [Publish (secret true); PubRel (mkPubRel 7); PubRel (mkPubRel 7)].

Lemma before_after_wf :
  Forall2 (λ tu pk, branch tu = OnDecode ∧ from_sender pk = true ∧ wf_two_way pk)
    (replicate 2 (turn OnDecode)) before_packets ∧
  Forall2 (λ tu pk, branch tu = OnDecode ∧ from_sender pk = true ∧ wf_two_way pk)
    (replicate 3 (turn OnDecode)) after_packets.
Proof. split; repeat constructor; vm_compute; done. Qed.

Lemma exactly_once_delivered_witness :
  let copy i b := Publish (mkPublish "t" (Some i) [b] AtLeastOnce false false) in
  let bob := member_at across_events "bob" in
  ∃ s1 s2 s3 s4 bob',
    exec_all (replicate 2 (Step "alice" (turn OnDecode))) (reached across_events) = Some s1 ∧
    exec_all (coming_back "alice" "again" (turn OnCommand) (turn OnDecode)) s1 = Some s2 ∧
    exec_all (replicate 3 (Step "alice" (turn OnDecode))) s2 = Some s3 ∧
    exec_all (replicate 2 (Step "bob" (turn OnMessage))) s3 = Some s4 ∧
    members s4 !! "bob" = Some bob' ∧
    took (m_writer bob) [copy 1 Byte.x2a; copy 2 Byte.x2b] (m_writer bob').
Proof.
  set (s := reached across_events). set (alice := member_at across_events "alice"). intros copy bob.
  assert (happens across_events = true) as Hh by computed.
  assert (members s !! "alice" = Some alice) as Ha by computed.
  assert (m_phase alice = InLoop 60) as Pa by computed.
  assert (connected (m_writer alice)) as Wa by computed.
  assert (arrived (incoming (m_reader alice)) = packets_bytes before_packets ++ []) as Ra by computed.
  assert (members s !! "again" = Some (newcomer "again" 3%nat 3%nat again_stream)) as Hn by computed.
  assert (decode again_stream.1 = (mkIncoming (packets_bytes after_packets) None,
    Ok (Connect (connect_packet false "a")))) as Dn by computed.
  assert (named_clients (sys_broker s) !! "a" = Some (rt_command_rx (m_rt alice))) as Na by computed.
  assert (commands (sys_broker s) !! rt_command_rx (m_rt alice) = Some (mpsc_channel 10)) as Ka by computed.
  pose proof (Build_reconnects s "alice" alice "again" 3%nat 3%nat _ _ _ _ Ha Hn eq_refl Dn
    (connect_admitted _ false "a" eq_refl) eq_refl eq_refl Na (room_of_ten _ Ka)) as Hrc.
  assert (rt_inbound_qos2 (m_rt alice) !! 7 = None) as Hi by computed.
  assert (filter (concerns 7) (before_packets ++ after_packets) =
    (Publish <$> secret false :: [secret true]) ++ replicate 2 (PubRel (mkPubRel 7))) as Hex by computed.
  assert (passes (authorizer (sys_broker s)) (client_name (m_rt alice)) (secret false) = true) as Hp by computed.
  assert (passed (sys_broker s) (client_name (m_rt alice))
    (take_all (before_packets ++ after_packets) (rt_inbound_qos2 (m_rt alice))).1 = [letter; secret false])
    as Hl by computed.
  assert (data (router (sys_broker s)) = bob_listens) as Hd by computed.
  assert (rep letter_table (data (router (sys_broker s)))) as Ht by (rewrite Hd; apply bob_listens_rep).
  assert (room_for (all_deliveries [letter; secret false] letter_table) (router (sys_broker s))) as Hroom
    by (apply room_for_forallb; computed).
  assert (members s !! "bob" = Some bob) as Hb by computed.
  assert (m_phase bob = InLoop 60) as Pb by computed.
  assert (connected (m_writer bob)) as Wb by computed.
  assert (mailboxes (router (sys_broker s)) !! rt_message_tx (m_rt bob) = Some (mpsc_channel 100))
    as Cb by computed.
  rewrite <- Hl in Hroom.
  destruct (exactly_once_delivered (SL := memory_laws) (SR := memory_reliable) s "alice" alice 60
    before_packets [] _ "again" 3%nat 3%nat _ _ _ _ (turn OnCommand) (turn OnDecode) after_packets [] _
    7 (secret false) [secret true] 1 "bob" bob 60 _ (turn OnMessage) letter_table (reached_ok _ Hh) Pa Wa
    (proj1 before_after_wf) Ra Hrc eq_refl eq_refl (proj2 before_after_wf) eq_refl Hi Hex Hp Ht Hroom
    ltac:(done) Hb Pb Wb eq_refl eq_refl Cb eq_refl)
    as (_ & s1 & s2 & s3 & s4 & bob' & dss & H1 & H2 & H3 & H4 & H5 & H6 & H7).
  rewrite Hl in H6. apply letter_copies in H6. rewrite H6 in H4, H7.
  assert (rt_next_packet_id (m_rt bob) = 1) as Hid by computed. rewrite Hid in H7.
  exists s1, s2, s3, s4, bob'. split; [exact H1|]. split; [exact H2|]. split; [exact H3|].
  split; [exact H4|]. split; [exact H5|exact H7].
Defined.
