(* ===== verification/Interleave.v ===== *)
(** Sessions that run side by side: the steps of one that reads messages from its
    client, the steps of one that works off its mailbox, and between them
    whatever else happens to the broker. *)

From S2P Require Import Prelude External Packet Codec CodecSim CodecFacts Topic Storage MemoryStorage Config Auth.
From S2P Require Import Router RouterFacts RouterProps Broker Session Lifecycle SessionInv SessionSafe.
From S2P Require Import SessionFacts Samples Receiver PersistProps ConnectProps LifeProps SessionFrame System.
From S2P Require Import SystemProps.

Local Open Scope Z_scope.

(** The events of one session. *)
Definition own {R W : Type} (id : string) (es : list (Event R W)) : list (Event R W) :=
  filter (λ e, session_of e = Some id) es.

(** The next packet identifier, after a message has been sent. *)
Definition next_after (next : Z) (d : PublishPacket) : Z :=
  match qos d with AtMostOnce => next | _ => succ_id next end.

Lemma numbered_cons next d ds :
  numbered next (d :: ds) = numbered next [d] ++ numbered (next_after next d) ds.
Proof. unfold next_after. cbn [numbered]. by destruct (qos d). Qed.

(** The copies depend on the subscriptions of the session alone. *)
Lemma copies_for_rows (p : PublishPacket) (id : string) (t1 t2 : Table) :
  (∀ f, t1 !! (id, f) = t2 !! (id, f)) → copies_for p id t1 ≡ₚ copies_for p id t2.
Proof.
  intros H.
  assert (∀ t : Table, copies_for p id t = omap (λ '((sid, f), (_, q)),
    if bool_decide (sid = id) && topic_matches (topic p) f then Some (copy_for p q) else None)
    (filter (λ kv, kv.1.1 = id) (map_to_list t))) as E1.
  { intros t. symmetry. apply omap_filter. intros [[sid f] [mb q]] Hx. by rewrite bool_decide_false. }
  rewrite !E1. f_equiv. apply NoDup_Permutation; [apply NoDup_filter, NoDup_map_to_list..|].
  intros [[sid f] y]. rewrite !list_elem_of_filter, !elem_of_map_to_list. cbn.
  split; intros [-> Hy]; (split; [done|]); [by rewrite <- H|by rewrite H].
Qed.

Section Interleave.
Context {BC : BytesCrate} {BL : BytesLaws} {MP : Mpsc} {MPL : MpscLaws}.
Context {HO : HashOrder} {HOL : HashOrderLaws} {S : Type} {ST : Storage S} {SL : StorageLaws S}.
Context {R W : Type} {AR : AsyncRead R} {ARL : AsyncReadLaws R} {AW : AsyncWrite W} {AWL : AsyncWriteLaws W}
  {CN : Connection W}.
Context {Au Az : Type} {AU : Authenticator Au} {AZ : Authorizer Az}.

Abbreviation Env := (Env (S := S) (R := R) (W := W) (Au := Au) (Az := Az)).
Abbreviation Broker := (Broker S R W Au Az).
Abbreviation System := (System (S := S) (R := R) (W := W) (Au := Au) (Az := Az)).
Implicit Types (s : System) (m ma mb : Member R W) (b : Broker) (v : Env) (rd : R) (id ida idb : string).
Implicit Types (p d : PublishPacket) (l ds : list PublishPacket) (dss : list (list PublishPacket)).
Implicit Types (pk : Packet) (ps : list Packet) (k next : Z) (n turns : nat) (t : Turn) (tb : Table).

Lemma passed_authorizer b b' name l :
  authorizer b' = authorizer b → passed b' name l = passed b name l.
Proof. unfold passed. by intros ->. Qed.

(** * A step of the session that works off its mailbox *)

(** The mailbox with its first message taken, and the session after it has sent it. *)
Record sent_first (id : string) m (c : channel Packet) (d : PublishPacket) (k : Z) s s' m' : Prop := {
  sf_member : members s' = <[id := m']> (members s);
  sf_authorizer : authorizer (sys_broker s') = authorizer (sys_broker s);
  sf_data : data (router (sys_broker s')) = data (router (sys_broker s));
  sf_mailbox : mailboxes (router (sys_broker s')) !! rt_message_tx (m_rt m') = Some (pop c);
  sf_phase : m_phase m' = InLoop k;
  sf_next : rt_next_packet_id (m_rt m') = next_after (rt_next_packet_id (m_rt m)) d;
  sf_took : took (m_writer m) (Publish <$> numbered (rt_next_packet_id (m_rt m)) [d]) (m_writer m');
}.

(** With an empty mailbox it waits. *)
Lemma step_no_message t k c v :
  branch t = OnMessage → polled t = false →
  mailboxes (router (broker v)) !! rt_message_tx (rt v) = Some c → queued c = [] →
  run_step (E := Empty_set) t (InLoop k) v = (v, Pending).
Proof.
  intros Hb Hpl Hc Hq. cbn [run_step]. unfold processing_turn. rewrite Hb, Hpl.
  assert (drop_decode (E := Empty_set) false v = (v, Ok tt)) as Hdrop.
  { unfold drop_decode. rewrite bind_gets. cbn [id]. by destruct (decode (reader v)) as [? []]. }
  rewrite !bind_assoc, (bind_Ok _ _ _ _ _ Hdrop), bind_assoc. apply bind_Pending.
  unfold recv_message. rewrite bind_gets. cbn [id]. by rewrite Hc, Hq.
Qed.

Lemma message_step_inv id t k c ds s s' m :
  branch t = OnMessage → polled t = false → members s !! id = Some m → m_phase m = InLoop k →
  connected (m_writer m) → mailboxes (router (sys_broker s)) !! rt_message_tx (m_rt m) = Some c →
  queued c = Publish <$> ds → Forall (λ p, dup p = false) ds → exec (Step id t) s = Some s' →
  ∃ d ds' m', ds = d :: ds' ∧ sent_first id m c d k s s' m'.
Proof.
  intros Hb Hpl Hm Hk Hw Hc Hq Hds Hx. destruct ds as [|d ds].
  - pose proof (step_no_message t k c (env_of s m) Hb Hpl Hc Hq) as E1. cbn [exec] in Hx.
    rewrite Hm in Hx. cbn [mbind option_bind] in Hx. by rewrite Hk, E1 in Hx.
  - apply Forall_cons in Hds as [Hd _].
    destruct (step_message t k d c (fmap (M := list) Publish ds) (env_of s m) Hb Hpl Hw Hd Hc Hq)
      as (w' & r' & E1 & T1 & Htx & Hn).
    rewrite <- Hk in E1. rewrite (exec_step _ _ _ _ _ _ Hm E1), Hk in Hx. injection Hx as <-.
    exists d, ds. eexists. split; [done|]. split; try done.
    + cbn. rewrite Htx. apply lookup_insert_eq.
    + cbn [m_writer member_of writer with_rt with_writer numbered]. cbn [env_of rt writer] in T1.
      by destruct (qos d).
Qed.

(** * The events of two sessions, among those of others *)

(** What both sessions have done after some events: [a] has taken the packets
    [ps], and [b] has sent the first of the messages that were in its mailbox or
    have come into it since, as many as it has had turns. *)
Record served ida idb ma mb ps turns tb l ds0 rd s' : Prop := {
  sv_sender : ∃ ma', members s' !! ida = Some ma' ∧ took (m_writer ma) (replies ps) (m_writer ma') ∧
    m_reader ma' = rd ∧ rt_inbound_qos2 (m_rt ma') = (take_all ps (rt_inbound_qos2 (m_rt ma))).2;
  sv_receiver : ∃ mb' c ds dss, members s' !! idb = Some mb' ∧
    Forall2 (λ p ds, ds ≡ₚ copies_for p idb tb) l dss ∧ sublist (mjoin dss) ds ∧
    (turns ≤ length (ds0 ++ ds))%nat ∧
    took (m_writer mb) (Publish <$> numbered (rt_next_packet_id (m_rt mb)) (take turns (ds0 ++ ds)))
      (m_writer mb') ∧
    mailboxes (router (sys_broker s')) !! rt_message_tx (m_rt mb') = Some c ∧
    queued c = Publish <$> drop turns (ds0 ++ ds);
}.

(** Messages that get into the mailbox first. *)
Lemma served_more ida idb ma mb ps n tb l l1 ds0 ds1 dss1 rd s' :
  served ida idb ma mb ps n tb l (ds0 ++ ds1) rd s' →
  Forall2 (λ p ds, ds ≡ₚ copies_for p idb tb) l1 dss1 → sublist (mjoin dss1) ds1 →
  served ida idb ma mb ps n tb (l1 ++ l) ds0 rd s'.
Proof.
  intros [Hs (mb' & c & ds & dss & H1 & H2 & H3 & H4 & H5 & H6 & H7)] Hd Hsub. split; [exact Hs|].
  exists mb', c, (ds1 ++ ds), (dss1 ++ dss). rewrite app_assoc. split_and!; try done.
  - by apply Forall2_app.
  - rewrite join_app. by apply sublist_app.
Qed.

(** A packet the sender has taken first. *)
Lemma served_packet ida idb ma mb pk ps h1 rd1 w1 n tb l ds0 rd s' :
  h1 = (take_in pk (rt_inbound_qos2 (m_rt ma))).2 → took (m_writer ma) (reply pk) w1 →
  served ida idb (receiving h1 rd1 w1 ma) mb ps n tb l ds0 rd s' →
  served ida idb ma mb (pk :: ps) n tb l ds0 rd s'.
Proof.
  intros -> T1 [(ma' & H1 & H2 & H3 & H4) Hr]. split; [|exact Hr]. exists ma'. split_and!; [done| |done|].
  - by apply (took_app _ (reply pk) w1).
  - rewrite H4. cbn. destruct (take_in pk _) as [l1 h]. cbn. by destruct (take_all ps h).
Qed.

(** A message the receiver has sent first. *)
Lemma served_message ida idb ma mb mb1 d ps n tb l ds0 rd s' :
  rt_next_packet_id (m_rt mb1) = next_after (rt_next_packet_id (m_rt mb)) d →
  took (m_writer mb) (Publish <$> numbered (rt_next_packet_id (m_rt mb)) [d]) (m_writer mb1) →
  served ida idb ma mb1 ps n tb l ds0 rd s' →
  served ida idb ma mb ps (Datatypes.S n) tb l (d :: ds0) rd s'.
Proof.
  intros Hn T1 [Hs (mb' & c & ds & dss & H1 & H2 & H3 & H4 & H5 & H6 & H7)]. split; [exact Hs|].
  exists mb', c, ds, dss. cbn [app take drop length]. split_and!; try done; [lia|].
  rewrite numbered_cons, fmap_app, <- Hn. by eapply took_app.
Qed.

(** The subscriptions a session has, as a table has them. *)
Definition rows_in s id tb : Prop :=
  ∀ f, sub (data (router (sys_broker s))) id f = tb !! (id, f).

(** The copies of some messages, for the table there is now. *)
Lemma copies_in s id tb tb1 l dss :
  rows_in s id tb → rep tb1 (data (router (sys_broker s))) →
  Forall2 (λ p ds, ds ≡ₚ copies_for p id tb1) l dss → Forall2 (λ p ds, ds ≡ₚ copies_for p id tb) l dss.
Proof.
  intros H Htb1 Hd. eapply Forall2_impl; [exact Hd|]. cbn. intros p ds ->. apply copies_for_rows.
  intros f. by rewrite (rep_sub _ _ Htb1), H.
Qed.

(** What a session hands on of a packet and of those after it. *)
Lemma passed_take_all b name pk ps held :
  passed b name (take_all (pk :: ps) held).1 =
    passed b name (take_in pk held).1 ++ passed b name (take_all ps (take_in pk held).2).1.
Proof.
  rewrite <- passed_app. cbn [take_all]. destruct (take_in pk held) as [l1 h1]. cbn [fst snd].
  by destruct (take_all ps h1).
Qed.

(** Two sessions that can go on: [a] with the packets on its stream, [b] with
    messages in its mailbox. *)
Record serving ida idb ka kb ma mb ps tb ds0 rd s : Prop := {
  sg_ok : system_ok s;
  sg_sender : members s !! ida = Some ma;
  sg_sender_phase : m_phase ma = InLoop ka;
  sg_sender_writer : connected (m_writer ma);
  sg_reads : reads (m_reader ma) ps rd;
  sg_receiver : members s !! idb = Some mb;
  sg_receiver_phase : m_phase mb = InLoop kb;
  sg_receiver_writer : connected (m_writer mb);
  sg_rows : rows_in s idb tb;
  sg_mailbox : ∃ c, mailboxes (router (sys_broker s)) !! rt_message_tx (m_rt mb) = Some c ∧
    queued c = Publish <$> ds0;
  sg_messages : Forall (λ p, dup p = false) ds0;
}.

(** The sender takes a packet. *)
Lemma serving_packet ida idb ka kb ma mb pk ps tb ds0 rd s t s' :
  ida ≠ idb → serving ida idb ka kb ma mb (pk :: ps) tb ds0 rd s →
  branch t = OnDecode → from_sender pk = true → wf_two_way pk → exec (Step ida t) s = Some s' →
  let x := take_in pk (rt_inbound_qos2 (m_rt ma)) in
  ∃ rd1 w1 dss, took (m_writer ma) (reply pk) w1 ∧
    Forall2 (λ p ds, ds ≡ₚ copies_for p idb tb) (passed (sys_broker s) (client_name (m_rt ma)) x.1) dss ∧
    authorizer (sys_broker s') = authorizer (sys_broker s) ∧
    serving ida idb ka kb (receiving x.2 rd1 w1 ma) mb ps tb (ds0 ++ mjoin dss) rd s'.
Proof.
  intros Hne [Hok Ha Pa Wa (rd1 & Hd & Hr) Hb Pb Wb Hrows (c & Hc & Hq) Hds0] Hbr Hs Hwf Hx x.
  destruct (so_broker s Hok) as [([tb1 Htb1] & _) _].
  destruct (packet_step_inv s ida ma ka rd1 pk t tb1 s' Hok Ha Pa Wa Hbr Hd Hs Hwf Htb1 Hx)
    as (r' & w1 & E1 & T1 & D).
  destruct (delivered_copies tb1 _ s r' idb mb c Hok Htb1 Hb D Hc) as (c' & dss & Hc' & Hq' & Hdss).
  pose proof (copies_in s idb tb tb1 _ dss Hrows Htb1 Hdss) as Hcop.
  exists rd1, w1, dss. split; [exact T1|]. split; [exact Hcop|].
  pose proof (system_ok_step _ _ _ _ Hok Hx) as Hok'. subst s'. split; [done|]. split; try done.
  - apply lookup_insert_eq.
  - apply T1.
  - cbn. by rewrite lookup_insert_ne.
  - intros f. cbn. rewrite (dl_data _ _ _ _ D). apply Hrows.
  - exists c'. split; [exact Hc'|]. by rewrite Hq', Hq, fmap_app.
  - apply Forall_app. split; [exact Hds0|]. by eapply all_copies_not_dup.
Qed.

(** The receiver takes a message. *)
Lemma serving_message ida idb ka kb ma mb ps tb ds0 rd s t s' :
  ida ≠ idb → serving ida idb ka kb ma mb ps tb ds0 rd s →
  branch t = OnMessage → polled t = false → exec (Step idb t) s = Some s' →
  ∃ d ds1 mb1, ds0 = d :: ds1 ∧
    rt_next_packet_id (m_rt mb1) = next_after (rt_next_packet_id (m_rt mb)) d ∧
    took (m_writer mb) (Publish <$> numbered (rt_next_packet_id (m_rt mb)) [d]) (m_writer mb1) ∧
    authorizer (sys_broker s') = authorizer (sys_broker s) ∧
    serving ida idb ka kb ma mb1 ps tb ds1 rd s'.
Proof.
  intros Hne [Hok Ha Pa Wa Hr Hb Pb Wb Hrows (c & Hc & Hq) Hds0] Hbr Hpl Hx.
  destruct (message_step_inv idb t kb c ds0 s s' mb Hbr Hpl Hb Pb Wb Hc Hq Hds0 Hx)
    as (d & ds1 & mb1 & -> & [Hms Hau Hdt Hmb Hph Hnx Htk]).
  exists d, ds1, mb1. split_and!; [done..|]. apply Forall_cons in Hds0 as [_ Hds1].
  split; try done.
  - by eapply system_ok_step.
  - by rewrite Hms, lookup_insert_ne.
  - by rewrite Hms, lookup_insert_eq.
  - apply Htk.
  - intros f. rewrite Hdt. apply Hrows.
  - exists (pop c). split; [exact Hmb|]. by rewrite queued_pop, Hq.
Qed.

(** Something else happens. *)
Lemma serving_other ida idb ka kb ma mb ps tb ds0 rd s e s' :
  serving ida idb ka kb ma mb ps tb ds0 rd s →
  session_of e ≠ Some ida → session_of e ≠ Some idb → exec e s = Some s' →
  ∃ ds1, authorizer (sys_broker s') = authorizer (sys_broker s) ∧
    serving ida idb ka kb ma mb ps tb (ds0 ++ ds1) rd s'.
Proof.
  intros [Hok Ha Pa Wa Hr Hb Pb Wb Hrows (c & Hc & Hq) Hds0] Ea Eb Hx.
  destruct (undisturbed_exec s e s' ida ma Hok Hx Ea Ha) as [Ua _ _ _].
  destruct (undisturbed_exec s e s' idb mb Hok Hx Eb Hb) as [Ub Uz Ur Um].
  destruct (Um c Hc) as (c' & Hc' & _ & ds1 & Hq' & Hds1). exists ds1. split; [done|]. split; try done.
  - by eapply system_ok_exec.
  - intros f. by rewrite Ur.
  - exists c'. split; [done|]. by rewrite Hq', Hq, fmap_app.
  - by apply Forall_app.
Qed.

(** An event of a session whose events are steps. *)
Lemma own_cons id (e : Event R W) es ts :
  own id (e :: es) = Step id <$> ts → session_of e = Some id →
  ∃ t ts', e = Step id t ∧ ts = t :: ts' ∧ own id es = Step id <$> ts'.
Proof.
  unfold own. intros H E. rewrite filter_cons_True in H by done. destruct ts as [|t ts']; [done|].
  injection H as -> H. by exists t, ts'.
Qed.

Lemma own_other id (e : Event R W) es : session_of e ≠ Some id → own id (e :: es) = own id es.
Proof. intros E. unfold own. by rewrite filter_cons_False. Qed.

Definition decodes t pk : Prop := branch t = OnDecode ∧ from_sender pk = true ∧ wf_two_way pk.

Definition takes_message t : Prop := branch t = OnMessage ∧ polled t = false.

Lemma served_none ida idb ka kb ma mb tb ds0 rd s :
  serving ida idb ka kb ma mb [] tb ds0 rd s → served ida idb ma mb [] 0 tb [] ds0 rd s.
Proof.
  intros [Hok Ha Pa Wa Hr Hb Pb Wb Hrows (c & Hc & Hq) Hds0]. cbn in Hr. split.
  - exists ma. split_and!; [done|by apply took_nil|done..].
  - exists mb, c, [], []. rewrite app_nil_r. split_and!; [done|constructor|done|lia| |done|done].
    by apply took_nil.
Qed.

Lemma serve_all es ida idb ka kb ma mb ps ts tbs tb ds0 rd s s' :
  ida ≠ idb → serving ida idb ka kb ma mb ps tb ds0 rd s → exec_all es s = Some s' →
  own ida es = Step ida <$> ts → own idb es = Step idb <$> tbs →
  Forall2 decodes ts ps → Forall takes_message tbs →
  served ida idb ma mb ps (length tbs) tb
    (passed (sys_broker s) (client_name (m_rt ma)) (take_all ps (rt_inbound_qos2 (m_rt ma))).1) ds0 rd s'.
Proof.
  intros Hne. revert s ma mb ps ts tbs ds0.
  induction es as [|e es IH]; intros s ma mb ps ts tbs ds0 Hg Hx Ha Hb Hts Htbs.
  - injection Hx as <-. symmetry in Ha, Hb. apply fmap_nil_inv in Ha as ->, Hb as ->.
    apply Forall2_nil_inv_l in Hts as ->. by eapply served_none.
  - cbn [exec_all] in Hx. destruct (exec e s) as [s1|] eqn:E1; [|done]. cbn [mbind option_bind] in Hx.
    destruct (decide (session_of e = Some ida)) as [Ea|Ea]; [|destruct (decide (session_of e = Some idb)) as [Eb|Eb]].
    + rewrite own_other in Hb by congruence. apply own_cons in Ha as (t & ts' & -> & -> & Ha); [|done].
      apply Forall2_cons_inv_l in Hts as (pk & ps' & (T1 & T2 & T3) & Hts & ->).
      destruct (serving_packet _ _ _ _ _ _ _ _ _ _ _ _ t s1 Hne Hg T1 T2 T3 E1)
        as (rd1 & w1 & dss & Htk & Hd & Hz & Hg').
      specialize (IH _ _ _ _ _ _ _ Hg' Hx Ha Hb Hts Htbs).
      rewrite passed_take_all. rewrite (passed_authorizer _ _ _ _ Hz) in IH.
      eapply served_more; [|exact Hd|done]. by eapply served_packet.
    + rewrite own_other in Ha by done. apply own_cons in Hb as (t & tbs' & -> & -> & Hb); [|done].
      apply Forall_cons in Htbs as [[T1 T2] Htbs].
      destruct (serving_message _ _ _ _ _ _ _ _ _ _ _ t s1 Hne Hg T1 T2 E1)
        as (d & ds1 & mb1 & -> & Hn & Htk & Hz & Hg').
      specialize (IH _ _ _ _ _ _ _ Hg' Hx Ha Hb Hts Htbs). rewrite (passed_authorizer _ _ _ _ Hz) in IH.
      by eapply served_message.
    + rewrite own_other in Ha, Hb by done.
      destruct (serving_other _ _ _ _ _ _ _ _ _ _ _ e s1 Hg Ea Eb E1) as (ds1 & Hz & Hg').
      specialize (IH _ _ _ _ _ _ _ Hg' Hx Ha Hb Hts Htbs). rewrite (passed_authorizer _ _ _ _ Hz) in IH.
      apply (served_more _ _ _ _ _ _ _ _ [] _ ds1 [] _ _ IH); [constructor|apply sublist_nil_l].
Qed.

(** C5: sessions do not get in each other's way.  While one connected session
    reads PUBLISH and PUBREL packets from its stream and another works off its
    mailbox, anything else may happen in between, in any order: connections,
    the packets, takeovers and ends of other clients, the shutdown of the
    server.  However the steps are interleaved, the first has answered each packet
    and holds the messages of level 2 whose PUBREL has not come; and the second
    has sent, in the order they got into its mailbox and numbered one after the
    other, one message for each turn it had, of those that were there and those
    that came; and among these are, in the order the first session handed them on,
    the copies for each of the second's subscriptions that matches.  A message
    that is not sent yet is still in the mailbox. *)
Theorem interleaved_delivery es ida idb ka kb ma mb c ps rest ts tbs tb ds0 s s' :
  system_ok s → ida ≠ idb → exec_all es s = Some s' →
  members s !! ida = Some ma → m_phase ma = InLoop ka → connected (m_writer ma) →
  own ida es = Step ida <$> ts → Forall2 decodes ts ps →
  arrived (incoming (m_reader ma)) = packets_bytes ps ++ rest →
  members s !! idb = Some mb → m_phase mb = InLoop kb → connected (m_writer mb) →
  own idb es = Step idb <$> tbs → Forall takes_message tbs →
  mailboxes (router (sys_broker s)) !! rt_message_tx (m_rt mb) = Some c →
  queued c = Publish <$> ds0 → Forall (λ p, dup p = false) ds0 → rows_in s idb tb →
  let x := take_all ps (rt_inbound_qos2 (m_rt ma)) in
  let sent := length tbs in
  ∃ ma' mb' c' ds dss,
    members s' !! ida = Some ma' ∧ took (m_writer ma) (replies ps) (m_writer ma') ∧
    arrived (incoming (m_reader ma')) = rest ∧ rt_inbound_qos2 (m_rt ma') = x.2 ∧
    members s' !! idb = Some mb' ∧ (sent ≤ length (ds0 ++ ds))%nat ∧
    took (m_writer mb) (Publish <$> numbered (rt_next_packet_id (m_rt mb)) (take sent (ds0 ++ ds))) (m_writer mb') ∧
    mailboxes (router (sys_broker s')) !! rt_message_tx (m_rt mb') = Some c' ∧
    queued c' = Publish <$> drop sent (ds0 ++ ds) ∧
    Forall2 (λ p ds, ds ≡ₚ copies_for p idb tb) (passed (sys_broker s) (client_name (m_rt ma)) x.1) dss ∧
    sublist (mjoin dss) ds.
Proof.
  intros Hok Hne Hx Ha Pa Wa Oa Hts Hr Hb Pb Wb Ob Htbs Hc Hq Hds0 Hrows x sent.
  destruct (reads_bytes ps rest (m_reader ma)) as (rd & Hrd & Hrest); [|exact Hr|].
  { clear -Hts. induction Hts as [|? ? ? ? (_ & _ & ?)]; by constructor. }
  destruct (serve_all es ida idb ka kb ma mb ps ts tbs tb ds0 rd s s') as [(ma' & S1 & S2 & S3 & S4) Hrcv];
    [done|split; eauto|done..|].
  destruct Hrcv as (mb' & c' & ds & dss & R1 & R2 & R3 & R4 & R5 & R6 & R7).
  exists ma', mb', c', ds, dss. rewrite S3. by split_and!.
Qed.
End Interleave.

(** * Two clients and a third *)

(** While [alice]'s messages come in and [bob] takes two, [carol] connects and
    sends a message to the same topic. *)
Definition meanwhile : list (Event Incoming Outgoing) :=
  let a := Step "alice" (turn OnDecode) in
  let b := Step "bob" (turn OnMessage) in
  let c := Step "carol" (turn OnDecode) in
  [a; Accept "carol" 3%nat 3%nat (connect_as true 99); a; b; c; c;
   Network "carol" (sample_stream (wire_bytes [0x30; 4; 0; 1; 0x74; 44])); a; c; a; Shutdown; b].

Lemma reached_then es es' :
  happens es = true → happens (es ++ es') = true → exec_all es' (reached es) = Some (reached (es ++ es')).
Proof.
  intros H1 H2. apply happens_reached in H1, H2. rewrite exec_all_app, H1 in H2. exact H2.
Qed.

Lemma meanwhile_happens : happens (letter_events ++ meanwhile) = true.
Proof. computed. Qed.

Lemma interleaved_delivery_witness :
  let alice := member_at letter_events "alice" in
  let bob := member_at letter_events "bob" in
  let copy b := mkPublish "t" None [b] AtLeastOnce false false in
  ∃ s' alice' bob' ds, exec_all meanwhile letters = Some s' ∧
    members s' !! "alice" = Some alice' ∧
    took (m_writer alice) [PubAck (mkPubAck 9); PubRec (mkPubRec 7); PubRec (mkPubRec 7); PubComp (mkPubComp 7)]
      (m_writer alice') ∧
    members s' !! "bob" = Some bob' ∧
    took (m_writer bob) (Publish <$> numbered 1 (take 2 ds)) (m_writer bob') ∧
    sublist [copy Byte.x2a; copy Byte.x2b] ds.
Proof.
  intros alice bob copy. set (s' := reached (letter_events ++ meanwhile)).
  pose proof (reached_then _ _ letters_happen meanwhile_happens) as Hx.
  assert (members letters !! "alice" = Some alice) as Ha by computed.
  assert (m_phase alice = InLoop 60) as Pa by computed.
  assert (connected (m_writer alice)) as Wa by computed.
  assert (arrived (incoming (m_reader alice)) = packets_bytes letter_packets ++ []) as Ra by computed.
  assert (passed (sys_broker letters) (client_name (m_rt alice))
    (take_all letter_packets (rt_inbound_qos2 (m_rt alice))).1 = [letter; secret false]) as Hl by computed.
  assert (members letters !! "bob" = Some bob) as Hb by computed.
  assert (m_phase bob = InLoop 60) as Pb by computed.
  assert (connected (m_writer bob)) as Wb by computed.
  assert (mailboxes (router (sys_broker letters)) !! rt_message_tx (m_rt bob) = Some (mpsc_channel 100))
    as Cb by computed.
  assert (own "alice" meanwhile = Step "alice" <$> replicate 4 (turn OnDecode)) as Oa by computed.
  assert (own "bob" meanwhile = Step "bob" <$> replicate 2 (turn OnMessage)) as Ob by computed.
  assert (rows_in letters "bob" letter_table) as Hrows by (intros f; symmetry; apply (rep_sub _ _ letters_rep)).
  assert (rt_next_packet_id (m_rt bob) = 1) as Hn by computed.
  destruct (interleaved_delivery (SL := memory_laws) meanwhile "alice" "bob" 60 60 alice bob (mpsc_channel 100)
    letter_packets [] (replicate 4 (turn OnDecode)) (replicate 2 (turn OnMessage)) letter_table [] letters s'
    (reached_ok _ letters_happen) ltac:(done) Hx Ha Pa Wa Oa letter_packets_wf Ra Hb Pb Wb Ob
    ltac:(repeat constructor) Cb eq_refl ltac:(constructor) Hrows)
    as (alice' & bob' & c' & ds & dss & H1 & H2 & _ & _ & H3 & _ & H4 & _ & _ & H5 & H6).
  rewrite Hl in H5. apply letter_copies in H5. rewrite H5 in H6. rewrite Hn in H4.
  exists s', alice', bob', ds. split; [exact Hx|]. split; [exact H1|]. split; [exact H2|].
  split; [exact H3|]. split; [exact H4|exact H6].
Defined.
