(* ===== verification/Restart.v ===== *)
(** A restart of the server: the session of a client whose connection was lost is
    saved; on another broker over what was saved the client connects again and
    has its session back. *)

From S2P Require Import Prelude External Packet Codec CodecSim CodecFacts Topic Storage MemoryStorage.
From S2P Require Import Sql SqlEngine SqliteStorage SqliteTables SqliteFacts SqliteContract SqliteProps Config Auth.
From S2P Require Import Router RouterFacts RouterProps Broker Session Lifecycle SessionInv SessionSafe.
From S2P Require Import SessionFacts Samples PersistProps ConnectProps LifeProps SessionFrame System SystemProps SystemLife.

Local Open Scope Z_scope.




Section Restart.
Context {BC : BytesCrate} {BL : BytesLaws} {MP : Mpsc} {MPL : MpscLaws}.
Context {HO : HashOrder} {HOL : HashOrderLaws} {S : Type} {ST : Storage S} {SL : StorageLaws S}.
Context {R W : Type} {AR : AsyncRead R} {ARL : AsyncReadLaws R} {AW : AsyncWrite W} {AWL : AsyncWriteLaws W}
  {CN : Connection W}.
Context {Au Az : Type} {AU : Authenticator Au} {AZ : Authorizer Az} {SR : StorageReliable S}.

Abbreviation Env := (Env (S := S) (R := R) (W := W) (Au := Au) (Az := Az)).
Abbreviation Broker := (Broker S R W Au Az).
Abbreviation System := (System (S := S) (R := R) (W := W) (Au := Au) (Az := Az)).
Implicit Types (s : System) (m : Member R W) (b : Broker) (v : Env).







End Restart.

(** * A restart on an SQLite file *)

Abbreviation sqlite_system :=
  (System (MP := queue_mpsc) (S := SqliteStorage (SQ := engine)) (R := Incoming) (W := Outgoing)
     (Au := AllowAllAuthenticator) (Az := AllowAllAuthenticator)).








