(* ===== verification/Timers.v ===== *)
(** The two timers of [do_processing] ([session.rs]): when the keep-alive and the
    retransmission branch of its [select!] are ready.  [Lifecycle.v] is told which
    branch is taken; here the timers say which can be, and a run with timers is a
    run without that takes a timer's branch only when it is due. *)

From S2P Require Import Prelude External Codec Topic Storage MemoryStorage Config Auth Router RouterFacts Broker Session.
From S2P Require Import Lifecycle SessionInv SessionSafe SessionFacts Samples LifeProps.

Local Open Scope Z_scope.

(** * [tokio::time::Interval]

    [interval(period)], which panics on a period of zero; [tick], here at an
    instant: [None] when it waits; and [reset].  The missed-tick behaviour is
    [Delay]. *)
Class Intervals := {
  Interval : Type;
  interval : Z → Instant → option Interval;
  tick : Instant → Interval → option Interval;
  reset : Instant → Interval → Interval;
}.

(** The first tick is at once.  A tick is ready from its deadline on, and the next
    one is a period after the deadline, or after the tick when that came late. *)
Class IntervalLaws {IV : Intervals} := {
  deadline : Interval → Instant;
  period : Interval → Z;
  interval_zero now : interval 0 now = None;
  interval_new p now : 0 < p → ∃ i, interval p now = Some i ∧ deadline i = now ∧ period i = p;
  tick_waits now i : tick now i = None ↔ now < deadline i;
  tick_next now i i' :
    tick now i = Some i' → period i' = period i ∧ deadline i + period i ≤ deadline i' ≤ now + period i;
  reset_deadline now i : deadline (reset now i) = now + period i;
  reset_period now i : period (reset now i) = period i;
}.

(** An interval that is its deadline and its period. *)
#[export] Instance clock : Intervals := {
  Interval := Instant * Z;
  interval p now := if p =? 0 then None else Some (now, p);
  tick now i := if now <? i.1 then None else Some (now + i.2, i.2);
  reset now i := (now + i.2, i.2);
}.

#[export] Program Instance clock_laws : IntervalLaws (IV := clock) := { deadline := fst; period := snd }.
Next Obligation. done. Qed.
Next Obligation.
  intros p now Hp. cbn. destruct (Z.eqb_spec p 0) as [->|_]; [lia|]. by eexists.
Qed.
Next Obligation. intros now [d p]. cbn. destruct (Z.ltb_spec now d); split; done || lia. Qed.
Next Obligation.
  intros now [d p] i'. cbn. destruct (Z.ltb_spec now d); [done|]. intros [= <-]. cbn. lia.
Qed.
Next Obligation. done. Qed.
Next Obligation. done. Qed.

(** * [do_processing] with its timers *)

Definition ms (n : Z) : Z := n * 1000000.

Section Timers.
Context {IV : Intervals}.
Context {BC : BytesCrate} {MP : Mpsc} {HO : HashOrder}.
Context {S : Type} {ST : Storage S} {R W : Type} {AR : AsyncRead R} {AW : AsyncWrite W}.
Context {Au Az : Type} {AU : Authenticator Au} {AZ : Authorizer Az}.

Abbreviation Env := (Env (S := S) (R := R) (W := W) (Au := Au) (Az := Az)).

Record Timers := mkTimers { keep_alive_interval : Interval; retransmit_interval : Interval }.

(** [i.tick().await] at an instant: waits before the deadline. *)
Definition ticked {E} (now : Instant) (i : Interval) : M Env E Interval :=
  match tick now i with Some i' => mret i' | None => hang end.

(** What [do_processing] sets up before its loop: each timer without its first
    tick. *)
Definition start_timers {E} (now : Instant) (keep_alive_secs : Z) : M Env E Timers :=
  keep_alive_interval ← or_panic (interval (ms (keep_alive_timeout_ms keep_alive_secs)) now);
  keep_alive_interval ← ticked now keep_alive_interval;
  c ← gets (λ v, config (broker v));
  retransmit_interval ← or_panic (interval (ms (timer_interval_ms c)) now);
  retransmit_interval ← ticked now retransmit_interval;
  mret (mkTimers keep_alive_interval retransmit_interval).

(** The branch of a turn is ready, and what that does to the timers: a packet, or
    an error in its place, resets the keep-alive. *)
Definition select_branch {E} (t : Turn) (tm : Timers) : M Env E Timers :=
  match branch t with
  | OnDecode => mret (mkTimers (reset (at_instant t) (keep_alive_interval tm)) (retransmit_interval tm))
  | OnMessage | OnCommand => mret tm
  | OnKeepAlive =>
      i ← ticked (at_instant t) (keep_alive_interval tm); mret (mkTimers i (retransmit_interval tm))
  | OnRetransmit =>
      i ← ticked (at_instant t) (retransmit_interval tm); mret (mkTimers (keep_alive_interval tm) i)
  end.

(** Where a session is: in the loop, it has its timers. *)
Inductive Timed :=
| Outside (ph : Phase)
| Looping (keep_alive_secs : Z) (tm : Timers).

Definition phase_of (x : Timed) : Phase :=
  match x with Outside ph => ph | Looping k _ => InLoop k end.

(** One step of [run]: the loop is entered with new timers. *)
Definition timed_step {E} (t : Turn) (x : Timed) : M Env E Timed :=
  match x with
  | Looping k tm =>
      tm' ← select_branch t tm;
      ph ← run_step t (InLoop k);
      mret (match ph with InLoop k' => Looping k' tm' | _ => Outside ph end)
  | Outside ph =>
      ph' ← run_step t ph;
      match ph' with
      | InLoop k => tm ← start_timers (at_instant t) k; mret (Looping k tm)
      | _ => mret (Outside ph')
      end
  end.

(** The turns of the loop, as long as it is not left. *)
Fixpoint processing_loop {E} (keep_alive_secs : Z) (ts : list Turn) (tm : Timers) : M Env E Timers :=
  match ts with
  | [] => mret tm
  | t :: ts' =>
      x ← timed_step t (Looping keep_alive_secs tm);
      match x with
      | Looping k tm' => processing_loop k ts' tm'
      | Outside _ => hang
      end
  end.

Fixpoint timed_run {E} (ts : list Turn) (x : Timed) : M Env E Timed :=
  match ts with
  | [] => mret x
  | t :: ts' => x' ← timed_step t x; timed_run ts' x'
  end.
End Timers.

Arguments mkTimers {IV} _ _.
Arguments keep_alive_interval {IV} _.
Arguments retransmit_interval {IV} _.
Arguments Timed {IV}.

(** When a packet was last read in some turns, or the loop was entered. *)
Definition last_packet (entered : Instant) (ts : list Turn) : Instant :=
  foldl (λ last t, match branch t with OnDecode => at_instant t | _ => last end) entered ts.

Lemma keep_alive_timeout_pos k : 0 < keep_alive_timeout_ms k.
Proof. unfold keep_alive_timeout_ms. destruct (Z.ltb_spec 0 k); lia. Qed.

(** The minimum of half a second keeps the period of the timer from being zero. *)
Lemma timer_interval_pos c : 0 <= retransmission_interval_ms c → 0 < timer_interval_ms c.
Proof.
  intros Hc. unfold timer_interval_ms, get_retransmission_interval_ms.
  destruct (Z.eqb_spec (retransmission_interval_ms c) 0); [done|].
  rewrite (proj2 (Z.ltb_lt _ _)) by lia. apply Z.div_str_pos. lia.
Qed.

Section TimerProps.
Context {IV : Intervals} {IL : IntervalLaws}.
Context {BC : BytesCrate} {MP : Mpsc} {HO : HashOrder}.
Context {S : Type} {ST : Storage S} {R W : Type} {AR : AsyncRead R} {AW : AsyncWrite W}.
Context {Au Az : Type} {AU : Authenticator Au} {AZ : Authorizer Az}.

Abbreviation Env := (Env (S := S) (R := R) (W := W) (Au := Au) (Az := Az)).
Implicit Types (v : Env) (x : Timed) (tm : Timers).

Lemma ticked_due {E} now i v :
  deadline i ≤ now →
  ∃ i', ticked (E := E) now i v = (v, Ok i') ∧ period i' = period i ∧
    deadline i + period i ≤ deadline i' ≤ now + period i.
Proof.
  intros Hd. unfold ticked. pose proof (tick_waits now i) as Hw. pose proof (tick_next now i) as Hn.
  destruct (tick now i) as [i'|]; [|pose proof (proj1 Hw eq_refl); lia].
  exists i'. split; [done|]. by apply Hn.
Qed.

Lemma ticked_early {E} now i v : now < deadline i → ticked (E := E) now i v = (v, Pending).
Proof. intros Hd. unfold ticked. by rewrite (proj2 (tick_waits now i) Hd). Qed.

(** A timer without its first tick. *)
Lemma first_tick {E} p now v :
  0 < p →
  ∃ i, (i ← or_panic (interval p now); ticked (E := E) now i) v = (v, Ok i) ∧
    deadline i = now + p ∧ period i = p.
Proof.
  intros Hp. destruct (interval_new p now Hp) as (i & E1 & Hd & Hper).
  destruct (ticked_due (E := E) now i v) as (i' & E2 & H1 & H2); [lia|].
  exists i'. rewrite E1. split; [exact E2|]. split; [lia|congruence].
Qed.

Lemma start_timers_Ok {E} now k v :
  0 ≤ retransmission_interval_ms (config (broker v)) →
  ∃ tm, start_timers (E := E) now k v = (v, Ok tm) ∧
    deadline (keep_alive_interval tm) = now + ms (keep_alive_timeout_ms k) ∧
    period (keep_alive_interval tm) = ms (keep_alive_timeout_ms k).
Proof.
  intros Hc. pose proof (keep_alive_timeout_pos k) as Hk. pose proof (timer_interval_pos _ Hc) as Hr.
  unfold ms. destruct (first_tick (E := E) (ms (keep_alive_timeout_ms k)) now v)
    as (i & E1 & H1); [unfold ms; lia|].
  destruct (first_tick (E := E) (ms (timer_interval_ms (config (broker v)))) now v)
    as (j & E2 & _); [unfold ms; lia|].
  exists (mkTimers i j). split; [|done]. unfold start_timers.
  rewrite <- bind_assoc, (bind_Ok _ _ _ _ _ E1), bind_gets, <- bind_assoc. by rewrite (bind_Ok _ _ _ _ _ E2).
Qed.

(** Not in the loop without timers. *)
Definition has_timers x : Prop := match x with Outside (InLoop _) => False | _ => True end.

(** The loop is entered from one state, and the configuration stays. *)
Lemma enter_loop {E} t ph k v v' :
  has_timers (Outside ph) → run_step (E := E) t ph v = (v', Ok (InLoop k)) →
  ph = Enter Processing ∧ config (broker v') = config (broker v).
Proof.
  intros Hph Er. destruct ph as [[]|k0| |]; [| | | |by destruct Hph|..]; cbn [run_step] in Er;
    try (exfalso; minv Er; done).
  split; [done|]. unfold take_stream in Er. rewrite bind_assoc, bind_gets in Er.
  destruct (rt_stream (rt v)) as [[rd wr]|]; [|done].
  unfold modify, gets, mbind, M_bind, mret, M_ret in Er. cbn in Er. by injection Er as <- _.
Qed.

(** The keep-alive timer is due when the time has passed since a packet. *)
Definition keeps_alive (k : Z) (last : Instant) tm : Prop :=
  deadline (keep_alive_interval tm) = last + ms (keep_alive_timeout_ms k) ∧
  period (keep_alive_interval tm) = ms (keep_alive_timeout_ms k).

(** A turn that stays in the loop: its branch was ready. *)
Lemma loop_turn {E} k t tm tm' k' v v' :
  timed_step (E := E) t (Looping k tm) v = (v', Ok (Looping k' tm')) →
  k' = k ∧ (0 < k → branch t ≠ OnKeepAlive) ∧ select_branch (E := E) t tm v = (v, Ok tm') ∧
  run_step (E := E) t (InLoop k) v = (v', Ok (InLoop k)).
Proof.
  intros H. cbn [timed_step] in H. unfold mbind at 1, M_bind at 1 in H.
  destruct (select_branch t tm v) as [v1 [tm1|e| |]] eqn:Es; try done.
  assert (v1 = v) as ->.
  { unfold select_branch, ticked in Es. destruct (branch t); minv Es; try done;
      destruct (tick _ _); by minv E0. }
  unfold mbind, M_bind in H. destruct (run_step t (InLoop k) v) as [v2 [ph|e| |]] eqn:Er; try done.
  destruct ph as [| k2 | |]; try done. injection H as -> -> ->.
  assert (k' = k) as ->.
  { destruct (run_step_inv (E := E) t (InLoop k) v v' (InLoop k')) as [He _]; [by split|done|]. by inversion He. }
  split; [done|]. split; [|done]. intros Hk Hb.
  destruct (keep_alive_step (E := E) k t v Hb Hk) as (rd & E1). by rewrite E1 in Er.
Qed.

Lemma select_keeps_alive {E} k last t tm tm' v :
  keeps_alive k last tm → branch t ≠ OnKeepAlive → select_branch (E := E) t tm v = (v, Ok tm') →
  keeps_alive k (match branch t with OnDecode => at_instant t | _ => last end) tm'.
Proof.
  intros [Hd Hp] Hb H. unfold select_branch in H. destruct (branch t); minv H; try done.
  split; cbn; [by rewrite reset_deadline, Hp|by rewrite reset_period].
Qed.

Lemma loop_keeps_alive {E} k ts last tm tm' v v' :
  0 < k → keeps_alive k last tm → processing_loop (E := E) k ts tm v = (v', Ok tm') →
  keeps_alive k (last_packet last ts) tm'.
Proof.
  intros Hk. revert last tm v. induction ts as [|t ts IH]; intros last tm v Ha H; cbn [processing_loop] in H.
  { by injection H as _ <-. }
  unfold mbind, M_bind in H. destruct (timed_step t (Looping k tm) v) as [v1 [[ph|k1 tm1]|e| |]] eqn:Et; try done.
  destruct (loop_turn _ _ _ _ _ _ _ Et) as (-> & Hb & Hs & _).
  apply (IH _ tm1 v1); [|exact H]. by eapply select_keeps_alive; [exact Ha|apply Hb|exact Hs].
Qed.

(** C23: the keep-alive is one and a half times what the client asked for, from its
    last packet.  A session enters its loop and takes any number of turns
    without leaving it.  From one and a half keep-alive intervals after the last
    packet it read (or after the loop was entered) the keep-alive branch can be
    taken, and ends the connection: a persistent session goes to wait for its
    client, another to its clean-up.  Before that time the branch waits.  So a
    client that sends a packet in every such interval is never cut off. *)
Theorem keep_alive_exact {E} k t0 ts t tm tm' v0 v v' :
  0 < k → 0 ≤ retransmission_interval_ms (config (broker v0)) →
  timed_step (E := E) t0 (Outside (Enter Processing)) v0 = (v, Ok (Looping k tm)) →
  processing_loop (E := E) k ts tm v = (v', Ok tm') → branch t = OnKeepAlive →
  let due := last_packet (at_instant t0) ts + ms (1500 * k) in
  (due ≤ at_instant t → ∃ rd, timed_step (E := E) t (Looping k tm') v' =
     (with_reader rd v', Ok (Outside (Enter (after_loss v'))))) ∧
  (at_instant t < due → timed_step (E := E) t (Looping k tm') v' = (v', Pending)).
Proof.
  intros Hk Hc E0 E1 Hb due.
  assert (keeps_alive k (last_packet (at_instant t0) ts) tm') as [Hd Hp].
  { eapply (loop_keeps_alive (E := E)); [done| |exact E1].
    cbn [timed_step] in E0. unfold mbind at 1, M_bind at 1 in E0.
    destruct (run_step t0 (Enter Processing) v0) as [v1 [ph|e| |]] eqn:Er; try done.
    destruct ph as [|k1| |]; try done.
    destruct (enter_loop _ (Enter Processing) _ _ _ I Er) as [_ Hcfg].
    destruct (start_timers_Ok (E := E) (at_instant t0) k1 v1) as (tm1 & E2 & H); [by rewrite Hcfg|].
    rewrite (bind_Ok _ _ _ _ _ E2) in E0. by injection E0 as <- <- <-. }
  assert (ms (keep_alive_timeout_ms k) = ms (1500 * k)) as Hm.
  { unfold keep_alive_timeout_ms. rewrite (proj2 (Z.ltb_lt _ _) Hk). f_equal. lia. }
  rewrite Hm in Hd. fold due in Hd. cbn [timed_step]. unfold select_branch. rewrite Hb.
  split; intros Ht.
  - destruct (ticked_due (E := E) (at_instant t) (keep_alive_interval tm') v') as (i & E2 & _); [lia|].
    destruct (keep_alive_step (E := E) k t v' Hb Hk) as (rd & E3). exists rd.
    rewrite bind_assoc, (bind_Ok _ _ _ _ _ E2), bind_ret. by rewrite (bind_Ok _ _ _ _ _ E3).
  - rewrite bind_assoc. unfold mbind at 1, M_bind at 1. by rewrite ticked_early by lia.
Qed.

(** The branch of a turn is not a timer's that is not due. *)
Definition due (t : Turn) x : Prop :=
  match x, branch t with
  | Looping _ tm, OnKeepAlive => deadline (keep_alive_interval tm) ≤ at_instant t
  | Looping _ tm, OnRetransmit => deadline (retransmit_interval tm) ≤ at_instant t
  | _, _ => True
  end.

Lemma select_branch_cases {E} k t tm v :
  (due t (Looping k tm) ∧ ∃ tm', select_branch (E := E) t tm v = (v, Ok tm')) ∨
  (¬ due t (Looping k tm) ∧ select_branch (E := E) t tm v = (v, Pending)).
Proof.
  unfold due, select_branch. destruct (branch t); try (left; split; [done|by eexists]).
  - destruct (Z.le_gt_cases (deadline (keep_alive_interval tm)) (at_instant t)) as [H|H].
    + left. split; [done|]. destruct (ticked_due (E := E) _ _ v H) as (i & E1 & _).
      eexists. by rewrite (bind_Ok _ _ _ _ _ E1).
    + right. split; [lia|]. unfold mbind, M_bind. by rewrite ticked_early by lia.
  - destruct (Z.le_gt_cases (deadline (retransmit_interval tm)) (at_instant t)) as [H|H].
    + left. split; [done|]. destruct (ticked_due (E := E) _ _ v H) as (i & E1 & _).
      eexists. by rewrite (bind_Ok _ _ _ _ _ E1).
    + right. split; [lia|]. unfold mbind, M_bind. by rewrite ticked_early by lia.
Qed.

(** What [timed_step_exact] says of one step. *)
Definition exact_at {E} (t : Turn) x v (timed : Env * outcome E Timed) (plain : Env * outcome E Phase) : Prop :=
  (∀ v' x', timed = (v', Ok x') → has_timers x' ∧ due t x ∧ plain = (v', Ok (phase_of x'))) ∧
  (∀ v' ph, due t x → plain = (v', Ok ph) → ∃ x', timed = (v', Ok x') ∧ phase_of x' = ph) ∧
  (¬ due t x → timed = (v, Pending)).

Lemma exact_Ok {E} t x v v1 x1 :
  has_timers x1 → due t x → exact_at (E := E) t x v (v1, Ok x1) (v1, Ok (phase_of x1)).
Proof.
  intros Hx Hd. split_and!; [by intros ? ? [= <- <-]| |done]. intros ? ? _ [= <- <-]. by exists x1.
Qed.

(** The timers only hold their own branches back: a step with timers is a step
    without, a turn whose branch is due does with timers what it does without,
    and one whose branch is not due waits.  Setting the timers up neither waits
    nor panics, whatever intervals are configured. *)
Lemma timed_step_exact {E} t x v :
  has_timers x → 0 ≤ retransmission_interval_ms (config (broker v)) →
  exact_at (E := E) t x v (timed_step t x v) (run_step t (phase_of x) v).
Proof.
  intros Hx Hc. destruct x as [ph|k tm]; cbn [timed_step phase_of].
  - pose proof (enter_loop (E := E) t ph) as Hin. unfold mbind at 1, M_bind at 1.
    destruct (run_step t ph v) as [v1 [ph1|e| |]] eqn:Er; [|split_and!; done..].
    destruct ph1 as [s|k| |]; [apply (exact_Ok t (Outside ph) v v1 (Outside (Enter s))); done| | |].
    + destruct (Hin k v v1 Hx Er) as [_ Hcfg].
      destruct (start_timers_Ok (E := E) (at_instant t) k v1) as (tm & E2 & _); [by rewrite Hcfg|].
      rewrite (bind_Ok _ _ _ _ _ E2). by apply (exact_Ok t (Outside ph) v v1 (Looping k tm)).
    + by apply (exact_Ok t (Outside ph) v v1 (Outside AwaitCommand)).
    + by apply (exact_Ok t (Outside ph) v v1 (Outside Exited)).
  - unfold mbind at 1, M_bind at 1.
    destruct (select_branch_cases (E := E) k t tm v) as [[Hd (tm' & ->)]|[Hd ->]]; [|split_and!; done..].
    unfold mbind, M_bind. destruct (run_step t (InLoop k) v) as [v1 [ph1|e| |]]; [|split_and!; done..].
    set (x1 := match ph1 with InLoop k' => Looping k' tm' | _ => Outside ph1 end).
    pose proof (exact_Ok (E := E) t (Looping k tm) v v1 x1) as H.
    assert (phase_of x1 = ph1) as Ex by by destruct ph1.
    rewrite Ex in H. apply H; [by destruct ph1|done].
Qed.
End TimerProps.

(** * On the sample session *)

(** A client with a keep-alive of 10 seconds sends PINGREQ after 5 seconds, and is
    silent from then on: 20 seconds after the start it is cut off. *)
Definition sample_pinging : sample_env_type :=
  with_rt (set_stream (Some (sample_stream [Byte.xc0; Byte.x00])) (set_params true 10 (rt sample_env)))
    sample_env.

Definition at_second (b : Branch) (n : Z) : Turn := mkTurn b false (ms (n * 1000)) epoch.

Lemma keep_alive_exact_witness :
  ∃ v tm v' tm' rd,
    timed_step (IV := clock) (E := Empty_set) (at_second OnDecode 0) (Outside (Enter Processing)) sample_pinging =
      (v, Ok (Looping 10 tm)) ∧
    processing_loop (E := Empty_set) 10 [at_second OnDecode 5] tm v = (v', Ok tm') ∧
    timed_step (E := Empty_set) (at_second OnKeepAlive 19) (Looping 10 tm') v' = (v', Pending) ∧
    timed_step (E := Empty_set) (at_second OnKeepAlive 20) (Looping 10 tm') v' =
      (with_reader rd v', Ok (Outside (Enter Cleanup))).
Proof.
  destruct (timed_step (IV := clock) (E := Empty_set) (at_second OnDecode 0) (Outside (Enter Processing))
    sample_pinging) as [v o] eqn:E0.
  assert (∃ tm, o = Ok (Looping 10 tm)) as (tm & ->).
  { vm_compute in E0. injection E0 as _ <-. by eexists. }
  destruct (processing_loop (E := Empty_set) 10 [at_second OnDecode 5] tm v) as [v' o] eqn:E1.
  assert ((∃ tm', o = Ok tm') ∧ after_loss v' = Cleanup) as [(tm' & ->) Hl].
  { vm_compute in E0. injection E0 as <- <-. vm_compute in E1. injection E1 as <- <-. split; [by eexists|done]. }
  destruct (keep_alive_exact (IV := clock) (E := Empty_set) 10 (at_second OnDecode 0) [at_second OnDecode 5]
    (at_second OnKeepAlive 20) tm tm' sample_pinging v v' ltac:(lia) ltac:(vm_compute; discriminate) E0 E1 eq_refl)
    as [H1 _].
  destruct (keep_alive_exact (IV := clock) (E := Empty_set) 10 (at_second OnDecode 0) [at_second OnDecode 5]
    (at_second OnKeepAlive 19) tm tm' sample_pinging v v' ltac:(lia) ltac:(vm_compute; discriminate) E0 E1 eq_refl)
    as [_ H2].
  destruct (H1 ltac:(vm_compute; discriminate)) as (rd & E2). rewrite Hl in E2.
  exists v, tm, v', tm', rd. split; [reflexivity|]. split; [exact E1|]. split; [|exact E2].
  exact (H2 ltac:(vm_compute; reflexivity)).
Defined.
