(* ===== verification/Backends.v ===== *)
(** [src/storage/mod.rs]: the storage a configuration asks for, behind the one
    interface, and the contract for either of the two backends. *)

From S2P Require Import Prelude External Packet Storage MemoryStorage Config Sql SqliteStorage SqliteContract.

Section Backends.
Context {HO : HashOrder} {SQ : Rusqlite} {RF : Rfc3339}.

(** [Arc<dyn Storage>] *)
Inductive AnyStorage :=
| InMemory (s : InMemoryStorage)
| InSqlite (s : SqliteStorage).

(** The call of a method through the trait object. *)
Definition dispatch {E A} (memory : M InMemoryStorage E A) (sqlite : M SqliteStorage E A) :
    M AnyStorage E A :=
  λ s, match s with
       | InMemory s => let '(s', o) := memory s in (InMemory s', o)
       | InSqlite s => let '(s', o) := sqlite s in (InSqlite s', o)
       end.

#[export] Instance any_storage : Storage AnyStorage := {
  save_session p subs infl inb := dispatch (save_session p subs infl inb) (save_session p subs infl inb);
  load_session cid := dispatch (load_session cid) (load_session cid);
  load_subscriptions cid := dispatch (load_subscriptions cid) (load_subscriptions cid);
  load_inflight_messages cid := dispatch (load_inflight_messages cid) (load_inflight_messages cid);
  load_inbound_qos2_messages cid :=
    dispatch (load_inbound_qos2_messages cid) (load_inbound_qos2_messages cid);
  delete_session cid := dispatch (delete_session cid) (delete_session cid);
  session_exists cid := dispatch (session_exists cid) (session_exists cid);
  delete_expired_sessions t := dispatch (delete_expired_sessions t) (delete_expired_sessions t);
  save_retained_message m := dispatch (save_retained_message m) (save_retained_message m);
  load_retained_message t := dispatch (load_retained_message t) (load_retained_message t);
  load_all_retained_messages := dispatch load_all_retained_messages load_all_retained_messages;
  delete_retained_message t := dispatch (delete_retained_message t) (delete_retained_message t);
  count_retained_messages := dispatch count_retained_messages count_retained_messages;
}.

Definition storage_new (config : PersistenceConfig) : outcome StorageError AnyStorage :=
  match storage_backend config with
  | Memory => Ok (InMemory memory_new)
  | Sqlite =>
      match sqlite_new (database_path config) with
      | Ok s => Ok (InSqlite s)
      | Err e => Err e
      | Panic => Panic
      | Pending => Pending
      end
  end.

(** * The contract *)
Section Contract.
Context {HOL : HashOrderLaws} {SL : RusqliteLaws} {RL : Rfc3339Laws}.

Definition any_inv (s : AnyStorage) : Prop :=
  match s with InMemory s => storage_inv s | InSqlite s => storage_inv s end.
Definition any_abs (s : AnyStorage) : StoredData :=
  match s with InMemory s => storage_abs s | InSqlite s => storage_abs s end.

Lemma dispatch_call {A} (m : M InMemoryStorage StorageError A) (n : M SqliteStorage StorageError A) R :
  storage_call storage_inv storage_abs m R → storage_call storage_inv storage_abs n R →
  storage_call any_inv any_abs (dispatch m n) R.
Proof.
  intros Hm Hn [s|s] Hs; cbn [any_inv] in Hs.
  - specialize (Hm s Hs). unfold dispatch. by destruct (m s).
  - specialize (Hn s Hs). unfold dispatch. by destruct (n s).
Qed.

Lemma dispatch_Ok {A} (m : M InMemoryStorage StorageError A) (n : M SqliteStorage StorageError A) s :
  match s with InMemory s => is_Ok (m s).2 | InSqlite s => is_Ok (n s).2 end →
  is_Ok (dispatch m n s).2.
Proof. destruct s as [s|s]; unfold dispatch; [by destruct (m s)|by destruct (n s)]. Qed.

#[local] Obligation Tactic := idtac.

#[export] Program Instance any_laws : StorageLaws AnyStorage := {
  storage_inv := any_inv;
  storage_abs := any_abs;
  storage_admits := saveable;
}.
Next Obligation. done. Qed.
Next Obligation. intros [s|s] cid x; apply storage_kept_id. Qed.
Next Obligation. intros [s|s] t m; apply storage_retained_topic. Qed.
Next Obligation. intros *. intros H. by apply dispatch_call; apply save_session_spec. Qed.
Next Obligation. intros *. apply dispatch_call; apply load_session_spec. Qed.
Next Obligation. intros *. apply dispatch_call; apply load_subscriptions_spec. Qed.
Next Obligation. intros *. apply dispatch_call; apply load_inflight_messages_spec. Qed.
Next Obligation. intros *. apply dispatch_call; apply load_inbound_qos2_messages_spec. Qed.
Next Obligation. intros *. apply dispatch_call; apply delete_session_spec. Qed.
Next Obligation. intros *. apply dispatch_call; apply session_exists_spec. Qed.
Next Obligation. intros *. apply dispatch_call; apply delete_expired_sessions_spec. Qed.
Next Obligation. intros *. apply dispatch_call; apply save_retained_message_spec. Qed.
Next Obligation. intros *. apply dispatch_call; apply load_retained_message_spec. Qed.
Next Obligation. intros *. apply dispatch_call; apply load_all_retained_messages_spec. Qed.
Next Obligation. intros *. apply dispatch_call; apply delete_retained_message_spec. Qed.
Next Obligation. intros *. apply dispatch_call; apply count_retained_messages_spec. Qed.

Context {SR : RusqliteReliable}.

#[export] Program Instance any_reliable : StorageReliable AnyStorage := {
  storage_stores p subs infl inb := saveable p subs infl inb ∧ distinct_keys subs infl inb;
  storage_reads := readable_inflight;
  storage_counts n := (Z.of_nat n < 2 ^ 63)%Z;
}.
Next Obligation. done. Qed.
Next Obligation. done. Qed.
Next Obligation. done. Qed.
Next Obligation. intros p subs infl inb [s|s] Hs Hp; apply dispatch_Ok; by apply save_session_Ok. Qed.
Next Obligation. intros cid [s|s] Hs; apply dispatch_Ok; by apply load_session_Ok. Qed.
Next Obligation. intros cid [s|s] Hs; apply dispatch_Ok; by apply load_subscriptions_Ok. Qed.
Next Obligation. intros cid [s|s] Hs Hr; apply dispatch_Ok; by apply load_inflight_messages_Ok. Qed.
Next Obligation. intros cid [s|s] Hs; apply dispatch_Ok; by apply load_inbound_qos2_messages_Ok. Qed.
Next Obligation. intros cid [s|s] Hs; apply dispatch_Ok; by apply delete_session_Ok. Qed.
Next Obligation. intros cid [s|s] Hs; apply dispatch_Ok; by apply session_exists_Ok. Qed.
Next Obligation. intros t [s|s] Hs; apply dispatch_Ok; by apply delete_expired_sessions_Ok. Qed.
Next Obligation. intros m [s|s] Hs; apply dispatch_Ok; by apply save_retained_message_Ok. Qed.
Next Obligation. intros t [s|s] Hs; apply dispatch_Ok; by apply load_retained_message_Ok. Qed.
Next Obligation. intros [s|s] Hs; apply dispatch_Ok; by apply load_all_retained_messages_Ok. Qed.
Next Obligation. intros t [s|s] Hs; apply dispatch_Ok; by apply delete_retained_message_Ok. Qed.
Next Obligation. intros [s|s] Hs Hn; apply dispatch_Ok; by apply count_retained_messages_Ok. Qed.
End Contract.
End Backends.
