(* ===== verification/Transport.v ===== *)
(** [src/transport.rs]: listeners and streams over TCP and TLS, the protocol
    prefix of an address, and the TLS set-up, over the sockets and the TLS
    library the file calls. *)

From S2P Require Import Prelude External Config Text.

(** * Sockets, files and TLS

    [tokio::net], [std::fs], [rustls_pemfile] and [tokio_rustls].  A call that
    is [Pending] waits, as a poll that is not ready does. *)
Class Sockets := {
  Net : Type;
  NetError : Type;
  net_message : NetError → string;  (** [Display] *)
  TcpListener : Type;
  TcpStream : Type;
  TlsStream : Type;
  TlsAcceptor : Type;
  SocketAddr : Type;
  addr_to_string : SocketAddr → string;
  tcp_bind : string → M Net NetError TcpListener;
  tcp_accept : TcpListener → M Net NetError TcpStream;
  tcp_local_addr : TcpListener → M Net NetError SocketAddr;
  tcp_drop : TcpListener → Net → Net;
  tcp_peer_addr : TcpStream → M Net NetError SocketAddr;
  tcp_read : TcpStream → nat → M Net NetError (list byte);
  tcp_write : TcpStream → list byte → M Net NetError nat;
  tcp_flush : TcpStream → M Net NetError ();
  tcp_shutdown : TcpStream → M Net NetError ();
  tls_accept : TlsAcceptor → TcpStream → M Net NetError TlsStream;
  tls_get_ref : TlsStream → TcpStream;
  tls_read : TlsStream → nat → M Net NetError (list byte);
  tls_write : TlsStream → list byte → M Net NetError nat;
  tls_flush : TlsStream → M Net NetError ();
  tls_shutdown : TlsStream → M Net NetError ();
  ReadHalf : Type → Type;
  WriteHalf : Type → Type;
  split : ∀ {T}, T → ReadHalf T * WriteHalf T;  (** [tokio::io::split] *)
  File : Type;
  Cert : Type;
  Key : Type;
  TlsServerConfig : Type;
  file_open : string → M Net NetError File;
  certs : File → M Net NetError (list Cert);
  private_key : File → M Net NetError (option Key);
  with_single_cert : list Cert → Key → TlsServerConfig + NetError;
  acceptor_from : TlsServerConfig → TlsAcceptor;
}.

(** What is bound: [tcp_bind] adds a socket or fails, and dropping a listener
    closes its socket; nothing else touches them. *)
Class SocketsLaws {SO : Sockets} := {
  bound : Net → list TcpListener;
  tcp_bind_law addr n :
    match tcp_bind addr n with
    | (n', Ok l) => bound n' ≡ₚ l :: bound n
    | (n', _) => bound n' ≡ₚ bound n
    end;
  tcp_bind_no_panic addr n : (tcp_bind addr n).2 ≠ Panic;
  tcp_local_addr_law l n : bound (tcp_local_addr l n).1 ≡ₚ bound n;
  tcp_local_addr_no_panic l n : (tcp_local_addr l n).2 ≠ Panic;
  tcp_drop_law l ls n : bound n ≡ₚ l :: ls → bound (tcp_drop l n) ≡ₚ ls;
  file_open_law p n : bound (file_open p n).1 ≡ₚ bound n ∧ (file_open p n).2 ≠ Panic;
  certs_law f n : bound (certs f n).1 ≡ₚ bound n ∧ (certs f n).2 ≠ Panic;
  private_key_law f n : bound (private_key f n).1 ≡ₚ bound n ∧ (private_key f n).2 ≠ Panic;
}.

(** * Addresses *)

Inductive Protocol := Tcp | TcpTls | WebSocket | WebSocketSecure | Unix.

(** [Protocol::from_url], which always succeeds. *)
Definition from_url {E} (url : string) : (Protocol * string) + E :=
  match str_strip_prefix "tcp://" url with
  | Some addr => inl (Tcp, addr)
  | None =>
      match str_strip_prefix "tls://" url with
      | Some addr => inl (TcpTls, addr)
      | None => inl (Tcp, url)
      end
  end.

Section Transport.
Context {SO : Sockets}.

(** [anyhow::Error] *)
Inductive TransportError :=
| NetFailed (e : NetError)
| NoPrivateKey (path : string).

Definition transport_message (e : TransportError) : string :=
  match e with
  | NetFailed e => net_message e
  | NoPrivateKey path => "No private key found in " +:+ path
  end.

Definition net {A} (m : M Net NetError A) : M Net TransportError A := map_err NetFailed m.

(** * Streams *)

(** [Box<dyn AsyncRead>] and [Box<dyn AsyncWrite>] *)
Inductive AnyReader := TcpReader (r : ReadHalf TcpStream) | TlsReader (r : ReadHalf TlsStream).
Inductive AnyWriter := TcpWriter (w : WriteHalf TcpStream) | TlsWriter (w : WriteHalf TlsStream).

(** [tokio::io::AsyncRead] and [AsyncWrite] as they are implemented here.  A read
    takes the room that is left in the buffer and gives the bytes put there. *)
Class PollRead (T : Type) := poll_read : T → nat → M Net NetError (list byte).
Class PollWrite (T : Type) := {
  poll_write : T → list byte → M Net NetError nat;
  poll_flush : T → M Net NetError ();
  poll_shutdown : T → M Net NetError ();
}.

(** The trait [AsyncStream], which extends the two. *)
Class StreamTrait (T : Type) := {
  stream_read :: PollRead T;
  stream_write :: PollWrite T;
  stream_close : T → M Net TransportError ();
  stream_peer_addr : T → M Net TransportError SocketAddr;
  into_split : T → AnyReader * AnyWriter;
}.

Record TcpAsyncStream := mkTcpAsyncStream { tcp_stream : TcpStream }.

#[export] Instance tcp_poll_read : PollRead TcpAsyncStream := λ self remaining,
  tcp_read (tcp_stream self) remaining.

#[export] Instance tcp_poll_write : PollWrite TcpAsyncStream := {
  poll_write self buf := tcp_write (tcp_stream self) buf;
  poll_flush self := tcp_flush (tcp_stream self);
  poll_shutdown self := tcp_shutdown (tcp_stream self);
}.

#[export] Instance tcp_async_stream : StreamTrait TcpAsyncStream := {
  stream_close self := net (tcp_shutdown (tcp_stream self));; mret tt;
  stream_peer_addr self := net (tcp_peer_addr (tcp_stream self));
  into_split self := let '(r, w) := split (tcp_stream self) in (TcpReader r, TcpWriter w);
}.

Record TlsAsyncStream := mkTlsAsyncStream { tls_stream : TlsStream }.

#[export] Instance tls_poll_read : PollRead TlsAsyncStream := λ self remaining,
  tls_read (tls_stream self) remaining.

#[export] Instance tls_poll_write : PollWrite TlsAsyncStream := {
  poll_write self buf := tls_write (tls_stream self) buf;
  poll_flush self := tls_flush (tls_stream self);
  poll_shutdown self := tls_shutdown (tls_stream self);
}.

#[export] Instance tls_async_stream : StreamTrait TlsAsyncStream := {
  stream_close self := net (tls_shutdown (tls_stream self));; mret tt;
  stream_peer_addr self := net (tcp_peer_addr (tls_get_ref (tls_stream self)));
  into_split self := let '(r, w) := split (tls_stream self) in (TlsReader r, TlsWriter w);
}.

(** [Box<dyn AsyncStream>] *)
Inductive AsyncStream :=
| DynTcpStream (stream : TcpAsyncStream)
| DynTlsStream (stream : TlsAsyncStream).

#[export] Instance dyn_poll_read : PollRead AsyncStream := λ self,
  match self with
  | DynTcpStream s => poll_read s
  | DynTlsStream s => poll_read s
  end.

#[export] Instance dyn_poll_write : PollWrite AsyncStream := {
  poll_write self := match self with DynTcpStream s => poll_write s | DynTlsStream s => poll_write s end;
  poll_flush self := match self with DynTcpStream s => poll_flush s | DynTlsStream s => poll_flush s end;
  poll_shutdown self :=
    match self with DynTcpStream s => poll_shutdown s | DynTlsStream s => poll_shutdown s end;
}.

#[export] Instance dyn_async_stream : StreamTrait AsyncStream := {
  stream_close self := match self with DynTcpStream s => stream_close s | DynTlsStream s => stream_close s end;
  stream_peer_addr self :=
    match self with DynTcpStream s => stream_peer_addr s | DynTlsStream s => stream_peer_addr s end;
  into_split self := match self with DynTcpStream s => into_split s | DynTlsStream s => into_split s end;
}.

(** * Listeners *)

(** The trait [AsyncListener]. *)
Class ListenerTrait (T : Type) := {
  listener_accept : T → M Net TransportError AsyncStream;
  listener_local_addr : T → M Net TransportError SocketAddr;
  listener_close : T → M Net TransportError ();
}.

Record TcpAsyncListener := mkTcpAsyncListener { tcp_listener : TcpListener }.

Definition tcp_listener_bind (addr : string) : M Net TransportError TcpAsyncListener :=
  listener ← net (tcp_bind addr);
  mret (mkTcpAsyncListener listener).

#[export] Instance tcp_async_listener : ListenerTrait TcpAsyncListener := {
  listener_accept self :=
    stream ← net (tcp_accept (tcp_listener self));
    mret (DynTcpStream (mkTcpAsyncStream stream));
  listener_local_addr self := net (tcp_local_addr (tcp_listener self));
  listener_close self := mret tt;
}.

Record TlsAsyncListener := mkTlsAsyncListener { tls_listener : TcpListener; acceptor : TlsAcceptor }.

Definition tls_listener_bind (addr : string) (acceptor : TlsAcceptor) :
    M Net TransportError TlsAsyncListener :=
  listener ← net (tcp_bind addr);
  mret (mkTlsAsyncListener listener acceptor).

(** A TLS connection is accepted when its handshake has been made. *)
#[export] Instance tls_async_listener : ListenerTrait TlsAsyncListener := {
  listener_accept self :=
    tcp_stream ← net (tcp_accept (tls_listener self));
    tls_stream ← net (tls_accept (acceptor self) tcp_stream);
    mret (DynTlsStream (mkTlsAsyncStream tls_stream));
  listener_local_addr self := net (tcp_local_addr (tls_listener self));
  listener_close self := mret tt;
}.

(** [Box<dyn AsyncListener>] *)
Inductive AsyncListener :=
| DynTcpListener (listener : TcpAsyncListener)
| DynTlsListener (listener : TlsAsyncListener).

#[export] Instance dyn_async_listener : ListenerTrait AsyncListener := {
  listener_accept self :=
    match self with DynTcpListener l => listener_accept l | DynTlsListener l => listener_accept l end;
  listener_local_addr self :=
    match self with DynTcpListener l => listener_local_addr l | DynTlsListener l => listener_local_addr l end;
  listener_close self :=
    match self with DynTcpListener l => listener_close l | DynTlsListener l => listener_close l end;
}.

(** [Drop] *)
Definition socket (l : AsyncListener) : TcpListener :=
  match l with DynTcpListener l => tcp_listener l | DynTlsListener l => tls_listener l end.
Definition drop_listener (l : AsyncListener) (n : Net) : Net := tcp_drop (socket l) n.

(** * TLS *)

Definition build_tls_acceptor (tls_config : TlsConfig) : M Net TransportError TlsAcceptor :=
  cert ← net (file_open (cert_file tls_config));
  key ← net (file_open (key_file tls_config));
  certs ← net (certs cert);
  key ← net (private_key key);
  key ← or_throw (match key with Some key => inl key | None => inr (NoPrivateKey (key_file tls_config)) end);
  config ← net (or_throw (with_single_cert certs key));
  mret (acceptor_from config).

End Transport.
