(* ===== verification/Server.v ===== *)
(** [src/server.rs], the start of the server: [Server::new] and the binding of
    its listeners; and [src/main.rs], the command line and what the process does
    with it.  What runs after the start is [Serve.v]. *)

From S2P Require Import Prelude External Packet Storage Config ConfigFile Text Auth MemoryStorage Sql SqliteStorage Backends Router Broker Transport.

(** * The server *)

Inductive ServerError :=
| StartupFailed (msg : string)
| ServerIo (e : io_error)
| ServerStorage (e : StorageError)
| ServerAuth (e : AuthError).

Section ServerStart.
Context {MP : Mpsc} {HO : HashOrder} {SQ : Rusqlite} {RF : Sql.Rfc3339} {FS : FileSystem}.
Context {SO : Sockets} {TM : Toml}.

Record Server := mkServer {
  server_config : Config;
  server_broker : Broker AnyStorage AnyReader AnyWriter DynAuthenticator DynAuthorizer;
}.

Definition server_new (config : Config) : outcome ServerError Server :=
  match storage_new (persistence config) with
  | Ok storage =>
      match auth_new (auth config) with
      | inl authenticator =>
          match new_authorizer (acl config) with
          | inl authorizer =>
              Ok (mkServer config (broker_new config storage authenticator authorizer))
          | inr e => Err (ServerAuth e)
          end
      | inr e => Err (ServerAuth e)
      end
  | Err e => Err (ServerStorage e)
  | Panic => Panic
  | Pending => Pending
  end.

(** ** Binding *)

(** [.map_err(|e| ServerError::StartupFailed(format!("..{e}")))] *)
Definition startup {A} (msg : TransportError → string) (m : M Net TransportError A) :
    M Net ServerError A :=
  map_err (λ e, StartupFailed (msg e)) m.

Definition tls_acceptor_of (config : Config) : M Net ServerError (option TlsAcceptor) :=
  if existsb (starts_with "tls://") (listen config) then
    tls_config ← or_throw
      match tls config with
      | Some tls_config => inl tls_config
      | None => inr (StartupFailed "TLS listener configured but [tls] section missing from config")
      end;
    acceptor ← startup (λ e, "Failed to initialize TLS: " +:+ transport_message e)
      (build_tls_acceptor tls_config);
    mret (Some acceptor)
  else mret None.

(** The listener of an address, bound. *)
Definition bind_one (tls_acceptor : option TlsAcceptor) (listen_addr : string) :
    M Net ServerError AsyncListener :=
  '(protocol, addr) ← or_throw (from_url listen_addr);
  match protocol with
  | Tcp =>
      listener ← startup (λ e, "Failed to bind TCP to " +:+ addr +:+ ": " +:+ transport_message e)
        (tcp_listener_bind addr);
      mret (DynTcpListener listener)
  | TcpTls =>
      acceptor ← or_panic tls_acceptor;
      listener ← startup (λ e, "Failed to bind TLS to " +:+ addr +:+ ": " +:+ transport_message e)
        (tls_listener_bind addr acceptor);
      mret (DynTlsListener listener)
  | _ => throw (StartupFailed ("Unsupported protocol in '" +:+ listen_addr +:+ "'"))
  end.

(** What a call that does not succeed leaves: its listeners are dropped. *)
Definition or_drop {A} (listeners : list AsyncListener) (m : M Net ServerError A) :
    M Net ServerError A :=
  λ n, match m n with
       | (n', Ok a) => (n', Ok a)
       | (n', Pending) => (n', Pending)
       | (n', o) => (foldl (λ n l, drop_listener l n) n' listeners, o)
       end.

(** The loop over the addresses. *)
Fixpoint bind_each (tls_acceptor : option TlsAcceptor) (listen : list string)
    (listeners : list AsyncListener) (addresses : list string) :
    M Net ServerError (list AsyncListener * list string) :=
  match listen with
  | [] => mret (listeners, addresses)
  | listen_addr :: rest =>
      listener ← or_drop listeners (bind_one tls_acceptor listen_addr);
      bound_addr ← or_drop (listener :: listeners)
        (startup (λ e, "Failed to get local address: " +:+ transport_message e)
           (listener_local_addr listener));
      bind_each tls_acceptor rest (listeners ++ [listener]) (addresses ++ [addr_to_string bound_addr])
  end.

Definition bind (self : Server) : M Net ServerError (list AsyncListener * list string) :=
  tls_acceptor ← tls_acceptor_of (server_config self);
  bind_each tls_acceptor (listen (server_config self)) [] [].

(** [Server::run], given what serving on the bound listeners comes to, which
    [Serve.v] is about. *)
Definition server_run (serve : list AsyncListener → outcome ServerError ()) (self : Server) :
    M Net ServerError () :=
  '(listeners, _) ← bind self;
  ((λ n, (n, serve listeners)) : M Net ServerError ()).

(** ** The handle

    What [server::start] gives to the code that embeds the server. *)

Record ServerHandle := mkServerHandle {
  cancel : bool;  (** the token has been cancelled *)
  addresses : list string;
}.

Definition handle_address (h : ServerHandle) : option string := head (addresses h).
Definition handle_addresses (h : ServerHandle) : list string := addresses h.
Definition handle_stop (h : ServerHandle) : ServerHandle := mkServerHandle true (addresses h).

(** [server::start], with what the task it spawns serves. *)
Definition server_start (config : Config) :
    M Net ServerError (ServerHandle * (Server * list AsyncListener)) :=
  server ← ((λ n, (n, server_new config)) : M Net ServerError Server);
  '(listeners, addresses) ← bind server;
  mret (mkServerHandle false addresses, (server, listeners)).

(** * The process *)

(** What the command line asks for. *)
Inductive Invocation :=
| PrintVersion
| PrintHelp
| BadUsage (message : string)
| Serve (listen_address config_file : option string).

(** The loop over [args], from [i]; [None] when it runs on past [fuel] turns. *)
Fixpoint parse_args (fuel : nat) (args : list string) (i : nat)
    (listen_address config_file : option string) : option Invocation :=
  match args !! i with
  | None => Some (Serve listen_address config_file)
  | Some arg =>
      match fuel with
      | O => None
      | S n =>
          if String.eqb arg "-v" || String.eqb arg "--version" then Some PrintVersion
          else if String.eqb arg "-h" || String.eqb arg "--help" then Some PrintHelp
          else if String.eqb arg "-l" || String.eqb arg "--listen" then
            match args !! (i + 1) with
            | Some address => parse_args n args (i + 2) (Some address) config_file
            | None => Some (BadUsage "Error: -l/--listen requires an address argument")
            end
          else if String.eqb arg "-c" || String.eqb arg "--config" then
            match args !! (i + 1) with
            | Some file => parse_args n args (i + 2) listen_address (Some file)
            | None => Some (BadUsage "Error: -c/--config requires a file path argument")
            end
          else Some (BadUsage ("Error: Unknown argument '" +:+ arg +:+ "'"))
      end
  end.

(** [std::env::args], the program's name first. *)
Definition invocation (args : list string) : option Invocation :=
  parse_args (length args) args 1 None None.

(** [anyhow::Error] of [main] *)
Inductive MainError :=
| ReadConfig (path : string) (e : io_error)
| ParseConfig (path : string)
| ServerFailed (e : ServerError).

Definition with_listen (addrs : list string) (c : Config) : Config :=
  mkConfig addrs (retained_message_limit c) (max_retransmission_limit c)
    (retransmission_interval_ms c) (persistence c) (auth c) (acl c) (tls c).

Definition load_config (listen_address config_file : option string) : Config + MainError :=
  let config :=
    match config_file with
    | Some path =>
        match read_to_string path with
        | inl contents =>
            match from_toml contents with
            | Some c => inl c
            | None => inr (ParseConfig path)
            end
        | inr e => inr (ReadConfig path e)
        end
    | None => inl default_config
    end in
  match config, listen_address with
  | inl c, Some addr => inl (with_listen [addr] c)
  | r, _ => r
  end.

(** [tokio::join!] of waiting for the interrupt and of running the server, then
    [server_result?]: it ends when both have. *)
Definition join_server (interrupted : bool) (server_result : outcome ServerError ()) :
    outcome MainError () :=
  match server_result with
  | Panic => Panic
  | Pending => Pending
  | Ok _ => if interrupted then Ok tt else Pending
  | Err e => if interrupted then Err (ServerFailed e) else Pending
  end.

(** [main], given whether the interrupt has come and what serving comes to. *)
Definition main (args : list string) (interrupted : bool)
    (serve : list AsyncListener → outcome ServerError ()) : M Net MainError () := λ n,
  match invocation args with
  | Some (Serve listen_address config_file) =>
      match load_config listen_address config_file with
      | inl config =>
          match server_new config with
          | Ok server =>
              let '(n', server_result) := server_run serve server n in
              (n', join_server interrupted server_result)
          | Err e => (n, Err (ServerFailed e))
          | Panic => (n, Panic)
          | Pending => (n, Pending)
          end
      | inr e => (n, Err e)
      end
  | Some _ => (n, Ok tt)
  | None => (n, Pending)
  end.
End ServerStart.
