(* ===== verification/Serve.v ===== *)
(** [Server::serve] of [src/server.rs] as a transition system: the accept loops,
    the channel they feed, the main loop, and what the session futures do with
    the locks of the broker and of the router.

    Everything runs in one task.  The futures of the listeners and of the
    sessions are polled by the [select!] of the main loop and by nothing else, so
    they stand still while the body of one of its branches waits.  A session is
    seen at the places where it waits for what others hold: in [Router::route],
    with the read lock of the router, for room in the mailbox of a subscriber;
    and in [Broker::remove_session], with the lock of the session map, for the
    write lock of the router.  What a session does in between is [Session.v] and
    [Lifecycle.v]. *)

From S2P Require Import Prelude.

Definition CHANNEL : nat := 64.  (** of accepted streams *)
Definition MAILBOX : nat := 100.
Definition COMMANDS : nat := 10.

Section Serve.
Context {Stream : Type}.

(** ** State *)

(** [Server::accept_loop]: waiting for a connection or the cancellation, or for
    room in the channel. *)
Inductive AcceptLoop := Accepting | Sending (s : Stream) | Closed.

(** A session future; [Routing] has the subscribers it has not sent to yet. *)
Inductive SessionAt := Running | Routing (waiting : list nat) | Removing.

(** The main loop, in the order it goes through. *)
Inductive MainAt :=
| Selecting                       (** in [select!] *)
| Adding (s : Stream)             (** in [Broker::add_client] *)
| CancelLocking                   (** [cancel_all_sessions], before the lock *)
| Cancelling (rest : list nat)    (** in [Session::cancel], for the rest *)
| Draining                        (** [sessions.next().await] after it *)
| Stopped.

Record Task := mkTask {
  loops : list AcceptLoop;
  channel : list Stream;
  main_at : MainAt;
  running : gmap nat SessionAt;
  mailbox : gmap nat nat;
  command_queue : gmap nat nat;
  cancelled : bool;
  (** What has happened: the streams accepted and those made into sessions. *)
  accepted : list Stream;
  served : list Stream;
}.

Definition start (listeners : nat) : Task :=
  mkTask (replicate listeners Accepting) [] Selecting ∅ ∅ ∅ false [] [].

Definition with_loop (i : nat) (l : AcceptLoop) (t : Task) : Task :=
  mkTask (<[i := l]> (loops t)) (channel t) (main_at t) (running t) (mailbox t) (command_queue t)
    (cancelled t) (accepted t) (served t).
Definition with_channel (c : list Stream) (t : Task) : Task :=
  mkTask (loops t) c (main_at t) (running t) (mailbox t) (command_queue t) (cancelled t)
    (accepted t) (served t).
Definition with_main (m : MainAt) (t : Task) : Task :=
  mkTask (loops t) (channel t) m (running t) (mailbox t) (command_queue t) (cancelled t)
    (accepted t) (served t).
Definition with_running (r : gmap nat SessionAt) (t : Task) : Task :=
  mkTask (loops t) (channel t) (main_at t) r (mailbox t) (command_queue t) (cancelled t)
    (accepted t) (served t).
Definition with_mailbox (m : gmap nat nat) (t : Task) : Task :=
  mkTask (loops t) (channel t) (main_at t) (running t) m (command_queue t) (cancelled t)
    (accepted t) (served t).
Definition with_commands (c : gmap nat nat) (t : Task) : Task :=
  mkTask (loops t) (channel t) (main_at t) (running t) (mailbox t) c (cancelled t)
    (accepted t) (served t).
Definition with_accepted (s : Stream) (t : Task) : Task :=
  mkTask (loops t) (channel t) (main_at t) (running t) (mailbox t) (command_queue t) (cancelled t)
    (s :: accepted t) (served t).
Definition with_served (s : Stream) (t : Task) : Task :=
  mkTask (loops t) (channel t) (main_at t) (running t) (mailbox t) (command_queue t) (cancelled t)
    (accepted t) (s :: served t).
Definition with_cancelled (t : Task) : Task :=
  mkTask (loops t) (channel t) (main_at t) (running t) (mailbox t) (command_queue t) true
    (accepted t) (served t).

(** ** Locks *)

(** The lock of the session map is held across an [.await] by [remove_session]
    only, the read lock of the router by [route] only. *)
Definition sessions_locked (t : Task) : Prop := ∃ i, running t !! i = Some Removing.
Definition router_read (t : Task) : Prop := ∃ i l, running t !! i = Some (Routing l).

(** The session futures are polled. *)
Definition polled (t : Task) : Prop := main_at t = Selecting ∨ main_at t = Draining.

(** ** Steps *)

Inductive step : Task → Task → Prop :=
(** [listener.accept()] gives a stream. *)
| StepAccept t i s :
    main_at t = Selecting → loops t !! i = Some Accepting →
    step t (with_accepted s (with_loop i (Sending s) t))
(** [stream_tx.send(stream)] finds room. *)
| StepSend t i s :
    main_at t = Selecting → loops t !! i = Some (Sending s) → length (channel t) < CHANNEL →
    step t (with_channel (channel t ++ [s]) (with_loop i Accepting t))
(** [cancel.cancelled()], and the listener is closed. *)
| StepClose t i :
    main_at t = Selecting → loops t !! i = Some Accepting → cancelled t = true →
    step t (with_loop i Closed t)
(** [stream_rx.recv()]: the branch begins. *)
| StepRecv t s c :
    main_at t = Selecting → channel t = s :: c →
    step t (with_main (Adding s) (with_channel c t))
(** [add_client] has got the lock of the session map. *)
| StepAdd t s i :
    main_at t = Adding s → ¬ sessions_locked t → running t !! i = None →
    step t (with_main Selecting (with_served s (with_running (<[i := Running]> (running t))
      (with_mailbox (<[i := 0]> (mailbox t)) (with_commands (<[i := 0]> (command_queue t)) t)))))
(** A session begins to route a message; a lock that is waited for by a writer
    is not given to a reader. *)
| StepRoute t i l :
    polled t → running t !! i = Some Running → ¬ sessions_locked t →
    step t (with_running (<[i := Routing l]> (running t)) t)
(** It sends to a subscriber that has room; one that is gone refuses. *)
| StepDeliver t i j l n :
    polled t → running t !! i = Some (Routing (j :: l)) → mailbox t !! j = Some n → n < MAILBOX →
    step t (with_mailbox (<[j := S n]> (mailbox t)) (with_running (<[i := Routing l]> (running t)) t))
| StepRefused t i j l :
    polled t → running t !! i = Some (Routing (j :: l)) → mailbox t !! j = None →
    step t (with_running (<[i := Routing l]> (running t)) t)
| StepRouted t i :
    polled t → running t !! i = Some (Routing []) →
    step t (with_running (<[i := Running]> (running t)) t)
(** A session takes a message, or a command. *)
| StepTake t i n :
    polled t → running t !! i = Some Running → mailbox t !! i = Some (S n) →
    step t (with_mailbox (<[i := n]> (mailbox t)) t)
| StepCommand t i n :
    polled t → running t !! i = Some Running → command_queue t !! i = Some (S n) →
    step t (with_commands (<[i := n]> (command_queue t)) t)
(** A session hands its stream to another. *)
| StepTakeover t i j n :
    polled t → running t !! i = Some Running → command_queue t !! j = Some n → n < COMMANDS →
    step t (with_commands (<[j := S n]> (command_queue t)) t)
(** The run of a session is over: it gets the lock of the session map. *)
| StepRemove t i :
    polled t → running t !! i = Some Running → ¬ sessions_locked t →
    step t (with_running (<[i := Removing]> (running t)) t)
(** It gets the write lock of the router, and the future completes. *)
| StepRemoved t i :
    polled t → running t !! i = Some Removing → ¬ router_read t →
    step t (with_running (delete i (running t)) (with_mailbox (delete i (mailbox t))
      (with_commands (delete i (command_queue t)) t)))
(** [listeners_done]: the loop is left. *)
| StepLeave t :
    main_at t = Selecting → Forall (λ l, l = Closed) (loops t) →
    step t (with_main CancelLocking t)
(** [cancel_all_sessions] has got the lock, and drains the map. *)
| StepCancelAll t l :
    main_at t = CancelLocking → ¬ sessions_locked t → l ≡ₚ elements (dom (running t)) →
    step t (with_main (Cancelling l) t)
| StepCancel t i l n :
    main_at t = Cancelling (i :: l) → command_queue t !! i = Some n → n < COMMANDS →
    step t (with_main (Cancelling l) (with_commands (<[i := S n]> (command_queue t)) t))
| StepCancelGone t i l :
    main_at t = Cancelling (i :: l) → command_queue t !! i = None →
    step t (with_main (Cancelling l) t)
| StepCancelled t :
    main_at t = Cancelling [] → step t (with_main Draining t)
(** [while sessions.next().await.is_some() {}] *)
| StepStop t :
    main_at t = Draining → running t = ∅ → step t (with_main Stopped t)
(** The interrupt. *)
| StepInterrupt t : step t (with_cancelled t).

(** ** Where the accepted streams are *)

Definition held (l : AcceptLoop) : list Stream := match l with Sending s => [s] | _ => [] end.
Definition in_hand (m : MainAt) : list Stream := match m with Adding s => [s] | _ => [] end.

Definition whereabouts (t : Task) : list Stream :=
  served t ++ in_hand (main_at t) ++ channel t ++ (loops t ≫= held).

Definition selecting (m : MainAt) : Prop := match m with Selecting | Adding _ => True | _ => False end.

Record accounted (t : Task) : Prop := {
  accounted_streams : accepted t ≡ₚ whereabouts t;
  accounted_channel : length (channel t) ≤ CHANNEL;
  accounted_mailboxes i n : mailbox t !! i = Some n → n ≤ MAILBOX;
  accounted_commands i n : command_queue t !! i = Some n → n ≤ COMMANDS;
  accounted_closed : Closed ∈ loops t → cancelled t = true;
  accounted_left : ¬ selecting (main_at t) → Forall (λ l, l = Closed) (loops t);
  accounted_stopped : main_at t = Stopped → running t = ∅;
}.

Lemma held_insert ls i l l' :
  ls !! i = Some l → held l ++ (<[i := l']> ls ≫= held) ≡ₚ held l' ++ (ls ≫= held).
Proof.
  revert i. induction ls as [|x ls IH]; intros [|i] E; cbn in E |- *; try done.
  - injection E as ->. by rewrite !(assoc_L (++)), (comm (++) (held l)).
  - specialize (IH i E). rewrite (Permutation_app_swap_app (held l)), IH.
    by rewrite Permutation_app_swap_app.
Qed.

Lemma held_closed ls : Forall (λ l, l = Closed) ls → ls ≫= held = [].
Proof. induction 1 as [|l ls -> _ IH]; [done|]. cbn. apply IH. Qed.

Lemma accounted_start n : accounted (start n).
Proof.
  split; cbn; try done.
  - unfold whereabouts, start. cbn. induction n as [|n IH]; [done|]. cbn. done.
  - lia.
  - intros H%elem_of_replicate. by destruct H.
Qed.

Lemma step_streams t t' :
  step t t' → accepted t ≡ₚ whereabouts t → accepted t' ≡ₚ whereabouts t'.
Proof.
  destruct 1 as [t i s Hm Hl|t i s Hm Hl Hc|t i Hm Hl Hc|t s c Hm Hc|t s i Hm Hn Hi|t i l Hp Hi Hn
    |t i j l n Hp Hi Hj Hn|t i j l Hp Hi Hj|t i Hp Hi|t i n Hp Hi Hn|t i n Hp Hi Hn|t i j n Hp Hi Hj Hn
    |t i Hp Hi Hn|t i Hp Hi Hn|t Hm Hl|t l Hm Hn Hl|t i l n Hm Hi Hn|t i l Hm Hi|t Hm|t Hm Hr|t];
    unfold whereabouts; cbn; intros Ha; try done; try (by rewrite Ha, ?Hm).
  - rewrite Ha, Hm. cbn. pose proof (held_insert (loops t) i Accepting (Sending s) Hl) as E. cbn in E.
    rewrite E. solve_Permutation.
  - rewrite Ha, Hm. cbn. pose proof (held_insert (loops t) i (Sending s) Accepting Hl) as E. cbn in E.
    rewrite <- E. solve_Permutation.
  - rewrite Ha, Hm. cbn. pose proof (held_insert (loops t) i Accepting Closed Hl) as E. cbn in E.
    by rewrite E.
  - rewrite Ha, Hm, Hc. cbn. done.
  - rewrite Ha, Hm. cbn. solve_Permutation.
Qed.

Lemma step_bounds t t' :
  step t t' → length (channel t) ≤ CHANNEL → (∀ i n, mailbox t !! i = Some n → n ≤ MAILBOX) →
  (∀ i n, command_queue t !! i = Some n → n ≤ COMMANDS) →
  length (channel t') ≤ CHANNEL ∧ (∀ i n, mailbox t' !! i = Some n → n ≤ MAILBOX) ∧
  (∀ i n, command_queue t' !! i = Some n → n ≤ COMMANDS).
Proof.
  intros Hs Hc Hm Hq.
  assert (∀ (m : gmap nat nat) b i x, (∀ i n, m !! i = Some n → n ≤ b) → x ≤ b →
    ∀ j n, <[i := x]> m !! j = Some n → n ≤ b) as Hins.
  { intros m b i x H Hx j n [[<- <-]|[_ E]]%lookup_insert_Some; eauto. }
  assert (∀ (m : gmap nat nat) b i, (∀ i n, m !! i = Some n → n ≤ b) →
    ∀ j n, delete i m !! j = Some n → n ≤ b) as Hdel.
  { intros m b i H j n [_ E]%lookup_delete_Some; eauto. }
  destruct Hs; cbn; split_and!; try done; try (by eapply Hdel);
    try (apply Hins; [done|unfold MAILBOX, COMMANDS in *; try lia]).
  - rewrite length_app. cbn. lia.
  - rewrite H0 in Hc. cbn in Hc. lia.
  - apply Nat.lt_le_incl. eapply Nat.lt_le_trans; [|by eapply Hm]. lia.
  - apply Nat.lt_le_incl. eapply Nat.lt_le_trans; [|by eapply Hq]. lia.
Qed.

Lemma step_phases t t' :
  step t t' → (Closed ∈ loops t → cancelled t = true) →
  (¬ selecting (main_at t) → Forall (λ l, l = Closed) (loops t)) →
  (main_at t = Stopped → running t = ∅) →
  (Closed ∈ loops t' → cancelled t' = true) ∧
  (¬ selecting (main_at t') → Forall (λ l, l = Closed) (loops t')) ∧
  (main_at t' = Stopped → running t' = ∅).
Proof.
  intros Hs Hc Hl Hr.
  assert (∀ i l, l ≠ Closed → Closed ∈ <[i := l]> (loops t) → cancelled t = true) as Hins.
  { intros i l Hne (j & Hj)%list_elem_of_lookup. apply Hc. apply list_lookup_insert_Some in Hj.
    destruct Hj as [(_ & E & _)|[_ Hj]]; [congruence|]. by eapply list_elem_of_lookup_2. }
  destruct Hs; unfold polled in *; cbn; split_and!; try done; try (by eapply Hins);
    try (rewrite H in *; done); try (intros E; destruct H; congruence).
  all: try (apply Hl; rewrite H; by intros []).
Qed.

Lemma step_accounted t t' : step t t' → accounted t → accounted t'.
Proof.
  intros Hs [H1 H2 H3 H4 H5 H6 H7].
  destruct (step_bounds t t' Hs H2 H3 H4) as (B1 & B2 & B3).
  destruct (step_phases t t' Hs H5 H6 H7) as (P1 & P2 & P3).
  split; [by eapply step_streams|done..].
Qed.

Lemma reachable_accounted n t : rtc step (start n) t → accounted t.
Proof. apply (rtc_ind_r accounted); [apply accounted_start|]. intros. by eapply step_accounted. Qed.

(** ** Standing still *)

(** Nothing but the interrupt can happen. *)
Definition stuck (t : Task) : Prop := ∀ t', step t t' → t' = with_cancelled t.

Lemma stuck_forever t t' : stuck t → stuck (with_cancelled t) → rtc step t t' →
  t' = t ∨ t' = with_cancelled t.
Proof.
  intros Hs Hs'. apply (rtc_ind_r (λ t', t' = t ∨ t' = with_cancelled t)); [by left|].
  intros x y _ Hxy [-> | ->]; right; [by apply Hs|]. by rewrite (Hs' _ Hxy).
Qed.

Lemma adding_stuck t s : main_at t = Adding s → sessions_locked t → stuck t.
Proof.
  intros Hm Hl t' Hs. destruct Hs; unfold polled in *; try congruence; try (by destruct H; congruence).
Qed.

Lemma cancelling_stuck t i l :
  main_at t = Cancelling (i :: l) → command_queue t !! i = Some COMMANDS → stuck t.
Proof.
  intros Hm Hq t' Hs.
  destruct Hs; unfold polled in *; try congruence; try (by destruct H; congruence).
  rewrite H in Hm. injection Hm as -> ->. rewrite Hq in H0. injection H0 as <-. lia.
Qed.

(** ** Ways there *)

(** A connection is accepted, queued and becomes the session [i]. *)
Lemma connect t j s i :
  main_at t = Selecting → loops t !! j = Some Accepting → channel t = [] →
  ¬ sessions_locked t → running t !! i = None →
  rtc step t (with_served s (with_accepted s (with_running (<[i := Running]> (running t))
    (with_mailbox (<[i := 0]> (mailbox t)) (with_commands (<[i := 0]> (command_queue t)) t))))).
Proof.
  destruct t as [ls c m r mb cq ca ac se]. cbn. intros -> Hj -> Hl Hi.
  eapply rtc_l; [by apply (StepAccept _ j s)|]. cbn.
  eapply rtc_l.
  { apply (StepSend _ j s); cbn; [done| |unfold CHANNEL; lia].
    by rewrite list_lookup_insert_eq by (by eapply lookup_lt_Some). }
  cbn. eapply rtc_l; [by apply (StepRecv _ s [])|]. cbn.
  eapply rtc_l; [by apply (StepAdd _ s i)|]. cbn.
  apply reflexive_eq. unfold with_served, with_accepted, with_running, with_mailbox, with_commands. cbn.
  by rewrite list_insert_insert_eq, list_insert_id.
Qed.

(** A session routes a message to a subscriber that has room. *)
Lemma publish t i j n :
  main_at t = Selecting → running t !! i = Some Running → ¬ sessions_locked t →
  mailbox t !! j = Some n → n < MAILBOX →
  rtc step t (with_mailbox (<[j := S n]> (mailbox t)) t).
Proof.
  intros Hm Hi Hl Hj Hn. assert (polled t) as Hp by (by left).
  eapply rtc_l; [by apply (StepRoute t i [j])|].
  eapply rtc_l; [apply (StepDeliver _ i j [] n); cbn; [done|by rewrite lookup_insert_eq|done..]|].
  eapply rtc_l; [apply (StepRouted _ i); cbn; [done|by rewrite lookup_insert_eq]|].
  apply reflexive_eq. unfold with_running, with_mailbox. cbn.
  by rewrite !insert_insert_eq, insert_id.
Qed.

Lemma publish_many t i j n :
  main_at t = Selecting → running t !! i = Some Running → ¬ sessions_locked t →
  mailbox t !! j = Some 0 → n ≤ MAILBOX →
  rtc step t (with_mailbox (<[j := n]> (mailbox t)) t).
Proof.
  intros Hm Hi Hl Hj. induction n as [|n IH]; intros Hn.
  - apply reflexive_eq. unfold with_mailbox. rewrite insert_id by done. by destruct t.
  - etrans; [apply IH; lia|]. set (t1 := with_mailbox _ t).
    replace (with_mailbox (<[j := S n]> (mailbox t)) t) with (with_mailbox (<[j := S n]> (mailbox t1)) t1)
      by (unfold t1, with_mailbox; cbn; by rewrite insert_insert_eq).
    apply (publish t1 i j n); [done..| |lia]. cbn. by rewrite lookup_insert_eq.
Qed.

(** Takeovers that are not taken. *)
Lemma take_over_many t i j n :
  main_at t = Selecting → running t !! i = Some Running → command_queue t !! j = Some 0 → n ≤ COMMANDS →
  rtc step t (with_commands (<[j := n]> (command_queue t)) t).
Proof.
  intros Hm Hi Hj. induction n as [|n IH]; intros Hn.
  - apply reflexive_eq. unfold with_commands. rewrite insert_id by done. by destruct t.
  - eapply rtc_r; [apply IH; lia|]. set (t1 := with_commands _ t).
    replace (with_commands (<[j := S n]> (command_queue t)) t)
      with (with_commands (<[j := S n]> (command_queue t1)) t1)
      by (unfold t1, with_commands; cbn; by rewrite insert_insert_eq).
    apply (StepTakeover t1 i j n); [by left|done| |lia]. cbn. by rewrite lookup_insert_eq.
Qed.

Lemma not_locked t : map_Forall (λ _ p, p ≠ Removing) (running t) → ¬ sessions_locked t.
Proof. intros H [i Hi]. by apply (H i _ Hi). Qed.

Ltac solve_unlocked :=
  apply not_locked; intros ? ? Hr; cbn in Hr;
  repeat (apply lookup_insert_Some in Hr as [[_ <-]|[_ Hr]]; [done|]);
  solve [by rewrite lookup_empty in Hr|by apply lookup_singleton_Some in Hr as [_ <-]].

(** Three clients are connected. *)
Definition three_clients (s1 s2 s3 : Stream) : Task :=
  mkTask [Accepting] [] Selecting {[1 := Running; 2 := Running; 3 := Running]}
    {[1 := 0; 2 := 0; 3 := 0]} {[1 := 0; 2 := 0; 3 := 0]} false [s3; s2; s1] [s3; s2; s1].

Lemma three_connect s1 s2 s3 : rtc step (start 1) (three_clients s1 s2 s3).
Proof.
  etrans; [apply (connect _ 0 s1 1); [done..| |done]; solve_unlocked|].
  etrans; [apply (connect _ 0 s2 2); [done..| |done]; solve_unlocked|].
  etrans; [apply (connect _ 0 s3 3); [done..| |done]; solve_unlocked|].
  apply reflexive_eq. reflexivity.
Qed.

(** The mailbox of the first client is full, and [q] takeovers are waiting for
    it; then it routes a message to itself. *)
Definition full_mailbox (s1 s2 s3 : Stream) (q : nat) : Task :=
  with_commands (<[1 := q]> {[1 := 0; 2 := 0; 3 := 0]})
    (with_mailbox (<[1 := MAILBOX]> {[1 := 0; 2 := 0; 3 := 0]}) (three_clients s1 s2 s3)).
Definition waiting_for_itself (s1 s2 s3 : Stream) (q : nat) : Task :=
  with_running (<[1 := Routing [1]]> (running (full_mailbox s1 s2 s3 q))) (full_mailbox s1 s2 s3 q).

Lemma fill_mailbox s1 s2 s3 q :
  q ≤ COMMANDS → rtc step (start 1) (waiting_for_itself s1 s2 s3 q).
Proof.
  intros Hq. etrans; [apply three_connect|].
  etrans; [apply (publish_many _ 2 1 MAILBOX); [done..| |done|lia]; solve_unlocked|].
  etrans; [by apply (take_over_many _ 2 1 q)|].
  apply rtc_once. apply (StepRoute (full_mailbox s1 s2 s3 q) 1 [1]); [by left|done|solve_unlocked].
Qed.

(** ** Theorems *)

(** C8: whatever order the task takes its steps in, every stream that has been
    accepted is in one place: it has become a session, or the main loop has it,
    or it is one of at most 64 in the channel, or an accept loop waits with it
    for room.  Mailboxes and command channels keep to their capacity.  The main
    loop is left only when every listener is closed, which the interrupt alone
    does, and the server is stopped only when no session is left; a stream still
    in the channel then is dropped unserved. *)
Theorem serve_accounts n t :
  rtc step (start n) t →
  accepted t ≡ₚ served t ++ in_hand (main_at t) ++ channel t ++ (loops t ≫= held) ∧
  length (channel t) ≤ 64 ∧
  (∀ i q, mailbox t !! i = Some q → q ≤ 100) ∧ (∀ i q, command_queue t !! i = Some q → q ≤ 10) ∧
  (¬ selecting (main_at t) → Forall (λ l, l = Closed) (loops t)) ∧
  (Closed ∈ loops t → cancelled t = true) ∧
  (main_at t = Stopped → running t = ∅ ∧ accepted t ≡ₚ served t ++ channel t).
Proof.
  intros [H1 H2 H3 H4 H5 H6 H7]%reachable_accounted. split_and!; [done..|].
  intros Hm. split; [by apply H7|]. unfold whereabouts in H1.
  rewrite Hm in H1, H6. rewrite held_closed, app_nil_r in H1 by by apply H6; intros []. done.
Qed.

(** C28: the server can stop serving for ever while it runs.  A client whose
    mailbox is full publishes to a topic it subscribes to: it waits for itself,
    with the read lock of the router.  Another disconnects: it waits for the write
    lock, with the lock of the session map.  A third connects: the main loop waits
    for that lock in a branch of its [select!], so no session is polled any more,
    no connection accepted, and the interrupt changes nothing. *)
Theorem serve_deadlocks (s1 s2 s3 s4 : Stream) :
  ∃ t, rtc step (start 1) t ∧ main_at t = Adding s4 ∧ cancelled t = false ∧
    running t = {[1 := Routing [1]; 2 := Running; 3 := Removing]} ∧
    ∀ t', rtc step t t' → t' = t ∨ t' = with_cancelled t.
Proof.
  set (t1 := with_running (<[3 := Removing]> (running (waiting_for_itself s1 s2 s3 0)))
    (waiting_for_itself s1 s2 s3 0)).
  assert (rtc step (start 1) t1) as H1.
  { eapply rtc_r; [apply (fill_mailbox s1 s2 s3 0); lia|].
    apply (StepRemove _ 3); [by left|done|solve_unlocked]. }
  set (t2 := with_main (Adding s4) (with_accepted s4 t1)).
  assert (rtc step (start 1) t2) as H2.
  { etrans; [exact H1|].
    eapply rtc_l; [by apply (StepAccept _ 0 s4)|].
    eapply rtc_l; [apply (StepSend _ 0 s4); [done..|cbn; unfold CHANNEL; lia]|].
    eapply rtc_l; [by apply (StepRecv _ s4 [])|].
    by apply reflexive_eq. }
  exists t2. split_and!; [done|done|done|reflexivity|].
  assert (sessions_locked t2) as Hl by (exists 3; reflexivity).
  intros t' Ht. by apply stuck_forever; [apply (adding_stuck _ s4)..|].
Qed.

(** Nor does the shutdown always end.  A session that waits, with ten
    takeovers of its client in its command channel, does not take them while the
    shutdown waits for room to cancel it, since it is not polled meanwhile. *)
Theorem shutdown_deadlocks (s1 s2 s3 : Stream) :
  ∃ t, rtc step (start 1) t ∧ cancelled t = true ∧ Forall (λ l, l = Closed) (loops t) ∧
    main_at t = Cancelling [1; 2; 3] ∧ ∀ t', rtc step t t' → t' = t.
Proof.
  set (t1 := with_main (Cancelling [1; 2; 3]) (with_loop 0 Closed
    (with_cancelled (waiting_for_itself s1 s2 s3 COMMANDS)))).
  assert (rtc step (start 1) t1) as H1.
  { etrans; [apply (fill_mailbox s1 s2 s3 COMMANDS); lia|].
    eapply rtc_l; [apply StepInterrupt|].
    eapply rtc_l; [by apply (StepClose _ 0)|].
    eapply rtc_l; [apply StepLeave; [done|cbn; by repeat constructor]|].
    eapply rtc_l; [apply (StepCancelAll _ [1; 2; 3]); [done|solve_unlocked|vm_compute; apply (Permutation_app_comm [1] [2; 3])]|].
    by apply reflexive_eq. }
  exists t1. split_and!; [done|done|cbn; by repeat constructor|done|].
  intros t' Ht.
  assert (with_cancelled t1 = t1) as Ec by done.
  assert (stuck t1) as Hs by (by apply (cancelling_stuck _ 1 [2; 3])).
  destruct (stuck_forever t1 t') as [E|E]; [done|by rewrite Ec|done|done|by rewrite E].
Qed.
End Serve.

Lemma serve_accounts_witness :
  let t := three_clients 11 12 13 in
  rtc step (start 1) t ∧ accepted t ≡ₚ served t ++ in_hand (main_at t) ++ channel t ++ (loops t ≫= held).
Proof.
  intros t. split; [apply three_connect|]. exact (proj1 (serve_accounts 1 t (three_connect 11 12 13))).
Defined.
