(* ===== verification/ServerProps.v ===== *)
(** What holds of the start of the server: the command line, the construction of
    the server, and the binding of its listeners. *)

From S2P Require Import Prelude External Packet Storage Config ConfigFile Text TomlReader Auth MemoryStorage Sql SqlEngine SqliteStorage SqliteTables SqliteFacts SqliteContract SqliteProps Backends Router Broker Transport Server.

(** * The command line *)

(** What the arguments after the program's name ask for, as one reads them. *)
Fixpoint reads_as (args : list string) (listen_address config_file : option string) : Invocation :=
  match args with
  | [] => Serve listen_address config_file
  | arg :: rest =>
      if String.eqb arg "-v" || String.eqb arg "--version" then PrintVersion
      else if String.eqb arg "-h" || String.eqb arg "--help" then PrintHelp
      else if String.eqb arg "-l" || String.eqb arg "--listen" then
        match rest with
        | address :: rest' => reads_as rest' (Some address) config_file
        | [] => BadUsage "Error: -l/--listen requires an address argument"
        end
      else if String.eqb arg "-c" || String.eqb arg "--config" then
        match rest with
        | file :: rest' => reads_as rest' listen_address (Some file)
        | [] => BadUsage "Error: -c/--config requires a file path argument"
        end
      else BadUsage ("Error: Unknown argument '" +:+ arg +:+ "'")
  end.

Lemma parse_args_reads fuel args i l c :
  length args ≤ fuel + i → parse_args fuel args i l c = Some (reads_as (drop i args) l c).
Proof.
  revert i l c. induction fuel as [|fuel IH]; intros i l c Hf; cbn [parse_args].
  - rewrite (lookup_ge_None_2 args i) by lia. by rewrite drop_ge by lia.
  - destruct (args !! i) as [arg|] eqn:E; cycle 1.
    { apply lookup_ge_None in E. by rewrite drop_ge by lia. }
    rewrite (drop_S _ _ _ E). cbn [reads_as]. do 2 (destruct (_ || _); [done|]).
    destruct (args !! (i + 1)) as [a|] eqn:E1.
    + replace (i + 1) with (S i) in E1 by lia. rewrite (drop_S _ _ _ E1).
      rewrite !IH by lia. replace (S (S i)) with (i + 2) by lia. by repeat destruct (_ || _).
    + apply lookup_ge_None in E1. rewrite (drop_ge args (S i)) by lia. by repeat destruct (_ || _).
Qed.

(** The loop over the arguments ends, within as many turns as there are
    arguments, and reads them from left to right: the last address and the last
    file count, the first argument that asks for the version or for help, that
    lacks its value or that is unknown ends the process without a server. *)
Theorem command_line program args :
  invocation (program :: args) = Some (reads_as args None None).
Proof. unfold invocation. rewrite parse_args_reads by (cbn; lia). done. Qed.

(** * Binding *)
Section Binding.
Context {MP : Mpsc} {HO : HashOrder} {SQ : Rusqlite} {RF : Sql.Rfc3339}.
Context {SO : Sockets} {SOL : SocketsLaws}.

(** A call that leaves the sockets alone, fails only with [P], and does not
    panic. *)
Definition quiet {E A} (m : M Net E A) (P : E → Prop) (Q : A → Prop) : Prop :=
  ∀ n, bound (m n).1 ≡ₚ bound n ∧
       match (m n).2 with Ok a => Q a | Err e => P e | Panic => False | Pending => True end.

Lemma quiet_bind {E A B} (m : M Net E A) (k : A → M Net E B) P (Q : A → Prop) (Q' : B → Prop) :
  quiet m P Q → (∀ a, Q a → quiet (k a) P Q') → quiet (m ≫= k) P Q'.
Proof.
  intros Hm Hk n. destruct (Hm n) as [H1 H2]. unfold mbind, M_bind.
  destruct (m n) as [n' [a|e| |]]; try done. destruct (Hk a H2 n') as [H3 H4].
  split; [by rewrite H3|done].
Qed.

Lemma quiet_ret {E A} (a : A) (P : E → Prop) (Q : A → Prop) : Q a → quiet (mret a) P Q.
Proof. by intros H n. Qed.

Lemma quiet_or_throw {E A} (r : A + E) (P : E → Prop) (Q : A → Prop) :
  match r with inl a => Q a | inr e => P e end → quiet (or_throw r) P Q.
Proof. by destruct r; intros H n. Qed.

Lemma quiet_map_err {E E' A} (f : E → E') (m : M Net E A) P P' (Q : A → Prop) :
  (∀ e, P e → P' (f e)) → quiet m P Q → quiet (map_err f m) P' Q.
Proof.
  intros Hf Hm n. destruct (Hm n) as [H1 H2]. unfold map_err.
  destruct (m n) as [n' [a|e| |]]; cbn in *; auto.
Qed.

Lemma quiet_net {A} (m : M Net NetError A) :
  (∀ n, bound (m n).1 ≡ₚ bound n ∧ (m n).2 ≠ Panic) → quiet (net m) (λ _, True) (λ _, True).
Proof.
  intros H n. destruct (H n) as [H1 H2]. unfold net, map_err.
  by destruct (m n) as [n' [a|e| |]].
Qed.

Definition start_failed (e : ServerError) : Prop := ∃ msg, e = StartupFailed msg.

Lemma quiet_tls_acceptor cfg :
  quiet (tls_acceptor_of cfg) start_failed
    (λ a, existsb (starts_with "tls://") (listen cfg) = true → is_Some a).
Proof.
  unfold tls_acceptor_of. destruct (existsb _ _); [|by apply quiet_ret].
  eapply (quiet_bind _ _ _ (λ _, True)).
  { apply quiet_or_throw. destruct (tls cfg); [done|by eexists]. }
  intros tc _. eapply (quiet_bind _ _ _ (λ _, True)); [|intros a _; apply quiet_ret; by eexists].
  apply (quiet_map_err _ _ (λ _, True)); [by eexists|]. unfold build_tls_acceptor.
  eapply quiet_bind; [apply quiet_net, file_open_law|]. intros cf _.
  eapply quiet_bind; [apply quiet_net, file_open_law|]. intros kf _.
  eapply quiet_bind; [apply quiet_net, certs_law|]. intros cs _.
  eapply quiet_bind; [apply quiet_net, private_key_law|]. intros k _.
  eapply (quiet_bind _ _ _ (λ _, True)); [apply quiet_or_throw; by destruct k|]. intros key _.
  eapply (quiet_bind _ _ _ (λ _, True)); [|by intros; apply quiet_ret].
  apply (quiet_map_err _ _ (λ _, True)); [done|]. apply quiet_or_throw. by destruct (with_single_cert _ _).
Qed.

(** The listener a URL asks for. *)
Definition listens_as (url : string) (l : AsyncListener) : Prop :=
  match l with
  | DynTlsListener _ => starts_with "tls://" url = true
  | DynTcpListener _ => starts_with "tls://" url = false
  end.

Lemma str_strip_prefix_Some p s r : str_strip_prefix p s = Some r → s = p +:+ r.
Proof.
  revert s. induction p as [|a p IH]; intros s; [by intros [= ->]|]. destruct s as [|b s]; [done|].
  cbn. destruct (Ascii.eqb_spec a b) as [->|]; [|done]. by intros ->%IH.
Qed.

Lemma from_url_protocol {E} url :
  ∃ p addr, from_url (E := E) url = inl (p, addr) ∧
    (p = Tcp ∧ starts_with "tls://" url = false ∨ p = TcpTls ∧ starts_with "tls://" url = true).
Proof.
  unfold from_url, starts_with. destruct (str_strip_prefix "tcp://" url) as [addr|] eqn:E1.
  - exists Tcp, addr. split; [done|]. left. split; [done|].
    destruct (str_strip_prefix "tls://" url) as [x|] eqn:E2; [|done]. exfalso.
    apply str_strip_prefix_Some in E1 as ->. apply str_strip_prefix_Some in E2. discriminate.
  - destruct (str_strip_prefix "tls://" url) as [addr|] eqn:E2.
    + exists TcpTls, addr. auto.
    + exists Tcp, url. auto.
Qed.

(** A new socket for the listener, or none and the call failed. *)
Lemma bind_one_law acceptor url n :
  (starts_with "tls://" url = true → is_Some acceptor) →
  match bind_one acceptor url n with
  | (n', Ok l) => bound n' ≡ₚ socket l :: bound n ∧ listens_as url l
  | (n', Err e) => bound n' ≡ₚ bound n ∧ start_failed e
  | (n', Pending) => bound n' ≡ₚ bound n
  | (_, Panic) => False
  end.
Proof.
  intros Ha. unfold bind_one. destruct (from_url_protocol (E := ServerError) url) as (p & addr & E & Hp).
  rewrite E. unfold or_throw. rewrite bind_ret. pose proof (tcp_bind_law addr n) as Hb.
  pose proof (tcp_bind_no_panic addr n) as Hn.
  destruct Hp as [[-> Hu]|[-> Hu]].
  - unfold startup, tcp_listener_bind, net, map_err, mbind, M_bind.
    destruct (tcp_bind addr n) as [n' [l|e| |]]; [done|split; [done|by eexists]|done|done].
  - destruct (Ha Hu) as [acc ->]. unfold or_panic. rewrite bind_ret.
    unfold startup, tls_listener_bind, net, map_err, mbind, M_bind.
    destruct (tcp_bind addr n) as [n' [l|e| |]]; [done|split; [done|by eexists]|done|done].
Qed.

Lemma drop_all_law ls n rest :
  bound n ≡ₚ (socket <$> ls) ++ rest → bound (foldl (λ n l, drop_listener l n) n ls) ≡ₚ rest.
Proof.
  revert n. induction ls as [|l ls IH]; intros n H; [done|]. cbn. apply IH.
  by apply (tcp_drop_law (socket l)).
Qed.

Lemma bind_each_law acceptor urls ls addrs n rest :
  (∀ u, u ∈ urls → starts_with "tls://" u = true → is_Some acceptor) →
  bound n ≡ₚ (socket <$> ls) ++ rest →
  match bind_each acceptor urls ls addrs n with
  | (n', Ok (ls', addrs')) =>
      ∃ new, ls' = ls ++ new ∧ Forall2 listens_as urls new ∧
        length addrs' = length addrs + length urls ∧ bound n' ≡ₚ (socket <$> ls') ++ rest
  | (n', Err e) => bound n' ≡ₚ rest ∧ start_failed e
  | (_, Panic) => False
  | (_, Pending) => True
  end.
Proof.
  revert ls addrs n. induction urls as [|u urls IH]; intros ls addrs n Ha Hn; cbn [bind_each].
  { exists []. rewrite app_nil_r. split_and!; [done|constructor|cbn; lia|done]. }
  pose proof (bind_one_law acceptor u n (Ha u ltac:(by left))) as H1.
  unfold mbind, M_bind, or_drop.
  destruct (bind_one acceptor u n) as [n1 [l|e| |]]; [|split; [|apply H1]|done|done].
  2:{ apply drop_all_law. by rewrite (proj1 H1), Hn. }
  destruct H1 as [H1 Hl].
  assert (bound n1 ≡ₚ (socket <$> l :: ls) ++ rest) as Hn1 by (by rewrite H1, Hn).
  assert (∀ n2, bound n2 ≡ₚ bound n1 →
    bound (foldl (λ n l, drop_listener l n) n2 (l :: ls)) ≡ₚ rest) as Hdrop.
  { intros n2 E. apply drop_all_law. by rewrite E, Hn1. }
  assert (bound (listener_local_addr l n1).1 ≡ₚ bound n1 ∧ (listener_local_addr l n1).2 ≠ Panic) as [H2 Hp].
  { destruct l as [[s]|[s acc]]; cbn; unfold net, map_err;
      pose proof (tcp_local_addr_law s n1) as E1; pose proof (tcp_local_addr_no_panic s n1) as E2;
      by destruct (tcp_local_addr s n1) as [n2 []]. }
  unfold startup, map_err. destruct (listener_local_addr l n1) as [n2 [a|e| |]]; cbn in H2, Hp.
  - specialize (IH (ls ++ [l]) (addrs ++ [addr_to_string a]) n2).
    assert (bound n2 ≡ₚ (socket <$> ls ++ [l]) ++ rest) as Hn2.
    { rewrite H2, Hn1, fmap_app. cbn. solve_Permutation. }
    specialize (IH (λ u Hu, Ha u ltac:(by right)) Hn2).
    destruct (bind_each acceptor urls _ _ n2) as [n3 [[ls' as']|e| |]]; try done.
    destruct IH as (new & -> & Hf & Hlen & Hb). exists (l :: new).
    rewrite <- app_assoc in *. split_and!; [done|by constructor| |done].
    rewrite Hlen, length_app. cbn. lia.
  - split; [by apply Hdrop|by eexists].
  - done.
  - done.
Qed.

(** The listeners are bound all or none.  [bind] gives one listener per
    address, in their order, TLS for the addresses that begin with [tls://] and
    TCP for the others, and the sockets that are bound are those there were and
    theirs; or it fails with [StartupFailed], for a TLS address without a [tls]
    section too, and no socket of its own is left bound.  It never panics. *)
Theorem bind_all_or_none (self : Server) n :
  match bind self n with
  | (n', Ok (ls, addrs)) =>
      Forall2 listens_as (listen (server_config self)) ls ∧ length addrs = length ls ∧
      bound n' ≡ₚ (socket <$> ls) ++ bound n
  | (n', Err e) => bound n' ≡ₚ bound n ∧ start_failed e
  | (_, Panic) => False
  | (_, Pending) => True
  end.
Proof.
  unfold bind. set (cfg := server_config self).
  destruct (quiet_tls_acceptor cfg n) as [H1 H2]. unfold mbind, M_bind.
  destruct (tls_acceptor_of cfg n) as [n1 [acc|e| |]]; cbn in H1, H2; try done.
  pose proof (bind_each_law acc (listen cfg) [] [] n1 (bound n)) as H.
  assert (∀ u, u ∈ listen cfg → starts_with "tls://" u = true → is_Some acc) as Ha.
  { intros u Hu Ht. apply H2. apply existsb_exists. exists u. by rewrite <- list_elem_of_In. }
  specialize (H Ha ltac:(by rewrite H1)).
  destruct (bind_each acc (listen cfg) [] [] n1) as [n2 [[ls addrs]|e| |]]; try done.
  destruct H as (new & -> & Hf & Hlen & Hb). cbn in *. split_and!; [done| |done].
  by rewrite Hlen, (Forall2_length _ _ _ Hf).
Qed.

End Binding.

(** * Construction *)
Section Construction.
Context {MP : Mpsc} {HO : HashOrder} {HOL : HashOrderLaws} {FS : FileSystem} {SO : Sockets}.
Context {SQ : Rusqlite} {SL : RusqliteLaws} {RF : Rfc3339} {RL : Rfc3339Laws}.

(** What the configured backend has stored when the server starts: nothing in
    memory, the contents of the tables in a file. *)
Definition stored_at_start (config : PersistenceConfig) (k : Contents) : StoredData :=
  match storage_backend config with Memory => data_of no_entries | Sqlite => data_of k end.

Lemma storage_new_ready may_fail (HR : may_fail = false → RusqliteReliable) config k :
  wf_contents k →
  (∀ c, open (database_path config) = inl c → prepared k (database c)) →
  match storage_new config with
  | Ok s => any_inv s ∧ any_abs s = stored_at_start config k
  | Err _ => storage_backend config = Sqlite ∧
      (may_fail = true ∨ ∃ e, open (database_path config) = inr e)
  | _ => False
  end.
Proof.
  intros Hk Hp. unfold storage_new, stored_at_start. destruct (storage_backend config).
  - split; [apply memory_inv_new|done].
  - unfold sqlite_new. destruct (open (database_path config)) as [c|e] eqn:E.
    + pose proof (initialized_opens may_fail HR k c Hk (open_law _ _ E) (Hp c eq_refl)) as H.
      destruct (initialized (inl c)) as [s| | |]; [done|by auto|done..].
    + cbn. eauto.
Qed.

(** A server is made with a broker that has no session and no client, on the
    storage its configuration asks for, with all that the file of an SQLite
    storage holds; or it is not made, because the database, the password file or
    the access-control file could not be opened. *)
Theorem server_new_ready config k :
  wf_contents k →
  (∀ c, open (database_path (persistence config)) = inl c → prepared k (database c)) →
  match server_new config with
  | Ok server =>
      let b := server_broker server in
      server_config server = config ∧ Broker.config b = config ∧
      b_sessions b = ∅ ∧ named_clients b = ∅ ∧ sessions (data (router b)) = ∅ ∧
      any_inv (storage (router b)) ∧
      any_abs (storage (router b)) = stored_at_start (persistence config) k
  | Err (ServerStorage _) => storage_backend (persistence config) = Sqlite
  | Err (ServerAuth e) =>
      auth_new (auth config) = inr e ∨ new_authorizer (acl config) = inr e
  | _ => False
  end.
Proof.
  intros Hk Hp. unfold server_new.
  pose proof (storage_new_ready true may_fail_vacuous (persistence config) k Hk Hp) as H.
  destruct (storage_new (persistence config)) as [s|e| |]; [|apply H|done..].
  destruct (auth_new (auth config)) as [a|e]; [|by left].
  destruct (new_authorizer (acl config)) as [z|e]; [|by right].
  destruct H as [Hi Ha]. done.
Qed.

Lemma server_new_config config server : server_new config = Ok server → server_config server = config.
Proof.
  unfold server_new. destruct (storage_new _); [|done..]. destruct (auth_new _); [|done].
  destruct (new_authorizer _); [|done]. by intros [= <-].
Qed.

Lemma server_new_no_panic config :
  (∀ path c, open path = inl c → ∃ k, wf_contents k ∧ prepared k (database c)) →
  match server_new config with Ok _ | Err _ => True | _ => False end.
Proof.
  intros Hdb. unfold server_new.
  assert (∃ k, wf_contents k ∧ ∀ c, open (database_path (persistence config)) = inl c → prepared k (database c))
    as (k & Hk & Hp).
  { destruct (open (database_path (persistence config))) as [c|e] eqn:E.
    - destruct (Hdb _ c E) as (k & Hk & Hp). exists k. split; [done|]. by intros ? [= <-].
    - exists no_entries. split; [apply wf_no_entries|done]. }
  pose proof (storage_new_ready true may_fail_vacuous (persistence config) k Hk Hp) as H.
  destruct (storage_new (persistence config)) as [s|e| |]; [|done..].
  destruct (auth_new (auth config)); [|done]. by destruct (new_authorizer (acl config)).
Qed.

(** * The process *)

(** The configuration without the command line: the defaults, or what the file
    says. *)
Definition configured {TM : Toml} (config_file : option string) (c : Config) : Prop :=
  match config_file with
  | None => c = default_config
  | Some path => ∃ text, read_to_string path = inl text ∧ from_toml text = Some c
  end.

(** The address on the command line goes before those of the file. *)
Definition overridden (listen_address : option string) (c : Config) : Config :=
  match listen_address with Some addr => with_listen [addr] c | None => c end.

Lemma load_configured {TM : Toml} l f c : configured f c → load_config l f = inl (overridden l c).
Proof.
  unfold load_config. destruct f as [path|]; cbn; [intros (text & -> & ->)|intros ->]; by destruct l.
Qed.

(** C25: what becomes of the process.  With [-h], [-v] or arguments it does not
    understand it ends and does nothing.  With a file that cannot be read, or
    that is no configuration, it ends with that error.  Otherwise it is configured
    by the command line, then the file, then the defaults; it ends with an error
    when the storage, the password file or the access-control file cannot be
    opened.  Then it has one listener per address and serves them until it is
    interrupted, or, when one cannot be bound, it keeps none, and yet waits to be
    interrupted before it says so.  It never panics before it serves. *)
Theorem process_outcome {TM : Toml} {SOL : SocketsLaws} program args interrupted serve n :
  (∀ path c, open path = inl c → ∃ k, wf_contents k ∧ prepared k (database c)) →
  let run := main (program :: args) interrupted serve n in
  match reads_as args None None with
  | Serve l f =>
      (∀ path e, f = Some path → read_to_string path = inr e → run = (n, Err (ReadConfig path e))) ∧
      (∀ path text, f = Some path → read_to_string path = inl text → from_toml text = None →
         run = (n, Err (ParseConfig path))) ∧
      ∀ c, configured f c →
        let config := overridden l c in
        match server_new config with
        | Ok server =>
            match bind server n with
            | (n', Ok (ls, _)) =>
                Forall2 listens_as (listen config) ls ∧ bound n' ≡ₚ (socket <$> ls) ++ bound n ∧
                run = (n', join_server interrupted (serve ls))
            | (n', Err e) =>
                bound n' ≡ₚ bound n ∧ start_failed e ∧
                run = (n', if interrupted then Err (ServerFailed e) else Pending)
            | (n', Pending) => run = (n', Pending)
            | (_, Panic) => False
            end
        | Err e => run = (n, Err (ServerFailed e))
        | _ => False
        end
  | _ => run = (n, Ok tt)
  end.
Proof.
  intros Hdb run. subst run. unfold main. rewrite command_line.
  destruct (reads_as args None None) as [| | |l f]; [done..|]. split_and!.
  - intros path e -> E. unfold load_config. rewrite E. by destruct l.
  - intros path text -> E1 E2. unfold load_config. rewrite E1, E2. by destruct l.
  - intros c Hc. rewrite (load_configured l f c Hc). cbv zeta. set (config := overridden l c).
    pose proof (server_new_no_panic config Hdb) as Hnp.
    destruct (server_new config) as [server|e| |] eqn:Es; [|done..].
    assert (server_config server = config) as Ec by (by apply server_new_config).
    pose proof (bind_all_or_none server n) as Hb. unfold server_run, mbind, M_bind.
    destruct (bind server n) as [n' [[ls addrs]|e| |]]; [|destruct Hb; by split_and!|done|done].
    rewrite Ec in Hb. destruct Hb as (H1 & _ & H2). by split_and!.
Qed.

(** C34: the two backends agree on the requests that both can serve.  On a
    library that fails only when the data give it a reason to, a server with a new
    database file gets, call by call, the replies it would get with the storage in
    memory, the order of a list and the date a session was first saved apart.  The
    requests are those of [requests_ok]: a session to save has numbers that fit
    their columns, belongs to one client, and has no filter, no identifier in
    flight and no inbound identifier twice; the messages in flight that are read
    back have retry counts below 2^31; less than 2^63 retained messages are
    counted.  On others the backends differ: of two messages with one identifier
    the storage in memory keeps both, and the database refuses the session. *)
Theorem backends_agree {SR : RusqliteReliable} path expiry c rs :
  open path = inl c → database c = ∅ → requests_ok (S := AnyStorage) rs (mkStored ∅ ∅) →
  ∃ s1 s2 s1' s2' l1 l2,
    storage_new (mkPersistence Memory path expiry) = Ok s1 ∧
    storage_new (mkPersistence Sqlite path expiry) = Ok s2 ∧
    serve_all rs s1 = (s1', Ok l1) ∧ serve_all rs s2 = (s2', Ok l2) ∧ Forall2 same_reply l1 l2.
Proof.
  intros Ho Hc Hrs.
  assert (∀ b, ∃ s s' l, storage_new (mkPersistence b path expiry) = Ok s ∧
    serve_all rs s = (s', Ok l) ∧ Forall2 same_reply l (spec_serve_all rs (mkStored ∅ ∅)).2) as H.
  { intros b. pose proof (storage_new_ready false (λ _, SR) (mkPersistence b path expiry) no_entries
      wf_no_entries) as H.
    destruct (storage_new _) as [s|e| |]; cbn in H.
    - destruct H as [Hi Ha]; [intros c' E; rewrite Ho in E; injection E as <-; rewrite Hc;
        apply prepared_empty|].
      assert (any_abs s = mkStored ∅ ∅) as Ha' by (rewrite Ha; by destruct b).
      destruct (serve_all_refines (SL := any_laws) rs s Hi) as (s' & l & E & _ & _ & Hl).
      { cbn [storage_abs any_laws]. by rewrite Ha'. }
      exists s, s', l. cbn [storage_abs any_laws] in Hl. by rewrite Ha' in Hl.
    - destruct H as [_ [[=]|[e' E]]]; [|congruence].
      intros c' E; rewrite Ho in E; injection E as <-; rewrite Hc; apply prepared_empty.
    - destruct H. intros c' E; rewrite Ho in E; injection E as <-; rewrite Hc; apply prepared_empty.
    - destruct H. intros c' E; rewrite Ho in E; injection E as <-; rewrite Hc; apply prepared_empty. }
  destruct (H Memory) as (s1 & s1' & l1 & E1 & R1 & H1).
  destruct (H Sqlite) as (s2 & s2' & l2 & E2 & R2 & H2).
  exists s1, s2, s1', s2', l1, l2. split_and!; [done..|].
  etrans; [exact H1|by symmetry].
Qed.
End Construction.

(** * At a concrete machine

    Its network is the list of the addresses that are bound; an address can be
    bound once, unless its port is 0, which asks for any port. *)
Definition Ports : Type := list string.

Definition any_port (addr : string) : bool := bool_decide (last (str_split (Ascii.ascii_of_nat 58) addr) = Some "0").

Definition bind_port (addr : string) : M Ports string string := λ n,
  if existsb (String.eqb addr) n && negb (any_port addr) then (n, Err "Address already in use")
  else (addr :: n, Ok addr).

Fixpoint close_port (addr : string) (n : Ports) : Ports :=
  match n with
  | [] => []
  | a :: n' => if String.eqb addr a then n' else a :: close_port addr n'
  end.

Definition ports_with (files : string → bool) : Sockets := {|
  Net := Ports;
  NetError := string;
  net_message := id;
  TcpListener := string;
  TcpStream := string;
  TlsStream := string;
  TlsAcceptor := ();
  SocketAddr := string;
  addr_to_string := id;
  tcp_bind := bind_port;
  tcp_accept l n := (n, Ok l);
  tcp_local_addr l n := (n, Ok l);
  tcp_drop := close_port;
  tcp_peer_addr s n := (n, Ok s);
  tcp_read s r n := (n, Ok []);
  tcp_write s buf n := (n, Ok (length buf));
  tcp_flush s n := (n, Ok tt);
  tcp_shutdown s n := (n, Ok tt);
  tls_accept _ s n := (n, Ok s);
  tls_get_ref s := s;
  tls_read s r n := (n, Ok []);
  tls_write s buf n := (n, Ok (length buf));
  tls_flush s n := (n, Ok tt);
  tls_shutdown s n := (n, Ok tt);
  ReadHalf T := T;
  WriteHalf T := T;
  split T s := (s, s);
  File := ();
  Cert := ();
  Key := ();
  TlsServerConfig := ();
  file_open p n := (n, if files p then Ok tt else Err "No such file or directory");
  certs _ n := (n, Ok []);
  private_key _ n := (n, Ok (Some tt));
  with_single_cert _ _ := inl tt;
  acceptor_from _ := tt;
|}.

(** Every file is there. *)
#[export] Instance ports : Sockets := ports_with (λ _, true).

Lemma close_port_law addr n ls : n ≡ₚ addr :: ls → close_port addr n ≡ₚ ls.
Proof.
  intros H. assert (addr ∈ n) as Hin by (rewrite H; by left).
  apply (Permutation_cons_inv (a := addr)). rewrite <- H. clear H ls.
  induction n as [|a n IH]; [by apply elem_of_nil in Hin|]. cbn.
  destruct (String.eqb_spec addr a) as [->|Hne]; [done|].
  apply elem_of_cons in Hin as [->|Hin]; [done|]. rewrite <- (IH Hin) at 2. apply Permutation_swap.
Qed.

#[export] Program Instance ports_laws : SocketsLaws (SO := ports) := { bound := id }.
Next Obligation. intros addr n. cbn. unfold bind_port. by destruct (_ && _). Qed.
Next Obligation. intros addr n. cbn. unfold bind_port. by destruct (_ && _). Qed.
Next Obligation. done. Qed.
Next Obligation. done. Qed.
Next Obligation. intros l ls n. apply close_port_law. Qed.
Next Obligation. done. Qed.
Next Obligation. done. Qed.
Next Obligation. done. Qed.

Definition listening_on (addrs : list string) (t : option TlsConfig) : Config :=
  mkConfig addrs 10 3 5000 default_persistence default_auth default_acl t.

Definition test_server (addrs : list string) (t : option TlsConfig) :
    Server (MP := queue_mpsc) (SQ := engine) (SO := ports) :=
  let cfg := listening_on addrs t in
  mkServer cfg (broker_new cfg (InMemory memory_new) (DynAllowAll AllowAll) (DynAllowAllZ AllowAll)).

Lemma bind_all_or_none_witness :
  bind (test_server ["tcp://a:1"; "tls://a:2"] (Some (mkTls "c" "k"))) ["b:1"] =
    (["a:2"; "a:1"; "b:1"], Ok ([DynTcpListener (mkTcpAsyncListener "a:1"); DynTlsListener (mkTlsAsyncListener "a:2" tt)], ["a:1"; "a:2"])) ∧
  bound (bind (test_server ["a:1"; "b:1"] None) ["b:1"]).1 ≡ₚ ["b:1"] ∧
  start_failed (StartupFailed "Failed to bind TCP to b:1: Address already in use").
Proof.
  split; [vm_compute; reflexivity|].
  exact (bind_all_or_none (SOL := ports_laws) (test_server ["a:1"; "b:1"] None) ["b:1"]).
Defined.

Lemma backends_agree_witness :
  let rs := [SaveSession stored_session [stored_subscription] [stored_message 3 10] [];
             LoadSubscriptions "c"; SaveRetained (mkPersistedRetained "t" [] SAtMostOnce 9%Z);
             CountRetained; DeleteExpired (2 ^ 62)%Z; SessionExists "c"] in
  ∃ s1 s2 s1' s2' l1 l2,
    storage_new (SQ := engine) (mkPersistence Memory "db" 0) = Ok s1 ∧
    storage_new (SQ := engine) (mkPersistence Sqlite "db" 0) = Ok s2 ∧
    serve_all rs s1 = (s1', Ok l1) ∧ serve_all rs s2 = (s2', Ok l2) ∧ Forall2 same_reply l1 l2.
Proof.
  intros rs.
  refine (backends_agree (SQ := engine) (SL := engine_laws _) (SR := engine_reliable _) (HO := gmap_order)
    "db" 0%Z (∅, None) rs eq_refl eq_refl _).
  cbn. split_and!; try done.
  - split; cbn; unfold is_u16, is_u32; repeat constructor; cbn; unfold is_u16, is_u32; lia || done.
  - split; cbn; unfold is_u16, is_u32; repeat constructor; cbn; unfold is_u16, is_u32; lia || done.
  - split; repeat constructor; set_solver.
Defined.

Lemma server_new_ready_witness :
  let cfg := mkConfig [] 10 3 5000 (mkPersistence Sqlite "iotd.db" 0) default_auth default_acl None in
  ∃ server, server_new (MP := queue_mpsc) (SQ := engine_on sample_database)
      (FS := one_file "" "") (SO := ports) cfg = Ok server ∧
    named_clients (server_broker server) = ∅.
Proof.
  intros cfg.
  pose proof (server_new_ready (MP := queue_mpsc) (HO := gmap_order) (FS := one_file "" "") (SO := ports)
    (SQ := engine_on sample_database) (SL := engine_laws _) cfg sample_contents sample_wf) as H.
  assert (is_ok : match server_new (MP := queue_mpsc) (SQ := engine_on sample_database)
    (FS := one_file "" "") (SO := ports) cfg with Ok _ => true | _ => false end = true)
    by (vm_compute; reflexivity).
  destruct (server_new cfg) as [server|e| |]; [|discriminate is_ok..].
  exists server. split; [reflexivity|]. apply H. intros c [= <-]. apply prepared_holds, sample_holds.
Defined.

(** The command line goes before the file: it says [b:1], which is taken. *)
Definition config_text : string := unlines ["listen = " +:+ quoted "b:1"; "retained_message_limit = 10"].

Lemma process_outcome_witness :
  let run args := main (MP := queue_mpsc) (SQ := engine) (FS := one_file "iotd.toml" config_text)
    (SO := ports) ("iotd" :: args) true (λ _, Ok tt) ["b:1"] in
  run ["-c"; "iotd.toml"; "-l"; "a:1"] = (["a:1"; "b:1"], Ok tt) ∧
  ∃ e, run ["-c"; "iotd.toml"] = (["b:1"], Err (ServerFailed e)) ∧ start_failed e.
Proof.
  assert (∀ path c, open (Rusqlite := engine) path = inl c →
    ∃ k, wf_contents k ∧ prepared k (database c)) as Hdb.
  { intros path c [= <-]. exists no_entries. split; [apply wf_no_entries|apply prepared_empty]. }
  pose proof (λ args, process_outcome (MP := queue_mpsc) (HO := gmap_order) (SQ := engine) (SL := engine_laws _)
    (FS := one_file "iotd.toml" config_text) (SOL := ports_laws) "iotd" args true (λ _, Ok tt) ["b:1"] Hdb) as H.
  intros run. split.
  - destruct (H ["-c"; "iotd.toml"; "-l"; "a:1"]) as (_ & _ & Hc).
    destruct (Hc (default default_config (from_toml config_text))) as (_ & _ & E); [|exact E].
    exists config_text. split; reflexivity.
  - destruct (H ["-c"; "iotd.toml"]) as (_ & _ & Hc).
    destruct (Hc (default default_config (from_toml config_text))) as (_ & Hs & E); [|eexists; split; [exact E|exact Hs]].
    exists config_text. split; reflexivity.
Defined.
