(* ===== verification/Testing.v ===== *)
(** What the unit tests of the source are written with: a test is a boolean
    that says whether every assertion in it holds, [assert_eq!] is [==], and
    unwrapping an error, which fails the test, makes the boolean false. *)

From S2P Require Import Prelude External Packet.

Declare Scope test_scope.
Delimit Scope test_scope with test.

(** [assert_eq!(a, b)] *)
Notation "a == b" := (bool_decide (a = b)) (at level 70, no associativity) : test_scope.

(** All the assertions of a test. *)
Definition asserts (l : list bool) : bool := forallb id l.

(** [for case in cases { .. }], and the assertions in the loop. *)
Definition for_all {A} (l : list A) (case : A → bool) : bool := forallb case l.

(** [result.unwrap()], and what the test does with it. *)
Definition unwrap {S E A} (r : S * outcome E A) (then_ : A → bool) : bool :=
  match r with (_, Ok a) => then_ a | _ => false end.
Definition unwrap_sum {A E} (r : A + E) (then_ : A → bool) : bool :=
  match r with inl a => then_ a | inr _ => false end.

(** [std::io::Cursor] as a stream: the bytes, and then the end. *)
Definition io_cursor (bs : Bytes) : Incoming := mkIncoming bs (Some UnexpectedEof).

(** [buf[i]], false assertions where Rust would panic. *)
Definition byte_at (i : nat) (b : Bytes) : Z := from_option byte.unsigned (-1)%Z (b !! i).

(** Bytes, as numbers. *)
Definition bytes_of (l : list Z) : Bytes := byte.of_Z <$> l.

Lemma asserts_Forall l : asserts l = true ↔ Forall (λ ok, ok = true) l.
Proof. unfold asserts. rewrite forallb_forall, Forall_forall. by setoid_rewrite list_elem_of_In. Qed.
