(* ===== verification/CodecTests.v ===== *)
(** The unit tests of [src/protocol/packet.rs], run on the model. *)

From S2P Require Import Prelude External Packet Codec Testing.

Local Open Scope Z_scope.
Local Open Scope test_scope.

(** [Packet::decode(&mut cursor).await.unwrap()] on the bytes of a buffer. *)
Definition decoded (buf : Bytes) (then_ : Packet → bool) : bool :=
  unwrap (decode (io_cursor buf)) then_.

(** The packet with the first byte and the payload: its length, then itself. *)
Definition framed (first : Z) (payload : Bytes) : Bytes :=
  let buf := put_u8 first bytes_new in
  let buf := encode_remaining_length (as_u32 (zlen payload)) buf in
  put_slice payload buf.

(** [encode_string("MQTT", ..)] up to the client identifier. *)
Definition connect_header (name : string) (level flags keep_alive : Z) (client_id : string) : Bytes :=
  let payload := encode_string name bytes_new in
  let payload := put_u8 level payload in
  let payload := put_u8 flags payload in
  let payload := put_u16 keep_alive payload in
  encode_string client_id payload.

(** A length of two bytes and as many bytes. *)
Definition put_counted (data : Bytes) (payload : Bytes) : Bytes :=
  put_slice data (put_u16 (as_u16 (zlen data)) payload).

Definition test_connect_packet_encode_decode : bool :=
  let original := mkConnect "MQTT" 4 true 60 "test-client" false AtMostOnce false None None None None in
  let payload := connect_header (protocol_name original) (protocol_level original) 0x02
                   (keep_alive original) (client_id original) in
  decoded (framed 0x10 payload) (λ packet,
    match packet with
    | Connect decoded => asserts [
        protocol_name decoded == protocol_name original;
        protocol_level decoded == protocol_level original;
        clean_session decoded == clean_session original;
        keep_alive decoded == keep_alive original;
        client_id decoded == client_id original;
        will_flag decoded == will_flag original]
    | _ => false
    end).

Definition test_connect_packet_with_will : bool :=
  let goodbye := as_bytes "goodbye" in
  let original := mkConnect "MQTT" 4 false 30 "will-client" true AtLeastOnce true (Some "last/will")
                    (Some goodbye) None None in
  let payload := connect_header (protocol_name original) (protocol_level original) 0x2C
                   (keep_alive original) (client_id original) in
  let payload := encode_string "last/will" payload in
  let payload := put_counted goodbye payload in
  decoded (framed 0x10 payload) (λ packet,
    match packet with
    | Connect decoded => asserts [
        protocol_name decoded == protocol_name original;
        protocol_level decoded == protocol_level original;
        clean_session decoded == clean_session original;
        keep_alive decoded == keep_alive original;
        client_id decoded == client_id original;
        will_flag decoded == will_flag original;
        will_qos decoded == AtLeastOnce;
        will_retain decoded == will_retain original;
        will_topic decoded == will_topic original;
        will_payload decoded == will_payload original]
    | _ => false
    end).

Definition test_connack_packet_encode : bool :=
  let buf := encode_connack (mkConnAck true 0x00) bytes_new in
  asserts [byte_at 0 buf == 0x20; byte_at 1 buf == 2; byte_at 2 buf == 0x01; byte_at 3 buf == 0x00].

(** The assertions on a PUBLISH that has been encoded and decoded. *)
Definition same_publish (decoded original : PublishPacket) (q : QoS) : bool :=
  asserts [
    topic decoded == topic original;
    packet_id decoded == packet_id original;
    payload decoded == payload original;
    qos decoded == q;
    retain decoded == retain original;
    dup decoded == dup original].

Definition test_publish_packet_encode_decode_qos0 : bool :=
  let original := mkPublish "test/topic" None (as_bytes "Hello, MQTT!") AtMostOnce false false in
  let buf := encode_publish original bytes_new in
  let flags := Z.land (byte_at 0 buf) 0x0F in
  unwrap (decode_publish flags (cursor_new (drop 2 buf))) (λ decoded,
    same_publish decoded original AtMostOnce).

Definition test_publish_packet_encode_decode_qos1 : bool :=
  let original := mkPublish "sensor/temp" (Some 42) (as_bytes "23.5") AtLeastOnce true true in
  let buf := encode_publish original bytes_new in
  let flags := Z.land (byte_at 0 buf) 0x0F in
  let remaining_len_bytes := if Z.land (byte_at 1 buf) 0x80 =? 0 then 1%nat else 2%nat in
  asserts [
    Z.land (byte_at 0 buf) 0x01 == 0x01;
    Z.land (Z.shiftr (byte_at 0 buf) 1) 0x03 == 0x01;
    Z.land (byte_at 0 buf) 0x08 == 0x08;
    unwrap (decode_publish flags (cursor_new (drop (1 + remaining_len_bytes) buf))) (λ decoded,
      same_publish decoded original AtLeastOnce)].

Definition test_puback_packet_encode : bool :=
  let buf := encode_puback (mkPubAck 12345) bytes_new in
  asserts [byte_at 0 buf == 0x40; byte_at 1 buf == 2; drop 2 (take 4 buf) == bytes_of [0x30; 0x39]].

Definition test_subscribe_packet_encode_decode : bool :=
  let original := mkSubscribe 100
    [("topic/1", AtMostOnce); ("topic/2", AtLeastOnce); ("topic/+", ExactlyOnce)] in
  let payload := put_u16 (subscribe_id original) bytes_new in
  let payload := foldl (λ payload '(topic, qos), put_u8 (qos_as_u8 qos) (encode_string topic payload))
                   payload (topic_filters original) in
  decoded (framed 0x82 payload) (λ packet,
    match packet with
    | Subscribe decoded => asserts [
        subscribe_id decoded == subscribe_id original;
        length (topic_filters decoded) == length (topic_filters original);
        for_all (zip (topic_filters decoded) (topic_filters original)) (λ '((topic, qos), (topic', qos')),
          asserts [topic == topic'; qos_as_u8 qos == qos_as_u8 qos'])]
    | _ => false
    end).

Definition test_suback_packet_encode : bool :=
  let buf := encode_suback (mkSubAck 100 [0x00; 0x01; 0x02; 0x80]) bytes_new in
  asserts [
    byte_at 0 buf == 0x90;
    byte_at 1 buf == 6;
    drop 2 (take 4 buf) == bytes_of [0x00; 0x64];
    drop 4 buf == bytes_of [0x00; 0x01; 0x02; 0x80]].

Definition test_unsubscribe_packet_encode_decode : bool :=
  let original := mkUnsubscribe 200 ["topic/1"; "topic/2"; "topic/+"] in
  let payload := put_u16 (unsubscribe_id original) bytes_new in
  let payload := foldl (λ payload topic, encode_string topic payload) payload (unsub_filters original) in
  decoded (framed 0xA2 payload) (λ packet,
    match packet with
    | Unsubscribe decoded => asserts [
        unsubscribe_id decoded == unsubscribe_id original;
        unsub_filters decoded == unsub_filters original]
    | _ => false
    end).

Definition test_unsuback_packet_encode : bool :=
  let buf := encode_unsuback (mkUnsubAck 200) bytes_new in
  asserts [byte_at 0 buf == 0xB0; byte_at 1 buf == 2; drop 2 (take 4 buf) == bytes_of [0x00; 0xC8]].

Definition test_pingreq_packet_decode : bool :=
  let buf := put_u8 0 (put_u8 0xC0 bytes_new) in
  decoded buf (λ packet, match packet with PingReq => true | _ => false end).

Definition test_pingresp_packet_encode : bool :=
  let buf := encode_pingresp bytes_new in
  asserts [byte_at 0 buf == 0xD0; byte_at 1 buf == 0].

Definition test_disconnect_packet_decode : bool :=
  let buf := put_u8 0 (put_u8 0xE0 bytes_new) in
  decoded buf (λ packet, match packet with Disconnect => true | _ => false end).

Definition test_disconnect_packet_encode : bool :=
  let buf := encode_disconnect bytes_new in
  asserts [byte_at 0 buf == 0xE0; byte_at 1 buf == 0].

(** The lengths at which the encoding takes another byte. *)
Definition lengths : list (Z * list Z) := [
  (0, [0x00]);
  (127, [0x7F]);
  (128, [0x80; 0x01]);
  (16383, [0xFF; 0x7F]);
  (16384, [0x80; 0x80; 0x01]);
  (2097151, [0xFF; 0xFF; 0x7F]);
  (2097152, [0x80; 0x80; 0x80; 0x01]);
  (268435455, [0xFF; 0xFF; 0xFF; 0x7F])].

Definition test_remaining_length_encoding : bool :=
  for_all lengths (λ '(length, expected),
    encode_remaining_length length bytes_new == bytes_of expected).

Definition test_remaining_length_decoding : bool :=
  for_all lengths (λ '(expected, bytes),
    unwrap (decode_remaining_length_async (io_cursor (bytes_of bytes))) (λ length, length == expected)).

Definition test_invalid_remaining_length : bool :=
  match decode_remaining_length_async (io_cursor (bytes_of [0xFF; 0xFF; 0xFF; 0xFF; 0x01])) with
  | (_, Err InvalidRemainingLength) => true
  | _ => false
  end.

Definition test_string_encoding_decoding : bool :=
  for_all [EmptyString; "MQTT"; "Hello, World!"; "测试中文"; "🚀🔥💻"] (λ s,
    let buf := encode_string s bytes_new in
    unwrap (decode_string (cursor_new buf)) (λ decoded, decoded == s)).

Definition test_qos_values : bool :=
  asserts [
    qos_as_u8 AtMostOnce == 0;
    qos_as_u8 AtLeastOnce == 1;
    qos_as_u8 ExactlyOnce == 2].

Definition test_packet_type_conversion : bool :=
  let types := [
    (1, TConnect); (2, TConnAck); (3, TPublish); (4, TPubAck); (5, TPubRec); (6, TPubRel); (7, TPubComp);
    (8, TSubscribe); (9, TSubAck); (10, TUnsubscribe); (11, TUnsubAck); (12, TPingReq); (13, TPingResp);
    (14, TDisconnect)] in
  for_all types (λ '(value, expected),
    unwrap_sum (packet_type_try_from value) (λ packet_type,
      asserts [packet_type == expected; packet_type_as_u8 packet_type == value])) &&
  match packet_type_try_from 15 with inr (InvalidPacketType 15) => true | _ => false end.

Definition test_publish_flags_combinations : bool :=
  let test_cases := [
    (false, AtMostOnce, false, 0x30);
    (false, AtMostOnce, true, 0x31);
    (false, AtLeastOnce, false, 0x32);
    (false, AtLeastOnce, true, 0x33);
    (false, ExactlyOnce, false, 0x34);
    (false, ExactlyOnce, true, 0x35);
    (true, AtMostOnce, false, 0x38);
    (true, AtLeastOnce, true, 0x3B);
    (true, ExactlyOnce, true, 0x3D)] in
  for_all test_cases (λ '(dup, qos, retain, expected_flags),
    let packet_id := match qos with AtMostOnce => None | _ => Some 1 end in
    let packet := mkPublish "test" packet_id (as_bytes "test") qos retain dup in
    byte_at 0 (encode_publish packet bytes_new) == expected_flags).

Definition test_connect_packet_with_username_password : bool :=
  let payload := connect_header "MQTT" 4 0xC2 60 "testclient" in
  let payload := encode_string "myuser" payload in
  let payload := put_counted (as_bytes "mypassword") payload in
  decoded (framed 0x10 payload) (λ packet,
    match packet with
    | Connect decoded => asserts [
        username decoded == Some "myuser";
        password decoded == Some (as_bytes "mypassword");
        client_id decoded == "testclient";
        clean_session decoded]
    | _ => false
    end).

Definition test_connect_packet_with_username_only : bool :=
  let payload := connect_header "MQTT" 4 0x82 60 "testclient" in
  let payload := encode_string "myuser" payload in
  decoded (framed 0x10 payload) (λ packet,
    match packet with
    | Connect decoded => asserts [username decoded == Some "myuser"; password decoded == None]
    | _ => false
    end).

Definition test_connect_packet_password_flag_without_username_flag : bool :=
  let payload := connect_header "MQTT" 4 0x42 60 "testclient" in
  match decode (io_cursor (framed 0x10 payload)) with
  | (_, Err InvalidPacketFlags) => true
  | _ => false
  end.

Definition test_connect_packet_with_will_and_auth : bool :=
  let payload := connect_header "MQTT" 4 0xCE 60 "testclient" in
  let payload := encode_string "will/topic" payload in
  let payload := put_counted (as_bytes "will message") payload in
  let payload := encode_string "myuser" payload in
  let payload := put_counted (as_bytes "mypass") payload in
  decoded (framed 0x10 payload) (λ packet,
    match packet with
    | Connect decoded => asserts [
        client_id decoded == "testclient";
        will_flag decoded;
        will_topic decoded == Some "will/topic";
        will_payload decoded == Some (as_bytes "will message");
        username decoded == Some "myuser";
        password decoded == Some (as_bytes "mypass")]
    | _ => false
    end).

Definition codec_tests : list bool := [
  test_connect_packet_encode_decode;
  test_connect_packet_with_will;
  test_connack_packet_encode;
  test_publish_packet_encode_decode_qos0;
  test_publish_packet_encode_decode_qos1;
  test_puback_packet_encode;
  test_subscribe_packet_encode_decode;
  test_suback_packet_encode;
  test_unsubscribe_packet_encode_decode;
  test_unsuback_packet_encode;
  test_pingreq_packet_decode;
  test_pingresp_packet_encode;
  test_disconnect_packet_decode;
  test_disconnect_packet_encode;
  test_remaining_length_encoding;
  test_remaining_length_decoding;
  test_invalid_remaining_length;
  test_string_encoding_decoding;
  test_qos_values;
  test_packet_type_conversion;
  test_publish_flags_combinations;
  test_connect_packet_with_username_password;
  test_connect_packet_with_username_only;
  test_connect_packet_password_flag_without_username_flag;
  test_connect_packet_with_will_and_auth].

Lemma codec_tests_pass : asserts codec_tests = true.
Proof. vm_compute. reflexivity. Qed.
