(* ===== verification/RouterTests.v ===== *)
(** The unit tests of [src/router.rs]: topics, filters and what matches what,
    run on the model. *)

From S2P Require Import Prelude Topic Testing.
From stdpp Require Import pretty.

(** [s.repeat(n)] *)
Fixpoint str_repeat (n : nat) (s : string) : string :=
  match n with O => EmptyString | S n => s +:+ str_repeat n s end.

Definition test_exact_match : bool :=
  asserts [
    topic_matches "home/kitchen/temperature" "home/kitchen/temperature";
    topic_matches "a" "a";
    topic_matches EmptyString EmptyString].

Definition test_exact_mismatch : bool :=
  asserts [
    negb (topic_matches "home/kitchen/temperature" "home/kitchen/humidity");
    negb (topic_matches "home/kitchen" "home/kitchen/temperature");
    negb (topic_matches "home/kitchen/temperature" "home/kitchen");
    negb (topic_matches "abc" "xyz");
    negb (topic_matches "a" EmptyString);
    negb (topic_matches EmptyString "a")].

Definition test_single_level_wildcard_plus : bool :=
  asserts [
    topic_matches "home/kitchen/temperature" "home/+/temperature";
    topic_matches "home/bedroom/temperature" "home/+/temperature";
    topic_matches "home/livingroom/temperature" "home/+/temperature";
    topic_matches "kitchen/temperature" "+/temperature";
    topic_matches "bedroom/temperature" "+/temperature";
    topic_matches "home/kitchen" "home/+";
    topic_matches "home/bedroom" "home/+";
    topic_matches "home/kitchen/sensor/temperature" "home/+/sensor/+";
    topic_matches "office/meeting/sensor/humidity" "office/+/sensor/+";
    negb (topic_matches "home//temperature" "home/+/temperature");
    negb (topic_matches "home/temperature" "home/+/temperature");
    negb (topic_matches "home/kitchen/cabinet/temperature" "home/+/temperature")].

Definition test_multi_level_wildcard_hash : bool :=
  asserts [
    topic_matches "home/kitchen/temperature" "home/#";
    topic_matches "home/kitchen/sensor/temperature/celsius" "home/#";
    topic_matches "home" "home/#";
    topic_matches "home/kitchen/temperature" "#";
    topic_matches "office/meeting/room" "#";
    topic_matches "sensor" "#";
    topic_matches "a/b/c/d/e/f/g" "#";
    topic_matches "home" "home/#";
    topic_matches EmptyString "#";
    topic_matches "home/kitchen/temperature" "home/kitchen/#"].

Definition test_combined_wildcards : bool :=
  asserts [
    topic_matches "home/kitchen/sensor/temperature" "home/+/#";
    topic_matches "home/bedroom/light/brightness" "home/+/#";
    topic_matches "home/kitchen" "home/+/#";
    topic_matches "building/floor2/room5/sensor/temp" "building/+/+/#";
    topic_matches "building/floor1/room3/light" "building/+/+/#";
    topic_matches "a/b/c/d" "+/+/#";
    topic_matches "x/y" "+/+/#"].

Definition test_edge_cases : bool :=
  let long_topic := str_repeat 100 "a/" +:+ "b" in
  let long_filter := str_repeat 100 "+/" +:+ "+" in
  asserts [
    topic_matches EmptyString EmptyString;
    topic_matches EmptyString "#";
    negb (topic_matches "a" EmptyString);
    negb (topic_matches EmptyString "a");
    topic_matches "a" "a";
    topic_matches "a" "+";
    topic_matches "a" "#";
    topic_matches long_topic long_filter;
    topic_matches long_topic "#";
    topic_matches "home/kitchen-sensor/temp_1" "home/+/+";
    topic_matches "device@123/status" "+/status";
    topic_matches "sensor.temperature.celsius" "sensor.temperature.celsius";
    topic_matches "家/厨房/温度" "家/+/温度";
    topic_matches "🏠/🔥/🌡️" "🏠/#"].

Definition test_invalid_wildcard_patterns : bool :=
  asserts [
    negb (topic_matches "home/kitchen/temp" "home/#/temp");
    negb (topic_matches "a/b/c" "#/b/c")].

Definition test_mqtt_spec_examples : bool :=
  asserts [
    topic_matches "sport/tennis/player1" "sport/tennis/player1";
    topic_matches "sport/tennis/player1" "sport/tennis/+";
    negb (topic_matches "sport/tennis/player1" "sport/+");
    topic_matches "sport/tennis/player1" "+/tennis/player1";
    negb (topic_matches "sport/tennis/player1" "+/+");
    topic_matches "sport/tennis/player1" "+/+/+";
    topic_matches "sport/tennis/player1" "#";
    topic_matches "sport/tennis/player1" "sport/#";
    topic_matches "sport/tennis/player1" "sport/tennis/#";
    negb (topic_matches "sport/tennis/player1" "sport/tennis");
    negb (topic_matches "sport/tennis/player1" "tennis");
    negb (topic_matches "sport/tennis/player1" "sport/tennis/player1/ranking");
    negb (topic_matches "sport/tennis/player1" "+");
    negb (topic_matches "sport/tennis/player1" "+/+");
    topic_matches "sport/" "sport/";
    negb (topic_matches "sport/" "sport/+");
    negb (topic_matches "sport/" "+/+");
    topic_matches "sport/" "#";
    topic_matches "sport/" "sport/#";
    topic_matches "/finance" "/finance";
    negb (topic_matches "/finance" "+/finance");
    negb (topic_matches "/finance" "+/+");
    topic_matches "/finance" "#";
    topic_matches "/finance" "/#"].

Definition test_stress_patterns : bool :=
  let deep_topic := str_join SLASH ((λ i, "level" +:+ pretty i) <$> seq 0 50) in
  let deep_plus_filter := str_join SLASH ((λ _, "+") <$> seq 0 50) in
  asserts [
    topic_matches deep_topic deep_plus_filter;
    topic_matches deep_topic "#";
    negb (topic_matches "a///b" "a/+/+/b");
    negb (topic_matches "a//" "a/+/+");
    negb (topic_matches "//a" "+/+/a");
    topic_matches "a/b/c/d/e/f/g/h" "a/+/c/+/#";
    topic_matches "x/y/z" "+/+/#";
    negb (topic_matches "a/b" "a/+/c/+")].

Definition test_boundary_conditions : bool :=
  asserts [
    topic_matches "a" "+";
    topic_matches "a" "#";
    negb (topic_matches "a/b" "+");
    topic_matches "a/b" "+/+";
    topic_matches "a/b" "#";
    topic_matches "a/b" "a/#";
    topic_matches "a/b" "+/#";
    negb (topic_matches "a" "a/b");
    negb (topic_matches "a/b" "a/b/c");
    negb (topic_matches "a" "+/+");
    negb (topic_matches "a/b/c" "a/b");
    negb (topic_matches "a/b" "a");
    topic_matches "a/b/c" "a/#";
    topic_matches "a/b/c" "#"].

Definition test_valid_topic_names : bool :=
  asserts [
    validate_publish_topic "home/temperature";
    validate_publish_topic "a";
    validate_publish_topic "a/b/c/d/e/f";
    validate_publish_topic "/";
    validate_publish_topic "home/";
    validate_publish_topic "/home";
    validate_publish_topic "测试";
    validate_publish_topic "🚀";
    validate_publish_topic "home/kitchen/temperature/°C";
    validate_publish_topic "home/+/temp";
    validate_publish_topic "home/#"].

Definition test_invalid_topic_names : bool :=
  asserts [
    negb (validate_publish_topic EmptyString);
    negb (validate_publish_topic ("home" +:+ String NUL EmptyString +:+ "temperature"));
    negb (validate_publish_topic (String NUL EmptyString));
    negb (validate_publish_topic ("home/" +:+ String NUL EmptyString +:+ "/temp"))].

Definition test_valid_topic_filters : bool :=
  asserts [
    validate_subscribe_filter "home/temperature";
    validate_subscribe_filter "a";
    validate_subscribe_filter "/";
    validate_subscribe_filter "home/";
    validate_subscribe_filter "/home";
    validate_subscribe_filter "+";
    validate_subscribe_filter "home/+/temperature";
    validate_subscribe_filter "+/+/+";
    validate_subscribe_filter "home/+";
    validate_subscribe_filter "+/temperature";
    validate_subscribe_filter "#";
    validate_subscribe_filter "home/#";
    validate_subscribe_filter "home/kitchen/#";
    validate_subscribe_filter "+/#";
    validate_subscribe_filter "+/+/#";
    validate_subscribe_filter "测试/+/#";
    validate_subscribe_filter "🚀/#"].

Definition test_invalid_topic_filters : bool :=
  asserts [
    negb (validate_subscribe_filter EmptyString);
    negb (validate_subscribe_filter ("home" +:+ String NUL EmptyString +:+ "temperature"));
    negb (validate_subscribe_filter (String NUL EmptyString));
    negb (validate_subscribe_filter ("home/" +:+ String NUL EmptyString +:+ "/temp"));
    negb (validate_subscribe_filter "home/+a/temp");
    negb (validate_subscribe_filter "home/a+/temp");
    negb (validate_subscribe_filter "home/++/temp");
    negb (validate_subscribe_filter "home/+abc/temp");
    negb (validate_subscribe_filter "home/#/temp");
    negb (validate_subscribe_filter "home/a#");
    negb (validate_subscribe_filter "home/#a");
    negb (validate_subscribe_filter "home/##");
    negb (validate_subscribe_filter "#/home");
    negb (validate_subscribe_filter "home/kitchen/#/room")].

Definition test_edge_case_validation : bool :=
  asserts [
    validate_publish_topic "/";
    validate_publish_topic "//";
    validate_publish_topic "///";
    validate_subscribe_filter "/";
    validate_subscribe_filter "//";
    validate_subscribe_filter "///";
    validate_subscribe_filter "/+";
    validate_subscribe_filter "+/";
    validate_subscribe_filter "/+/";
    validate_subscribe_filter "/#";
    validate_subscribe_filter "/+/#";
    negb (validate_subscribe_filter "#/#");
    negb (validate_subscribe_filter "home/#/#");
    validate_subscribe_filter "home/+/kitchen/+/sensor";
    negb (validate_subscribe_filter "home/+/kitchen/#/sensor");
    negb (validate_subscribe_filter "home/+a/kitchen/+/sensor")].

Definition router_tests : list bool := [
  test_exact_match;
  test_exact_mismatch;
  test_single_level_wildcard_plus;
  test_multi_level_wildcard_hash;
  test_combined_wildcards;
  test_edge_cases;
  test_invalid_wildcard_patterns;
  test_mqtt_spec_examples;
  test_stress_patterns;
  test_boundary_conditions;
  test_valid_topic_names;
  test_invalid_topic_names;
  test_valid_topic_filters;
  test_invalid_topic_filters;
  test_edge_case_validation].

Lemma router_tests_pass : asserts router_tests = true.
Proof. vm_compute. reflexivity. Qed.
