(* ===== verification/StorageTests.v ===== *)
(** The unit tests of [src/storage/memory.rs] and [src/storage/sqlite.rs], run on
    the model; the tests of the database on the engine of [SqlEngine.v]. *)

From S2P Require Import Prelude External Text Storage MemoryStorage Sql SqlEngine SqliteStorage Testing.

Local Open Scope test_scope.

(** An hour of the clock, and a time at which the tests run. *)
Definition hours (n : Z) : Z := (n * 3600 * 1000000000)%Z.
Definition now : DateTime := (1700000000 * 1000000000)%Z.
Definition before (t : DateTime) (d : Z) : DateTime := (nanos t - d)%Z.

(** [e.to_string()], the messages [thiserror] derives. *)
Definition storage_error_to_string (e : StorageError) : string :=
  match e with
  | Internal msg => "Storage error: " +:+ msg
  | InvalidDateTime table field record_id value =>
      "Invalid datetime in " +:+ table +:+ "." +:+ field +:+ " for " +:+ record_id +:+ ": '" +:+
      value +:+ "'"
  end.

(** [s.contains(p)] *)
Fixpoint contains (p s : string) : bool :=
  starts_with p s || match s with EmptyString => false | String _ s' => contains p s' end.

(** [o.unwrap()] in a test: a panic fails it. *)
Definition some {S A} (o : option A) : M S StorageError A :=
  match o with Some a => mret a | None => panic end.

Definition test_session (client_id : string) (next_packet_id : Z) (will : option PersistedWillMessage)
    (at_ : DateTime) : PersistedSession :=
  mkPersistedSession client_id next_packet_id 60 will at_ at_.

Definition test_subscription (client_id : string) : PersistedSubscription :=
  mkPersistedSubscription client_id "test/#" SAtLeastOnce.

Definition test_inflight (client_id : string) : PersistedInflightMessage :=
  mkPersistedInflight client_id 1 "test/topic" (as_bytes "data") SAtLeastOnce false 0 None now.

Section Tests.
Context {S : Type} {ST : Storage S}.

(** What a session that has been loaded is asserted to be. *)
Definition assert_loaded : M S StorageError (list bool) :=
  loaded_session ← load_session "test-client";
  loaded_session ← some loaded_session;
  loaded_subs ← load_subscriptions "test-client";
  loaded_inflight ← load_inflight_messages "test-client";
  exists_ ← session_exists "test-client";
  nonexistent ← session_exists "nonexistent";
  mret [
    ps_client_id loaded_session == "test-client";
    ps_next_packet_id loaded_session == 100%Z;
    length loaded_subs == 1;
    psub_topic_filter <$> head loaded_subs == Some "test/#";
    length loaded_inflight == 1;
    pi_packet_id <$> head loaded_inflight == Some 1%Z;
    exists_;
    negb nonexistent].

(** Deleting a session cascades, the same test for both. *)
Definition delete_cascades : M S StorageError bool :=
  save_session (test_session "client1" 1 None now) [test_subscription "client1"]
    [test_inflight "client1"] [];;
  delete_session "client1";;
  exists_ ← session_exists "client1";
  subs ← load_subscriptions "client1";
  inflight ← load_inflight_messages "client1";
  mret (asserts [negb exists_; length subs == 0; length inflight == 0]).
End Tests.

(** * [memory.rs] *)

Definition on_memory (test : M InMemoryStorage StorageError bool) : bool := unwrap (test memory_new) id.

Definition memory_test_session_save_and_load : bool :=
  on_memory (
    save_session (test_session "test-client" 100 None now) [test_subscription "test-client"]
      [test_inflight "test-client"] [];;
    l ← assert_loaded; mret (asserts l)).

Definition memory_test_session_delete_cascades : bool := on_memory delete_cascades.

Definition memory_test_retained_message_crud : bool :=
  let msg := mkPersistedRetained "sensor/temp" (as_bytes "25.5") SAtMostOnce now in
  on_memory (
    save_retained_message msg;;
    loaded ← load_retained_message "sensor/temp";
    loaded ← some loaded;
    count ← count_retained_messages;
    delete_retained_message "sensor/temp";;
    gone ← load_retained_message "sensor/temp";
    mret (asserts [
      pr_topic loaded == "sensor/temp";
      pr_payload loaded == as_bytes "25.5";
      count == 1;
      match gone with None => true | Some _ => false end])).

(** * [sqlite.rs] *)

(** [SqliteStorage::in_memory().unwrap()], and a test on it. *)
Definition on_sqlite (test : M (SqliteStorage (SQ := engine)) StorageError bool) : bool :=
  match sqlite_in_memory (SQ := engine) with
  | Ok storage => unwrap (test storage) id
  | _ => false
  end.

Definition sqlite_test_session_save_and_load : bool :=
  let will := mkPersistedWill "will/topic" (as_bytes "goodbye") SAtLeastOnce true in
  on_sqlite (
    save_session (test_session "test-client" 100 (Some will) now) [test_subscription "test-client"]
      [test_inflight "test-client"] [];;
    l ← assert_loaded;
    loaded_session ← load_session "test-client";
    loaded_session ← some loaded_session;
    will ← some (ps_will_message loaded_session);
    mret (asserts (l ++ [
      ps_keep_alive loaded_session == 60%Z;
      pw_topic will == "will/topic";
      pw_payload will == as_bytes "goodbye";
      match pw_qos will with SAtLeastOnce => true | _ => false end;
      pw_retain will]))).

Definition sqlite_test_retained_message_crud : bool :=
  let msg := mkPersistedRetained "sensor/temperature" (as_bytes "25.5") SAtMostOnce now in
  on_sqlite (
    save_retained_message msg;;
    loaded ← load_retained_message "sensor/temperature";
    loaded ← some loaded;
    all ← load_all_retained_messages;
    count ← count_retained_messages;
    delete_retained_message "sensor/temperature";;
    gone ← load_retained_message "sensor/temperature";
    mret (asserts [
      pr_topic loaded == "sensor/temperature";
      pr_payload loaded == as_bytes "25.5";
      length all == 1;
      count == 1;
      match gone with None => true | Some _ => false end])).

Definition sqlite_test_session_delete_cascades : bool := on_sqlite delete_cascades.

Definition test_expired_sessions_cleanup : bool :=
  let old_time := before now (hours 2) in
  on_sqlite (
    save_session (test_session "old-client" 1 None old_time) [] [] [];;
    save_session (test_session "recent-client" 1 None now) [] [] [];;
    deleted ← delete_expired_sessions (before now (hours 1));
    old ← session_exists "old-client";
    recent ← session_exists "recent-client";
    mret (asserts [deleted == 1; negb old; recent])).

Definition test_invalid_datetime_error_message : bool :=
  let insert := InsertInto "sessions"
    ["client_id"; "next_packet_id"; "keep_alive"; "created_at"; "updated_at"]
    [VText "bad-client"; VInt 1; VInt 60; VText "not-a-date"; VText "2024-01-01T00:00:00Z"] None in
  match sqlite_in_memory (SQ := engine) with
  | Ok storage =>
      let '(storage, inserted) := sql (execute insert) storage in
      match inserted, (load_session "bad-client" storage).2 with
      | Ok _, Err err =>
          let err_msg := storage_error_to_string err in
          asserts [contains "sessions" err_msg; contains "created_at" err_msg;
                   contains "bad-client" err_msg; contains "not-a-date" err_msg]
      | _, _ => false
      end
  | _ => false
  end.

Definition storage_tests : list bool := [
  memory_test_session_save_and_load;
  memory_test_session_delete_cascades;
  memory_test_retained_message_crud;
  sqlite_test_session_save_and_load;
  sqlite_test_retained_message_crud;
  sqlite_test_session_delete_cascades;
  test_expired_sessions_cleanup;
  test_invalid_datetime_error_message].

Lemma storage_tests_pass : asserts storage_tests = true.
Proof. vm_compute. reflexivity. Qed.
