(* ===== verification/ServerTests.v ===== *)
(** The unit tests of [src/auth/], [src/config.rs], [src/transport.rs] and
    [src/server.rs], run on the model.  The tests of the configuration that
    parse TOML are run on the reader of [TomlReader.v]. *)

From S2P Require Import Prelude External Text Config ConfigFile TomlReader Auth Storage SqlEngine Transport Server ServerProps Testing.
From S2P Require Import Sql StorageTests.

Local Open Scope test_scope.

Definition is_invalid_credentials (r : () + AuthError) : bool :=
  match r with inr InvalidCredentials => true | _ => false end.
Definition is_not_authorized (r : () + AuthError) : bool :=
  match r with inr NotAuthorized => true | _ => false end.
Definition is_allowed (r : () + AuthError) : bool := unwrap_sum r (λ _, true).

(** * [auth/allow_all.rs] *)

Definition test_allow_all_accepts_no_credentials : bool :=
  is_allowed (authenticate AllowAll (mkCredentials None None "test")).

Definition test_allow_all_accepts_with_credentials : bool :=
  is_allowed (authenticate AllowAll (mkCredentials (Some "user") (Some (as_bytes "pass")) "test")).

Definition test_allow_all_authorizes_publish : bool :=
  is_allowed (authorize_publish AllowAll "any_client" "any/topic").

Definition test_allow_all_authorizes_subscribe : bool :=
  is_allowed (authorize_subscribe AllowAll "any_client" "any/topic/#").

(** * [auth/password_file.rs] *)

(** What a file makes of a client's credentials. *)
Definition with_passwords (content : string) (username : option string) (password : option string)
    (check : () + AuthError → bool) : bool :=
  unwrap_sum (password_file_new (FS := one_file "temp" content) "temp") (λ auth,
    check (authenticate auth (mkCredentials username (as_bytes <$> password) "test"))).

Definition test_valid_credentials : bool :=
  with_passwords (unlines ["admin:secret"; "user1:pass1"]) (Some "admin") (Some "secret") is_allowed.

Definition test_invalid_password : bool :=
  with_passwords (unlines ["admin:secret"]) (Some "admin") (Some "wrong") is_invalid_credentials.

Definition test_unknown_username : bool :=
  with_passwords (unlines ["admin:secret"]) (Some "unknown") (Some "secret") is_invalid_credentials.

Definition test_no_username : bool :=
  with_passwords (unlines ["admin:secret"]) None (Some "secret") is_invalid_credentials.

Definition test_no_password : bool :=
  with_passwords (unlines ["admin:secret"]) (Some "admin") None is_invalid_credentials.

Definition password_test_comments_and_empty_lines : bool :=
  with_passwords (unlines ["# This is a comment"; EmptyString; "admin:secret"; "# Another comment"])
    (Some "admin") (Some "secret") is_allowed.

(** * [auth/acl_file.rs] *)

Definition with_acl (content : string) (then_ : AclFileAuthorizer → bool) : bool :=
  unwrap_sum (acl_file_new (FS := one_file "temp" content) "temp") then_.

Definition ACL_CONTENT : string :=
  unlines ["# Test ACL file"; "admin pubsub #"; "sensor1 pub sensors/data"; "viewer sub sensors/#"].

Definition test_publish_allowed : bool :=
  with_acl ACL_CONTENT (λ acl, asserts [
    is_allowed (authorize_publish acl "admin" "#");
    is_allowed (authorize_publish acl "sensor1" "sensors/data")]).

Definition test_publish_denied_wrong_client : bool :=
  with_acl ACL_CONTENT (λ acl, is_not_authorized (authorize_publish acl "unknown" "sensors/data")).

Definition test_publish_denied_wrong_topic : bool :=
  with_acl ACL_CONTENT (λ acl, is_not_authorized (authorize_publish acl "sensor1" "other/topic")).

Definition test_publish_denied_sub_only : bool :=
  with_acl ACL_CONTENT (λ acl, is_not_authorized (authorize_publish acl "viewer" "sensors/#")).

Definition test_subscribe_allowed : bool :=
  with_acl ACL_CONTENT (λ acl, asserts [
    is_allowed (authorize_subscribe acl "admin" "#");
    is_allowed (authorize_subscribe acl "viewer" "sensors/#")]).

Definition test_subscribe_denied_pub_only : bool :=
  with_acl ACL_CONTENT (λ acl, is_not_authorized (authorize_subscribe acl "sensor1" "sensors/data")).

Definition test_pubsub_grants_both : bool :=
  with_acl ACL_CONTENT (λ acl, asserts [
    is_allowed (authorize_publish acl "admin" "#");
    is_allowed (authorize_subscribe acl "admin" "#")]).

Definition acl_test_comments_and_empty_lines : bool :=
  with_acl (unlines ["# comment"; EmptyString; "client1 pub topic1"; "# another comment"]) (λ acl,
    is_allowed (authorize_publish acl "client1" "topic1")).

Definition test_invalid_lines_skipped : bool :=
  with_acl (unlines ["badline"; "client1 pub topic1"; "client2 invalid topic2"]) (λ acl, asserts [
    is_allowed (authorize_publish acl "client1" "topic1");
    is_not_authorized (authorize_publish acl "client2" "topic2")]).

(** * [config.rs] *)

(** [toml::from_str(text).unwrap()] *)
Definition parsed (text : string) (then_ : Config → bool) : bool :=
  from_option then_ false (from_toml text).

Definition test_listen_string_backward_compat : bool :=
  parsed ("listen = " +:+ quoted "127.0.0.1:1883") (λ config, listen config == ["127.0.0.1:1883"]).

Definition test_listen_array : bool :=
  parsed ("listen = [" +:+ quoted "tcp://0.0.0.0:1883" +:+ ", " +:+ quoted "tls://0.0.0.0:8883" +:+ "]")
    (λ config, listen config == ["tcp://0.0.0.0:1883"; "tls://0.0.0.0:8883"]).

Definition test_tls_config_present : bool :=
  parsed (unlines [EmptyString; "            [tls]"; "            cert_file = " +:+ quoted "server.crt";
                   "            key_file = " +:+ quoted "server.key"] +:+ "            ")
    (λ config, from_option (λ tls, asserts [cert_file tls == "server.crt"; key_file tls == "server.key"])
                 false (tls config)).

Definition test_tls_config_absent : bool :=
  parsed EmptyString (λ config, match tls config with None => true | Some _ => false end).

Definition test_default_listen : bool := listen default_config == ["127.0.0.1:1883"].

(** * [transport.rs] *)

Definition is_protocol (url : string) (p : Protocol) (a : string) : bool :=
  unwrap_sum (from_url (E := Empty_set) url) (λ '(protocol, addr),
    asserts [match protocol, p with Tcp, Tcp | TcpTls, TcpTls => true | _, _ => false end; addr == a]).

Definition test_protocol_from_url_tcp : bool := is_protocol "tcp://0.0.0.0:1883" Tcp "0.0.0.0:1883".
Definition test_protocol_from_url_tls : bool := is_protocol "tls://0.0.0.0:8883" TcpTls "0.0.0.0:8883".
Definition test_protocol_from_url_bare_address : bool :=
  is_protocol "127.0.0.1:1883" Tcp "127.0.0.1:1883".

(** * [server.rs] *)

Definition test_config : Config :=
  mkConfig ["127.0.0.1:0"] default_retained_message_limit default_max_retransmission_limit
    default_retransmission_interval_ms default_persistence default_auth default_acl None.

(** [start(test_config())], on a machine with nothing bound and no files. *)
Definition started (then_ : ServerHandle → bool) : bool :=
  unwrap (server_start (MP := queue_mpsc) (SQ := engine) (SO := ports)
            (FS := λ _, inr (OtherIo 2)) test_config []) (λ '(handle, _), then_ handle).

Definition test_server_start_stop : bool :=
  started (λ handle, asserts [bool_decide (is_Some (handle_address handle)); cancel (handle_stop handle)]).

Definition test_server_binds_address : bool :=
  started (λ handle,
    match handle_address handle with
    | Some addr => contains "127.0.0.1:" addr
    | None => false
    end).

Definition server_tests : list bool := [
  test_allow_all_accepts_no_credentials;
  test_allow_all_accepts_with_credentials;
  test_allow_all_authorizes_publish;
  test_allow_all_authorizes_subscribe;
  test_valid_credentials;
  test_invalid_password;
  test_unknown_username;
  test_no_username;
  test_no_password;
  password_test_comments_and_empty_lines;
  test_publish_allowed;
  test_publish_denied_wrong_client;
  test_publish_denied_wrong_topic;
  test_publish_denied_sub_only;
  test_subscribe_allowed;
  test_subscribe_denied_pub_only;
  test_pubsub_grants_both;
  acl_test_comments_and_empty_lines;
  test_invalid_lines_skipped;
  test_listen_string_backward_compat;
  test_listen_array;
  test_tls_config_present;
  test_tls_config_absent;
  test_default_listen;
  test_protocol_from_url_tcp;
  test_protocol_from_url_tls;
  test_protocol_from_url_bare_address;
  test_server_start_stop;
  test_server_binds_address].

Lemma server_tests_pass : asserts server_tests = true.
Proof. vm_compute. reflexivity. Qed.
