(* ===== verification/Scenario.v ===== *)
(** Clients that talk to a server over sockets, as the tests under [src/tests/] do:
    they connect, write bytes, read what has come, close and wait, and in between
    the sessions do what they can.  Every scenario is a run of [System.v]. *)

From S2P Require Import Prelude External Packet Codec Topic Storage MemoryStorage Config Auth.
From S2P Require Import Router RouterFacts Broker Session Lifecycle SessionInv SessionSafe SessionFacts Samples.
From S2P Require Import LifeProps SessionFrame System SystemProps Timers Testing.

Local Open Scope Z_scope.

(** * Streams with a name

    The stream a connection was accepted with, wherever it is now. *)

#[export] Instance named_read {R} {AR : AsyncRead R} : AsyncRead (string * R) := {
  incoming r := incoming r.2;
  read_u8 r := let '(s, o) := read_u8 r.2 in ((r.1, s), o);
  read_exact n r := let '(s, o) := read_exact n r.2 in ((r.1, s), o);
}.

#[export] Instance named_read_laws {R} {AR : AsyncRead R} {ARL : AsyncReadLaws R} : AsyncReadLaws (string * R).
Proof.
  split; intros; cbn;
    [pose proof (read_u8_incoming r.2) as H|pose proof (read_exact_incoming n r.2) as H];
    revert H; [destruct (read_u8 r.2)|destruct (read_exact n r.2)]; by intros <-.
Qed.

#[export] Instance named_write {W} {AW : AsyncWrite W} : AsyncWrite (string * W) := {
  written w := written w.2;
  write_all l w := let '(s, o) := write_all l w.2 in ((w.1, s), o);
}.

#[export] Instance named_write_laws {W} {AW : AsyncWrite W} {AWL : AsyncWriteLaws W} : AsyncWriteLaws (string * W).
Proof.
  split; intros *; cbn; destruct (write_all l w.2) as [s o'] eqn:E.
  - intros [= <- ->]. by apply write_all_Ok in E.
  - intros [= <- ->]. by apply write_all_prefix in E.
  - pose proof (write_all_no_panic l w.2) as H. by rewrite E in H.
Qed.

(** * The world *)

Abbreviation NamedIn := (string * Incoming)%type.
Abbreviation NamedOut := (string * Outgoing)%type.
Abbreviation TestSystem :=
  (System (MP := queue_mpsc) (S := InMemoryStorage) (R := NamedIn) (W := NamedOut)
     (Au := AllowAllAuthenticator) (Az := AllowAllAuthenticator)).
Abbreviation TestMember := (Member NamedIn NamedOut).
Abbreviation TestEvent := (Event NamedIn NamedOut).

(** The system, the timers of the sessions that are in their loop, the clock,
    what has come to each client and what happened, the last first. *)
Record World := mkWorld {
  sys : TestSystem;
  timers : gmap string (Timers (IV := clock));
  now : Instant;
  come : gmap string Bytes;
  past : list TestEvent;
}.

(** [server::start]: a server without a client. *)
Definition server_on (config : Config) : World :=
  mkWorld (mkSystem (broker_new config memory_new AllowAll AllowAll) ∅) ∅ 0 ∅ [].

(** Something happens. *)
Definition happen (e : TestEvent) (w : World) : option World :=
  s ← exec e (sys w); Some (mkWorld s (timers w) (now w) (come w) (e :: past w)).

Definition timed_phase (id : string) (m : TestMember) (w : World) : Timed (IV := clock) :=
  match m_phase m, timers w !! id with
  | InLoop k, Some tm => Looping k tm
  | ph, _ => Outside ph
  end.

(** A session takes a turn, which its timers allow. *)
Definition turn_of (id : string) (b : Branch) (w : World) : option World :=
  m ← members (sys w) !! id;
  let t := mkTurn b true (now w) epoch in
  match timed_step (E := Empty_set) t (timed_phase id m w) (env_of (sys w) m) with
  | (_, Ok x) =>
      w' ← happen (Step id t) w;
      let timers' := match x with Looping _ tm => <[id := tm]> (timers w') | _ => delete id (timers w') end in
      Some (mkWorld (sys w') timers' (now w') (come w') (past w'))
  | _ => None
  end.

(** What a session has written goes to the client at the other end. *)
Definition flush (id : string) (w : World) : World :=
  match members (sys w) !! id with
  | Some m =>
      let '(c, out) := m_writer m in
      match sent out with
      | [] => w
      | bytes =>
          match happen (Network id (m_reader m, (c, mkOutgoing [] (room out)))) w with
          | Some w' =>
              mkWorld (sys w') (timers w') (now w')
                (<[c := default [] (come w' !! c) ++ bytes]> (come w')) (past w')
          | None => w
          end
      end
  | None => w
  end.

Definition first_some {A B} (f : A → option B) (l : list A) : option B := head (omap f l).

(** The next thing that can happen without a client: a session takes a turn, or
    its future completes. *)
Definition next_move (w : World) : option World :=
  first_some (λ '(id, _),
    match first_some (λ b, turn_of id b w) [OnCommand; OnDecode; OnMessage; OnRetransmit; OnKeepAlive] with
    | Some w' => Some (flush id w')
    | None => happen (Complete id) w
    end) (map_to_list (members (sys w))).

(** All that can happen until the sessions wait; [None] after [fuel] moves. *)
Fixpoint settle (fuel : nat) (w : World) : option World :=
  match next_move w with
  | None => Some w
  | Some w' => match fuel with O => None | S n => settle n w' end
  end.

(** * Clients *)

(** A stream the server has not closed: it works on it, or will. *)
Definition works_on (c : string) (m : TestMember) : bool :=
  String.eqb (m_reader m).1 c &&
  match m_phase m with InLoop _ | Enter Waiting | Enter Processing => true | _ => false end.

Definition at_other_end (c : string) (w : World) : option (string * TestMember) :=
  head (filter (λ im, works_on c im.2) (map_to_list (members (sys w)))).

(** What a test does: [TcpStream::connect], [write_all], [drop], [sleep];
    [read_exact] with what it asserts of each byte; a read that times out; and one
    that finds the connection closed. *)
Inductive Action :=
| Open (c : string)
| Write (c : string) (bytes : Bytes)
| Close (c : string)
| Sleep (millis : Z)
| Read (c : string) (expected : list (option Z))
| Silence (c : string)
| Closed (c : string).

Definition expects (expected : list (option Z)) (bytes : Bytes) : bool :=
  bool_decide (length bytes = length expected) &&
  forallb (λ '(e, b), match e with Some z => byte.unsigned b =? z | None => true end) (zip expected bytes).

(** The reader of the stream's session, changed by its client. *)
Definition from_client (c : string) (f : Incoming → Incoming) (w : World) : option World :=
  match at_other_end c w with
  | Some (id, m) => happen (Network id ((c, f (m_reader m).2), m_writer m)) w
  | None => Some w
  end.

Definition FUEL : nat := 50.

Definition settled (w : World) : option World := settle FUEL w.

(** Time passes in steps of a quarter of a second. *)
Fixpoint sleep (steps : nat) (w : World) : option World :=
  match steps with
  | O => Some w
  | S n => w' ← settled (mkWorld (sys w) (timers w) (now w + ms 250) (come w) (past w)); sleep n w'
  end.

(** [None] when an assertion fails. *)
Definition act (a : Action) (w : World) : option World :=
  match a with
  | Open c =>
      let channels := S (length (past w)) in
      w' ← happen (Accept c channels channels ((c, mkIncoming [] None), (c, mkOutgoing [] None))) w; settled w'
  | Write c bytes =>
      w' ← from_client c (λ i, mkIncoming (arrived i ++ bytes) (ended i)) w; settled w'
  | Close c => w' ← from_client c (λ i, mkIncoming (arrived i) (Some UnexpectedEof)) w; settled w'
  | Sleep millis => sleep (Z.to_nat (millis / 250)) w
  | Read c expected =>
      let bytes := default [] (come w !! c) in
      if expects expected (take (length expected) bytes)
      then Some (mkWorld (sys w) (timers w) (now w) (<[c := drop (length expected) bytes]> (come w)) (past w))
      else None
  | Silence c => if bool_decide (default [] (come w !! c) = []) then Some w else None
  | Closed c =>
      match at_other_end c w, default [] (come w !! c) with None, [] => Some w | _, _ => None end
  end.

Fixpoint play (actions : list Action) (w : World) : option World :=
  match actions with
  | [] => Some w
  | a :: actions' => w' ← act a w; play actions' w'
  end.

(** A test passes when it can be played to its end. *)
Definition passes_on (config : Config) (actions : list Action) : bool :=
  match play actions (server_on config) with Some _ => true | None => false end.

(** * A scenario is a run of the system *)

(** What has happened leads from the start to here. *)
Definition is_run (start : TestSystem) (w : World) : Prop :=
  exec_all (reverse (past w)) start = Some (sys w).

Lemma happen_run start e w w' : is_run start w → happen e w = Some w' → is_run start w'.
Proof.
  unfold is_run, happen. intros H. destruct (exec e (sys w)) as [s|] eqn:E; [|done]. intros [= <-].
  cbn [past sys]. rewrite reverse_cons, exec_all_app, H. cbn [mbind option_bind exec_all]. by rewrite E.
Qed.

(** A world with another clock, timers or mail is as much of a run. *)
Lemma same_run start w tm t c : is_run start w → is_run start (mkWorld (sys w) tm t c (past w)).
Proof. done. Qed.

Create HintDb runs.
#[local] Hint Resolve happen_run same_run : runs.

Lemma turn_run start id b w w' : is_run start w → turn_of id b w = Some w' → is_run start w'.
Proof.
  unfold turn_of. intros H. destruct (members (sys w) !! id) as [m|]; [|done]. cbn [mbind option_bind].
  destruct (timed_step _ _ _) as [v [x|e| |]]; try done.
  destruct (happen _ w) as [w1|] eqn:E; [|done]. intros [= <-]. eauto with runs.
Qed.

Lemma flush_run start id w : is_run start w → is_run start (flush id w).
Proof.
  unfold flush. intros H. destruct (members (sys w) !! id) as [m|]; [|done].
  destruct (m_writer m) as [c out]. destruct (sent out); [done|].
  destruct (happen _ w) as [w1|] eqn:E; [|done]. eauto with runs.
Qed.

Lemma first_some_Some {A B} (f : A → option B) l b : first_some f l = Some b → ∃ a, f a = Some b.
Proof.
  unfold first_some. induction l as [|a l IH]; [done|]. cbn. destruct (f a) as [b'|] eqn:E; [|exact IH].
  intros [= ->]. by exists a.
Qed.

Lemma move_run start w w' : is_run start w → next_move w = Some w' → is_run start w'.
Proof.
  unfold next_move. intros H [[id m] Hm]%first_some_Some.
  destruct (first_some _ _) as [w1|] eqn:E; [|by eapply happen_run].
  injection Hm as <-. apply first_some_Some in E as [b E]. by eapply flush_run, turn_run.
Qed.

Lemma settle_run start n w w' : is_run start w → settle n w = Some w' → is_run start w'.
Proof.
  revert w. induction n as [|n IH]; intros w H; cbn [settle]; destruct (next_move w) as [w1|] eqn:E;
    try done; try (by intros [= <-]). apply IH. by eapply move_run.
Qed.

Lemma sleep_run start n w w' : is_run start w → sleep n w = Some w' → is_run start w'.
Proof.
  revert w. induction n as [|n IH]; intros w H; cbn [sleep]; [by intros [= <-]|].
  destruct (settled _) as [w1|] eqn:E; [|done]. apply IH. by eapply settle_run; [|exact E].
Qed.

Lemma from_client_run start c f w w' : is_run start w → from_client c f w = Some w' → is_run start w'.
Proof.
  unfold from_client. intros H. destruct (at_other_end c w) as [[id m]|]; [by eapply happen_run|by intros [= <-]].
Qed.

Lemma act_run start a w w' : is_run start w → act a w = Some w' → is_run start w'.
Proof.
  intros H. destruct a as [c|c bs|c|n|c l|c|c]; cbn [act].
  - destruct (happen _ w) as [w1|] eqn:E; [|done]. intros Hs. eapply settle_run; [|exact Hs]. by eapply happen_run.
  - destruct (from_client _ _ w) as [w1|] eqn:E; [|done]. intros Hs. eapply settle_run; [|exact Hs].
    by eapply from_client_run.
  - destruct (from_client _ _ w) as [w1|] eqn:E; [|done]. intros Hs. eapply settle_run; [|exact Hs].
    by eapply from_client_run.
  - by apply sleep_run.
  - destruct (expects _ _); [|done]. intros [= <-]. by apply same_run.
  - case_bool_decide; [by intros [= <-]|done].
  - destruct (at_other_end c w); [done|]. destruct (default _ _); [by intros [= <-]|done].
Qed.

Lemma play_run start actions w w' : is_run start w → play actions w = Some w' → is_run start w'.
Proof.
  revert w. induction actions as [|a actions IH]; intros w H; cbn [play]; [by intros [= <-]|].
  destruct (act a w) as [w1|] eqn:E; [|done]. apply IH. by eapply act_run.
Qed.

(** So what holds in every system holds throughout a scenario that is played to
    its end. *)
Lemma passes_run config actions :
  passes_on config actions = true →
  ∃ es s, exec_all es (sys (server_on config)) = Some s ∧ system_ok (SL := memory_laws) s.
Proof.
  unfold passes_on. destruct (play actions (server_on config)) as [w|] eqn:E; [|done]. intros _.
  exists (reverse (past w)), (sys w).
  assert (is_run (sys (server_on config)) w) as H by (eapply play_run; [|exact E]; done).
  split; [exact H|]. eapply system_ok_all; [|exact H]. apply system_ok_start; try done.
  split; [|split; [apply map_Forall_empty|apply retry_bound_range]]. split; [exists ∅; apply rep_new|].
  split; [apply memory_inv_new|apply memory_new_wf].
Qed.
