(* ===== verification/SocketTests.v ===== *)
(** The tests under [src/tests/], which start a server and talk to it over
    sockets, played on the model: what a test writes, reads and asserts is what its
    scenario does.  A test that only checks that the server is still there asserts
    here that the scenario can be played. *)

From S2P Require Import Prelude Utf8 External Packet Codec Config Text Auth Storage Sql SqlEngine Broker Session.
From S2P Require Import Transport Server ServerProps Testing Scenario StorageTests.

Local Open Scope Z_scope.

(** * What the tests are written with *)

(** [iotd::server::start(config)], and what is done with its handle. *)
Definition started_on (files : bool) (config : Config) (then_ : ServerHandle → bool) : bool :=
  unwrap (server_start (MP := queue_mpsc) (SQ := engine) (SO := ports_with (λ _, files))
            (FS := λ _, inr (OtherIo 2)) config []) (λ '(handle, _), then_ handle).

(** A test on a server with a configuration. *)
Definition test_on (config : Config) (actions : list Action) : bool :=
  started_on true config (λ handle,
    asserts [bool_decide (length (handle_addresses handle) = length (listen config)); passes_on config actions]).

(** [Config::default()] with another address and retransmission. *)
Definition config_with (addrs : list string) (tls : option TlsConfig) (limit interval : Z) : Config :=
  mkConfig addrs default_retained_message_limit limit interval default_persistence default_auth
    default_acl tls.

Definition local_config : Config :=
  config_with ["127.0.0.1:0"] None default_max_retransmission_limit default_retransmission_interval_ms.

Definition test (actions : list Action) : bool := test_on local_config actions.

(** Bytes as they are asserted. *)
Definition exactly (l : list Z) : list (option Z) := Some <$> l.
Definition text (s : string) : list (option Z) := (Some ∘ byte.unsigned) <$> as_bytes s.
Definition any (n : nat) : list (option Z) := replicate n None.

Definition write (c : string) (l : list Z) (s : string) : Action := Write c (bytes_of l ++ as_bytes s).

(** A length as two bytes. *)
Definition be (n : Z) : list Z := [Z.shiftr n 8; Z.land n 255].
Definition len (s : string) : Z := Z.of_nat (String.length s).

(** [create_connect_packet] of [packet_test.rs] and [thread_monitor.rs], and
    [send_connect_with_flags] and [make_connect_packet] of the others. *)
Definition create_connect_packet (client_id : string) (flags keep_alive : Z) : Bytes :=
  bytes_of ([0x10; as_u8 (12 + len client_id); 0; 4; 0x4d; 0x51; 0x54; 0x54; 4; flags] ++
    be keep_alive ++ be (len client_id)) ++ as_bytes client_id.

Definition send_connect_with_flags (c client_id : string) (flags : Z) : Action :=
  Write c (create_connect_packet client_id flags 60).

Definition read_connack (c : string) : Action := Read c [Some 0x20; None; None; Some 0].

Definition read_connack_with_session_present (c : string) (session_present : bool) : Action :=
  Read c [Some 0x20; None; Some (if session_present then 1 else 0); Some 0].

(** A connection, its CONNECT and its CONNACK. *)
Definition connects_with (c client_id : string) (flags : Z) : list Action :=
  [Open c; send_connect_with_flags c client_id flags; read_connack c].

Definition connects (c client_id : string) : list Action := connects_with c client_id 2.

(** [create_publish_packet] *)
Definition create_publish_packet (topic : string) (payload : Bytes) (qos : Z) (retain : bool) : Bytes :=
  bytes_of ([Z.lor (Z.lor 0x30 (if retain then 1 else 0)) (Z.shiftl (Z.land qos 3) 1);
             as_u8 (2 + len topic + Z.of_nat (length payload))] ++ be (len topic)) ++ as_bytes topic ++ payload.

Definition publish (c topic payload : string) (retain : bool) : Action :=
  Write c (create_publish_packet topic (as_bytes payload) 0 retain).

(** [create_subscribe_packet], [send_subscribe] *)
Definition subscribe_to (c : string) (packet_id : Z) (topic : string) (qos : Z) : Action :=
  Write c (bytes_of ([0x82; as_u8 (5 + len topic)] ++ be packet_id ++ be (len topic)) ++
           as_bytes topic ++ bytes_of [qos]).

(** [create_unsubscribe_packet] *)
Definition unsubscribe_from (c : string) (packet_id : Z) (topic : string) : Action :=
  Write c (bytes_of ([0xa2; as_u8 (4 + len topic)] ++ be packet_id ++ be (len topic)) ++ as_bytes topic).

(** A SUBACK of one code. *)
Definition read_suback (c : string) (packet_id code : Z) : Action :=
  Read c (exactly ([0x90; 3] ++ be packet_id ++ [code])).

Definition pingreq (c : string) : Action := write c [0xc0; 0] EmptyString.
Definition disconnect (c : string) : Action := write c [0xe0; 0] EmptyString.

(** A PUBLISH of level 1 with an identifier, and of level 2. *)
Definition publish_tracked (c : string) (flags : Z) (topic : string) (packet_id : Z) (payload : string) : Action :=
  Write c (bytes_of ([flags; as_u8 (4 + len topic + len payload)] ++ be (len topic)) ++ as_bytes topic ++
           bytes_of (be packet_id) ++ as_bytes payload).

(** The four bytes of an acknowledgement, written and read. *)
Definition send_ack (c : string) (header packet_id : Z) : Action := write c ([header; 2] ++ be packet_id) EmptyString.
Definition read_ack (c : string) (header packet_id : Z) : Action := Read c (exactly ([header; 2] ++ be packet_id)).

(** A PUBLISH without an identifier, and with one, of which the payload is asserted. *)
Definition read_publish (c : string) (header : Z) (topic payload : string) : Action :=
  Read c ([Some header; Some (2 + len topic + len payload)] ++ exactly (be (len topic)) ++ text topic ++ text payload).
Definition read_tracked (c : string) (header : Z) (topic : string) (packet_id : Z) (payload : string) : Action :=
  Read c ([Some header; Some (4 + len topic + len payload)] ++ exactly (be (len topic)) ++ text topic ++
          exactly (be packet_id) ++ text payload).

(** * [simple_test.rs] *)

Definition test_simple_connect : bool := test [
  Open "c"; send_connect_with_flags "c" "test" 2; Read "c" (exactly [0x20; 2; 0; 0])].

(** * [packet_test.rs] *)

Definition test_connect_with_client_id : bool := test [
  Open "c"; send_connect_with_flags "c" "testclient" 2; Read "c" (exactly [0x20; 2; 0; 0])].

Definition test_connect_without_client_id : bool := test (connects "c" EmptyString).

Definition test_connect_clean_session_flag : bool := test (connects_with "c" "testclient" 0).

Definition test_connect_duplicate_client_id : bool := test
  (connects "stream1" "duplicateclient" ++ connects "stream2" "duplicateclient").

Definition test_publish_qos0 : bool := test (connects "c" "publisher" ++
  [publish "c" "test/topic" "hello world" false; Sleep 100]).

Definition test_publish_retained : bool := test (connects "c" "publisher" ++
  [publish "c" "test/retained" "retained message" true; Sleep 100]).

Definition test_publish_empty_payload : bool := test (connects "c" "publisher" ++
  [publish "c" "test/empty" EmptyString false; Sleep 100]).

Definition test_subscribe_single_topic : bool := test (connects "c" "subscriber" ++
  [subscribe_to "c" 1 "test/topic" 0; read_suback "c" 1 0]).

Definition test_subscribe_wildcard_topics : bool := test (connects "c" "subscriber" ++
  [subscribe_to "c" 1 "test/+" 0; Read "c" (any 5);
   subscribe_to "c" 2 "test/#" 0; Read "c" (exactly [0x90] ++ any 3 ++ exactly [0])]).

Definition test_subscribe_invalid_topic : bool := test (connects "c" "subscriber" ++
  [subscribe_to "c" 1 ("test/" +:+ String (Ascii.ascii_of_nat 0) "/invalid") 0;
   Read "c" (exactly [0x90] ++ any 4)]).

Definition test_unsubscribe : bool := test (connects "c" "subscriber" ++
  [subscribe_to "c" 1 "test/topic" 0; Read "c" (any 5);
   unsubscribe_from "c" 2 "test/topic"; read_ack "c" 0xb0 2]).

Definition test_unsubscribe_nonexistent_topic : bool := test (connects "c" "subscriber" ++
  [unsubscribe_from "c" 1 "nonexistent/topic"; Read "c" (exactly [0xb0; 2] ++ any 2)]).

Definition test_pingreq_pingresp : bool := test (connects "c" "pingclient" ++
  [pingreq "c"; Read "c" (exactly [0xd0; 0])]).

Definition test_multiple_pingreq : bool := test (connects "c" "pingclient" ++
  mjoin (replicate 3 [pingreq "c"; Read "c" (exactly [0xd0; 0])])).

Definition test_disconnect : bool := test (connects "c" "disconnectclient" ++
  [disconnect "c"; Sleep 100; Closed "c"]).

Definition test_invalid_packet_type : bool := test (connects "c" "invalidclient" ++
  [write "c" [0; 2; 0; 0] EmptyString; Sleep 100]).

Definition test_malformed_packet : bool := test (connects "c" "malformedclient" ++
  [write "c" [0x30; 0x10; 0; 4] EmptyString; Sleep 100]).

Definition test_packet_before_connect : bool := test
  [Open "c"; publish "c" "test/topic" "hello" false; Sleep 100].

(** The length of the packet is 1036, of which the test writes the last byte. *)
Definition test_large_packet : bool := test (connects "c" "largeclient" ++
  [Write "c" (create_publish_packet "test/large" (replicate 1024 Byte.x41) 0 false); Sleep 100]).

Definition test_publish_subscribe_routing : bool := test (connects "subscriber" "subscriber" ++
  [subscribe_to "subscriber" 1 "test/routing" 0; Read "subscriber" (any 5)] ++ connects "publisher" "publisher" ++
  [publish "publisher" "test/routing" "routed message" false]).

(** * [qos2_test.rs] *)

(** The handshake of a publisher of level 2. *)
Definition send_qos2 (c topic payload : string) : list Action :=
  [publish_tracked c 0x34 topic 1 payload; read_ack c 0x50 1; send_ack c 0x62 1; read_ack c 0x70 1].

Definition test_qos2_publish_full_handshake : bool := test (connects "pub" "qos2publisher" ++
  send_qos2 "pub" "test/qos2" "hello qos2").

Definition test_qos2_subscriber_receives_message : bool := test (connects "sub" "qos2subscriber" ++
  [subscribe_to "sub" 1 "test/qos2" 2; read_suback "sub" 1 2] ++ connects "pub" "qos2publisher" ++
  send_qos2 "pub" "test/qos2" "qos2 message" ++
  [read_tracked "sub" 0x34 "test/qos2" 1 "qos2 message"; send_ack "sub" 0x50 1; read_ack "sub" 0x62 1;
   send_ack "sub" 0x70 1]).

Definition test_qos2_grants_qos2_subscription : bool := test (connects "c" "qos2test" ++
  [subscribe_to "c" 1 "test/topic" 2; read_suback "c" 1 2]).

Definition test_qos2_downgrade_to_qos1 : bool := test (connects "sub" "qos1subscriber" ++
  [subscribe_to "sub" 1 "test/qos" 1; read_suback "sub" 1 1] ++ connects "pub" "qos2publisher" ++
  send_qos2 "pub" "test/qos" "downgrade test" ++ [Read "sub" (exactly [0x32])]).

Definition test_qos2_duplicate_publish_handling : bool := test (connects "pub" "qos2duppub" ++
  [publish_tracked "pub" 0x34 "test/qos2" 1 "original"; read_ack "pub" 0x50 1;
   publish_tracked "pub" 0x3c "test/qos2" 1 "duplicate"; read_ack "pub" 0x50 1;
   send_ack "pub" 0x62 1; read_ack "pub" 0x70 1]).

(** * [qos1_test.rs] *)

Definition test_qos1_publish_puback : bool := test (connects "pub" "publisher" ++
  [publish_tracked "pub" 0x32 "test/" 1 "hello"; read_ack "pub" 0x40 1; disconnect "pub"]).

(** A subscriber of level 1, a publisher, and its first message acknowledged. *)
Definition one_message (packet_id : Z) : list Action :=
  connects "sub" "subscriber" ++ [subscribe_to "sub" 1 "test/" 1; read_suback "sub" 1 1] ++
  connects "pub" "publisher" ++ [publish_tracked "pub" 0x32 "test/" packet_id "hello"; read_ack "pub" 0x40 packet_id].

Definition test_qos1_subscriber_flow : bool := test (one_message 2 ++
  [read_tracked "sub" 0x32 "test/" 1 "hello"; send_ack "sub" 0x40 1]).

Definition test_qos1_message_tracking : bool := test (connects "sub1" "sub1" ++ connects "sub2" "sub2" ++
  [subscribe_to "sub1" 1 "test/" 1; subscribe_to "sub2" 1 "test/" 1; read_suback "sub1" 1 1; read_suback "sub2" 1 1] ++
  connects "pub" "publisher" ++
  [publish_tracked "pub" 0x32 "test/" 10 "hello"; read_ack "pub" 0x40 10;
   read_tracked "sub1" 0x32 "test/" 1 "hello"; send_ack "sub1" 0x40 1;
   read_tracked "sub2" 0x32 "test/" 1 "hello"; send_ack "sub2" 0x40 1; Sleep 10]).

Definition test_qos1_retransmission : bool :=
  test_on (config_with ["127.0.0.1:0"] None default_max_retransmission_limit 1000) (one_message 10 ++
    [read_tracked "sub" 0x32 "test/" 1 "hello"; Sleep 1500; read_tracked "sub" 0x3a "test/" 1 "hello";
     send_ack "sub" 0x40 1; Sleep 1500; Sleep 500; Silence "sub"]).

Definition test_qos1_duplicate_handling : bool := test (one_message 10 ++
  [read_tracked "sub" 0x32 "test/" 1 "hello"; send_ack "sub" 0x40 1;
   publish_tracked "pub" 0x3a "test/" 10 "hello"; read_ack "pub" 0x40 10; Sleep 500; Silence "sub"]).

Definition test_qos1_max_retransmission_limit : bool :=
  test_on (config_with ["127.0.0.1:0"] None 2 500) (one_message 10 ++
    [read_tracked "sub" 0x32 "test/" 1 "hello"; Sleep 750; Read "sub" (exactly [0x3a] ++ any 15);
     Sleep 500; Read "sub" (exactly [0x3a] ++ any 15); Sleep 1000; Silence "sub"]).

Definition test_qos_downgrade : bool := test (
  connects "sub0" "subqos0" ++ [subscribe_to "sub0" 1 "test/" 0; read_suback "sub0" 1 0] ++
  connects "sub1" "subqos1" ++ [subscribe_to "sub1" 1 "test/" 1; read_suback "sub1" 1 1] ++
  connects "pub" "publisher" ++
  [publish_tracked "pub" 0x32 "test/" 1 "hello"; read_ack "pub" 0x40 1;
   read_publish "sub0" 0x30 "test/" "hello"; read_tracked "sub1" 0x32 "test/" 1 "hello"; send_ack "sub1" 0x40 1]).

Definition test_qos1_message_ordering : bool :=
  let sends i payload := [publish_tracked "pub" 0x32 "test/topic" i payload; read_ack "pub" 0x40 i] in
  test (connects "sub" "subscriber" ++ [subscribe_to "sub" 1 "test/topic" 1; Read "sub" (exactly [0x90] ++ any 4)] ++
    connects "pub" "publisher" ++ sends 1 "message1" ++ sends 2 "message2" ++ sends 3 "message3" ++
    [read_tracked "sub" 0x32 "test/topic" 1 "message1"; Sleep 100; send_ack "sub" 0x40 1;
     read_tracked "sub" 0x32 "test/topic" 2 "message2"; send_ack "sub" 0x40 2;
     read_tracked "sub" 0x32 "test/topic" 3 "message3"]).

(** * [integration_test.rs] *)

Definition test_basic_connect_and_disconnect : bool := test
  [Open "c"; send_connect_with_flags "c" "test" 2; Read "c" (exactly [0x20; 2; 0; 0]); disconnect "c"].

(** [subscribe_packet] of most tests: to "test/", at level 0. *)
Definition subscribes (c topic : string) : list Action := [subscribe_to c 1 topic 0; read_suback c 1 0].

Definition test_publish_subscribe : bool := test (connects "sub" "sub" ++ connects "pub" "pub" ++
  subscribes "sub" "test/" ++
  [publish "pub" "test/" "hello" false; read_publish "sub" 0x30 "test/" "hello"]).

(** A client subscribes, is gone and is back, with these flags. *)
Definition back (client_id : string) (flags1 flags2 : Z) (session_present : bool) : list Action :=
  [Open "stream1"; send_connect_with_flags "stream1" client_id flags1;
   read_connack_with_session_present "stream1" false] ++ subscribes "stream1" "test/" ++
  [Close "stream1"; Sleep 100; Open "stream2"; send_connect_with_flags "stream2" client_id flags2;
   read_connack_with_session_present "stream2" session_present].

Definition says_hello : list Action := connects "pub" "pub" ++ [publish "pub" "test/" "hello" false].

Definition test_clean_session_false_persistence : bool := test (back "persist" 0 0 true ++ says_hello ++
  [Read "stream2" (exactly [0x30] ++ any 8 ++ text "hello")]).

Definition test_clean_session_true_no_persistence : bool := test (back "clean" 2 2 false ++ says_hello ++
  [Sleep 500; Silence "stream2"]).

(** The old stream is dropped with what was written to it last, so the DISCONNECT
    the test reads from it is not seen here. *)
Definition test_session_takeover : bool := test (connects_with "stream1" "takeover" 0 ++
  subscribes "stream1" "test/" ++
  [Sleep 50; Open "stream2"; send_connect_with_flags "stream2" "takeover" 0;
   read_connack_with_session_present "stream2" true] ++ says_hello ++
  [Read "stream2" (exactly [0x30] ++ any 8 ++ text "hello")]).

Definition test_clean_session_transition : bool := test (back "trans" 0 2 false ++
  [Close "stream2"; Sleep 100; Open "stream3"; send_connect_with_flags "stream3" "trans" 0;
   read_connack_with_session_present "stream3" false] ++ says_hello ++ [Sleep 500; Silence "stream3"]).

(** CONNECT of "test" with a keep-alive of one second. *)
Definition connects_for_a_second : list Action :=
  [Open "c"; Write "c" (create_connect_packet "test" 2 1); read_connack "c"].

Definition test_keep_alive_timeout : bool := test (connects_for_a_second ++ [Sleep 1600; Closed "c"]).

Definition test_keep_alive_with_pingreq : bool := test (connects_for_a_second ++
  mjoin (replicate 3 [Sleep 800; pingreq "c"; Read "c" (exactly [0xd0; 0])]) ++ [disconnect "c"]).

Definition test_keep_alive_zero_disabled : bool := test (connects "c" "test" ++
  [Sleep 5000; pingreq "c"; Read "c" [Some 0xd0; None]]).

Definition test_retained_message_basic : bool := test (connects "pub" "pub" ++
  [publish "pub" "test/" "hello" true; Sleep 100] ++ connects "sub" "sub" ++ subscribes "sub" "test/" ++
  [Read "sub" (exactly [0x31] ++ any 8 ++ text "hello")]).

Definition test_retained_message_update : bool := test (connects "pub" "pub" ++
  [publish "pub" "test/" "first!!" true; Sleep 50; publish "pub" "test/" "updated" true; Sleep 100] ++
  connects "sub" "sub" ++ subscribes "sub" "test/" ++
  [Read "sub" (exactly [0x31] ++ any 8 ++ text "updated")]).

Definition test_retained_message_delete : bool := test (connects "pub" "pub" ++
  [publish "pub" "test/" "hello" true; Sleep 50; publish "pub" "test/" EmptyString true; Sleep 50] ++
  connects "sub" "sub" ++ [subscribe_to "sub" 1 "test/" 0; Read "sub" (any 5); Sleep 500; Silence "sub"]).

Definition test_retained_message_wildcard : bool := test (connects "pub" "pub" ++
  [publish "pub" "home/room1/temp" "20C" true; Sleep 50; publish "pub" "home/room2/temp" "22C" true; Sleep 50;
   publish "pub" "home/room1/humidity" "60%" true; Sleep 50] ++ connects "sub" "sub" ++
  subscribes "sub" "home/+/temp" ++
  [Read "sub" (exactly [0x31; 20] ++ any 20); Read "sub" (exactly [0x31; 20] ++ any 20)]).

(** CONNECT of "pub" with a Will. *)
Definition connects_with_will (flags keep_alive : Z) (topic message : string) : list Action :=
  [Open "pub"; Write "pub" (bytes_of ([0x10; 15 + 2 + len topic + 2 + len message; 0; 4; 0x4d; 0x51; 0x54; 0x54; 4; flags] ++
     be keep_alive ++ [0; 3]) ++ as_bytes "pub" ++ bytes_of (be (len topic)) ++ as_bytes topic ++
     bytes_of (be (len message)) ++ as_bytes message);
   read_connack "pub"].

Definition test_will_message_on_disconnect : bool := test (
  connects_with_will 0x0e 10 "will/topic" "offline" ++ connects "sub" "sub" ++ subscribes "sub" "will/topic" ++
  [Close "pub"; Sleep 100; read_publish "sub" 0x30 "will/topic" "offline"]).

Definition test_will_message_not_sent_on_disconnect : bool := test (
  connects_with_will 6 10 "will/topic" "offline" ++ connects "sub" "sub" ++
  [subscribe_to "sub" 1 "will/topic" 0; Read "sub" (any 5); disconnect "pub"; Sleep 500; Silence "sub"]).

Definition test_will_message_on_keepalive_timeout : bool := test (
  connects_with_will 6 2 "will/timeout" "timeout" ++ connects "sub" "sub" ++
  [subscribe_to "sub" 1 "will/timeout" 0; Read "sub" (any 5); Sleep 4000;
   read_publish "sub" 0x30 "will/timeout" "timeout"]).

(** A CONNECT that is refused, and its connection closed. *)
Definition refused (c protocol : string) (level : Z) (client_id : string) (code : Z) : list Action :=
  [Open c; Write c (bytes_of [0x10; 12 + len client_id; 0; 4] ++ as_bytes protocol ++
     bytes_of ([level; 2; 0; 0x3c] ++ be (len client_id)) ++ as_bytes client_id);
   Read c [Some 0x20; None; None; Some code]; Closed c].

Definition test_protocol_validation : bool := test (
  refused "client1" "HTTP" 4 "test" 1 ++ refused "client2" "MQTT" 3 "test" 1).

Definition test_client_id_validation : bool := test (
  refused "client1" "MQTT" 4 "aaaaaaaaaaaaaaaaaaaaaaaa" 2 ++ refused "client2" "MQTT" 4 "test-id" 2 ++
  connects "client3" "Client123").

Definition test_topic_validation : bool := test (connects "c" "validator" ++
  [subscribe_to "c" 1 "test/+a" 0; read_suback "c" 1 0x80; subscribe_to "c" 2 "test/#/a" 0; read_suback "c" 2 0x80]).

(** * [tls_test.rs]

    What a TLS stream yields is what a TCP stream yields; the handshake is the
    library's. *)

Definition local_tls : option TlsConfig := Some (mkTls "cert.pem" "key.pem").

Definition tls_config (addrs : list string) (tls : option TlsConfig) : Config :=
  config_with addrs tls default_max_retransmission_limit default_retransmission_interval_ms.

Definition test_tls_connect : bool := test_on (tls_config ["tls://127.0.0.1:0"] local_tls)
  [Open "c"; send_connect_with_flags "c" "tlsclient" 2; Read "c" [Some 0x20; Some 2; None; Some 0]].

Definition test_tls_publish_subscribe : bool := test_on (tls_config ["tls://127.0.0.1:0"] local_tls)
  (connects "sub" "tlssub" ++ subscribes "sub" "test/tls" ++ connects "pub" "tlspub" ++
   [publish "pub" "test/tls" "hi!" false; Read "sub" (exactly [0x30])]).

Definition test_tcp_and_tls_simultaneous : bool :=
  test_on (tls_config ["tcp://127.0.0.1:0"; "tls://127.0.0.1:0"] local_tls)
    (connects "sub" "tcpsub" ++ [subscribe_to "sub" 1 "cross/tls" 0; Read "sub" (exactly [0x90] ++ any 4)] ++
     connects "pub" "tlspub" ++ [publish "pub" "cross/tls" "xyz" false; Read "sub" (exactly [0x30])]).

(** [server::start(config)] that fails. *)
Definition start_fails (files : bool) (config : Config) (check : ServerError → bool) : bool :=
  match server_start (MP := queue_mpsc) (SQ := engine) (SO := ports_with (λ _, files))
          (FS := λ _, inr (OtherIo 2)) config [] with
  | (_, Err e) => check e
  | _ => false
  end.

Definition test_tls_missing_config : bool :=
  start_fails true (tls_config ["tls://127.0.0.1:0"] None)
    (λ e, match e with StartupFailed msg => contains "TLS" msg | _ => false end).

Definition test_tls_invalid_cert_path : bool :=
  start_fails false (tls_config ["tls://127.0.0.1:0"] (Some (mkTls "/nonexistent/cert.pem" "/nonexistent/key.pem")))
    (λ _, true).

Definition socket_tests : list bool := [
  test_simple_connect;
  test_connect_with_client_id;
  test_connect_without_client_id;
  test_connect_clean_session_flag;
  test_connect_duplicate_client_id;
  test_publish_qos0;
  test_publish_retained;
  test_publish_empty_payload;
  test_subscribe_single_topic;
  test_subscribe_wildcard_topics;
  test_subscribe_invalid_topic;
  test_unsubscribe;
  test_unsubscribe_nonexistent_topic;
  test_pingreq_pingresp;
  test_multiple_pingreq;
  test_disconnect;
  test_invalid_packet_type;
  test_malformed_packet;
  test_packet_before_connect;
  test_large_packet;
  test_publish_subscribe_routing;
  test_qos2_publish_full_handshake;
  test_qos2_subscriber_receives_message;
  test_qos2_grants_qos2_subscription;
  test_qos2_downgrade_to_qos1;
  test_qos2_duplicate_publish_handling;
  test_qos1_publish_puback;
  test_qos1_subscriber_flow;
  test_qos1_message_tracking;
  test_qos1_retransmission;
  test_qos1_duplicate_handling;
  test_qos1_max_retransmission_limit;
  test_qos_downgrade;
  test_qos1_message_ordering;
  test_basic_connect_and_disconnect;
  test_publish_subscribe;
  test_clean_session_false_persistence;
  test_clean_session_true_no_persistence;
  test_session_takeover;
  test_clean_session_transition;
  test_keep_alive_timeout;
  test_keep_alive_with_pingreq;
  test_keep_alive_zero_disabled;
  test_retained_message_basic;
  test_retained_message_update;
  test_retained_message_delete;
  test_retained_message_wildcard;
  test_will_message_on_disconnect;
  test_will_message_not_sent_on_disconnect;
  test_will_message_on_keepalive_timeout;
  test_protocol_validation;
  test_client_id_validation;
  test_topic_validation;
  test_tls_connect;
  test_tls_publish_subscribe;
  test_tcp_and_tls_simultaneous;
  test_tls_missing_config;
  test_tls_invalid_cert_path].

Lemma socket_tests_pass : asserts socket_tests = true.
Proof. vm_compute. reflexivity. Qed.
