(* ===== verification/UnitTests.v ===== *)
(** The tests of the source: the expectations its authors wrote down, computed on
    the model.  They check the definitions against the program's own examples. *)

From S2P Require Import Prelude External Storage MemoryStorage Config Auth Router Broker System.
From S2P Require Import Testing CodecTests RouterTests StorageTests ServerTests Scenario SocketTests.

Definition unit_tests : list bool := codec_tests ++ router_tests ++ storage_tests ++ server_tests.

Lemma unit_tests_pass : Forall (λ ok, ok = true) unit_tests.
Proof.
  unfold unit_tests. rewrite !Forall_app, <- !asserts_Forall.
  split_and!; [apply codec_tests_pass|apply router_tests_pass|apply storage_tests_pass|apply server_tests_pass].
Qed.

(** The 77 unit tests of the files under [src/src/], and the 58 tests under
    [src/tests/], which talk to a running server and are played here to their end
    with the bytes they assert; the DISCONNECT that [test_session_takeover] waits
    for is left out. *)
Example source_tests_pass :
  length unit_tests = 77 ∧ length socket_tests = 58 ∧
  Forall (λ ok, ok = true) (unit_tests ++ socket_tests).
Proof.
  split; [reflexivity|]. split; [reflexivity|].
  apply Forall_app. split; [apply unit_tests_pass|]. rewrite <- asserts_Forall. apply socket_tests_pass.
Qed.
