(* ===== verification/Examples.v ===== *)
(** The programs under [src/examples/] and [src/benches/] that talk to a broker:
    what they send, as scenarios.  What they measure (time, memory, threads) is not
    modelled. *)

From S2P Require Import Prelude External Packet Codec CodecSim Config Session Timers.
From S2P Require Import Testing System Scenario SocketTests.
From stdpp Require Import pretty.

Local Open Scope Z_scope.

(** Clients with a number. *)
Definition nth_client (name : string) (i : nat) : string := name +:+ pretty i.

(** * [thread_monitor.rs]

    Fifty clients that connect and stay. *)

Definition monitor_client (i : nat) : list Action :=
  let client_id := nth_client "monitor" i in
  [Open client_id; Write client_id (create_connect_packet client_id 2 60)].

Definition monitor_iotd_threads : list Action := (seq 0 50 ≫= monitor_client) ++ [Sleep 5000].

(** They are all accepted, and their streams are open when it is over. *)
Example monitor_clients_accepted : passes_on default_config
  (monitor_iotd_threads ++ (seq 0 50 ≫= λ i, [Read (nth_client "monitor" i) (exactly [0x20; 2; 0; 0]);
     pingreq (nth_client "monitor" i); Read (nth_client "monitor" i) (exactly [0xd0; 0])])) = true.
Proof. vm_compute. reflexivity. Qed.

(** * [test_ipv6.rs]

    The length of its CONNECT is 14 where its bytes are 16. *)

Definition ipv6_connect_packet : Bytes :=
  bytes_of [0x10; 0x0e; 0; 4; 0x4d; 0x51; 0x54; 0x54; 4; 2; 0; 0x3c; 0; 4] ++ as_bytes "test".

Definition test_connection (address : string) : list Action :=
  [Open address; Write address ipv6_connect_packet; Read address [Some 0x20; None; None; Some 0]].

(** So no address it tries is answered: the connection is closed. *)
Example test_connection_refused : forallb (λ address,
  negb (passes_on default_config (test_connection address)) &&
  passes_on default_config [Open address; Write address ipv6_connect_packet; Closed address])
  ["127.0.0.1:1883"; "[::1]:1883"; "localhost:1883"] = true.
Proof. vm_compute. reflexivity. Qed.

(** * [load_test.rs] *)

(** The [while] of the remaining length; a [usize] has ten groups of seven bits. *)
Fixpoint length_loop (fuel : nat) (len : Z) : Bytes :=
  match fuel with
  | O => []
  | S n =>
      if 0 <? len then
        let byte := as_u8 (Z.land len 0x7f) in
        let len := Z.shiftr len 7 in
        let byte := if 0 <? len then Z.lor byte 0x80 else byte in
        byte.of_Z byte :: length_loop n len
      else []
  end.

Definition load_publish_packet (topic : string) (payload : Bytes) : Bytes :=
  let remaining_data := bytes_of [as_u8 (Z.shiftr (str_len topic) 8); as_u8 (str_len topic)] ++
                        as_bytes topic ++ payload in
  let len := zlen remaining_data in
  [byte.of_Z 0x30] ++ (if len <? 128 then [byte.of_Z (as_u8 len)] else length_loop 10 len) ++ remaining_data.

(** A subscriber, up to its loop, and a publisher that sends [count] messages. *)
Definition create_subscriber (client_id topic : string) : list Action :=
  [Open client_id; Write client_id (create_connect_packet client_id 2 60); Read client_id (any 4);
   subscribe_to client_id 1 topic 0; Read client_id (any 5)].

Definition create_publisher (client_id topic : string) (payload_size : nat) : list Action :=
  [Open client_id; Write client_id (create_connect_packet client_id 2 60); Read client_id (any 4);
   Write client_id (load_publish_packet topic (replicate payload_size Byte.x58))].

(** Each publisher sends one message, to the topic of its number modulo ten. *)
Definition run_load_test (num_publishers num_subscribers payload_size : nat) : list Action :=
  (seq 0 num_subscribers ≫= λ i, create_subscriber (nth_client "sub" i) "load/test/+") ++
  (seq 0 num_publishers ≫= λ i,
     create_publisher (nth_client "pub" i) ("load/test/" +:+ pretty (i `mod` 10)%nat) payload_size).

(** * [performance_benchmark.rs] *)

(** The length of the packet is the last byte of the length it has. *)
Definition bench_publish_packet (topic : string) (payload : Bytes) : Bytes :=
  let remaining_data := bytes_of [as_u8 (Z.shiftr (str_len topic) 8); as_u8 (str_len topic)] ++
                        as_bytes topic ++ payload in
  [byte.of_Z 0x30] ++ [byte.of_Z (as_u8 (zlen remaining_data))] ++ remaining_data.

(** One subscriber and one publisher of [benchmark_throughput]. *)
Definition benchmark_throughput (payload_size : nat) : list Action :=
  create_subscriber "sub0" "bench/topic" ++ connects "pub0" "pub0" ++
  [Write "pub0" (bench_publish_packet "bench/topic" (replicate payload_size Byte.x58))].

(** * What they send *)

(** A PUBLISH of level 0. *)
Definition plain_publish (topic : string) (payload : Bytes) : Packet :=
  Publish (mkPublish topic None payload AtMostOnce false false).

Lemma of_Z_as_u8 z : byte.of_Z (as_u8 z) = byte.of_Z z.
Proof. apply byte.unsigned_inj. rewrite !byte.unsigned_of_Z. apply Z.mod_mod. done. Qed.

Lemma of_Z_as_u16 z : be16 (as_u16 z) = be16 z.
Proof.
  unfold be16, as_u16. f_equal; [|f_equal]; apply byte.unsigned_inj; rewrite !byte.unsigned_of_Z; unfold byte.wrap.
  all: rewrite ?Z.shiftr_div_pow2 by lia; change (2 ^ 8) with 256; change (2 ^ 16) with 65536.
  all: Z.div_mod_to_equations; lia.
Qed.

(** The bytes of both generators after the length. *)
Lemma sent_body topic payload :
  bytes_of [as_u8 (Z.shiftr (str_len topic) 8); as_u8 (str_len topic)] ++ as_bytes topic ++ payload =
  publish_body (mkPublish topic None payload AtMostOnce false false).
Proof.
  unfold publish_body, string_bytes. rewrite of_Z_as_u16. cbn [Packet.topic packet_id Packet.payload from_option].
  unfold bytes_of, be16. cbn [fmap list_fmap app]. by rewrite !of_Z_as_u8.
Qed.

(** The loop writes a length as the broker does. *)
Lemma length_loop_varint fuel n :
  0 < n < 128 ^ Z.of_nat (S fuel) → ∀ more, length_loop (S fuel + more) n = varint_loop fuel n.
Proof.
  revert n. induction fuel as [|fuel IH]; intros n Hn more.
  all: cbn [Nat.add length_loop varint_loop]; rewrite (proj2 (Z.ltb_lt 0 n)) by lia.
  all: change (Z.land n 127) with (Z.land n (Z.ones 7)); rewrite Z.land_ones, Z.shiftr_div_pow2 by lia.
  all: change (2 ^ 7) with 128.
  all: pose proof (Z.mod_pos_bound n 128 ltac:(lia)) as Hm; unfold as_u8.
  all: rewrite (Z.mod_small (n mod 128) (2 ^ 8)) by (split; [apply Hm|apply (Z.lt_trans _ 128); [apply Hm|done]]).
  - rewrite (Z.div_small n 128) by lia. cbn. f_equal. by destruct more.
  - f_equal. destruct (Z.eqb_spec (n / 128) 0) as [E|E]; [rewrite E; by destruct fuel|].
    apply IH. rewrite Nat2Z.inj_succ, Z.pow_succ_r in Hn by lia. pose proof (Z.div_pos n 128). split; [lia|].
    apply Z.div_lt_upper_bound; lia.
Qed.

(** A message of the load generator is what the broker writes for it, up to the
    largest size that has a length in four bytes; the ten turns are enough. *)
Theorem load_publish_wire topic payload :
  2 + str_len topic + zlen payload < 2 ^ 28 →
  load_publish_packet topic payload = wire (plain_publish topic payload).
Proof.
  intros Hlen. rewrite wire_packet_bytes. unfold load_publish_packet, plain_publish, packet_bytes.
  rewrite sent_body. set (p := mkPublish topic None payload AtMostOnce false false).
  assert (2 <= zlen (publish_body p) < 2 ^ 28) as Hp.
  { rewrite zlen_publish_body. cbn. unfold str_len in *. pose proof (zlen_nonneg (as_bytes topic)).
    pose proof (zlen_nonneg payload). lia. }
  rewrite as_u32_small by (unfold is_u32; lia). change (publish_flags p) with 0x30. cbn [app]. f_equal. f_equal.
  unfold varint. destruct (Z.ltb_spec (zlen (publish_body p)) 128).
  - unfold as_u8. change (2 ^ 8) with 256. rewrite Z.mod_small by lia. cbn [varint_loop].
    by rewrite (Z.div_small (zlen (publish_body p)) 128), (Z.mod_small (zlen (publish_body p)) 128) by lia.
  - apply (length_loop_varint 4 (zlen (publish_body p))); change (128 ^ Z.of_nat 5) with 34359738368; lia.
Qed.

(** The benchmark's is one below 128 bytes. *)
Theorem bench_publish_wire topic payload :
  2 + str_len topic + zlen payload < 128 →
  bench_publish_packet topic payload = wire (plain_publish topic payload).
Proof.
  intros Hlen. rewrite <- load_publish_wire by lia. unfold bench_publish_packet, load_publish_packet.
  rewrite sent_body, zlen_publish_body. cbn [packet_id Packet.topic Packet.payload]. case_bool_decide; [by destruct H|].
  by rewrite (proj2 (Z.ltb_lt _ _) Hlen).
Qed.

(** Two publishers and two subscribers with a hundred bytes, the default: every
    subscriber has both messages. *)
Example load_test_delivers : passes_on default_config (run_load_test 2 2 100 ++
  (seq 0 2 ≫= λ s, seq 0 2 ≫= λ p,
     [Read (nth_client "sub" s) (Some ∘ byte.unsigned <$> load_publish_packet ("load/test/" +:+ pretty p) (replicate 100 Byte.x58))])) = true.
Proof. vm_compute. reflexivity. Qed.

(** The benchmark of 64 bytes measures messages of 64 bytes. *)
Example benchmark_64 : passes_on default_config (benchmark_throughput 64 ++
  [Read "sub0" (Some ∘ byte.unsigned <$> wire (plain_publish "bench/topic" (replicate 64 Byte.x58)))]) = true.
Proof. vm_compute. reflexivity. Qed.

(** The one of 1024 bytes measures one message without any, after which the broker
    closes the connection: 1037 bytes are announced as 13. *)
Example benchmark_1024 : passes_on default_config (benchmark_throughput 1024 ++
  [Read "sub0" (Some ∘ byte.unsigned <$> wire (plain_publish "bench/topic" [])); Silence "sub0"; Closed "pub0"]) = true.
Proof. vm_compute. reflexivity. Qed.

(** [test_large_packet] of [packet_test.rs] writes its length in the same way, so
    its large packet is not one. *)
Example large_packet_refused : passes_on local_config (connects "c" "largeclient" ++
  [Write "c" (create_publish_packet "test/large" (replicate 1024 Byte.x41) 0 false); Closed "c"]) = true.
Proof. vm_compute. reflexivity. Qed.
